(* ===== verification/_CoqProject ===== *)
-Q . S2P
Prelude.v
CurrentThread.v
Buffer.v
Endian.v
Codec.v
Dispatcher.v
Channel.v
PollerBase.v
Poller.v
Epoller.v
Pollers.v
EventLoop.v
LoopThreads.v
TimerQueue.v
InetAddress.v
Socket.v
TcpConnection.v
Connector.v
EventLoopThread.v
EventLoopThreadPool.v
TcpClient.v
Acceptor.v
TcpServer.v
LifeSpec.v
ServerWorld.v
ServerInv.v
ServerSteps.v
ServerLife.v
ServerRuns.v
ConnEvents.v
DemoApp.v
Responder.v
EchoServer.v
RunServer.v
ServerDemo.v
EchoBench.v
EchoSystem.v
ProtobufConn.v
ProtobufSystem.v
ServerStart.v
ClientConn.v
ClientLife.v
RunClient.v
ClientDemo.v
