(* ===== verification/Prelude.v ===== *)
(** * HyperMuduo: a verification development of the reactor network library

    ** The program

    HyperMuduo (src/net, src/Base, src/benchmark) is a C++20 multi-reactor TCP library.  An
    [EventLoop] waits in a poller for the descriptors of its [Channel]s, runs
    their callbacks, and then runs the tasks other threads queued; a [TimerQueue]
    and a [Connector] are clients of a loop, a [TcpConnection] is a channel with
    two [Buffer]s and a state, and a protobuf codec sits on its receive buffer.
    Worker threads ([EventLoopThread], [EventLoopThreadPool]) own one loop each.
    A [TcpServer] accepts in its base loop, gives every connection to one of
    the workers' loops and removes it from its map when the peer closes; the
    closures that do this travel between the loops' queues.  A [TcpClient]
    joins a connector and a connection in one loop.

    ** The files, in dependency order

    - Prelude.v (this file): the outcome of a C++ call ([Ok], [Abort], [Undef]),
      machine integers, byte storage addressed by offsets, the shared tactics
      ([inv_ok], [decide_bools]) and the rewrite database [zlist].
    - CurrentThread.v: Base/CurrentThread, the thread ids.
    - Buffer.v: net/Buffer.hpp, net/Buffer.cpp.  The vector and the two cursors;
      [content] is the byte queue they represent.
    - Endian.v: int32_t in memory and the byte-order functions.
    - Codec.v: net/protobuf/Codec.hpp, Codec.cpp.  The frame format.
    - Dispatcher.v: net/protobuf/Dispatcher, ProtobufHandler.
    - Channel.v: net/Channel.  The event masks and [handleEvent].
    - PollerBase.v: net/PollerBase.hpp as a type class with its laws, and a
      client of it.  Poller.v (net/Poller) and Epoller.v (net/Epoller) are
      the instances; Pollers.v is [getPoller] of net/EventLoop.cpp.
    - EventLoop.v: net/EventLoop.  The loop seen by its own thread, the class
      [LoopWorld] through which its clients' closures see it, and the lemma
      [change_events_ok] by which all clients change a channel's mask.
    - LoopThreads.v: the same loop against other threads, as a step relation.
    - TimerQueue.v: net/Timer, net/TimerQueue and [EventLoop::runAt],
      [runEvery], [runAfter].
    - InetAddress.v, Socket.v: net/InetAddress, net/Socket; the system calls
      on a descriptor are the class [SocketCalls].
    - TcpConnection.v: net/TcpConnection.
    - Connector.v: net/Connector.
    - EventLoopThread.v, EventLoopThreadPool.v: net/EventLoopThread,
      net/EventLoopThreadPool.
    - TcpClient.v: net/TcpClient, over the connector and the connection.
    - Acceptor.v, TcpServer.v: net/Acceptor, net/TcpServer, over a family
      [reactor] of loops, one [LoopWorld] per loop address.
    - LifeSpec.v: the specification of a server's connections, a machine of
      five stages.  The server, its connections and all its loops as one system
      that refines it: ServerWorld.v (the world over all loops), ServerInv.v
      (the invariant, what the users' code may do), ServerSteps.v (each handler
      keeps it), ServerLife.v (the system and its theorems), ServerRuns.v (what
      its runs lead to); ServerDemo.v: the system on concrete input, with the
      witnesses of these files and of TcpServer.v and Acceptor.v.
    - ConnEvents.v: one connection with an application beside it: what the loop
      does when its channel is reported, and runs of such events; DemoApp.v is a
      concrete world for the examples.
    - Responder.v: an application whose message callback answers what it
      receives, as an interface; its clients are EchoServer.v, the callbacks of
      the echo servers of benchmark/echo_bench.cpp and README.md, and
      EchoBench.v, the client side and [main] of benchmark/echo_bench.cpp.
      EchoSystem.v joins the two by a network, RunServer.v puts the callback on
      a server with all its loops ([run_server] of the benchmark).
    - ProtobufConn.v: a ProtobufHandler as the message callback of a connection,
      and its [Send] on one; ProtobufSystem.v joins a sender and a receiver.
    - ServerStart.v: the steps of [TcpServer::start] against the base loop.
    - A client with its connector and its connections in one loop, pass by pass:
      ClientConn.v (the client's connection, what a callback may do to it, the
      promise [ClientUser] of the user's callbacks), ClientLife.v (the phases
      [client_life] as the specification, the passes of the loop, the invariant
      [lives] and the theorems), RunClient.v (the client that [worker_thread] of
      benchmark/echo_bench.cpp makes, whose callbacks keep that promise) and
      ClientDemo.v (one that runs, with the witnesses).

    ** How the code is rendered

    A method is a function from the object (or the world that contains it) to an
    [outcome] of the new one; [Abort] is [std::abort] and an exception nobody
    catches, [Undef] an access outside the storage, a dangling object or an
    overlapping move.  [size_t], [int] and [int32_t] are [Z] with their
    wrap-around written out where a computation can leave the range.  Objects
    that are shared by reference (channels, connections) live in a store by
    address.  A closure is a value of an inductive type that names its body and
    its captures; [run], [run_timer_task], [run_conn_task], [TcpServer.client]
    and [TcpClient.client] give the bodies.  A user's callback is a parameter,
    with the hypothesis that it reaches the private members only by the public
    functions ([respects_loop], [timer_calls], the class [UserLaws] over
    [public_call]), or by the promise its client needs ([Responds]).
    [CurrentThread::getTid()] is the argument [tid].  An object that has been
    destroyed is [None] in its world, and a use of it is [Undef].  Logging is
    left out.

    The kernel and the third-party libraries are parameters: classes [Protobuf]
    (protobuf and zlib), [Epoll], [EventFd], [SocketKernel], [SocketCalls],
    [InetText], each
    with its documented behaviour as a separate class of laws and a concrete
    instance used in the witnesses; the answers of poll, epoll_wait, readv and
    write are arguments.

    ** What is shown

    - Buffer: every history of calls is that of a byte queue, and the exact
      condition under which [append] stays inside the vector.
    - Codec, dispatcher: round trip; decoding is total and reads inside the
      buffer; a stream cut anywhere is dispatched message by message, in order.
    - Pollers: both keep the same table of watched descriptors and report
      exactly the ready channels.
    - Loop: the order of one pass, the tasks' FIFO and exactly-once execution
      under any interleaving, no lost wakeup, progress, thread confinement,
      return after [quit].
    - Timers: the heap with its stale entries behaves as the set of live timers;
      the timerfd is always set to the earliest; the fate of a fired timer.
    - Connections: the outgoing stream is what was sent, in order; the branches
      of reading; establishment.
    - Connector: its state machine, that one start never aborts, the back-off.
    - Threads, pool, sockets: joining, round robin, no descriptor leaked or
      closed twice.
    - Acceptor and server: a server starts; under any interleaving of its
      loops, its users' calls and the kernel's reports, each connection goes
      through the five stages in order, the library's own steps never fail, no
      closure of a connection's life is queued twice or in the wrong loop, and
      the objects stay well formed; no connection is ever released; no
      connection stays between two stages once its loops have run what waited,
      and no byte of any connection is lost or reordered.
    - Applications: an echo server answers with exactly what it receives, until
      the kernel leaves a byte waiting, after which it answers nothing more; the
      benchmark's client sends one message per read until its time is up; joined by a reliable
      network, the client reads back the beginning of what it sent.  The
      benchmark's server with its worker loops starts and runs without failing
      under any interleaving, and each connection's events answer what they read.
    - Protobuf over a connection: whatever the events cut the stream into, the
      messages whose frames are complete have been dispatched, in order and
      once; no bytes a peer sends keep an event from returning; from a sender to a
      receiver, a prefix of what was sent is dispatched, and everything when
      everything has arrived; a message given to [ProtobufHandler::Send] never
      leaves.
    - Client: from its constructor on, whatever the kernel answers and whenever the
      user calls [disconnect], [stop] or [connect], no pass of its loop fails and it
      goes through its phases as specified: attempts, a connection, and after a
      close a new attempt exactly when asked for; nothing
      of a closed connection stays queued or in the poller; with a kernel that lets
      it, it comes back.  The benchmark's clients connect at most once.  The ways
      in which a client that connects again or is destroyed fails.
    - Behaviour that differs from what the code means to do is stated as it is:
      see the theorems named in the doc comments as losing, never flushing,
      never reaching or racing.

    ** Bounds and fuel

    [Dispatcher.OnMessage] runs its loop with as much fuel as there are readable
    bytes, each turn consuming at least one ([OnMessage_terminates]).
    [EventLoop.loop] consumes a list of the kernel's answers, one per wait, and
    says whether it has returned.  The server's system is a relation closed
    under steps, without a bound; a step that reads or runs a closure is taken
    while the connections' buffers are smaller than 2^60 bytes ([roomy]); the
    passes of a client's loop are such a relation too ([client_run]), with the same
    bound on the pass that reads.  Everything else recurses on a list.  Buffers
    are assumed smaller than 2^63 bytes, and times within int64; a server
    accepts less than 2^31 - 1 connections, where its counter would overflow.

    ** What is not modelled

    The contents of log messages; the time point handed to read callbacks; the
    mutex of the client, whose calls are single steps here; the concurrent
    accesses to the pool's vector, which ServerStart.v takes as atomic; the
    output of the benchmark's results; the tests.  ClientLife.v follows one client
    of a loop, without the write-complete and high-water callbacks, used from its
    loop's thread; its calls from other threads and its destructor are in
    TcpClient.v, and so are the failures of a [connect] that comes while
    something is under way.  A connection that comes up is taken to have
    a peer that getpeername(2) finds ([welcome]): what [getPeerAddress] returns
    otherwise is uninitialised.  The other clients of a benchmark's worker, its
    timer and the threads around it are not joined to the one of RunClient.v. *)
From Stdlib Require Import ZArith Lia List.
From stdpp Require Import base option list numbers tactics.

Open Scope Z_scope.

(** ** Outcomes of a C++ call

    [Ok] is a normal return, [Abort] a call of [std::abort], [Undef] a step
    that the language leaves undefined (an access outside the storage of a
    vector, an overlapping [std::move], a call through a dangling reference). *)
Inductive outcome (A : Type) : Type :=
| Ok (a : A)
| Abort
| Undef.
Arguments Ok {A} a.
Arguments Abort {A}.
Arguments Undef {A}.

#[global] Instance outcome_ret : MRet outcome := fun A a => Ok a.
#[global] Instance outcome_bind : MBind outcome := fun A B f m =>
  match m with Ok a => f a | Abort => Abort | Undef => Undef end.

Declare Scope outcome_scope.
Delimit Scope outcome_scope with outcome.
Notation "'let!' x ':=' m 'in' k" :=
  (mbind (M := outcome) (fun x => k) m)
  (at level 10, x pattern, m at level 100, k at level 200) : outcome_scope.
Open Scope outcome_scope.

Lemma bind_Ok {A B} (m : outcome A) (f : A -> outcome B) b :
  mbind f m = Ok b -> exists a, m = Ok a /\ f a = Ok b.
Proof. destruct m as [a| |]; cbn; intros H; [eauto|discriminate..]. Qed.

(** Turns every hypothesis [let! x := m in k = Ok r] into its two halves. *)
Ltac inv_ok :=
  repeat match goal with
  | H : Ok _ = Ok _ |- _ => injection H as H; subst
  | H : Abort = Ok _ |- _ => discriminate H
  | H : Undef = Ok _ |- _ => discriminate H
  | H : mbind _ _ = Ok _ |- _ =>
      let a := fresh "a" in let Ha := fresh "Ha" in
      apply bind_Ok in H as (a & Ha & H)
  end.

(** ** Machine integers (LP64) *)
Definition to_size (z : Z) : Z := z mod 2 ^ 64.
Definition to_uint32 (z : Z) : Z := z mod 2 ^ 32.
Definition to_int32 (z : Z) : Z := (z + 2 ^ 31) mod 2 ^ 32 - 2 ^ 31.

Lemma to_size_small z : 0 <= z < 2 ^ 64 -> to_size z = z.
Proof. apply Z.mod_small. Qed.

Lemma to_int32_small z : - 2 ^ 31 <= z < 2 ^ 31 -> to_int32 z = z.
Proof. intros H. unfold to_int32. rewrite Z.mod_small; lia. Qed.

Lemma to_int32_range z : - 2 ^ 31 <= to_int32 z < 2 ^ 31.
Proof.
  unfold to_int32.
  pose proof (Z.mod_pos_bound (z + 2 ^ 31) (2 ^ 32) ltac:(lia)). lia.
Qed.

(** A 64-bit counter. *)
Definition to_int64 (z : Z) : Z := (z + 2 ^ 63) mod 2 ^ 64 - 2 ^ 63.

Lemma to_int64_small z : - 2 ^ 63 <= z < 2 ^ 63 -> to_int64 z = z.
Proof. intros H. unfold to_int64. rewrite Z.mod_small; lia. Qed.

Lemma to_int64_add a b : to_int64 (to_int64 a + b) = to_int64 (a + b).
Proof.
  unfold to_int64. f_equal.
  replace ((a + 2 ^ 63) mod 2 ^ 64 - 2 ^ 63 + b + 2 ^ 63) with ((a + 2 ^ 63) mod 2 ^ 64 + b) by lia.
  rewrite Zplus_mod_idemp_l. f_equal. lia.
Qed.

(** ** Byte storage: lists of bytes addressed by [Z] offsets *)
Abbreviation byte := Byte.byte.

Definition Zlen {A} (l : list A) : Z := Z.of_nat (length l).
Definition ztake {A} (n : Z) (l : list A) : list A := take (Z.to_nat n) l.
Definition zdrop {A} (n : Z) (l : list A) : list A := drop (Z.to_nat n) l.

#[global] Arguments Zlen : simpl never.
#[global] Arguments ztake : simpl never.
#[global] Arguments zdrop : simpl never.

Lemma Zlen_nonneg {A} (l : list A) : 0 <= Zlen l.
Proof. unfold Zlen. lia. Qed.
Lemma Zlen_nil {A} : Zlen (@nil A) = 0.
Proof. reflexivity. Qed.
Lemma Zlen_cons {A} (x : A) l : Zlen (x :: l) = 1 + Zlen l.
Proof. unfold Zlen. cbn. lia. Qed.
Lemma Zlen_app {A} (l k : list A) : Zlen (l ++ k) = Zlen l + Zlen k.
Proof. unfold Zlen. rewrite length_app. lia. Qed.
Lemma Zlen_ztake {A} n (l : list A) : 0 <= n <= Zlen l -> Zlen (ztake n l) = n.
Proof. unfold Zlen, ztake. rewrite length_take. lia. Qed.
Lemma Zlen_zdrop {A} n (l : list A) :
  0 <= n <= Zlen l -> Zlen (zdrop n l) = Zlen l - n.
Proof. unfold Zlen, zdrop. rewrite length_drop. lia. Qed.
Lemma Zlen_replicate {A} n (x : A) : 0 <= n -> Zlen (replicate (Z.to_nat n) x) = n.
Proof. unfold Zlen. rewrite length_replicate. lia. Qed.
Lemma Zlen_0_nil {A} (l : list A) : Zlen l = 0 -> l = [].
Proof. destruct l; [done|]. rewrite Zlen_cons. pose proof (Zlen_nonneg l). lia. Qed.

Lemma ztake_0 {A} (l : list A) : ztake 0 l = [].
Proof. reflexivity. Qed.
Lemma zdrop_0 {A} (l : list A) : zdrop 0 l = l.
Proof. reflexivity. Qed.
Lemma ztake_ge {A} n (l : list A) : Zlen l <= n -> ztake n l = l.
Proof. unfold Zlen, ztake. intros. apply take_ge. lia. Qed.
Lemma zdrop_ge {A} n (l : list A) : Zlen l <= n -> zdrop n l = [].
Proof. unfold Zlen, zdrop. intros. apply drop_ge. lia. Qed.
Lemma ztake_zdrop {A} n (l : list A) : ztake n l ++ zdrop n l = l.
Proof. apply take_drop. Qed.
Lemma ztake_app_le {A} n (l k : list A) : n <= Zlen l -> ztake n (l ++ k) = ztake n l.
Proof. unfold Zlen, ztake. intros. apply take_app_le. lia. Qed.
Lemma ztake_app_ge {A} n (l k : list A) :
  Zlen l <= n -> ztake n (l ++ k) = l ++ ztake (n - Zlen l) k.
Proof.
  unfold Zlen, ztake. intros. rewrite take_app_ge by lia. do 2 f_equal. lia.
Qed.
Lemma ztake_app {A} n (l k : list A) : n = Zlen l -> ztake n (l ++ k) = l.
Proof. intros ->. rewrite ztake_app_le by lia. apply ztake_ge. lia. Qed.
Lemma zdrop_app_le {A} n (l k : list A) :
  n <= Zlen l -> zdrop n (l ++ k) = zdrop n l ++ k.
Proof. unfold Zlen, zdrop. intros. apply drop_app_le. lia. Qed.
Lemma zdrop_app_ge {A} n (l k : list A) :
  Zlen l <= n -> zdrop n (l ++ k) = zdrop (n - Zlen l) k.
Proof.
  unfold Zlen, zdrop. intros. rewrite drop_app_ge by lia. f_equal. lia.
Qed.
Lemma zdrop_app {A} n (l k : list A) : n = Zlen l -> zdrop n (l ++ k) = k.
Proof. intros ->. rewrite zdrop_app_ge by lia. by rewrite Z.sub_diag. Qed.
Lemma zdrop_zdrop {A} n m (l : list A) :
  0 <= n -> 0 <= m -> zdrop n (zdrop m l) = zdrop (m + n) l.
Proof. unfold zdrop. intros. rewrite drop_drop. f_equal. lia. Qed.
Lemma ztake_ztake {A} n m (l : list A) :
  n <= m -> ztake n (ztake m l) = ztake n l.
Proof. unfold ztake. intros. rewrite take_take. f_equal. lia. Qed.
Lemma ztake_zdrop_comm {A} n m (l : list A) :
  0 <= n -> 0 <= m -> ztake n (zdrop m l) = zdrop m (ztake (m + n) l).
Proof.
  unfold ztake, zdrop. intros. rewrite take_drop_commute.
  do 2 f_equal. lia.
Qed.

Create Rewrite HintDb zlist.
#[export] Hint Rewrite @Zlen_nil @Zlen_cons @Zlen_app @ztake_0 @zdrop_0 : zlist.
#[export] Hint Rewrite @Zlen_ztake @Zlen_zdrop @Zlen_replicate using lia : zlist.

(** Reading [len] bytes at [off], and overwriting the bytes at [off]; leaving
    the storage is undefined. *)
Definition read_range (off len : Z) (m : list byte) : outcome (list byte) :=
  if (0 <=? off) && (0 <=? len) && (off + len <=? Zlen m)
  then Ok (ztake len (zdrop off m)) else Undef.

Definition write_range (off : Z) (data m : list byte) : outcome (list byte) :=
  if (0 <=? off) && (off + Zlen data <=? Zlen m)
  then Ok (ztake off m ++ data ++ zdrop (off + Zlen data) m) else Undef.

Lemma read_range_Ok off len m :
  0 <= off -> 0 <= len -> off + len <= Zlen m ->
  read_range off len m = Ok (ztake len (zdrop off m)).
Proof.
  intros. unfold read_range.
  by rewrite !(proj2 (Z.leb_le _ _)) by lia.
Qed.

Lemma write_range_Ok off data m :
  0 <= off -> off + Zlen data <= Zlen m ->
  write_range off data m
  = Ok (ztake off m ++ data ++ zdrop (off + Zlen data) m).
Proof.
  intros. unfold write_range.
  by rewrite !(proj2 (Z.leb_le _ _)) by lia.
Qed.

Lemma write_range_Undef off data m :
  Zlen m < off + Zlen data -> write_range off data m = Undef.
Proof.
  intros. unfold write_range.
  rewrite (proj2 (Z.leb_gt (off + _) _)) by lia. by rewrite andb_false_r.
Qed.

(** Overwriting the front of the part that follows a prefix. *)
Lemma write_range_app off data pre rest :
  off = Zlen pre -> Zlen data <= Zlen rest ->
  write_range off data (pre ++ rest)
  = Ok ((pre ++ data) ++ zdrop (Zlen data) rest).
Proof.
  intros -> Hle. pose proof (Zlen_nonneg pre). pose proof (Zlen_nonneg data).
  rewrite write_range_Ok by (rewrite ?Zlen_app; lia).
  rewrite ztake_app by done.
  rewrite <- zdrop_zdrop by lia. rewrite zdrop_app by done.
  by rewrite <- app_assoc.
Qed.

(** Decides the boolean comparisons of the goal that [lia] can settle. *)
Ltac decide_bools :=
  repeat match goal with
  | |- context [?a <=? ?b] =>
      first [ rewrite (proj2 (Z.leb_le a b)) by lia
            | rewrite (proj2 (Z.leb_gt a b)) by lia ]
  | |- context [?a <? ?b] =>
      first [ rewrite (proj2 (Z.ltb_lt a b)) by lia
            | rewrite (proj2 (Z.ltb_ge a b)) by lia ]
  | |- context [?a =? ?b] =>
      first [ rewrite (proj2 (Z.eqb_eq a b)) by lia
            | rewrite (proj2 (Z.eqb_neq a b)) by lia ]
  end.

(** ** Results of the system calls the library makes on a descriptor *)
Inductive read_result : Type :=
| ReadOk (data : list byte)     (** the bytes delivered; [[]] is end of file *)
| ReadErr (errno : Z).

Inductive write_result : Type :=
| WriteOk (n : Z)               (** the kernel accepted the first [n] bytes *)
| WriteErr (errno : Z).

(** The contract of [::write] on [size] bytes. *)
Definition write_result_ok (size : Z) (r : write_result) : Prop :=
  match r with WriteOk n => 0 <= n <= size | WriteErr _ => True end.

Definition EAGAIN : Z := 11.
Definition EWOULDBLOCK : Z := 11.
