(* ===== verification/CurrentThread.v ===== *)
(** * CurrentThread: Base/CurrentThread.hpp and Base/CurrentThread.cpp

    The thread id that loops compare: gettid(2), asked once per thread and kept
    in a thread-local [int].  [gettid] is the kernel's answer in this thread. *)
From Stdlib Require Import ZArith Lia List.
From stdpp Require Import base list numbers tactics.
From S2P Require Import Prelude.
Open Scope Z_scope.

Definition cachedTid (gettid : Z) : Z := to_int32 gettid.

(** The result, and the thread's [current_thread_tid_] afterwards. *)
Definition getTid (gettid : Z) (current_thread_tid_ : Z) : Z * Z :=
  let current_thread_tid_ :=
    if current_thread_tid_ =? 0 then cachedTid gettid else current_thread_tid_ in
  (current_thread_tid_, current_thread_tid_).

(** Successive calls in one thread. *)
Fixpoint getTids (gettids : list Z) (current_thread_tid_ : Z) : list Z :=
  match gettids with
  | [] => []
  | gettid :: gettids =>
      let '(tid, current) := getTid gettid current_thread_tid_ in tid :: getTids gettids current
  end.

(** The id of a thread never changes: all calls return what the first one asked
    the kernel for, whatever the kernel would say later (after fork(2), say). *)
Lemma getTid_constant (gettid : Z) (gettids : list Z) :
  0 < gettid < 2 ^ 31 ->
  getTids (gettid :: gettids) 0 = replicate (S (length gettids)) gettid.
Proof.
  intros Ht. cbn [getTids getTid Z.eqb]. unfold getTid, cachedTid. cbn [Z.eqb].
  rewrite to_int32_small by lia. cbn. f_equal.
  induction gettids as [|g gettids IH]; [done|]. cbn. unfold getTid.
  rewrite (proj2 (Z.eqb_neq gettid 0)) by lia. cbn. by f_equal.
Qed.
