(* ===== verification/Buffer.v ===== *)
(** * Buffer: the growable byte buffer of net/Buffer.hpp and net/Buffer.cpp

    The vector [buffer_] with the two cursors, each method with its [size_t]
    arithmetic, and the byte queue it implements. *)
From Stdlib Require Import ZArith Lia List.
From stdpp Require Import base option list numbers tactics.
From S2P Require Import Prelude.
Open Scope Z_scope.
Open Scope outcome_scope.

(** ** State and methods *)
Definition CHEAP_PREPEND : Z := 8.
Definition INITIALIZE_SIZE : Z := 1024.

Record Buffer := mkBuffer {
  buffer_ : list byte;
  write_index_ : Z;
  read_index_ : Z;
}.

(** [Buffer(size_t initialize_size)]: the storage is value-initialised. *)
Definition make (initialize_size : Z) : Buffer :=
  {| buffer_ := replicate (Z.to_nat (CHEAP_PREPEND + initialize_size)) Byte.x00;
     write_index_ := CHEAP_PREPEND;
     read_index_ := CHEAP_PREPEND |}.

Definition readableBytes (b : Buffer) : Z :=
  to_size (write_index_ b - read_index_ b).
Definition writableBytes (b : Buffer) : Z :=
  to_size (Zlen (buffer_ b) - write_index_ b).
Definition prependableBytes (b : Buffer) : Z := read_index_ b.

(** [peek] is the pointer [begin() + read_index_]; [peek_bytes b len] is the
    access of [len] bytes through it. *)
Definition peek (b : Buffer) : Z := read_index_ b.
Definition peek_bytes (b : Buffer) (len : Z) : outcome (list byte) :=
  read_range (peek b) len (buffer_ b).

Definition retrieveAll (b : Buffer) : Buffer :=
  {| buffer_ := buffer_ b;
     write_index_ := CHEAP_PREPEND;
     read_index_ := CHEAP_PREPEND |}.

Definition retrieve (b : Buffer) (len : Z) : Buffer :=
  if readableBytes b <=? len then retrieveAll b
  else {| buffer_ := buffer_ b;
          write_index_ := write_index_ b;
          read_index_ := to_size (read_index_ b + len) |}.

Definition retrieveAsString (b : Buffer) (len : Z) : outcome (list byte * Buffer) :=
  let! msg := peek_bytes b len in
  Ok (msg, retrieve b len).

Definition retrieveAllAsString (b : Buffer) : outcome (list byte * Buffer) :=
  let! msg := peek_bytes b (readableBytes b) in
  Ok (msg, retrieveAll b).

(** [std::vector::resize]: new elements are zero, a size the vector cannot
    have throws and nothing catches it. *)
Definition vector_resize (n : Z) (m : list byte) : outcome (list byte) :=
  if n <? 2 ^ 63
  then Ok (ztake n m ++ replicate (Z.to_nat (n - Zlen m)) Byte.x00)
  else Abort.

(** [std::move(first, last, d_first)], undefined when [d_first] lies in
    [[first, last)]. *)
Definition std_move (first last d_first : Z) (m : list byte) : outcome (list byte) :=
  if (first <=? d_first) && (d_first <? last) then Undef
  else let! data := read_range first (last - first) m in
       write_range d_first data m.

Definition makeSpace (b : Buffer) (len : Z) : outcome Buffer :=
  let space_left :=
    to_size (writableBytes b + to_size (read_index_ b - CHEAP_PREPEND)) in
  if len <=? space_left then
    let len_data := readableBytes b in
    let! m := std_move (read_index_ b) (read_index_ b + readableBytes b)
                       CHEAP_PREPEND (buffer_ b) in
    Ok {| buffer_ := m;
          write_index_ := to_size (CHEAP_PREPEND + len_data);
          read_index_ := CHEAP_PREPEND |}
  else
    let! m := vector_resize (to_size (write_index_ b + len)) (buffer_ b) in
    Ok {| buffer_ := m;
          write_index_ := write_index_ b;
          read_index_ := read_index_ b |}.

Definition ensureWritableBytes (b : Buffer) (len : Z) : outcome Buffer :=
  if len <=? writableBytes b then Ok b else makeSpace b len.

(** [std::copy(data, data + len, begin() + off)] into the storage. *)
Definition copy_to (b : Buffer) (off : Z) (data : list byte) : outcome Buffer :=
  let! m := write_range off data (buffer_ b) in
  Ok {| buffer_ := m; write_index_ := write_index_ b; read_index_ := read_index_ b |}.

Definition hasWritten (b : Buffer) (len : Z) : Buffer :=
  {| buffer_ := buffer_ b;
     write_index_ := to_size (write_index_ b + len);
     read_index_ := read_index_ b |}.

(** [append(const char*, size_t)]; the [string_view] overload forwards to it. *)
Definition append (b : Buffer) (data : list byte) : outcome Buffer :=
  let! b1 := ensureWritableBytes b (Zlen data) in
  let! b2 := copy_to b1 (write_index_ b1) data in
  Ok (hasWritten b2 (Zlen data)).

Definition prepend (b : Buffer) (data : list byte) : outcome Buffer :=
  if prependableBytes b <? Zlen data then Ok b
  else
    let b1 := {| buffer_ := buffer_ b;
                 write_index_ := write_index_ b;
                 read_index_ := read_index_ b - Zlen data |} in
    copy_to b1 (read_index_ b1) data.

(** [beginWrite()] is the pointer [buffer_.data() + write_index_]. *)
Definition beginWrite (b : Buffer) : Z := write_index_ b.

Definition swap (b other : Buffer) : Buffer * Buffer := (other, b).

(** [readFd]: [::readv] fills the writable tail and then [extra_arr]; the
    result is [(n_read, *savedErrno, buffer)]. *)
Definition EXTRA_SIZE : Z := 65536.

Definition readFd (b : Buffer) (r : read_result) : outcome (Z * option Z * Buffer) :=
  match r with
  | ReadErr errno => Ok (-1, Some errno, b)
  | ReadOk data =>
      let writable := writableBytes b in
      let extra_arr := zdrop writable data in
      if EXTRA_SIZE <? Zlen extra_arr then Undef else
      let! b1 := copy_to b (write_index_ b) (ztake writable data) in
      if Zlen data <=? writable then
        Ok (Zlen data, None, hasWritten b1 (Zlen data))
      else
        let b2 := {| buffer_ := buffer_ b1;
                     write_index_ := Zlen (buffer_ b1);
                     read_index_ := read_index_ b1 |} in
        let! b3 := append b2 extra_arr in
        Ok (Zlen data, None, b3)
  end.

(** [writeFd]: [::write(fd, peek(), readableBytes())]; the result is
    [(n_write, *savedErrno, buffer)]. *)
Definition writeFd (b : Buffer) (r : write_result) : Z * option Z * Buffer :=
  match r with
  | WriteErr errno => (-1, Some errno, b)
  | WriteOk n => (n, None, retrieve b n)
  end.

(** ** The abstraction: a byte queue *)

(** The representation invariant and the bytes the buffer holds. *)
Definition wf (b : Buffer) : Prop :=
  0 <= read_index_ b <= write_index_ b /\
  write_index_ b <= Zlen (buffer_ b) < 2 ^ 63 /\
  CHEAP_PREPEND <= Zlen (buffer_ b).

Definition content (b : Buffer) : list byte :=
  ztake (write_index_ b - read_index_ b) (zdrop (read_index_ b) (buffer_ b)).

#[global] Instance wf_dec b : Decision (wf b).
Proof. unfold wf. apply _. Defined.

(** The condition under which [append] of [len] bytes stays inside the
    storage: the cursor of a prepended buffer must not make
    [read_index_ - CHEAP_PREPEND] wrap. *)
Definition append_safe (b : Buffer) (len : Z) : Prop :=
  len <= writableBytes b \/ CHEAP_PREPEND - read_index_ b <= writableBytes b.

#[global] Instance append_safe_dec b len : Decision (append_safe b len).
Proof. unfold append_safe. apply _. Defined.

Ltac unfold_sizes :=
  unfold wf, append_safe, readableBytes, writableBytes, prependableBytes,
    peek, CHEAP_PREPEND in *; cbn [buffer_ write_index_ read_index_] in *.

Lemma readable_eq b : wf b -> readableBytes b = write_index_ b - read_index_ b.
Proof. unfold_sizes. intros. apply to_size_small. lia. Qed.
Lemma writable_eq b : wf b -> writableBytes b = Zlen (buffer_ b) - write_index_ b.
Proof. unfold_sizes. intros. apply to_size_small. lia. Qed.

Lemma content_length b : wf b -> Zlen (content b) = readableBytes b.
Proof.
  intros Hwf. rewrite readable_eq by done. unfold content. unfold_sizes.
  rewrite Zlen_ztake; [done|]. rewrite Zlen_zdrop; lia.
Qed.

(** The storage splits at the cursors. *)
Lemma storage_split b : wf b ->
  buffer_ b = ztake (read_index_ b) (buffer_ b) ++ content b
              ++ zdrop (write_index_ b) (buffer_ b).
Proof.
  intros Hwf. unfold content. unfold_sizes.
  rewrite <- (ztake_zdrop (read_index_ b) (buffer_ b)) at 1. f_equal.
  rewrite <- (ztake_zdrop (write_index_ b - read_index_ b)
                (zdrop (read_index_ b) (buffer_ b))) at 1. f_equal.
  rewrite zdrop_zdrop by lia. f_equal. lia.
Qed.

(** A storage that splits at the cursors determines the content. *)
Lemma content_intro m w r pre data post :
  m = pre ++ data ++ post -> r = Zlen pre -> w = r + Zlen data ->
  content {| buffer_ := m; write_index_ := w; read_index_ := r |} = data.
Proof.
  intros -> -> ->. unfold content; cbn.
  rewrite zdrop_app by done. rewrite ztake_app; [done|lia].
Qed.

Lemma peek_content b len : wf b -> 0 <= len <= readableBytes b ->
  peek_bytes b len = Ok (ztake len (content b)).
Proof.
  intros Hwf Hlen. rewrite readable_eq in Hlen by done.
  unfold peek_bytes, content. unfold_sizes.
  rewrite read_range_Ok by lia. rewrite ztake_ztake by lia. done.
Qed.

(** ** Retrieving *)
Lemma retrieveAll_spec b : wf b ->
  wf (retrieveAll b) /\ content (retrieveAll b) = [].
Proof. split; [unfold retrieveAll; unfold_sizes; lia|done]. Qed.

Lemma retrieve_spec b len : wf b -> 0 <= len ->
  wf (retrieve b len) /\ content (retrieve b len) = zdrop len (content b).
Proof.
  intros Hwf Hlen. unfold retrieve. rewrite readable_eq by done.
  destruct (Z.leb_spec (write_index_ b - read_index_ b) len) as [Hge|Hlt].
  - destruct (retrieveAll_spec b Hwf) as [? ->]. split; [done|].
    rewrite zdrop_ge; [done|]. rewrite content_length, readable_eq by done. lia.
  - pose proof (storage_split b Hwf) as Hs.
    assert (Hl : Zlen (content b) = write_index_ b - read_index_ b)
      by (rewrite content_length, readable_eq by done; done).
    split; [unfold_sizes; rewrite to_size_small by lia; lia|].
    eapply content_intro with (pre := ztake (read_index_ b) (buffer_ b) ++ ztake len (content b))
      (post := zdrop (write_index_ b) (buffer_ b)).
    + rewrite Hs at 1. rewrite <- (ztake_zdrop len (content b)) at 1.
      by rewrite <- !app_assoc.
    + unfold_sizes. rewrite to_size_small by lia. autorewrite with zlist. lia.
    + unfold_sizes. rewrite to_size_small by lia. autorewrite with zlist. lia.
Qed.

(** Consuming keeps the storage and does not eat into the prepend bytes. *)
Definition same_storage (b b' : Buffer) : Prop :=
  Zlen (buffer_ b') = Zlen (buffer_ b) /\
  (CHEAP_PREPEND <= read_index_ b -> CHEAP_PREPEND <= read_index_ b').

Lemma same_storage_refl b : same_storage b b.
Proof. by split. Qed.
Lemma same_storage_trans b1 b2 b3 :
  same_storage b1 b2 -> same_storage b2 b3 -> same_storage b1 b3.
Proof. intros [H1 ?] [H2 ?]. split; [congruence|auto]. Qed.
Lemma retrieveAll_storage b : same_storage b (retrieveAll b).
Proof. by split. Qed.

Lemma retrieve_storage b len : wf b -> 0 <= len -> same_storage b (retrieve b len).
Proof.
  intros Hwf Hlen. unfold same_storage, retrieve. rewrite readable_eq by done.
  destruct (Z.leb_spec (write_index_ b - read_index_ b) len); cbn; [done|].
  unfold_sizes. rewrite to_size_small by lia. lia.
Qed.

(** ** Growing and appending *)

(** What [ensureWritableBytes(len)] promises of its result. *)
Definition room_for (b : Buffer) (len : Z) (b' : Buffer) : Prop :=
  wf b' /\ content b' = content b /\ len <= writableBytes b' /\
  Zlen (buffer_ b') <= Z.max (Zlen (buffer_ b)) (write_index_ b + len) /\
  (CHEAP_PREPEND <= read_index_ b -> CHEAP_PREPEND <= read_index_ b').

Lemma makeSpace_shift b len :
  wf b -> writableBytes b < len -> CHEAP_PREPEND < read_index_ b ->
  len <= writableBytes b + (read_index_ b - CHEAP_PREPEND) ->
  exists b', makeSpace b len = Ok b' /\ room_for b len b'.
Proof.
  intros Hwf Hw Hr Hle. unfold makeSpace.
  pose proof (writable_eq b Hwf) as Ew. pose proof (readable_eq b Hwf) as Er.
  pose proof (content_length b Hwf) as Hl.
  rewrite Er, Ew in *. unfold CHEAP_PREPEND in *. destruct Hwf as (? & ? & ?).
  rewrite (to_size_small (read_index_ b - 8)) by lia.
  rewrite to_size_small by lia. decide_bools.
  unfold std_move. decide_bools. cbn [andb].
  replace (read_index_ b + (write_index_ b - read_index_ b) - read_index_ b)
    with (write_index_ b - read_index_ b) by lia.
  rewrite read_range_Ok by lia. fold (content b). cbn [mbind outcome_bind].
  rewrite write_range_Ok by lia. cbn [mbind outcome_bind].
  eexists; split; [done|]. rewrite to_size_small by lia.
  assert (Hlen : Zlen (ztake 8 (buffer_ b) ++ content b
      ++ zdrop (8 + Zlen (content b)) (buffer_ b)) = Zlen (buffer_ b)).
  { autorewrite with zlist. lia. }
  assert (Hwf' : wf {| buffer_ := ztake 8 (buffer_ b) ++ content b
      ++ zdrop (8 + Zlen (content b)) (buffer_ b);
      write_index_ := 8 + (write_index_ b - read_index_ b); read_index_ := 8 |}).
  { unfold_sizes. rewrite Hlen. lia. }
  unfold room_for. rewrite writable_eq by done. cbn [buffer_ write_index_ read_index_].
  rewrite Hlen. unfold CHEAP_PREPEND.
  repeat split; [apply Hwf'..| |lia|lia|lia].
  eapply content_intro; [reflexivity|by autorewrite with zlist|lia].
Qed.

Lemma makeSpace_grow b len :
  wf b -> writableBytes b < len -> write_index_ b + len < 2 ^ 63 ->
  CHEAP_PREPEND - read_index_ b <= writableBytes b ->
  writableBytes b + (read_index_ b - CHEAP_PREPEND) < len ->
  exists b', makeSpace b len = Ok b' /\ room_for b len b'.
Proof.
  intros Hwf Hw Hmax Hsafe Hlt. unfold makeSpace.
  pose proof (writable_eq b Hwf) as Ew. rewrite Ew in *.
  unfold CHEAP_PREPEND in *. pose proof Hwf as (? & ? & ?).
  assert (Hsum : to_size (Zlen (buffer_ b) - write_index_ b + to_size (read_index_ b - 8))
     = Zlen (buffer_ b) - write_index_ b + (read_index_ b - 8)).
  { unfold to_size. rewrite Zplus_mod_idemp_r. apply Z.mod_small. lia. }
  rewrite Hsum. decide_bools.
  rewrite to_size_small by lia. unfold vector_resize. decide_bools.
  cbn [mbind outcome_bind]. eexists; split; [done|].
  rewrite ztake_ge by lia.
  set (pad := replicate _ _).
  assert (Hp : Zlen pad = write_index_ b + len - Zlen (buffer_ b))
    by (subst pad; apply Zlen_replicate; lia).
  assert (Hwf' : wf {| buffer_ := buffer_ b ++ pad;
    write_index_ := write_index_ b; read_index_ := read_index_ b |}).
  { unfold_sizes. autorewrite with zlist. lia. }
  unfold room_for. rewrite writable_eq by done. cbn [buffer_ write_index_ read_index_].
  autorewrite with zlist. repeat split; [apply Hwf'..| |lia|lia|done].
  rewrite (storage_split b Hwf) at 1.
  apply content_intro with (pre := ztake (read_index_ b) (buffer_ b))
    (post := zdrop (write_index_ b) (buffer_ b) ++ pad);
    [by rewrite <- !app_assoc|autorewrite with zlist; lia|].
  rewrite content_length, readable_eq by done. lia.
Qed.

Lemma ensureWritableBytes_spec b len :
  wf b -> 0 <= len -> append_safe b len -> write_index_ b + len < 2 ^ 63 ->
  exists b', ensureWritableBytes b len = Ok b' /\ room_for b len b'.
Proof.
  intros Hwf Hlen Hsafe Hmax. unfold ensureWritableBytes.
  destruct (Z.leb_spec len (writableBytes b)) as [Hle|Hlt].
  { exists b. unfold room_for. split_and!; [done..|lia|lia|done]. }
  destruct Hsafe as [?|Hsafe]; [lia|].
  destruct (Z.leb_spec len (writableBytes b + (read_index_ b - CHEAP_PREPEND))).
  - apply makeSpace_shift; [done|lia|lia|lia].
  - apply makeSpace_grow; [done|lia|done|lia|lia].
Qed.

(** Filling the writable area and moving [write_index_] past it. *)
Lemma fill_spec b data :
  wf b -> Zlen data <= writableBytes b ->
  exists b', copy_to b (write_index_ b) data = Ok b' /\
    wf (hasWritten b' (Zlen data)) /\
    content (hasWritten b' (Zlen data)) = content b ++ data /\
    Zlen (buffer_ b') = Zlen (buffer_ b) /\
    write_index_ b' = write_index_ b /\ read_index_ b' = read_index_ b.
Proof.
  intros Hwf Hle. rewrite writable_eq in Hle by done.
  pose proof (Zlen_nonneg data). pose proof Hwf as (? & ? & ?).
  pose proof (content_length b Hwf) as Hl. rewrite readable_eq in Hl by done.
  unfold copy_to. rewrite write_range_Ok by lia. cbn [mbind outcome_bind].
  eexists; split; [done|]. unfold hasWritten. cbn [buffer_ write_index_ read_index_].
  rewrite to_size_small by lia.
  assert (Hlen : Zlen (ztake (write_index_ b) (buffer_ b) ++ data
     ++ zdrop (write_index_ b + Zlen data) (buffer_ b)) = Zlen (buffer_ b))
    by (autorewrite with zlist; lia).
  split_and!; [unfold_sizes; lia| |done..].
  rewrite (storage_split b Hwf) at 1.
  rewrite (app_assoc (ztake (read_index_ b) _)), ztake_app
    by (autorewrite with zlist; lia).
  apply content_intro with (pre := ztake (read_index_ b) (buffer_ b))
    (post := zdrop (write_index_ b + Zlen data) (buffer_ b));
    [by rewrite <- !app_assoc|autorewrite with zlist; lia..].
Qed.

Definition appended (b : Buffer) (data : list byte) (b' : Buffer) : Prop :=
  wf b' /\ content b' = content b ++ data /\
  Zlen (buffer_ b') <= Z.max (Zlen (buffer_ b)) (write_index_ b + Zlen data) /\
  (CHEAP_PREPEND <= read_index_ b -> CHEAP_PREPEND <= read_index_ b').

(** Data written into the room that was made and committed is appended. *)
Lemma fill_appended out b data b' :
  room_for out (Zlen data) b -> copy_to b (write_index_ b) data = Ok b' ->
  appended out data (hasWritten b' (Zlen data)).
Proof.
  intros (Hwf & Hc & Hw & Hcap & Hr) E.
  destruct (fill_spec b data Hwf Hw) as (b2 & E2 & Hwf2 & Hc2 & Hl2 & ? & Hri).
  rewrite E in E2. inv_ok. unfold appended. rewrite Hc2, Hc.
  cbn [buffer_ read_index_ hasWritten]. split_and!; [done|done|lia|by rewrite Hri].
Qed.

Lemma append_spec b data :
  wf b -> append_safe b (Zlen data) -> write_index_ b + Zlen data < 2 ^ 63 ->
  exists b', append b data = Ok b' /\ appended b data b'.
Proof.
  intros Hwf Hsafe Hmax. pose proof (Zlen_nonneg data).
  destruct (ensureWritableBytes_spec b (Zlen data))
    as (b1 & E1 & Hroom); [done..|].
  destruct (fill_spec b1 data) as (b2 & E2 & _); [apply Hroom..|].
  unfold append. rewrite E1. cbn [mbind outcome_bind]. rewrite E2.
  cbn [mbind outcome_bind]. eexists; split; [done|]. by eapply fill_appended.
Qed.

(** Outside [append_safe] the subtraction in [makeSpace] wraps, the data is
    moved towards the end of the storage and the move or the copy leaves it. *)
Lemma space_left_wraps b : wf b -> writableBytes b < CHEAP_PREPEND - read_index_ b ->
  to_size (writableBytes b + to_size (read_index_ b - CHEAP_PREPEND))
  = writableBytes b + (read_index_ b - CHEAP_PREPEND) + 2 ^ 64.
Proof.
  intros Hwf Hun. rewrite writable_eq in * by done. destruct Hwf as (? & ? & ?).
  unfold CHEAP_PREPEND in *. unfold to_size. rewrite Zplus_mod_idemp_r.
  rewrite <- (Z.mod_add _ 1) by lia. rewrite Z.mod_small; lia.
Qed.

Lemma std_move_overflow b : wf b -> writableBytes b < CHEAP_PREPEND - read_index_ b ->
  std_move (read_index_ b) (read_index_ b + readableBytes b) CHEAP_PREPEND (buffer_ b) = Undef.
Proof.
  intros Hwf Hun. rewrite writable_eq in Hun by done. rewrite readable_eq by done.
  pose proof Hwf as (? & ? & ?). unfold CHEAP_PREPEND in *. unfold std_move.
  destruct (Z.ltb_spec 8 (read_index_ b + (write_index_ b - read_index_ b)));
    decide_bools; cbn [andb mbind outcome_bind]; [done|].
  rewrite read_range_Ok by lia. cbn [mbind outcome_bind].
  rewrite write_range_Undef; [done|]. rewrite Zlen_ztake; [lia|]. rewrite Zlen_zdrop; lia.
Qed.

Lemma append_overflow b data :
  wf b -> ~ append_safe b (Zlen data) -> write_index_ b + Zlen data < 2 ^ 63 ->
  append b data = Undef.
Proof.
  intros Hwf Hun Hmax. unfold append_safe in Hun.
  unfold append, ensureWritableBytes, makeSpace.
  rewrite space_left_wraps, std_move_overflow by (done || lia).
  rewrite writable_eq in * by done. unfold CHEAP_PREPEND in *. destruct Hwf as (? & ? & ?).
  by decide_bools.
Qed.

(** A call that returns has appended, whatever the sizes: a storage of 2^63 bytes
    or more is refused by the vector, and a size that wraps leaves no room for
    the copy. *)
Lemma grow_huge b data b1 b2 : wf b -> 2 ^ 63 <= write_index_ b + Zlen data ->
  (let! m := vector_resize (to_size (write_index_ b + Zlen data)) (buffer_ b) in
   Ok {| buffer_ := m; write_index_ := write_index_ b; read_index_ := read_index_ b |}) = Ok b1 ->
  copy_to b1 (write_index_ b1) data = Ok b2 -> False.
Proof.
  intros Hwf Hbig E1 E2. pose proof (Zlen_nonneg data). pose proof Hwf as (? & ? & ?).
  unfold vector_resize in E1. set (n := to_size _) in *.
  assert (Hn : 0 <= n < 2 ^ 64) by (apply Z.mod_pos_bound; lia).
  destruct (Z.ltb_spec n (2 ^ 63)); [|done]. cbn [mbind outcome_bind] in E1.
  injection E1 as <-. unfold copy_to in E2. cbn [buffer_ write_index_] in E2.
  rewrite write_range_Undef in E2; [done|].
  assert (Hlt : n < write_index_ b + Zlen data) by lia.
  rewrite Zlen_app. destruct (decide (n <= Zlen (buffer_ b))).
  - rewrite Zlen_ztake by lia. replace (Z.to_nat _) with 0%nat by lia. cbn [replicate]. rewrite Zlen_nil. lia.
  - rewrite ztake_ge, Zlen_replicate by lia. lia.
Qed.

Lemma append_huge b data b' : wf b -> 2 ^ 63 <= write_index_ b + Zlen data ->
  append b data = Ok b' ->
  exists b1, ensureWritableBytes b (Zlen data) = Ok b1 /\ room_for b (Zlen data) b1.
Proof.
  intros Hwf Hbig E. pose proof (Zlen_nonneg data). pose proof Hwf as (? & ? & ?).
  pose proof (writable_eq b Hwf) as Ew. unfold append in E. inv_ok. rename a into b1, a0 into b2.
  exists b1. split; [done|]. unfold ensureWritableBytes in Ha.
  rewrite (proj2 (Z.leb_gt _ _)) in Ha by lia. pose proof Ha as Hmake. unfold makeSpace in Ha.
  destruct (_ <=? _) eqn:Ele; [|exfalso; by eapply grow_huge]. apply Z.leb_le in Ele.
  destruct (decide (writableBytes b < CHEAP_PREPEND - read_index_ b)) as [Hun|Hun].
  { by rewrite std_move_overflow in Ha by done. }
  assert (Es : to_size (writableBytes b + to_size (read_index_ b - CHEAP_PREPEND))
    = writableBytes b + (read_index_ b - CHEAP_PREPEND)).
  { unfold to_size. rewrite Zplus_mod_idemp_r. unfold CHEAP_PREPEND in *. apply Z.mod_small. lia. }
  rewrite Es in Ele. unfold CHEAP_PREPEND in *.
  destruct (makeSpace_shift b (Zlen data) Hwf) as (m & Em & Hroom);
    [lia|unfold CHEAP_PREPEND; lia|unfold CHEAP_PREPEND; lia|].
  rewrite Hmake in Em. by injection Em as ->.
Qed.

Lemma append_Ok_inv b data b' :
  wf b -> append b data = Ok b' -> wf b' /\ content b' = content b ++ data /\
    (CHEAP_PREPEND <= read_index_ b -> CHEAP_PREPEND <= read_index_ b').
Proof.
  intros Hwf E.
  destruct (decide (write_index_ b + Zlen data < 2 ^ 63)) as [Hmax|Hmax].
  - destruct (decide (append_safe b (Zlen data))) as [Hs|Hs].
    + destruct (append_spec b data Hwf Hs Hmax) as (b2 & E2 & H1 & H2 & _ & H3).
      rewrite E in E2. injection E2 as <-. by split_and!.
    + by rewrite append_overflow in E by done.
  - destruct (append_huge b data b' Hwf ltac:(lia) E) as (b1 & E1 & Hroom).
    unfold append in E. rewrite E1 in E. cbn [mbind outcome_bind] in E. inv_ok.
    by destruct (fill_appended _ _ _ _ Hroom Ha) as (? & ? & _ & ?).
Qed.

(** ** Prepending and descriptor I/O *)
Lemma prepend_Ok b data : wf b ->
  exists b', prepend b data = Ok b' /\ wf b' /\
    write_index_ b' = write_index_ b /\ Zlen (buffer_ b') = Zlen (buffer_ b) /\
    if decide (Zlen data <= prependableBytes b)
    then content b' = data ++ content b /\
         prependableBytes b' = prependableBytes b - Zlen data
    else b' = b.
Proof.
  intros Hwf. unfold prepend. case_decide as Hd; unfold prependableBytes in *.
  2: { decide_bools. by exists b. }
  decide_bools. pose proof Hwf as (? & ? & ?). pose proof (Zlen_nonneg data).
  pose proof (content_length b Hwf) as Hl. rewrite readable_eq in Hl by done.
  unfold copy_to. cbn [buffer_ read_index_ write_index_].
  rewrite write_range_Ok by lia. cbn [mbind outcome_bind].
  eexists; split; [done|]. cbn [buffer_ read_index_ write_index_].
  rewrite Z.sub_add.
  assert (Hlen : Zlen (ztake (read_index_ b - Zlen data) (buffer_ b) ++ data
      ++ zdrop (read_index_ b) (buffer_ b)) = Zlen (buffer_ b))
    by (autorewrite with zlist; lia).
  split_and!; [unfold_sizes; lia|done..| |done].
  apply content_intro with
    (pre := ztake (read_index_ b - Zlen data) (buffer_ b))
    (post := zdrop (write_index_ b) (buffer_ b));
    [|autorewrite with zlist; lia..].
  rewrite <- app_assoc. do 2 f_equal. rewrite (storage_split b Hwf) at 1.
  rewrite zdrop_app by (autorewrite with zlist; lia). done.
Qed.

Lemma readFd_spec b data :
  wf b -> CHEAP_PREPEND <= read_index_ b ->
  Zlen data <= writableBytes b + EXTRA_SIZE ->
  write_index_ b + Zlen data < 2 ^ 63 ->
  exists b', readFd b (ReadOk data) = Ok (Zlen data, None, b') /\ appended b data b'.
Proof.
  intros Hwf Hr Hlen Hmax. pose proof Hwf as (? & ? & ?).
  pose proof (writable_eq b Hwf) as Ew. unfold readFd. rewrite Ew in *.
  set (W := Zlen (buffer_ b) - write_index_ b) in *.
  assert (Hex : Zlen (zdrop W data) <= EXTRA_SIZE).
  { destruct (decide (Zlen data <= W)); [rewrite zdrop_ge by lia; done|].
    rewrite Zlen_zdrop; lia. }
  decide_bools.
  destruct (Z.leb_spec (Zlen data) W) as [Hle|Hgt].
  - rewrite ztake_ge by lia.
    destruct (fill_spec b data Hwf) as (b1 & E1 & ? & Hc & ? & ? & Hri); [lia|].
    rewrite E1. cbn [mbind outcome_bind]. eexists; split; [done|].
    split_and!; [done|done|cbn; lia|cbn; lia].
  - destruct (fill_spec b (ztake W data) Hwf) as (b1 & E1 & Hwf1 & Hc1 & Hl1 & Hw1 & Hr1).
    { rewrite Ew, Zlen_ztake; lia. }
    rewrite E1. cbn [mbind outcome_bind].
    assert (Eb : hasWritten b1 (Zlen (ztake W data)) =
      {| buffer_ := buffer_ b1; write_index_ := Zlen (buffer_ b1);
         read_index_ := read_index_ b1 |}).
    { unfold hasWritten. f_equal. rewrite Zlen_ztake, Hw1 by lia.
      rewrite to_size_small; lia. }
    rewrite Eb in *. clear Eb.
    set (b2 := {| buffer_ := buffer_ b1; write_index_ := _; read_index_ := _ |}) in *.
    assert (Hx : Zlen (zdrop W data) = Zlen data - W) by (apply Zlen_zdrop; lia).
    destruct (append_spec b2 (zdrop W data)) as (b3 & E3 & Hwf3 & Hc3 & Hl3 & Hr3).
    + done.
    + right. rewrite writable_eq by done. cbn. lia.
    + cbn. lia.
    + rewrite E3. cbn [mbind outcome_bind]. eexists; split; [done|].
      split_and!; [done| |cbn in *; lia|cbn in *; lia].
      by rewrite Hc3, Hc1, <- app_assoc, ztake_zdrop.
Qed.

(** ** The buffer refines a byte queue

    The operations a client drives, the queue each stands for, and when the
    queue specifies it. *)
Inductive op : Type :=
| OpAppend (data : list byte)
| OpEnsureWritable (len : Z)
| OpRetrieve (len : Z)
| OpRetrieveAll
| OpRetrieveAsString (len : Z)
| OpRetrieveAllAsString
| OpReadFd (r : read_result)
| OpWriteFd (r : write_result).

(** The bytes an operation hands back to its caller, and the new buffer. *)
Definition run_op (o : op) (b : Buffer) : outcome (list byte * Buffer) :=
  match o with
  | OpAppend data => let! b' := append b data in Ok ([], b')
  | OpEnsureWritable len => let! b' := ensureWritableBytes b len in Ok ([], b')
  | OpRetrieve len => Ok ([], retrieve b len)
  | OpRetrieveAll => Ok ([], retrieveAll b)
  | OpRetrieveAsString len => retrieveAsString b len
  | OpRetrieveAllAsString => retrieveAllAsString b
  | OpReadFd r => let! res := readFd b r in Ok ([], snd res)
  | OpWriteFd r => Ok ([], snd (writeFd b r))
  end.

Definition spec_op (o : op) (q : list byte) : list byte * list byte :=
  match o with
  | OpAppend data => ([], q ++ data)
  | OpEnsureWritable _ => ([], q)
  | OpRetrieve len => ([], zdrop len q)
  | OpRetrieveAll => ([], [])
  | OpRetrieveAsString len => (ztake len q, zdrop len q)
  | OpRetrieveAllAsString => (q, [])
  | OpReadFd (ReadOk data) => ([], q ++ data)
  | OpReadFd (ReadErr _) => ([], q)
  | OpWriteFd (WriteOk n) => ([], zdrop n q)
  | OpWriteFd (WriteErr _) => ([], q)
  end.

(** [retrieveAsString] must not ask for more than the queue holds, and the
    kernel keeps the contracts of [readv] and [write]: [readv] is offered at
    least the 65536 bytes of [extra_arr]. *)
Definition op_pre (o : op) (q : list byte) : Prop :=
  match o with
  | OpEnsureWritable len | OpRetrieve len => 0 <= len
  | OpRetrieveAsString len => 0 <= len <= Zlen q
  | OpReadFd (ReadOk data) => Zlen data <= EXTRA_SIZE
  | OpWriteFd r => write_result_ok (Zlen q) r
  | _ => True
  end.

(** How much storage an operation can add. *)
Definition op_growth (o : op) : Z :=
  match o with
  | OpAppend data | OpReadFd (ReadOk data) => Zlen data
  | OpEnsureWritable len => len
  | _ => 0
  end.

Fixpoint run_ops (os : list op) (b : Buffer) : outcome (list (list byte) * Buffer) :=
  match os with
  | [] => Ok ([], b)
  | o :: os =>
      let! (out, b1) := run_op o b in
      let! (outs, b2) := run_ops os b1 in
      Ok (out :: outs, b2)
  end.

Fixpoint spec_ops (os : list op) (q : list byte) : list (list byte) * list byte :=
  match os with
  | [] => ([], q)
  | o :: os =>
      let '(out, q1) := spec_op o q in
      let '(outs, q2) := spec_ops os q1 in (out :: outs, q2)
  end.

Fixpoint ops_pre (os : list op) (q : list byte) : Prop :=
  match os with
  | [] => True
  | o :: os => op_pre o q /\ ops_pre os (spec_op o q).2
  end.

Definition ops_growth (os : list op) : Z := foldr (fun o n => op_growth o + n) 0 os.

Definition refines (b : Buffer) (q : list byte) (bound : Z) : Prop :=
  wf b /\ content b = q /\ CHEAP_PREPEND <= read_index_ b /\ Zlen (buffer_ b) <= bound.

Lemma refines_appended b q bound data b' :
  refines b q bound -> appended b data b' -> refines b' (q ++ data) (bound + Zlen data).
Proof.
  intros (Hwf & <- & Hr & Hb) (Hwf' & Hc & Hl & Hr').
  pose proof (Zlen_nonneg data). destruct Hwf as (? & ? & ?).
  split_and!; [done|done|by apply Hr'|lia].
Qed.

Lemma refines_retrieve b q bound len :
  refines b q bound -> 0 <= len -> refines (retrieve b len) (zdrop len q) bound.
Proof.
  intros (Hwf & <- & Hr & Hb) Hlen.
  destruct (retrieve_spec b len Hwf Hlen) as [? ?].
  destruct (retrieve_storage b len Hwf Hlen) as [? ?].
  split_and!; [done|done|auto|lia].
Qed.

Lemma refines_retrieveAll b q bound :
  refines b q bound -> refines (retrieveAll b) [] bound.
Proof.
  intros (Hwf & _ & _ & Hb). destruct (retrieveAll_spec b Hwf).
  split_and!; [done|done|done|done].
Qed.

Lemma run_op_refines o b q bound :
  refines b q bound -> op_pre o q -> bound + op_growth o < 2 ^ 63 -> 0 <= op_growth o ->
  exists b', run_op o b = Ok ((spec_op o q).1, b') /\
    refines b' (spec_op o q).2 (bound + op_growth o).
Proof.
  intros Href Hpre Hmax Hg. pose proof Href as (Hwf & Hq & Hr & Hb).
  pose proof Hwf as (? & ? & ?).
  assert (Hlen : Zlen q = readableBytes b) by (by rewrite <- Hq, content_length).
  pose proof (Zlen_nonneg q).
  destruct o as [data|len|len| |len| |[data|e]|[n|e]];
    cbn [run_op spec_op op_pre op_growth fst snd write_result_ok] in *;
    rewrite ?Z.add_0_r.
  - destruct (append_spec b data) as (b' & -> & Ha); [done| |lia|].
    { right. rewrite writable_eq by done. lia. }
    eexists; split; [done|]. by apply (refines_appended b).
  - destruct (ensureWritableBytes_spec b len) as (b' & -> & Hwf' & Hc & ? & ? & ?);
      [done..| |lia|].
    { right. rewrite writable_eq by done. lia. }
    eexists; split; [done|]. split_and!; [done|congruence|auto|lia].
  - eexists; split; [done|]. by apply refines_retrieve.
  - eexists; split; [done|]. by eapply refines_retrieveAll.
  - unfold retrieveAsString. rewrite peek_content by (done || lia). cbn.
    rewrite Hq. eexists; split; [done|]. apply refines_retrieve; [done|lia].
  - unfold retrieveAllAsString. rewrite peek_content by (done || lia). cbn.
    rewrite Hq, ztake_ge by lia. eexists; split; [done|]. by eapply refines_retrieveAll.
  - destruct (readFd_spec b data) as (b' & -> & Ha); [done|lia| |lia|].
    { rewrite writable_eq by done. lia. }
    eexists; split; [done|]. by apply (refines_appended b).
  - by exists b.
  - eexists; split; [done|]. apply refines_retrieve; [done|lia].
  - by exists b.
Qed.

Lemma op_growth_nonneg o q : op_pre o q -> 0 <= op_growth o.
Proof.
  destruct o as [| | | | | |[]|]; cbn; intros; rewrite ?Zlen_nil; try lia;
    apply Zlen_nonneg.
Qed.

Lemma ops_growth_nonneg os q : ops_pre os q -> 0 <= ops_growth os.
Proof.
  revert q. induction os as [|o os IH]; intros q; cbn; [lia|].
  intros [Ho Hos]. apply op_growth_nonneg in Ho. apply IH in Hos. unfold ops_growth in *. lia.
Qed.

Lemma run_ops_refines os b q bound :
  refines b q bound -> ops_pre os q -> bound + ops_growth os < 2 ^ 63 ->
  exists b', run_ops os b = Ok ((spec_ops os q).1, b') /\
    refines b' (spec_ops os q).2 (bound + ops_growth os).
Proof.
  revert b q bound. induction os as [|o os IH]; intros b q bound Href Hpre Hmax; cbn in *.
  { exists b. by rewrite Z.add_0_r. }
  destruct Hpre as [Ho Hos].
  pose proof (op_growth_nonneg _ _ Ho). pose proof (ops_growth_nonneg _ _ Hos).
  unfold ops_growth in *.
  destruct (run_op_refines o b q bound) as (b1 & E1 & Href1); [done..|lia|lia|].
  rewrite E1. cbn. destruct (spec_op o q) as [out q1]. cbn in *.
  destruct (IH b1 q1 (bound + op_growth o)) as (b2 & E2 & Href2); [done|done|lia|].
  rewrite E2. cbn. destruct (spec_ops os q1) as [outs q2]. cbn in *.
  eexists; split; [done|]. by rewrite Z.add_assoc.
Qed.

Lemma make_refines init : 0 <= init -> CHEAP_PREPEND + init < 2 ^ 63 ->
  refines (make init) [] (CHEAP_PREPEND + init).
Proof.
  intros. unfold make, refines, content. unfold_sizes. rewrite Zlen_replicate by lia.
  split_and!; [lia..|done|lia|lia].
Qed.

(** ** Theorems *)

(** C25: a buffer driven by any sequence of append, ensureWritableBytes,
    retrieve, retrieveAll, retrieveAsString, retrieveAllAsString, readFd and
    writeFd calls behaves as a FIFO byte queue: no call touches memory outside
    the vector, every string handed out is the queue's, failed system calls
    change nothing, and the representation invariant holds at the end. *)
Theorem buffer_refines_byte_queue (init : Z) (os : list op) :
  0 <= init -> ops_pre os [] -> CHEAP_PREPEND + init + ops_growth os < 2 ^ 63 ->
  exists b', run_ops os (make init) = Ok ((spec_ops os []).1, b') /\
    wf b' /\ content b' = (spec_ops os []).2 /\
    Zlen (buffer_ b') <= CHEAP_PREPEND + init + ops_growth os.
Proof.
  intros Hi Hpre Hmax. pose proof (ops_growth_nonneg _ _ Hpre).
  destruct (run_ops_refines os (make init) [] (CHEAP_PREPEND + init))
    as (b' & E & Hwf & Hc & _ & Hb); [apply make_refines; lia|done..|].
  by exists b'.
Qed.

Definition demo_ops : list op :=
  [OpAppend [Byte.x61; Byte.x62; Byte.x63; Byte.x64]; OpRetrieveAsString 3;
   OpReadFd (ReadOk [Byte.x65; Byte.x66; Byte.x67; Byte.x68; Byte.x69]);
   OpReadFd (ReadErr EAGAIN); OpWriteFd (WriteOk 2); OpRetrieveAllAsString].

Lemma buffer_refines_byte_queue_witness :
  exists b', run_ops demo_ops (make 4)
    = Ok ([[]; [Byte.x61; Byte.x62; Byte.x63]; []; []; [];
           [Byte.x66; Byte.x67; Byte.x68; Byte.x69]], b') /\
    wf b' /\ content b' = [] /\ Zlen (buffer_ b') <= 21.
Proof.
  apply (buffer_refines_byte_queue 4 demo_ops);
    [lia|cbv; intuition discriminate|reflexivity].
Defined.

(** C35: [append] on a well-formed buffer is decided by one condition: when the
    data fits the writable tail, or the tail covers the part of the 8 prepend
    bytes in use, the call returns a well-formed buffer holding the old content
    followed by the data; otherwise [read_index_ - CHEAP_PREPEND] wraps around
    in [makeSpace] and the call writes outside the vector (undefined
    behaviour). *)
Theorem append_defined_iff (b : Buffer) (data : list byte) :
  wf b -> write_index_ b + Zlen data < 2 ^ 63 ->
  if decide (append_safe b (Zlen data))
  then exists b', append b data = Ok b' /\ wf b' /\ content b' = content b ++ data
  else append b data = Undef.
Proof.
  intros Hwf Hmax. case_decide as Hs.
  - destruct (append_spec b data Hwf Hs Hmax) as (b' & E & Hwf' & Hc & _).
    by exists b'.
  - by apply append_overflow.
Qed.

(** A buffer of 8 bytes filled to the end and given a 4-byte header. *)
Definition headed : outcome Buffer :=
  let! b := append (make 8) (replicate 8 Byte.x2a) in
  prepend b [Byte.x00; Byte.x00; Byte.x00; Byte.x08].

Lemma append_defined_iff_witness :
  exists b, headed = Ok b /\ append b (replicate 3 Byte.x2b) = Undef.
Proof.
  eexists. split; [vm_compute; reflexivity|].
  match goal with |- append ?b ?d = _ =>
    pose proof (append_defined_iff b d
      ltac:(vm_compute; intuition discriminate) ltac:(reflexivity)) as T end.
  rewrite decide_False in T by (vm_compute; intuition). exact T.
Defined.

(** [prepend] puts the data in front of the content when it fits the
    prependable bytes, using up exactly that much of them, and otherwise leaves
    the buffer as it is; it never leaves the storage. *)
Theorem prepend_in_front (b : Buffer) (data : list byte) : wf b ->
  exists b', prepend b data = Ok b' /\ wf b' /\
    if decide (Zlen data <= prependableBytes b)
    then content b' = data ++ content b /\
         prependableBytes b' = prependableBytes b - Zlen data
    else b' = b.
Proof.
  intros Hwf. destruct (prepend_Ok b data Hwf) as (b' & E & Hwf' & _ & _ & H).
  by exists b'.
Qed.

Lemma prepend_in_front_witness :
  exists b', prepend (make 8) [Byte.x01; Byte.x02] = Ok b' /\ wf b' /\
    content b' = [Byte.x01; Byte.x02] /\ prependableBytes b' = 6.
Proof.
  destruct (prepend_in_front (make 8) [Byte.x01; Byte.x02]
    ltac:(vm_compute; intuition discriminate)) as (b' & E & Hwf & T).
  rewrite decide_True in T by (vm_compute; discriminate). exists b'.
  destruct T as [Hc Hp]. split_and!; [exact E|apply Hwf..|exact Hc|exact Hp].
Defined.
