(* ===== verification/Endian.v ===== *)
(** * Endian: 16- and 32-bit integers in memory and in network order

    The integers that net/protobuf/Codec.cpp copies to and from a byte buffer
    with [memcpy], and the ports that net/InetAddress.cpp keeps in network
    order.  The host is little-endian, as the Linux targets of the build are. *)
From Stdlib Require Import ZArith Lia List Strings.Byte.
From stdpp Require Import base option list numbers tactics.
From S2P Require Import Prelude.
Open Scope Z_scope.

#[global] Instance byte_eq_decision : EqDecision byte := Byte.byte_eq_dec.

Definition byte_to_Z (b : byte) : Z := Z.of_N (Byte.to_N b).
Definition byte_of_Z (z : Z) : byte :=
  match Byte.of_N (Z.to_N (z mod 256)) with Some b => b | None => Byte.x00 end.

Lemma byte_to_Z_range b : 0 <= byte_to_Z b < 256.
Proof. unfold byte_to_Z. pose proof (Byte.to_N_bounded b). lia. Qed.

Lemma byte_to_of_Z z : byte_to_Z (byte_of_Z z) = z mod 256.
Proof.
  unfold byte_to_Z, byte_of_Z.
  pose proof (Z.mod_pos_bound z 256 ltac:(lia)) as Hb.
  destruct (Byte.of_N _) as [b|] eqn:E.
  - apply Byte.to_of_N in E. rewrite E. lia.
  - apply Byte.of_N_None_iff in E. lia.
Qed.

Lemma byte_of_to_Z b : byte_of_Z (byte_to_Z b) = b.
Proof.
  unfold byte_of_Z. rewrite Z.mod_small by apply byte_to_Z_range.
  unfold byte_to_Z. rewrite N2Z.id, Byte.of_to_N. done.
Qed.

(** The value of the bytes of an integer, least significant byte first. *)
Definition le_value (m : list byte) : Z :=
  foldr (fun b z => byte_to_Z b + 256 * z) 0 m.

(** [memcpy(p, &z, 4)] and [memcpy(&z, p, 4)] for an [int32_t]. *)
Definition mem_of_int32 (z : Z) : list byte :=
  [byte_of_Z z; byte_of_Z (z / 2 ^ 8); byte_of_Z (z / 2 ^ 16); byte_of_Z (z / 2 ^ 24)].
Definition int32_of_mem (m : list byte) : Z := to_int32 (le_value m).

(** [htobe32] and [be32toh] take and return a [uint32_t] and swap its bytes. *)
Definition bswap32 (z : Z) : Z :=
  (z mod 2 ^ 8) * 2 ^ 24 + (z / 2 ^ 8 mod 2 ^ 8) * 2 ^ 16
  + (z / 2 ^ 16 mod 2 ^ 8) * 2 ^ 8 + z / 2 ^ 24 mod 2 ^ 8.
Definition htobe32 (z : Z) : Z := bswap32 (to_uint32 z).
Definition be32toh (z : Z) : Z := bswap32 (to_uint32 z).

(** [htons] and [ntohs] on a [uint16_t]. *)
Definition bswap16 (z : Z) : Z := (z mod 2 ^ 8) * 2 ^ 8 + z / 2 ^ 8 mod 2 ^ 8.
Definition htons (z : Z) : Z := bswap16 (z mod 2 ^ 16).
Definition ntohs (z : Z) : Z := bswap16 (z mod 2 ^ 16).

Ltac div_mod_lia := Z.div_mod_to_equations; lia.

Lemma Zlen_mem_of_int32 z : Zlen (mem_of_int32 z) = 4.
Proof. reflexivity. Qed.
#[export] Hint Rewrite Zlen_mem_of_int32 : zlist.

Lemma le_value_mem z : le_value (mem_of_int32 z) = z mod 2 ^ 32.
Proof.
  unfold le_value, mem_of_int32. cbn [foldr]. rewrite !byte_to_of_Z. div_mod_lia.
Qed.

Lemma int32_of_mem_of_int32 z : int32_of_mem (mem_of_int32 z) = to_int32 z.
Proof.
  unfold int32_of_mem. rewrite le_value_mem. unfold to_int32.
  by rewrite Zplus_mod_idemp_l.
Qed.

Lemma bswap32_range z : 0 <= bswap32 z < 2 ^ 32.
Proof. unfold bswap32. div_mod_lia. Qed.

Lemma bswap32_involutive z : 0 <= z < 2 ^ 32 -> bswap32 (bswap32 z) = z.
Proof.
  intros Hz.
  pose proof (Z.mod_pos_bound z (2 ^ 8) ltac:(lia)) as Ha.
  pose proof (Z.mod_pos_bound (z / 2 ^ 8) (2 ^ 8) ltac:(lia)) as Hb.
  pose proof (Z.mod_pos_bound (z / 2 ^ 16) (2 ^ 8) ltac:(lia)) as Hc.
  pose proof (Z.mod_pos_bound (z / 2 ^ 24) (2 ^ 8) ltac:(lia)) as Hd.
  assert (Hsum : z = z mod 2 ^ 8 + 2 ^ 8 * (z / 2 ^ 8 mod 2 ^ 8)
    + 2 ^ 16 * (z / 2 ^ 16 mod 2 ^ 8) + 2 ^ 24 * (z / 2 ^ 24 mod 2 ^ 8)) by div_mod_lia.
  unfold bswap32 at 2.
  generalize dependent (z mod 2 ^ 8). generalize dependent (z / 2 ^ 8 mod 2 ^ 8).
  generalize dependent (z / 2 ^ 16 mod 2 ^ 8). generalize dependent (z / 2 ^ 24 mod 2 ^ 8).
  intros d Hd c Hc b Hb a Ha ->. unfold bswap32. div_mod_lia.
Qed.

(** A value sent in network order and read back. *)
Lemma be32_roundtrip z : - 2 ^ 31 <= z < 2 ^ 31 ->
  to_int32 (be32toh (int32_of_mem (mem_of_int32 (to_int32 (htobe32 z))))) = z.
Proof.
  intros Hz. rewrite int32_of_mem_of_int32.
  assert (Hu : forall x, 0 <= x < 2 ^ 32 -> to_uint32 (to_int32 (to_int32 x)) = x).
  { intros x Hx. unfold to_uint32, to_int32. div_mod_lia. }
  unfold be32toh, htobe32. rewrite Hu by apply bswap32_range.
  rewrite bswap32_involutive by (unfold to_uint32; apply Z.mod_pos_bound; lia).
  unfold to_int32, to_uint32. div_mod_lia.
Qed.

Lemma ntohs_htons port : 0 <= port < 2 ^ 16 -> ntohs (htons port) = port.
Proof. intros. unfold ntohs, htons, bswap16. div_mod_lia. Qed.

(** Reading a big-endian [int32_t] through a pointer, and storing one. *)
Definition load_be32 (m : list byte) : Z := to_int32 (be32toh (int32_of_mem m)).
Definition store_be32 (z : Z) : list byte := mem_of_int32 (to_int32 (htobe32 z)).

Lemma load_store_be32 z : - 2 ^ 31 <= z < 2 ^ 31 -> load_be32 (store_be32 z) = z.
Proof. apply be32_roundtrip. Qed.

#[global] Arguments store_be32 : simpl never.
#[global] Arguments load_be32 : simpl never.

Lemma Zlen_store_be32 z : Zlen (store_be32 z) = 4.
Proof. reflexivity. Qed.
#[export] Hint Rewrite Zlen_store_be32 : zlist.

(** The bytes on the wire are the big-endian ones. *)
Example store_be32_wire :
  store_be32 16909060 = [Byte.x01; Byte.x02; Byte.x03; Byte.x04].
Proof. reflexivity. Qed.
Example store_be32_negative :
  store_be32 (-2) = [Byte.xff; Byte.xff; Byte.xff; Byte.xfe] /\ load_be32 (store_be32 (-2)) = -2.
Proof. split; reflexivity. Qed.
