(* ===== verification/Codec.v ===== *)
(** * Codec: framing of protobuf messages (net/protobuf/Codec.hpp, Codec.cpp)

    A frame is [total_len (be32) | name_len (be32) | type name | payload |
    adler32 (be32)].  [Encode] writes one behind the content of a buffer,
    [Decode] consumes one from its front.  Google protobuf and zlib are not
    part of the sources: they are the fields of the class [Protobuf]. *)
From Stdlib Require Import ZArith Lia List.
From stdpp Require Import base option list numbers tactics.
From S2P Require Import Prelude.
From S2P Require Import Buffer.
From S2P Require Import Endian.
Open Scope Z_scope.
Open Scope outcome_scope.

(** ** The libraries the codec calls *)
Class Protobuf := {
  Message : Type;
  Descriptor : Type;
  Prototype : Type;
  GetDescriptor : Message -> Descriptor;
  GetTypeName : Message -> list byte;
  ByteSizeLong : Message -> Z;
  (** [SerializeToArray(p, size)]: the bytes stored at [p], [None] for [false]. *)
  SerializeToArray : Message -> Z -> option (list byte);
  (** [ParseFromArray] on a fresh message, [None] for [false]. *)
  ParseFromArray : Message -> list byte -> option Message;
  FindMessageTypeByName : list byte -> option Descriptor;
  GetPrototype : Descriptor -> option Prototype;
  New : Prototype -> Message;
  (** zlib's [adler32(adler, buf, len)]. *)
  adler32 : Z -> list byte -> Z;
}.

Definition INT32_SIZE : Z := 4.
Definition HEADER_LEN : Z := INT32_SIZE.
Definition NAME_LEN_SIZE : Z := INT32_SIZE.
Definition CHECKSUM_LEN : Z := INT32_SIZE.
Definition MIN_LEN : Z := 9.
Definition MAX_LEN : Z := 64 * 1024 * 1024.

Inductive DecodeState : Type :=
| SUCCESS | INCOMPLETE | CHECKSUM_ERROR | INVALID_NAME | DECODE_ERROR.

#[global] Instance DecodeState_eq_dec : EqDecision DecodeState.
Proof. solve_decision. Defined.

Section Codec.
Context {PB : Protobuf}.

Definition createMessage (type_name : list byte) : option Message :=
  match FindMessageTypeByName type_name with
  | Some descriptor =>
      match GetPrototype descriptor with
      | Some prototype => Some (New prototype)
      | None => None
      end
  | None => None
  end.

Definition CalculateAdler32 (buffer : list byte) : Z := to_int32 (adler32 1 buffer).

(** An access of [len] bytes at [data + off], where [data] is [buffer.peek()]. *)
Definition read_at (b : Buffer) (off len : Z) : outcome (list byte) :=
  read_range (peek b + off) len (buffer_ b).

Definition Decode (buffer : Buffer) : outcome (DecodeState * option Message * Buffer) :=
  if readableBytes buffer <? HEADER_LEN then Ok (INCOMPLETE, None, buffer) else
  let! head := read_at buffer 0 HEADER_LEN in
  let total_len := load_be32 head in
  if (total_len <? to_int32 MIN_LEN) || (to_int32 MAX_LEN <? total_len) then
    Ok (DECODE_ERROR, None, retrieveAll buffer) else
  if readableBytes buffer <? to_size (HEADER_LEN + to_size total_len) then
    Ok (INCOMPLETE, None, buffer) else
  let! sum := read_at buffer (HEADER_LEN + total_len - CHECKSUM_LEN) CHECKSUM_LEN in
  let expected_checksum := load_be32 sum in
  let! covered := read_at buffer HEADER_LEN (to_int32 (to_size (total_len - CHECKSUM_LEN))) in
  let actual_checksum := CalculateAdler32 covered in
  if negb (actual_checksum =? expected_checksum) then
    Ok (CHECKSUM_ERROR, None, retrieve buffer (to_size (HEADER_LEN + total_len))) else
  let! nlen := read_at buffer HEADER_LEN NAME_LEN_SIZE in
  let name_len := load_be32 nlen in
  if (name_len <=? 0)
     || (to_int32 (to_size (total_len - NAME_LEN_SIZE - CHECKSUM_LEN)) <? name_len) then
    Ok (DECODE_ERROR, None, retrieve buffer (to_size (HEADER_LEN + total_len))) else
  let! name := read_at buffer (HEADER_LEN + NAME_LEN_SIZE) name_len in
  match createMessage name with
  | None => Ok (INVALID_NAME, None, retrieve buffer (to_size (HEADER_LEN + total_len)))
  | Some msg =>
      let serialized_data_offset := to_size (HEADER_LEN + NAME_LEN_SIZE + name_len) in
      let serialized_data_len :=
        to_size (total_len - NAME_LEN_SIZE - name_len - CHECKSUM_LEN) in
      let! body := read_at buffer serialized_data_offset (to_int32 serialized_data_len) in
      match ParseFromArray msg body with
      | None => Ok (DECODE_ERROR, None, retrieve buffer (to_size (HEADER_LEN + total_len)))
      | Some parsed =>
          Ok (SUCCESS, Some parsed, retrieve buffer (to_size (HEADER_LEN + total_len)))
      end
  end.

Definition Encode (msg : Message) (out : Buffer) : outcome Buffer :=
  let type_name := GetTypeName msg in
  let payload_size := to_int32 (ByteSizeLong msg) in
  let name_len := to_int32 (Zlen type_name) in
  let total_size :=
    to_int32 (to_size (NAME_LEN_SIZE + name_len + payload_size + CHECKSUM_LEN)) in
  let! out := ensureWritableBytes out (to_size (total_size + HEADER_LEN)) in
  let writer_ptr := beginWrite out in
  let! out := copy_to out writer_ptr (store_be32 total_size) in
  let pos := HEADER_LEN in
  let! out := copy_to out (writer_ptr + pos) (store_be32 name_len) in
  let pos := pos + NAME_LEN_SIZE in
  let! out := copy_to out (writer_ptr + pos) type_name in
  let pos := pos + name_len in
  match SerializeToArray msg payload_size with
  | None => Ok out
  | Some payload =>
      let! out := copy_to out (writer_ptr + pos) payload in
      let pos := pos + payload_size in
      let! covered := read_range (writer_ptr + HEADER_LEN)
                        (to_int32 (to_size (total_size - CHECKSUM_LEN))) (buffer_ out) in
      let secret := CalculateAdler32 covered in
      let! out := copy_to out (writer_ptr + pos) (store_be32 secret) in
      Ok (hasWritten out (to_size (total_size + HEADER_LEN)))
  end.

(** ** What a frame is, and what decoding one byte string means *)
Definition frame_body (msg : Message) (payload : list byte) : list byte :=
  store_be32 (Zlen (GetTypeName msg)) ++ GetTypeName msg ++ payload.

Definition frame (msg : Message) (payload : list byte) : list byte :=
  store_be32 (Zlen (frame_body msg payload) + CHECKSUM_LEN)
  ++ frame_body msg payload
  ++ store_be32 (CalculateAdler32 (frame_body msg payload)).

#[global] Arguments frame_body : simpl never.
#[global] Arguments frame : simpl never.

(** The specification of [Decode] on the readable bytes [q]: the verdict, the
    message and how many bytes are consumed. *)
Definition decode_spec (q : list byte) : DecodeState * option Message * Z :=
  if Zlen q <? 4 then (INCOMPLETE, None, 0) else
  let total := load_be32 (ztake 4 q) in
  if (total <? 9) || (67108864 <? total) then (DECODE_ERROR, None, Zlen q) else
  if Zlen q <? 4 + total then (INCOMPLETE, None, 0) else
  let body := ztake (total - 4) (zdrop 4 q) in
  let sum := load_be32 (ztake 4 (zdrop total q)) in
  let name_len := load_be32 (ztake 4 body) in
  if negb (CalculateAdler32 body =? sum) then (CHECKSUM_ERROR, None, 4 + total) else
  if (name_len <=? 0) || (total - 8 <? name_len) then (DECODE_ERROR, None, 4 + total) else
  match createMessage (ztake name_len (zdrop 4 body)) with
  | None => (INVALID_NAME, None, 4 + total)
  | Some msg =>
      match ParseFromArray msg (zdrop (4 + name_len) body) with
      | None => (DECODE_ERROR, None, 4 + total)
      | Some parsed => (SUCCESS, Some parsed, 4 + total)
      end
  end.

(** ** [Decode] implements [decode_spec] and stays inside the readable bytes *)
Lemma read_at_content b off len :
  wf b -> 0 <= off -> 0 <= len -> off + len <= readableBytes b ->
  read_at b off len = Ok (ztake len (zdrop off (content b))).
Proof.
  intros Hwf Ho Hl Hle. rewrite readable_eq in Hle by done.
  unfold read_at, peek, content. destruct Hwf as (? & ? & ?).
  rewrite read_range_Ok by lia. f_equal.
  rewrite (ztake_zdrop_comm (write_index_ b - _)), zdrop_zdrop by lia.
  rewrite !ztake_zdrop_comm by lia. rewrite ztake_ztake by lia. done.
Qed.

Lemma to_size_sub z k : 0 <= k <= z -> z < 2 ^ 31 -> to_int32 (to_size (z - k)) = z - k.
Proof. intros. rewrite to_size_small, to_int32_small; lia. Qed.

(** The call ends with the verdict and message of [r], having consumed its
    number of bytes; nothing consumed means the buffer was not touched. *)
Definition decodes_to (b : Buffer) (call : outcome (DecodeState * option Message * Buffer))
    (r : DecodeState * option Message * Z) : Prop :=
  let '(st, msg, n) := r in
  exists b', call = Ok (st, msg, b') /\ wf b' /\
    content b' = zdrop n (content b) /\ 0 <= n <= Zlen (content b) /\
    same_storage b b' /\ (n = 0 -> b' = b).

Lemma decodes_to_keep b st msg : wf b ->
  decodes_to b (Ok (st, msg, b)) (st, msg, 0).
Proof.
  intros Hwf. exists b. pose proof (Zlen_nonneg (content b)).
  split_and!; done || lia || apply same_storage_refl.
Qed.

Lemma decodes_to_all b st msg : wf b -> 0 < Zlen (content b) ->
  decodes_to b (Ok (st, msg, retrieveAll b)) (st, msg, Zlen (content b)).
Proof.
  intros Hwf Hpos. destruct (retrieveAll_spec b Hwf) as [? Hc].
  eexists; split_and!; try done; try lia.
  by rewrite Hc, zdrop_ge by lia.
Qed.

Lemma decodes_to_frame b st msg n : wf b -> 0 < n <= Zlen (content b) ->
  decodes_to b (Ok (st, msg, retrieve b n)) (st, msg, n).
Proof.
  intros Hwf Hn. destruct (retrieve_spec b n Hwf) as [? ?]; [lia|].
  eexists; split_and!; done || lia || (apply retrieve_storage; [done|lia]).
Qed.

(** A field of the frame is read in place of a field of its body. *)
Lemma ztake_zdrop_within off n len start (l : list byte) :
  0 <= off -> 0 <= n -> off + n <= len -> 0 <= start ->
  ztake n (zdrop (start + off) l) = ztake n (zdrop off (ztake len (zdrop start l))).
Proof.
  intros ????. rewrite (ztake_zdrop_comm n off (ztake _ _)), ztake_ztake by lia.
  by rewrite <- ztake_zdrop_comm, zdrop_zdrop by lia.
Qed.

Lemma Decode_refines b : wf b -> decodes_to b (Decode b) (decode_spec (content b)).
Proof.
  intros Hwf. pose proof (content_length b Hwf) as Hl.
  unfold Decode, decode_spec. rewrite <- Hl.
  unfold HEADER_LEN, NAME_LEN_SIZE, CHECKSUM_LEN, INT32_SIZE, MAX_LEN, MIN_LEN.
  destruct (Z.ltb_spec (Zlen (content b)) 4) as [|H4].
  { by apply decodes_to_keep. }
  rewrite (read_at_content b 0 4) by (done || lia).
  cbn [mbind outcome_bind]. rewrite zdrop_0.
  set (total := load_be32 (ztake 4 (content b))).
  change (to_int32 9) with 9. change (to_int32 (64 * 1024 * 1024)) with 67108864.
  destruct (Z.ltb_spec total 9) as [|Hmin]; cbn [orb].
  { apply decodes_to_all; [done|lia]. }
  destruct (Z.ltb_spec 67108864 total) as [|Hmax].
  { apply decodes_to_all; [done|lia]. }
  rewrite (to_size_small total), !(to_size_small (4 + total)) by lia.
  destruct (Z.ltb_spec (Zlen (content b)) (4 + total)) as [|Hall].
  { by apply decodes_to_keep. }
  rewrite (read_at_content b (4 + total - 4) 4), (to_size_sub total 4),
    (read_at_content b 4 (total - 4)) by (done || lia).
  cbn [mbind outcome_bind]. replace (4 + total - 4) with total by lia.
  rewrite (read_at_content b 4 4) by (done || lia). cbn [mbind outcome_bind].
  set (body := ztake (total - 4) (zdrop 4 (content b))).
  pose proof (fun off n => ztake_zdrop_within off n (total - 4) 4 (content b)) as Hsub.
  fold body in Hsub. pose proof (Hsub 0 4 ltac:(lia) ltac:(lia) ltac:(lia) ltac:(lia)) as Hn.
  change (4 + 0) with 4 in Hn. rewrite Hn, zdrop_0. clear Hn.
  set (name_len := load_be32 (ztake 4 body)).
  destruct (negb _); [by apply decodes_to_frame; [|lia]|].
  replace (total - 4 - 4) with (total - 8) by lia. rewrite (to_size_sub total 8) by lia.
  destruct (Z.leb_spec name_len 0); cbn [orb]; [by apply decodes_to_frame; [|lia]|].
  destruct (Z.ltb_spec (total - 8) name_len); [by apply decodes_to_frame; [|lia]|].
  rewrite (read_at_content b (4 + 4) name_len), (Hsub 4 name_len) by (done || lia).
  cbn [mbind outcome_bind].
  destruct (createMessage _) as [m|]; [|by apply decodes_to_frame; [|lia]].
  replace (total - 4 - name_len - 4) with (total - (8 + name_len)) by lia.
  rewrite (to_size_sub total (8 + name_len)), to_size_small by lia.
  rewrite (read_at_content b (4 + 4 + name_len)) by (done || lia).
  replace (4 + 4 + name_len) with (4 + (4 + name_len)) by lia.
  rewrite Hsub by lia. cbn [mbind outcome_bind].
  rewrite (ztake_ge _ (zdrop (4 + name_len) body)).
  2: { subst body. rewrite Zlen_zdrop; rewrite Zlen_ztake; rewrite ?Zlen_zdrop; lia. }
  destruct (ParseFromArray _ _); by apply decodes_to_frame; [|lia].
Qed.

(** ** [Encode] appends one frame *)

(** A message the codec can frame, with its serialisation: the lookups and the
    parser of the protobuf library undo the type name and the payload, and the
    32-bit length fields can hold the sizes. *)
Record encodable (msg : Message) (payload : list byte) : Prop := {
  enc_serialize : SerializeToArray msg (ByteSizeLong msg) = Some payload;
  enc_size : Zlen payload = ByteSizeLong msg;
  enc_name : GetTypeName msg <> [];
  enc_fits : Zlen (GetTypeName msg) + Zlen payload + 12 < 2 ^ 31;
}.

Record decodable (msg : Message) (payload : list byte) : Prop := {
  dec_encodable : encodable msg payload;
  dec_create : exists fresh, createMessage (GetTypeName msg) = Some fresh /\
    ParseFromArray fresh payload = Some msg;
  dec_fits : Zlen (GetTypeName msg) + Zlen payload + 8 <= MAX_LEN;
}.

(** Writing behind what has just been written. *)
Lemma copy_to_snoc b w d1 d2 b1 :
  0 <= w -> w + Zlen d1 + Zlen d2 <= Zlen (buffer_ b) ->
  copy_to b w d1 = Ok b1 -> copy_to b1 (w + Zlen d1) d2 = copy_to b w (d1 ++ d2).
Proof.
  intros Hw Hle H. pose proof (Zlen_nonneg d1). pose proof (Zlen_nonneg d2).
  unfold copy_to in *. rewrite write_range_Ok in H by lia.
  cbn [mbind outcome_bind] in H. inv_ok. cbn [buffer_ write_index_ read_index_].
  rewrite app_assoc, write_range_app, write_range_Ok.
  - cbn [mbind outcome_bind]. rewrite zdrop_zdrop, Zlen_app by lia.
    by rewrite <- !app_assoc, Z.add_assoc.
  - done.
  - rewrite Zlen_app. lia.
  - autorewrite with zlist. lia.
  - rewrite Zlen_zdrop; lia.
Qed.

Lemma copy_to_nil b w : 0 <= w <= Zlen (buffer_ b) -> copy_to b w [] = Ok b.
Proof.
  intros Hw. unfold copy_to. rewrite write_range_Ok by (rewrite ?Zlen_nil; lia).
  cbn. rewrite Zlen_nil, Z.add_0_r, ztake_zdrop. by destruct b.
Qed.

Lemma copy_to_read b w d1 d2 b1 :
  0 <= w -> copy_to b w (d1 ++ d2) = Ok b1 ->
  read_range (w + Zlen d1) (Zlen d2) (buffer_ b1) = Ok d2.
Proof.
  intros Hw H. pose proof (Zlen_nonneg d1). pose proof (Zlen_nonneg d2).
  unfold copy_to, write_range in H.
  destruct (Z.leb_spec (w + Zlen (d1 ++ d2)) (Zlen (buffer_ b))) as [Hle|];
    [|by rewrite andb_false_r in H].
  rewrite (proj2 (Z.leb_le 0 w) Hw) in H. cbn in H. inv_ok. cbn [buffer_].
  rewrite Zlen_app in *. rewrite <- app_assoc, (app_assoc _ d1).
  rewrite read_range_Ok; [|lia..|].
  - rewrite zdrop_app by (autorewrite with zlist; lia). by rewrite ztake_app.
  - autorewrite with zlist. lia.
Qed.

Lemma Zlen_frame_body msg payload :
  Zlen (frame_body msg payload) = 4 + Zlen (GetTypeName msg) + Zlen payload.
Proof. unfold frame_body. autorewrite with zlist. lia. Qed.

Lemma Zlen_frame msg payload :
  Zlen (frame msg payload) = 12 + Zlen (GetTypeName msg) + Zlen payload.
Proof. unfold frame. autorewrite with zlist. rewrite Zlen_frame_body. lia. Qed.

(** One write of [Encode]: the data written so far grows by [d]. *)
Lemma encode_step b w sofar b1 off d :
  0 <= w -> copy_to b w sofar = Ok b1 -> off = w + Zlen sofar ->
  w + Zlen sofar + Zlen d <= Zlen (buffer_ b) ->
  exists b2, copy_to b1 off d = Ok b2 /\ copy_to b w (sofar ++ d) = Ok b2.
Proof.
  intros Hw H -> Hle. rewrite (copy_to_snoc b w sofar d b1) by done.
  pose proof (Zlen_nonneg sofar). pose proof (Zlen_nonneg d).
  unfold copy_to. rewrite write_range_Ok by (rewrite ?Zlen_app; lia).
  eexists; split; reflexivity.
Qed.

Lemma Encode_spec msg payload out :
  encodable msg payload -> wf out ->
  append_safe out (Zlen (frame msg payload)) ->
  write_index_ out + Zlen (frame msg payload) < 2 ^ 63 ->
  exists out', Encode msg out = Ok out' /\ appended out (frame msg payload) out'.
Proof.
  intros [Hser Hsz Hname Hfit] Hwf Hsafe Hmax.
  pose proof (Zlen_nonneg (GetTypeName msg)). pose proof (Zlen_nonneg payload).
  pose proof (Zlen_frame msg payload) as Hf.
  set (N := Zlen (GetTypeName msg)) in *. set (P := Zlen payload) in *.
  unfold Encode. fold N. rewrite <- Hsz in *.
  unfold HEADER_LEN, NAME_LEN_SIZE, CHECKSUM_LEN, INT32_SIZE, beginWrite.
  rewrite (to_int32_small P), (to_int32_small N) by lia.
  rewrite (to_size_small (4 + N + P + 4)) by lia.
  rewrite (to_int32_small (4 + N + P + 4)) by lia.
  rewrite (to_size_small (4 + N + P + 4 + 4)) by lia.
  replace (4 + N + P + 4 + 4) with (Zlen (frame msg payload)) by lia.
  destruct (ensureWritableBytes_spec out (Zlen (frame msg payload)))
    as (b & -> & Hroom); [done|lia|done..|]. pose proof Hroom as (Hwfb & _ & Hwb & _).
  cbn [mbind outcome_bind]. pose proof Hwfb as (? & ? & ?).
  rewrite writable_eq in Hwb by done. set (w := write_index_ b) in *.
  destruct (encode_step b w [] b w (store_be32 (4 + N + P + 4))) as (b1 & -> & W1);
    [lia|apply copy_to_nil; lia|rewrite Zlen_nil; lia|autorewrite with zlist; lia|].
  cbn [mbind outcome_bind app] in *.
  destruct (encode_step b w _ b1 (w + 4) (store_be32 N) ltac:(lia) W1) as (b2 & -> & W2);
    [done|autorewrite with zlist; lia|]. cbn [mbind outcome_bind].
  destruct (encode_step b w _ b2 (w + (4 + 4)) (GetTypeName msg) ltac:(lia) W2)
    as (b3 & -> & W3); [done|autorewrite with zlist; lia|]. cbn [mbind outcome_bind].
  rewrite Hser.
  destruct (encode_step b w _ b3 (w + (4 + 4 + N)) payload ltac:(lia) W3)
    as (b4 & -> & W4); [autorewrite with zlist; lia..|]. cbn [mbind outcome_bind].
  replace (((store_be32 (4 + N + P + 4) ++ store_be32 N) ++ GetTypeName msg) ++ payload)
    with (store_be32 (4 + N + P + 4) ++ frame_body msg payload) in W4
    by (unfold frame_body; fold N; by rewrite <- !app_assoc).
  rewrite (to_size_sub (4 + N + P + 4) 4) by lia.
  replace (4 + N + P + 4 - 4) with (Zlen (frame_body msg payload))
    by (rewrite Zlen_frame_body; lia).
  pose proof (copy_to_read b w (store_be32 (4 + N + P + 4)) _ b4 ltac:(lia) W4) as Hread.
  rewrite Zlen_store_be32 in Hread. rewrite Hread.
  cbn [mbind outcome_bind].
  destruct (encode_step b w _ b4 (w + (4 + 4 + N + P))
    (store_be32 (CalculateAdler32 (frame_body msg payload))) ltac:(lia) W4)
    as (b5 & -> & W5);
    [autorewrite with zlist; rewrite Zlen_frame_body; lia..|]. cbn [mbind outcome_bind].
  replace (_ ++ _) with (frame msg payload) in W5
    by (unfold frame; rewrite <- app_assoc, Zlen_frame_body; do 2 f_equal; lia).
  eexists; split; [done|]. by eapply fill_appended.
Qed.

(** ** Decoding a frame, and a part of one *)
Lemma load_store_app z rest : - 2 ^ 31 <= z < 2 ^ 31 ->
  load_be32 (ztake 4 (store_be32 z ++ rest)) = z.
Proof. intros. rewrite ztake_app by done. by apply load_store_be32. Qed.

Lemma CalculateAdler32_range m : - 2 ^ 31 <= CalculateAdler32 m < 2 ^ 31.
Proof. apply to_int32_range. Qed.

(** The [total_len] field of a frame, from any prefix that contains it. *)
Lemma frame_total msg payload q rest :
  encodable msg payload -> q ++ rest = frame msg payload -> 4 <= Zlen q ->
  load_be32 (ztake 4 q) = Zlen (frame msg payload) - 4.
Proof.
  intros [_ _ _ Hfit] Hq H4.
  pose proof (Zlen_nonneg (GetTypeName msg)). pose proof (Zlen_nonneg payload).
  assert (E : ztake 4 q = ztake 4 (frame msg payload)).
  { by rewrite <- Hq, ztake_app_le. }
  rewrite E. unfold frame at 1. rewrite load_store_app;
    rewrite Zlen_frame_body, ?Zlen_frame; unfold CHECKSUM_LEN, INT32_SIZE; lia.
Qed.

Lemma decode_spec_partial msg payload q q' :
  decodable msg payload -> q ++ q' = frame msg payload -> q' <> [] ->
  decode_spec q = (INCOMPLETE, None, 0).
Proof.
  intros [He _ Hmax] Hq Hq'. unfold decode_spec.
  destruct (Z.ltb_spec (Zlen q) 4) as [|H4]; [done|].
  rewrite (frame_total msg payload q q') by done.
  assert (Hl : Zlen q + Zlen q' = Zlen (frame msg payload)) by (by rewrite <- Hq, Zlen_app).
  assert (0 < Zlen q').
  { destruct q'; [done|]. rewrite Zlen_cons. pose proof (Zlen_nonneg q'). lia. }
  destruct He as [_ _ Hname _]. rewrite Zlen_frame in *. unfold MAX_LEN in Hmax.
  assert (0 < Zlen (GetTypeName msg)).
  { destruct (GetTypeName msg) as [|c n]; [done|].
    rewrite Zlen_cons. pose proof (Zlen_nonneg n). lia. }
  pose proof (Zlen_nonneg payload). decide_bools. done.
Qed.

Lemma decode_spec_frame msg payload rest :
  decodable msg payload ->
  decode_spec (frame msg payload ++ rest) = (SUCCESS, Some msg, Zlen (frame msg payload)).
Proof.
  intros [He (fresh & Hcr & Hpa) Hmax]. unfold decode_spec.
  pose proof (Zlen_nonneg rest). pose proof (Zlen_nonneg payload).
  pose proof (Zlen_frame msg payload) as Hf. pose proof (Zlen_frame_body msg payload) as Hfb.
  unfold MAX_LEN in Hmax. set (N := Zlen (GetTypeName msg)) in *.
  assert (HN : 0 < N).
  { destruct He as [_ _ Hname _]. subst N. destruct (GetTypeName msg) as [|c n]; [done|].
    rewrite Zlen_cons. pose proof (Zlen_nonneg n). lia. }
  rewrite ztake_app_le by lia.
  rewrite (frame_total msg payload (frame msg payload) []) by (rewrite ?app_nil_r; done || lia).
  rewrite Zlen_app. decide_bools. cbn [orb].
  assert (Hbody : ztake (Zlen (frame msg payload) - 4 - 4)
      (zdrop 4 (frame msg payload ++ rest)) = frame_body msg payload).
  { rewrite zdrop_app_le by lia. rewrite ztake_app_le by (rewrite Zlen_zdrop; lia).
    unfold frame at 2. rewrite zdrop_app by done. apply ztake_app. lia. }
  assert (Hsum : ztake 4 (zdrop (Zlen (frame msg payload) - 4) (frame msg payload ++ rest))
     = store_be32 (CalculateAdler32 (frame_body msg payload))).
  { rewrite zdrop_app_le by lia. unfold frame at 2.
    rewrite app_assoc, zdrop_app by (autorewrite with zlist; lia). by apply ztake_app. }
  rewrite Hbody, Hsum. rewrite load_store_be32 by apply CalculateAdler32_range.
  rewrite Z.eqb_refl. cbn [negb].
  unfold frame_body. fold N.
  rewrite load_store_app by lia. decide_bools. cbn [orb].
  rewrite (zdrop_app 4) by done. rewrite ztake_app by done. rewrite Hcr.
  rewrite app_assoc, zdrop_app by (autorewrite with zlist; lia).
  rewrite Hpa. repeat f_equal. lia.
Qed.

(** ** Theorems *)

(** C24: encoding a message and decoding it gives the message back: [Encode]
    appends exactly one frame to the content of the buffer, whatever it holds,
    and [Decode] on any buffer that starts with that frame succeeds with the
    message, consumes the frame and leaves the bytes behind it. *)
Theorem encode_decode_roundtrip (msg : Message) (payload : list byte) (out : Buffer) :
  decodable msg payload -> wf out ->
  append_safe out (Zlen (frame msg payload)) ->
  write_index_ out + Zlen (frame msg payload) < 2 ^ 63 ->
  exists out', Encode msg out = Ok out' /\ wf out' /\
    content out' = content out ++ frame msg payload /\
    (forall b rest, wf b -> content b = frame msg payload ++ rest ->
      exists b', Decode b = Ok (SUCCESS, Some msg, b') /\ wf b' /\ content b' = rest).
Proof.
  intros Hdec Hwf Hsafe Hmax.
  destruct (Encode_spec msg payload out (dec_encodable _ _ Hdec) Hwf Hsafe Hmax)
    as (out' & E & Hwf' & Hc & _).
  exists out'. split_and!; [done..|]. intros b rest Hb Hcb.
  pose proof (Decode_refines b Hb) as HD.
  rewrite Hcb, decode_spec_frame in HD by done.
  destruct HD as (b' & E' & Hb' & Hc' & _). exists b'. split_and!; [done..|].
  by rewrite Hc', Hcb, zdrop_app.
Qed.

(** C34: [Decode] is total and memory safe on every well-formed buffer, whatever
    bytes a peer sent: it reads only readable bytes, its verdict is the one of
    [decode_spec], an incomplete frame leaves the buffer untouched, and any
    other verdict consumes at least one byte. *)
Theorem decode_total_and_safe (b : Buffer) : wf b ->
  exists st msg b', Decode b = Ok (st, msg, b') /\ wf b' /\
    (st, msg) = (decode_spec (content b)).1 /\
    content b' = zdrop (decode_spec (content b)).2 (content b) /\
    if decide (st = INCOMPLETE) then b' = b
    else Zlen (content b') < Zlen (content b).
Proof.
  intros Hwf. pose proof (Decode_refines b Hwf) as HD.
  assert (Hn : if decide ((decode_spec (content b)).1.1 = INCOMPLETE)
    then (decode_spec (content b)).2 = 0 else 0 < (decode_spec (content b)).2).
  { unfold decode_spec. pose proof (Zlen_nonneg (content b)).
    repeat (case_match; cbn [fst snd]; try (case_decide; [done|])); lia || done. }
  destruct (decode_spec (content b)) as [[st msg] n]. cbn [fst snd] in *.
  destruct HD as (b' & E & Hwf' & Hc & Hle & _ & Hkeep).
  exists st, msg, b'. split_and!; [done..|]. case_decide; [by apply Hkeep|].
  rewrite Hc, Zlen_zdrop; lia.
Qed.

(** [Encode] does not enforce the limit that [Decode] checks: a message
    whose frame is longer than [MAX_LEN] is written without complaint, and the
    receiver answers [DECODE_ERROR] and throws away everything it has
    buffered. *)
Theorem oversized_frame_rejected (msg : Message) (payload : list byte)
    (out : Buffer) :
  encodable msg payload -> MAX_LEN < Zlen (frame msg payload) - HEADER_LEN ->
  wf out -> content out = [] -> append_safe out (Zlen (frame msg payload)) ->
  write_index_ out + Zlen (frame msg payload) < 2 ^ 63 ->
  exists out' b', Encode msg out = Ok out' /\ content out' = frame msg payload /\
    Decode out' = Ok (DECODE_ERROR, None, b') /\ content b' = [].
Proof.
  intros He Hbig Hwf Hnil Hsafe Hmax.
  destruct (Encode_spec msg payload out He Hwf Hsafe Hmax) as (out' & E & Hwf' & Hc & _).
  rewrite Hnil, app_nil_l in Hc. pose proof (Decode_refines out' Hwf') as HD.
  rewrite Hc in HD. unfold decode_spec in HD.
  unfold MAX_LEN, HEADER_LEN, INT32_SIZE in Hbig.
  rewrite (frame_total msg payload _ []) in HD by (rewrite ?app_nil_r; done || lia).
  rewrite (proj2 (Z.ltb_ge _ 4)) in HD by lia.
  rewrite (proj2 (Z.ltb_ge _ 9)), (proj2 (Z.ltb_lt 67108864 _)) in HD by lia.
  destruct HD as (b' & E' & ? & Hc' & _). exists out', b'. split_and!; [done..|].
  by rewrite Hc', Hc, zdrop_ge by lia.
Qed.
End Codec.

(** ** A concrete protobuf library

    One message type, [hyper.Query] of proto/test.proto, whose serialisation is
    its payload, with the Adler-32 checksum of zlib. *)
Definition zlib_adler32 (adler : Z) (buf : list byte) : Z :=
  let '(a, b) := foldl (fun '(a, b) c =>
      let a' := (a + byte_to_Z c) mod 65521 in (a', (b + a') mod 65521))
    (Z.land adler 65535, Z.shiftr adler 16) buf in
  b * 65536 + a.

Definition query_name : list byte :=
  [Byte.x68; Byte.x79; Byte.x70; Byte.x65; Byte.x72; Byte.x2e;
   Byte.x51; Byte.x75; Byte.x65; Byte.x72; Byte.x79].

Definition query_protobuf : Protobuf := {|
  Message := list byte;
  Descriptor := Z;
  Prototype := Z;
  GetDescriptor := fun _ => 7;
  GetTypeName := fun _ => query_name;
  ByteSizeLong := fun m => Zlen m;
  SerializeToArray := fun m size => if Zlen m <=? size then Some m else None;
  ParseFromArray := fun _ data => Some data;
  FindMessageTypeByName := fun name =>
    if decide (name = query_name) then Some 7 else None;
  GetPrototype := fun d => Some d;
  New := fun _ => [];
  adler32 := zlib_adler32;
|}.

Lemma query_encodable (m : list byte) : Zlen m + 23 < 2 ^ 31 ->
  encodable (PB := query_protobuf) m m.
Proof.
  intros Hm. split; cbn [SerializeToArray ByteSizeLong GetTypeName query_protobuf].
  - by rewrite Z.leb_refl.
  - done.
  - done.
  - change (Zlen query_name) with 11. lia.
Qed.

Lemma query_decodable (m : list byte) : Zlen m + 19 <= MAX_LEN ->
  decodable (PB := query_protobuf) m m.
Proof.
  intros Hm. unfold MAX_LEN in *. split.
  - apply query_encodable. lia.
  - exists []. split; reflexivity.
  - cbn [GetTypeName query_protobuf]. change (Zlen query_name) with 11.
    unfold MAX_LEN. lia.
Qed.

Definition hello : list byte := [Byte.x0a; Byte.x05; Byte.x68; Byte.x65].

Lemma encode_decode_roundtrip_witness :
  exists out', Encode (PB := query_protobuf) hello (make 1024) = Ok out' /\ wf out' /\
    content out' = [] ++ frame (PB := query_protobuf) hello hello /\
    (forall b rest, wf b -> content b = frame (PB := query_protobuf) hello hello ++ rest ->
      exists b', Decode (PB := query_protobuf) b = Ok (SUCCESS, Some hello, b') /\
        wf b' /\ content b' = rest).
Proof.
  apply (encode_decode_roundtrip (PB := query_protobuf) hello hello (make 1024)).
  - apply query_decodable. vm_compute. discriminate.
  - vm_compute. intuition discriminate.
  - left. vm_compute. discriminate.
  - reflexivity.
Defined.

(** A received frame whose length field asks for more than 64 MB. *)
Definition hostile : Buffer :=
  {| buffer_ := replicate 8 Byte.x00 ++ [Byte.x7f; Byte.xff; Byte.xff; Byte.xff; Byte.x01];
     write_index_ := 13; read_index_ := 8 |}.

Lemma decode_total_and_safe_witness :
  exists st msg b', Decode (PB := query_protobuf) hostile = Ok (st, msg, b') /\ wf b' /\
    (st, msg) = (DECODE_ERROR, None) /\ content b' = zdrop 5 (content hostile) /\
    if decide (st = INCOMPLETE) then b' = hostile
    else Zlen (content b') < Zlen (content hostile).
Proof.
  exact (decode_total_and_safe (PB := query_protobuf) hostile
    ltac:(vm_compute; intuition discriminate)).
Defined.

Definition big_payload : list byte := replicate (Z.to_nat (64 * 1024 * 1024)) Byte.x00.

Lemma Zlen_big_payload : Zlen big_payload = 64 * 1024 * 1024.
Proof. apply Zlen_replicate. lia. Qed.

Lemma oversized_frame_rejected_witness :
  exists out' b', Encode (PB := query_protobuf) big_payload (make 1024) = Ok out' /\
    content out' = frame (PB := query_protobuf) big_payload big_payload /\
    Decode (PB := query_protobuf) out' = Ok (DECODE_ERROR, None, b') /\ content b' = [].
Proof.
  pose proof Zlen_big_payload as Hl.
  pose proof (Zlen_frame (PB := query_protobuf) big_payload big_payload) as Hf.
  change (Zlen (@GetTypeName query_protobuf big_payload)) with 11 in Hf. rewrite Hl in Hf.
  apply (oversized_frame_rejected (PB := query_protobuf) big_payload big_payload (make 1024)).
  - apply query_encodable. rewrite Hl. lia.
  - rewrite Hf. reflexivity.
  - vm_compute. intuition discriminate.
  - reflexivity.
  - right. vm_compute. discriminate.
  - rewrite Hf. reflexivity.
Defined.
