(* ===== verification/Dispatcher.v ===== *)
(** * Dispatcher: net/protobuf/Dispatcher.{hpp,cpp} and ProtobufHandler.{hpp,cpp}

    Callbacks registered per message descriptor, the default callback, and the
    handler that decodes a receive buffer frame by frame and dispatches what it
    finds.  What a callback does is a function on an application state [W]. *)
From Stdlib Require Import ZArith Lia List.
From stdpp Require Import base option list numbers gmap tactics.
From S2P Require Import Prelude.
From S2P Require Import Buffer.
From S2P Require Import Endian.
From S2P Require Import Codec.
Open Scope Z_scope.
Open Scope outcome_scope.

Section Dispatcher.
Context {PB : Protobuf} `{!EqDecision Descriptor, !Countable Descriptor}.
(** The application state and the connection handles callbacks receive. *)
Context {W TcpConnectionPtr : Type}.

Definition TimePoint : Type := Z.

(** A [std::function]; calling an empty one throws and nothing catches it. *)
Definition function : Type :=
  option (TcpConnectionPtr -> Message -> TimePoint -> W -> outcome W).

Definition call (f : function) (connection : TcpConnectionPtr) (msg : Message)
    (timestamp : TimePoint) (w : W) : outcome W :=
  match f with Some g => g connection msg timestamp w | None => Abort end.

(** [Callback<T>] with [T::descriptor()]; its [OnMessage] casts the message to
    [T] without a check, which is undefined for any other message type. *)
Record Callback := { cb_type : Descriptor; callback_ : function }.

Definition Callback_OnMessage (c : Callback) (connection : TcpConnectionPtr)
    (msg : Message) (timestamp : TimePoint) (w : W) : outcome W :=
  if decide (GetDescriptor msg = cb_type c)
  then call (callback_ c) connection msg timestamp w else Undef.

Record Dispatcher := {
  dispatcher_map_ : gmap Descriptor Callback;
  default_cb_ : function;
}.

Definition make_Dispatcher (default_cb : function) : Dispatcher :=
  {| dispatcher_map_ := ∅; default_cb_ := default_cb |}.

Definition RegisterMessageCallback (T_descriptor : Descriptor) (cb : function)
    (d : Dispatcher) : Dispatcher :=
  {| dispatcher_map_ := <[T_descriptor := {| cb_type := T_descriptor; callback_ := cb |}]>
                          (dispatcher_map_ d);
     default_cb_ := default_cb_ d |}.

Definition Dispatch (d : Dispatcher) (connection : TcpConnectionPtr) (msg : Message)
    (timestamp : TimePoint) (w : W) : outcome W :=
  match dispatcher_map_ d !! GetDescriptor msg with
  | Some c => Callback_OnMessage c connection msg timestamp w
  | None => call (default_cb_ d) connection msg timestamp w
  end.

(** ** ProtobufHandler *)
Record ProtobufHandler := { dispatcher_ : Dispatcher }.

Definition make_ProtobufHandler (default_cb : function) : ProtobufHandler :=
  {| dispatcher_ := make_Dispatcher default_cb |}.

Definition SetCallback (T_descriptor : Descriptor) (cb : function)
    (h : ProtobufHandler) : ProtobufHandler :=
  {| dispatcher_ := RegisterMessageCallback T_descriptor cb (dispatcher_ h) |}.

(** The [while] loop; [None] is a run out of fuel. *)
Fixpoint OnMessage_loop (fuel : nat) (h : ProtobufHandler) (connection : TcpConnectionPtr)
    (buffer : Buffer) (timestamp : TimePoint) (w : W) : outcome (option (Buffer * W)) :=
  match fuel with
  | O => Ok None
  | S fuel =>
      if readableBytes buffer <? HEADER_LEN then Ok (Some (buffer, w)) else
      let! (state, msg, buffer) := Decode buffer in
      match state, msg with
      | INCOMPLETE, _ => Ok (Some (buffer, w))
      | SUCCESS, Some m =>
          let! w := Dispatch (dispatcher_ h) connection m timestamp w in
          OnMessage_loop fuel h connection buffer timestamp w
      | SUCCESS, None => Undef
      | _, _ => Ok (Some (buffer, w))
      end
  end.

(** Every frame has at least one byte, so one turn per readable byte and one to
    leave the loop are enough. *)
Definition OnMessage (h : ProtobufHandler) (connection : TcpConnectionPtr)
    (buffer : Buffer) (timestamp : TimePoint) (w : W) : outcome (option (Buffer * W)) :=
  OnMessage_loop (S (Z.to_nat (readableBytes buffer))) h connection buffer timestamp w.

(** [Send] encodes into the send buffer of the connection and returns. *)
Definition Send (sendBuffer : Buffer) (msg : Message) : outcome Buffer :=
  Encode msg sendBuffer.

(** ** Registration *)
Definition register_all (default_cb : function) (rs : list (Descriptor * function))
    : Dispatcher :=
  fold_left (fun d '(t, cb) => RegisterMessageCallback t cb d) rs
    (make_Dispatcher default_cb).

(** The callback of the last registration for [t]. *)
Fixpoint last_registered (t : Descriptor) (rs : list (Descriptor * function))
    : option function :=
  match rs with
  | [] => None
  | (t', cb) :: rs =>
      match last_registered t rs with
      | Some cb' => Some cb'
      | None => if decide (t = t') then Some cb else None
      end
  end.

Lemma register_all_lookup rs d t :
  dispatcher_map_ (fold_left (fun d '(t, cb) => RegisterMessageCallback t cb d) rs d) !! t
  = match last_registered t rs with
    | Some cb => Some {| cb_type := t; callback_ := cb |}
    | None => dispatcher_map_ d !! t
    end.
Proof.
  revert d. induction rs as [|[t' cb] rs IH]; intros d; cbn; [done|].
  rewrite IH. destruct (last_registered t rs); [done|].
  cbn. case_decide as Ht; subst; [by rewrite lookup_insert_eq|by rewrite lookup_insert_ne].
Qed.

Lemma register_all_default rs d :
  default_cb_ (fold_left (fun d '(t, cb) => RegisterMessageCallback t cb d) rs d)
  = default_cb_ d.
Proof. revert d. induction rs as [|[t cb] rs IH]; intros d; cbn; [done|]. by rewrite IH. Qed.

(** A message goes to the callback registered last for its descriptor, and
    to the default callback when there is none; a callback registered for [T]
    therefore only ever receives messages whose descriptor is [T]'s, and the
    unchecked downcast in [Callback<T>::OnMessage] is never wrong. *)
Theorem dispatch_last_registered (default_cb : function)
    (rs : list (Descriptor * function)) (connection : TcpConnectionPtr)
    (msg : Message) (timestamp : TimePoint) (w : W) :
  Dispatch (register_all default_cb rs) connection msg timestamp w
  = call (default default_cb (last_registered (GetDescriptor msg) rs))
      connection msg timestamp w.
Proof.
  unfold Dispatch, register_all. rewrite register_all_lookup.
  destruct (last_registered _ rs) as [cb|]; cbn.
  - unfold Callback_OnMessage. cbn. by rewrite decide_True.
  - rewrite lookup_empty. by rewrite register_all_default.
Qed.

(** ** Streams of frames *)

(** The messages of a stream and the frames that carry them. *)
Definition frames (ms : list (Message * list byte)) : list byte :=
  concat (map (fun '(m, p) => frame m p) ms).

Definition all_decodable (ms : list (Message * list byte)) : Prop :=
  Forall (fun '(m, p) => decodable m p) ms.

Fixpoint dispatch_all (h : ProtobufHandler) (connection : TcpConnectionPtr)
    (ms : list (Message * list byte)) (timestamp : TimePoint) (w : W) : outcome W :=
  match ms with
  | [] => Ok w
  | (m, _) :: ms =>
      let! w := Dispatch (dispatcher_ h) connection m timestamp w in
      dispatch_all h connection ms timestamp w
  end.

Lemma dispatch_all_app h c ms1 ms2 t w :
  dispatch_all h c (ms1 ++ ms2) t w
  = let! w1 := dispatch_all h c ms1 t w in dispatch_all h c ms2 t w1.
Proof.
  revert w. induction ms1 as [|[m p] ms1 IH]; intros w; cbn; [done|].
  destruct (Dispatch _ c m t w); cbn; [apply IH|done..].
Qed.

(** A strict part of the next frame, or nothing. *)
Definition partial (part : list byte) (ms : list (Message * list byte)) : Prop :=
  part = [] \/ exists m p ms' rest,
    ms = (m, p) :: ms' /\ part ++ rest = frame m p /\ rest <> [].

Lemma frames_cons m p ms : frames ((m, p) :: ms) = frame m p ++ frames ms.
Proof. done. Qed.
Lemma frames_app ms1 ms2 : frames (ms1 ++ ms2) = frames ms1 ++ frames ms2.
Proof. unfold frames. by rewrite map_app, concat_app. Qed.

(** Any prefix of a stream of frames is whole frames and a part of the next. *)
Lemma prefix_frames ms q rest : q ++ rest = frames ms ->
  exists ms1 ms2 part, ms = ms1 ++ ms2 /\ q = frames ms1 ++ part /\ partial part ms2.
Proof.
  revert q. induction ms as [|[m p] ms IH]; intros q Hq.
  { apply app_eq_nil in Hq as [-> _]. exists [], [], []. split_and!; [done..|by left]. }
  rewrite frames_cons in Hq.
  destruct (decide (length (frame m p) <= length q)%nat) as [Hle|Hlt].
  - assert (Hs : exists q', q = frame m p ++ q' /\ q' ++ rest = frames ms).
    { exists (drop (length (frame m p)) q).
      pose proof (f_equal (take (length (frame m p))) Hq) as Ht.
      pose proof (f_equal (drop (length (frame m p))) Hq) as Hd.
      rewrite take_app_le, take_app_length in Ht by done.
      rewrite drop_app_le, drop_app_length in Hd by done.
      split; [|done]. rewrite <- (take_drop (length (frame m p)) q) at 1. by rewrite Ht. }
    destruct Hs as (q' & -> & Hq').
    destruct (IH q' Hq') as (ms1 & ms2 & part & -> & -> & Hpart).
    exists ((m, p) :: ms1), ms2, part. split_and!; [done| |done].
    unfold frames. cbn. by rewrite app_assoc.
  - exists [], ((m, p) :: ms), q. split_and!; [done..|].
    right. exists m, p, ms, (drop (length q) (frame m p)). split_and!; [done| |].
    + pose proof (f_equal (take (length q)) Hq) as Ht.
      rewrite take_app_length, take_app_le in Ht by lia.
      rewrite Ht at 1. apply take_drop.
    + intros E. apply (f_equal length) in E. rewrite length_drop in E. cbn in E. lia.
Qed.


(** Whole frames at the front of the buffer are dispatched one per turn. *)
Lemma OnMessage_loop_frames fuel h c b t w w' ms tail :
  wf b -> content b = frames ms ++ tail -> all_decodable ms ->
  dispatch_all h c ms t w = Ok w' ->
  exists b', OnMessage_loop (length ms + fuel) h c b t w = OnMessage_loop fuel h c b' t w' /\
    wf b' /\ content b' = tail /\ same_storage b b'.
Proof.
  revert b w. induction ms as [|[m p] ms IH]; intros b w Hwf Hc Hdec Hd.
  { cbn in Hd. injection Hd as ->. exists b.
    split_and!; [done..|apply same_storage_refl]. }
  rewrite frames_cons, <- app_assoc in Hc.
  apply Forall_cons_1 in Hdec as [Hm Hdec]. cbn in Hd.
  destruct (Dispatch (dispatcher_ h) c m t w) as [w1| |] eqn:E; try discriminate.
  cbn [mbind outcome_bind length Nat.add OnMessage_loop] in *.
  pose proof (Decode_refines b Hwf) as HD. rewrite Hc, decode_spec_frame in HD by done.
  destruct HD as (b1 & -> & Hwf1 & Hc1 & Hle & Hst & _).
  rewrite <- content_length, Hc by done. cbn [mbind outcome_bind]. rewrite E.
  pose proof (Zlen_frame m p). pose proof (Zlen_nonneg (GetTypeName m)).
  pose proof (Zlen_nonneg p). pose proof (Zlen_nonneg (frames ms ++ tail)).
  unfold HEADER_LEN, INT32_SIZE. rewrite Zlen_app. decide_bools.
  destruct (IH b1 w1) as (b2 & E2 & ? & ? & ?); [done| |done|done|].
  { by rewrite Hc1, Hc, zdrop_app. }
  exists b2. split_and!; [exact E2|done..|by eapply same_storage_trans].
Qed.

Lemma frames_length ms : all_decodable ms -> Z.of_nat (length ms) <= Zlen (frames ms).
Proof.
  induction ms as [|[m p] ms IH]; [done|]. intros [_ Hms]%Forall_cons_1.
  rewrite frames_cons, Zlen_app, Zlen_frame. cbn [length].
  pose proof (Zlen_nonneg (GetTypeName m)). pose proof (Zlen_nonneg p).
  apply IH in Hms. lia.
Qed.

(** A strict part of a frame is a stream only when there is nothing to come. *)
Lemma partial_whole part ms : partial part ms -> all_decodable ms -> part = frames ms ->
  part = [] /\ ms = [].
Proof.
  intros Hpart Hdec Hs. destruct Hpart as [->|(m & p & ms' & rest & -> & Hfr & Hne)].
  - destruct ms as [|[m p] ms]; [done|]. apply (f_equal Zlen) in Hs.
    pose proof (frames_length _ Hdec). cbn in *. rewrite Zlen_nil in Hs. lia.
  - destruct Hne. apply Zlen_0_nil. apply (f_equal Zlen) in Hs, Hfr.
    rewrite frames_cons, !Zlen_app in *. pose proof (Zlen_nonneg (frames ms')).
    pose proof (Zlen_nonneg rest). lia.
Qed.

(** [OnMessage] dispatches the leading frames, then makes one more turn. *)
Lemma OnMessage_frames h c b t w w' ms tail :
  wf b -> content b = frames ms ++ tail -> all_decodable ms ->
  dispatch_all h c ms t w = Ok w' ->
  exists fuel b', OnMessage h c b t w = OnMessage_loop (S fuel) h c b' t w' /\
    wf b' /\ content b' = tail /\ same_storage b b'.
Proof.
  intros Hwf Hc Hdec Hd. unfold OnMessage. rewrite <- content_length by done.
  pose proof (frames_length ms Hdec). pose proof (Zlen_nonneg tail).
  rewrite Hc, Zlen_app.
  replace (S (Z.to_nat (Zlen (frames ms) + Zlen tail))) with
    (length ms + S (Z.to_nat (Zlen (frames ms) + Zlen tail) - length ms))%nat by lia.
  destruct (OnMessage_loop_frames (S (Z.to_nat (Zlen (frames ms) + Zlen tail) - length ms))
    h c b t w w' ms tail) as (b' & E & ?); [done..|].
  eexists _, b'. split; [exact E|done].
Qed.

(** A turn on a part of a frame waits for more. *)
Lemma OnMessage_loop_partial fuel h c b t w part ms :
  wf b -> content b = part -> partial part ms -> all_decodable ms ->
  OnMessage_loop (S fuel) h c b t w = Ok (Some (b, w)).
Proof.
  intros Hwf Hc Hpart Hdec. cbn [OnMessage_loop]. rewrite <- content_length, Hc by done.
  destruct (Z.ltb_spec (Zlen part) HEADER_LEN) as [|H4]; [done|].
  destruct Hpart as [->|(m & p & ms' & rest & -> & Hfr & Hne)]; [done|].
  apply Forall_cons_1 in Hdec as [Hm _].
  pose proof (Decode_refines b Hwf) as HD.
  rewrite Hc, (decode_spec_partial m p part rest) in HD by done.
  destruct HD as (b' & -> & _ & _ & _ & _ & Hkeep). cbn. by rewrite Hkeep.
Qed.

(** ** A connection that reads in chunks

    What [TcpConnection::handleReadable] does with [OnMessage] as its message
    callback: each chunk is read into the receive buffer, then handled. *)
Fixpoint receive (h : ProtobufHandler) (c : TcpConnectionPtr) (chunks : list (list byte))
    (b : Buffer) (t : TimePoint) (w : W) : outcome (option (Buffer * W)) :=
  match chunks with
  | [] => Ok (Some (b, w))
  | chunk :: chunks =>
      let! (_, _, b) := readFd b (ReadOk chunk) in
      let! r := OnMessage h c b t w in
      match r with
      | Some (b, w) => receive h c chunks b t w
      | None => Ok None
      end
  end.

Lemma receive_frames h c chunks b t w w' ms part q bound :
  refines b q bound -> q = part -> partial part ms -> all_decodable ms ->
  part ++ concat chunks = frames ms ->
  Forall (fun chunk => Zlen chunk <= EXTRA_SIZE) chunks ->
  bound + Zlen (concat chunks) < 2 ^ 63 ->
  dispatch_all h c ms t w = Ok w' ->
  exists b', receive h c chunks b t w = Ok (Some (b', w')) /\ wf b' /\ content b' = [].
Proof.
  revert b w ms part q bound.
  induction chunks as [|chunk chunks IH];
    intros b w ms part q bound Href -> Hpart Hdec Hs Hch Hmax Hd; cbn [receive concat] in *.
  { rewrite app_nil_r in Hs. destruct Href as (Hwf & Hc & _).
    destruct (partial_whole _ _ Hpart Hdec Hs) as [-> ->].
    cbn in Hd. injection Hd as ->. by exists b. }
  apply Forall_cons_1 in Hch as [Hch1 Hch].
  pose proof Href as (Hwf & Hc & Hr & Hb). pose proof Hwf as (? & ? & ?).
  pose proof (Zlen_nonneg (concat chunks)). rewrite Zlen_app in Hmax.
  destruct (readFd_spec b chunk) as (b1 & -> & Ha); [done|done| |lia|].
  { rewrite writable_eq by done. lia. }
  cbn [mbind outcome_bind]. pose proof (refines_appended b part bound chunk b1 Href Ha) as Href1.
  destruct Href1 as (Hwf1 & Hc1 & Hr1 & Hb1).
  rewrite app_assoc in Hs.
  destruct (prefix_frames ms _ _ Hs) as (ms1 & ms2 & part' & -> & Hq & Hpart').
  apply Forall_app in Hdec as [Hdec1 Hdec2].
  rewrite dispatch_all_app in Hd.
  destruct (dispatch_all h c ms1 t w) as [w1| |] eqn:E1; try discriminate. cbn in Hd.
  destruct (OnMessage_frames h c b1 t w w1 ms1 part') as (fuel & b2 & -> & Hwf2 & Hc2 & Hst);
    [done|by rewrite Hc1|done..|].
  rewrite (OnMessage_loop_partial _ _ _ _ _ _ part' ms2) by done. cbn [mbind outcome_bind].
  apply (IH b2 w1 ms2 part' part' (bound + Zlen chunk)); [|done..| |done|lia|done].
  - destruct Hst as [Hl Hrd]. split_and!; [done..|auto|lia].
  - rewrite frames_app in Hs. rewrite Hq, <- app_assoc in Hs. by apply app_inv_head in Hs.
Qed.

(** However the kernel cuts the byte stream into reads, a connection that
    receives the frames of a list of messages dispatches exactly these
    messages, in order, and ends with an empty receive buffer. *)
Theorem stream_dispatched_in_order (h : ProtobufHandler) (c : TcpConnectionPtr)
    (chunks : list (list byte)) (ms : list (Message * list byte))
    (t : TimePoint) (w w' : W) :
  all_decodable ms -> concat chunks = frames ms ->
  Forall (fun chunk => Zlen chunk <= EXTRA_SIZE) chunks ->
  Zlen (concat chunks) < 2 ^ 62 ->
  dispatch_all h c ms t w = Ok w' ->
  exists b', receive h c chunks (make INITIALIZE_SIZE) t w = Ok (Some (b', w')) /\
    wf b' /\ content b' = [].
Proof.
  intros Hdec Hs Hch Hmax Hd.
  apply (receive_frames h c chunks _ t w w' ms [] [] (CHEAP_PREPEND + INITIALIZE_SIZE));
    unfold CHEAP_PREPEND, INITIALIZE_SIZE in *; [|done|by left|done..|lia|done].
  apply make_refines; unfold CHEAP_PREPEND; lia.
Qed.

Lemma OnMessage_loop_total fuel h c b t w :
  wf b -> (forall m w, exists w', Dispatch (dispatcher_ h) c m t w = Ok w') ->
  (Z.to_nat (Zlen (content b)) < fuel)%nat ->
  exists b' w' n, OnMessage_loop fuel h c b t w = Ok (Some (b', w')) /\ wf b' /\
    content b' = zdrop n (content b) /\ same_storage b b'.
Proof.
  intros Hwf Hcb. revert b w Hwf.
  induction fuel as [|fuel IH]; intros b w Hwf Hfuel; [lia|].
  cbn [OnMessage_loop]. rewrite <- content_length by done.
  destruct (Z.ltb_spec (Zlen (content b)) HEADER_LEN);
    [by exists b, w, 0; split_and!; [..|apply same_storage_refl]|].
  pose proof (Decode_refines b Hwf) as HD.
  assert (Hs : (decode_spec (content b)).1.1 = SUCCESS ->
    exists m, (decode_spec (content b)).1.2 = Some m /\ 0 < (decode_spec (content b)).2).
  { unfold decode_spec.
    repeat (case_match; cbn [fst snd]; try discriminate). intros _. eexists; split; [done|].
    rewrite orb_false_iff in *. lia. }
  destruct (decode_spec (content b)) as [[st msg] n]. cbn [fst snd] in Hs.
  destruct HD as (b1 & -> & Hwf1 & Hc1 & Hle & Hst & _). cbn [mbind outcome_bind].
  destruct st; [|by eexists _, _, n..].
  destruct (Hs eq_refl) as (m & -> & Hn).
  destruct (Hcb m w) as [w1 ->]. cbn [mbind outcome_bind].
  destruct (IH b1 w1 Hwf1) as (b2 & w2 & k & E & Hwf2 & Hc2 & Hst2).
  { rewrite Hc1, Zlen_zdrop; lia. }
  exists b2, w2, (n + Z.max 0 k). split_and!; [done..| |by eapply same_storage_trans].
  rewrite Hc2, Hc1, <- zdrop_zdrop by lia. unfold zdrop. f_equal. lia.
Qed.

Lemma OnMessage_total h c b t w :
  wf b -> (forall m w, exists w', Dispatch (dispatcher_ h) c m t w = Ok w') ->
  exists b' w' n, OnMessage h c b t w = Ok (Some (b', w')) /\ wf b' /\
    content b' = zdrop n (content b) /\ same_storage b b'.
Proof.
  intros Hwf Hcb. apply OnMessage_loop_total; [done..|].
  rewrite <- content_length by done. lia.
Qed.

(** [OnMessage] ends on every receive buffer, whatever bytes it holds, as
    long as the callbacks return: one turn per readable byte is enough for its
    loop, it never touches memory outside the buffer, and what it leaves is a
    suffix of the content. *)
Theorem OnMessage_terminates (h : ProtobufHandler) (c : TcpConnectionPtr) (b : Buffer)
    (t : TimePoint) (w : W) :
  wf b -> (forall m w, exists w', Dispatch (dispatcher_ h) c m t w = Ok w') ->
  exists b' w' n, OnMessage h c b t w = Ok (Some (b', w')) /\ wf b' /\
    content b' = zdrop n (content b).
Proof.
  intros Hwf Hcb. destruct (OnMessage_total h c b t w Hwf Hcb) as (b' & w' & n & ? & ? & ? & _).
  by exists b', w', n.
Qed.

(** C39: one bad frame ends the call: the messages in front of it are
    dispatched, the bytes [decode_spec] gives up on are consumed, and the
    frames behind it stay in the buffer undispatched, complete or not, until
    the next read of the connection calls [OnMessage] again. *)
Theorem OnMessage_stops_at_bad_frame (h : ProtobufHandler) (c : TcpConnectionPtr)
    (b : Buffer) (t : TimePoint) (w w' : W) (ms : list (Message * list byte))
    (tail : list byte) :
  wf b -> content b = frames ms ++ tail -> all_decodable ms ->
  HEADER_LEN <= Zlen tail ->
  (decode_spec tail).1.1 <> SUCCESS -> (decode_spec tail).1.1 <> INCOMPLETE ->
  dispatch_all h c ms t w = Ok w' ->
  exists b', OnMessage h c b t w = Ok (Some (b', w')) /\
    content b' = zdrop (decode_spec tail).2 tail.
Proof.
  intros Hwf Hc Hdec Hlen Hns Hni Hd.
  destruct (OnMessage_frames h c b t w w' ms tail) as (fuel & b1 & -> & Hwf1 & Hc1 & _);
    [done..|].
  cbn [OnMessage_loop]. rewrite <- content_length, Hc1 by done. decide_bools.
  pose proof (Decode_refines b1 Hwf1) as HD. rewrite Hc1 in HD.
  destruct (decode_spec tail) as [[st msg] n]. cbn [fst snd] in *.
  destruct HD as (b2 & -> & _ & Hc2 & _). cbn [mbind outcome_bind]. rewrite Hc1 in Hc2.
  destruct st; [done|done|by exists b2..].
Qed.
End Dispatcher.

(** ** Witnesses: an application that keeps the payloads it was given *)
Definition Log : Type := list (list byte).

Definition log_callback : @function query_protobuf Log unit :=
  Some (fun _ (m : @Message query_protobuf) _ (w : Log) => Ok (w ++ [m])).

Definition logger : @ProtobufHandler query_protobuf _ _ Log unit :=
  SetCallback (PB := query_protobuf) (7 : Z) log_callback
    (make_ProtobufHandler (PB := query_protobuf) None).

Lemma logger_total (m : @Message query_protobuf) (w : Log) :
  exists w', Dispatch (PB := query_protobuf) (dispatcher_ logger) tt m 0 w = Ok w'.
Proof. by exists (w ++ [m]). Qed.

Ltac solve_decodable :=
  unfold all_decodable;
  repeat first
    [ apply List.Forall_nil
    | apply List.Forall_cons; [apply query_decodable; vm_compute; discriminate|] ].

Definition two_messages : list (@Message query_protobuf * list byte) :=
  [(hello, hello); ([], [])].

Lemma two_messages_decodable : all_decodable (PB := query_protobuf) two_messages.
Proof. solve_decodable. Qed.

(** The 50 bytes of the stream arrive as 3, 20 and 27 bytes. *)
Definition three_chunks : list (list byte) :=
  let s := frames (PB := query_protobuf) two_messages in
  [ztake 3 s; ztake 20 (zdrop 3 s); zdrop 23 s].

Lemma stream_dispatched_in_order_witness :
  exists b', receive (PB := query_protobuf) logger tt three_chunks
      (make INITIALIZE_SIZE) 0 [] = Ok (Some (b', [hello; []])) /\
    wf b' /\ content b' = [].
Proof.
  apply (stream_dispatched_in_order (PB := query_protobuf) logger tt three_chunks
    two_messages 0 [] [hello; []]).
  - exact two_messages_decodable.
  - vm_compute. reflexivity.
  - repeat constructor; vm_compute; discriminate.
  - vm_compute. reflexivity.
  - reflexivity.
Defined.

Lemma OnMessage_terminates_witness :
  exists b' w' n, OnMessage (PB := query_protobuf) logger tt hostile 0 [] = Ok (Some (b', w')) /\
    wf b' /\ content b' = zdrop n (content hostile).
Proof.
  apply (OnMessage_terminates (PB := query_protobuf) logger tt hostile 0 []).
  - vm_compute. intuition discriminate.
  - apply logger_total.
Defined.

(** A good frame, a frame whose checksum was damaged, and a good frame. *)
Definition damaged : list byte :=
  ztake 20 (frame (PB := query_protobuf) hello hello) ++ [Byte.x00; Byte.x00; Byte.x00]
  ++ zdrop 23 (frame (PB := query_protobuf) hello hello).

Definition damaged_stream : Buffer :=
  let data := frame (PB := query_protobuf) [] [] ++ damaged
              ++ frame (PB := query_protobuf) hello hello in
  {| buffer_ := replicate 8 Byte.x00 ++ data; write_index_ := 8 + Zlen data;
     read_index_ := 8 |}.

Lemma OnMessage_stops_at_bad_frame_witness :
  exists b', OnMessage (PB := query_protobuf) logger tt damaged_stream 0 []
      = Ok (Some (b', [[]])) /\
    content b' = frame (PB := query_protobuf) hello hello.
Proof.
  destruct (OnMessage_stops_at_bad_frame (PB := query_protobuf) logger tt damaged_stream
    0 [] [[]] [([], [])] (damaged ++ frame (PB := query_protobuf) hello hello))
    as (b' & E & Hc).
  - vm_compute. intuition discriminate.
  - vm_compute. reflexivity.
  - solve_decodable.
  - vm_compute. discriminate.
  - vm_compute. discriminate.
  - vm_compute. discriminate.
  - reflexivity.
  - exists b'. split; [exact E|]. rewrite Hc. vm_compute. reflexivity.
Defined.
