(* ===== verification/Channel.v ===== *)
(** * Channel: net/Channel.hpp and net/Channel.cpp

    A descriptor with the events it asks for, the events the poller returned
    and the callbacks for them.  [F] is the type of the closures held by the
    [std::function] members; what calling one does is the parameter [run] of
    [handleEvent]. *)
From Stdlib Require Import ZArith Lia List.
From stdpp Require Import base option list numbers gmap tactics.
From S2P Require Import Prelude.
Open Scope Z_scope.
Open Scope outcome_scope.

(** ** The event bits of <poll.h> *)
Definition POLLIN : Z := 1.
Definition POLLPRI : Z := 2.
Definition POLLOUT : Z := 4.
Definition POLLERR : Z := 8.
Definition POLLHUP : Z := 16.
Definition POLLNVAL : Z := 32.
Definition POLLRDHUP : Z := 8192.

Definition kNoneEvent : Z := 0.
Definition kReadEvent : Z := Z.lor POLLIN POLLPRI.
Definition kWriteEvent : Z := POLLOUT.
Definition NOT_FILL : Z := -1.

(** [mask & bits] as a condition. *)
Definition has (mask bits : Z) : bool := negb (Z.land mask bits =? 0).

(** Addresses of [Channel], [EventLoop] and [TcpConnection] objects. *)
Definition ChanId : Type := Z.
Definition LoopId : Type := Z.
Definition ConnId : Type := Z.

Record Channel (F : Type) := mkChannel {
  loop_ : LoopId;
  fd_ : Z;
  events_ : Z;
  return_events_ : Z;
  index_ : Z;
  parent_ : option ConnId;
  tied_ : bool;
  read_callback_ : option F;
  write_callback_ : option F;
  error_callback_ : option F;
}.
Arguments mkChannel {F}.
Arguments loop_ {F}.
Arguments fd_ {F}.
Arguments events_ {F}.
Arguments return_events_ {F}.
Arguments index_ {F}.
Arguments parent_ {F}.
Arguments tied_ {F}.
Arguments read_callback_ {F}.
Arguments write_callback_ {F}.
Arguments error_callback_ {F}.

Section Channel.
Context {F : Type}.
Implicit Types c : Channel F.

Definition make_Channel (loop : LoopId) (fd : Z) : Channel F :=
  mkChannel loop fd kNoneEvent 0 NOT_FILL None false None None None.

Definition setReadCallback (cb : F) c : Channel F :=
  mkChannel (loop_ c) (fd_ c) (events_ c) (return_events_ c) (index_ c) (parent_ c)
    (tied_ c) (Some cb) (write_callback_ c) (error_callback_ c).
Definition setWriteCallback (cb : F) c : Channel F :=
  mkChannel (loop_ c) (fd_ c) (events_ c) (return_events_ c) (index_ c) (parent_ c)
    (tied_ c) (read_callback_ c) (Some cb) (error_callback_ c).
Definition setErrorCallback (cb : F) c : Channel F :=
  mkChannel (loop_ c) (fd_ c) (events_ c) (return_events_ c) (index_ c) (parent_ c)
    (tied_ c) (read_callback_ c) (write_callback_ c) (Some cb).
Definition setReturnEvents (return_events : Z) c : Channel F :=
  mkChannel (loop_ c) (fd_ c) (events_ c) return_events (index_ c) (parent_ c)
    (tied_ c) (read_callback_ c) (write_callback_ c) (error_callback_ c).
Definition setIndex (index : Z) c : Channel F :=
  mkChannel (loop_ c) (fd_ c) (events_ c) (return_events_ c) index (parent_ c)
    (tied_ c) (read_callback_ c) (write_callback_ c) (error_callback_ c).
Definition setEvents (events : Z) c : Channel F :=
  mkChannel (loop_ c) (fd_ c) events (return_events_ c) (index_ c) (parent_ c)
    (tied_ c) (read_callback_ c) (write_callback_ c) (error_callback_ c).
Definition tie (conn : ConnId) c : Channel F :=
  mkChannel (loop_ c) (fd_ c) (events_ c) (return_events_ c) (index_ c) (Some conn)
    true (read_callback_ c) (write_callback_ c) (error_callback_ c).

Definition isNoneEvent c : bool := events_ c =? kNoneEvent.
Definition isWriting c : bool := has (events_ c) kWriteEvent.

(** The new event masks; [notifyLoop] follows each, see EventLoop.v. *)
Definition listenTillReadable_events c : Z := Z.lor (events_ c) kReadEvent.
Definition listenTillWritable_events c : Z := Z.lor (events_ c) kWriteEvent.
Definition ignoreReadable_events c : Z := Z.land (events_ c) (Z.lnot kReadEvent).
Definition ignoreWritable_events c : Z := Z.land (events_ c) (Z.lnot kWriteEvent).
Definition ignoreAll_events c : Z := kNoneEvent.

(** ** Dispatch

    [this w] is the channel object in the state [w], [None] once it has been
    destroyed; every member access goes through it. *)
Section Dispatch.
Context {W : Type}.
Variable this : W -> option (Channel F).
Variable run : F -> W -> outcome W.
(** [alive conn w]: [weak_ptr::lock] on the connection succeeds. *)
Variable alive : ConnId -> W -> bool.

Definition deref (w : W) : outcome (Channel F) :=
  match this w with Some c => Ok c | None => Undef end.

Definition call_if_set (cb : option F) (w : W) : outcome W :=
  match cb with Some f => run f w | None => Ok w end.

(** One [if (return_events_ & bits) if (callback) callback()]. *)
Definition on_events (bits : Z) (cb : Channel F -> option F) (w : W) : outcome W :=
  let! c := deref w in
  if has (return_events_ c) bits then call_if_set (cb c) w else Ok w.

Definition handleEvent (w : W) : outcome W :=
  let! w := on_events (Z.lor POLLNVAL POLLERR) error_callback_ w in
  let! w := on_events (Z.lor (Z.lor POLLIN POLLPRI) POLLRDHUP) read_callback_ w in
  on_events POLLOUT write_callback_ w.

Definition handleEventWithGuard (w : W) : outcome W :=
  let! c := deref w in
  if negb (tied_ c) then Ok w else
  match parent_ c with
  | Some conn => if alive conn w then handleEvent w else Ok w
  | None => Ok w
  end.

(** A channel with no error and no write callback only reads. *)
Lemma handleEvent_reader w c w' : this w = Some c -> error_callback_ c = None ->
  (if has (return_events_ c) (Z.lor (Z.lor POLLIN POLLPRI) POLLRDHUP)
   then call_if_set (read_callback_ c) w else Ok w) = Ok w' ->
  (exists c', this w' = Some c' /\ write_callback_ c' = None) ->
  handleEvent w = Ok w'.
Proof.
  intros Hc He Hr (c' & Hc' & Hw). unfold handleEvent, on_events, deref.
  rewrite Hc. cbn [mbind outcome_bind]. rewrite He. cbn [call_if_set].
  assert (Hskip : forall (b : bool) x, (if b then Ok x else Ok x) = Ok (A := W) x) by (by intros []).
  rewrite Hskip. cbn [mbind outcome_bind]. rewrite Hc. cbn [mbind outcome_bind]. rewrite Hr.
  cbn [mbind outcome_bind]. rewrite Hc'. cbn [mbind outcome_bind]. rewrite Hw. apply Hskip.
Qed.

(** The callbacks the returned events call for, in the order of the code. *)
Definition selected (c : Channel F) : list F :=
  let pick bits cb := if has (return_events_ c) bits then option_list cb else [] in
  pick (Z.lor POLLNVAL POLLERR) (error_callback_ c)
  ++ pick (Z.lor (Z.lor POLLIN POLLPRI) POLLRDHUP) (read_callback_ c)
  ++ pick POLLOUT (write_callback_ c).

Fixpoint run_all (fs : list F) (w : W) : outcome W :=
  match fs with
  | [] => Ok w
  | f :: fs => let! w := run f w in run_all fs w
  end.

(** The callbacks leave the dispatching members of the channel alone. *)
Definition same_dispatch (c c' : Channel F) : Prop :=
  return_events_ c' = return_events_ c /\ read_callback_ c' = read_callback_ c /\
  write_callback_ c' = write_callback_ c /\ error_callback_ c' = error_callback_ c.

Hypothesis run_keeps : forall f w w' c,
  this w = Some c -> run f w = Ok w' -> exists c', this w' = Some c' /\ same_dispatch c c'.

Lemma same_dispatch_refl c : same_dispatch c c.
Proof. by split_and!. Qed.

Lemma on_events_selected bits cb w c c0 :
  this w = Some c -> return_events_ c = return_events_ c0 -> cb c = cb c0 ->
  on_events bits cb w
  = run_all (if has (return_events_ c0) bits then option_list (cb c0) else []) w.
Proof.
  intros Hc Hr Hcb. unfold on_events, deref. rewrite Hc. cbn. rewrite Hr, Hcb.
  destruct (has _ bits), (cb c0) as [f|]; cbn; try done. by destruct (run f w).
Qed.

Lemma run_all_app fs gs w :
  run_all (fs ++ gs) w = let! w := run_all fs w in run_all gs w.
Proof.
  revert w. induction fs as [|f fs IH]; intros w; cbn; [done|].
  destruct (run f w); cbn; [apply IH|done..].
Qed.

Lemma run_all_keeps fs w w' c :
  this w = Some c -> run_all fs w = Ok w' -> exists c', this w' = Some c' /\ same_dispatch c c'.
Proof.
  revert w c. induction fs as [|f fs IH]; intros w c Hc H; cbn in H.
  { injection H as ->. exists c. by split; [|apply same_dispatch_refl]. }
  destruct (run f w) as [w1| |] eqn:E; try discriminate. cbn in H.
  destruct (run_keeps f w w1 c Hc E) as (c1 & Hc1 & Hs1).
  destruct (IH w1 c1 Hc1 H) as (c2 & Hc2 & Hs2). exists c2. split; [done|].
  unfold same_dispatch in *. intuition congruence.
Qed.

Lemma handleEvent_runs w c : this w = Some c -> handleEvent w = run_all (selected c) w.
Proof.
  intros Hc. unfold handleEvent, selected. rewrite !run_all_app.
  rewrite (on_events_selected _ _ _ c c) by done.
  destruct (run_all _ w) as [w1| |] eqn:E1; cbn; try done.
  destruct (run_all_keeps _ _ _ c Hc E1) as (c1 & Hc1 & Hr1 & Hrd1 & Hw1 & He1).
  rewrite (on_events_selected _ _ _ c1 c) by done.
  rewrite run_all_app.
  destruct (run_all _ w1) as [w2| |] eqn:E2; cbn; try done.
  destruct (run_all_keeps _ _ _ c1 Hc1 E2) as (c2 & Hc2 & Hr2 & Hrd2 & Hw2 & He2).
  rewrite (on_events_selected _ _ _ c2 c); [done|done|congruence..].
Qed.

(** [handleEvent] runs the callbacks its returned events call for, each at
    most once and in the order error, read, write: error for POLLERR or
    POLLNVAL, read for POLLIN, POLLPRI or POLLRDHUP, write for POLLOUT; a
    callback that aborts stops the rest, an empty callback is skipped, and a
    bare POLLHUP runs nothing. *)
Theorem handleEvent_dispatch (w : W) (c : Channel F) :
  this w = Some c ->
  handleEvent w = run_all (selected c) w /\
  (has (return_events_ c) (Z.lor POLLNVAL POLLERR) = false ->
   has (return_events_ c) (Z.lor (Z.lor POLLIN POLLPRI) POLLRDHUP) = false ->
   has (return_events_ c) POLLOUT = false -> handleEvent w = Ok w).
Proof.
  intros Hc. rewrite (handleEvent_runs w c Hc). split; [done|].
  intros He Hr Hw. unfold selected. by rewrite He, Hr, Hw.
Qed.
End Dispatch.
End Channel.

(** A channel with a read and a write callback, both reported ready, and a
    world that is the channel and the trace of the calls. *)
Definition demo_channel (return_events : Z) : Channel nat :=
  setReturnEvents return_events
    (setWriteCallback 2%nat (setReadCallback 1%nat (make_Channel 0 5))).

Lemma handleEvent_dispatch_witness :
  handleEvent (fun w : Channel nat * list nat => Some w.1) (fun f w => Ok (w.1, w.2 ++ [f]))
      (demo_channel 21, [])
    = Ok (demo_channel 21, [1; 2]%nat) /\
  handleEvent (fun w : Channel nat * list nat => Some w.1) (fun f w => Ok (w.1, w.2 ++ [f]))
      (demo_channel POLLHUP, [])
    = Ok (demo_channel POLLHUP, []).
Proof.
  assert (Hk : forall f (w w' : Channel nat * list nat) c, Some w.1 = Some c ->
    Ok (w.1, w.2 ++ [f]) = Ok w' -> exists c', Some w'.1 = Some c' /\ same_dispatch c c').
  { intros f w w' c Hc Hr. injection Hc as <-. injection Hr as <-.
    exists w.1. by split. }
  split.
  - rewrite (proj1 (handleEvent_dispatch _ _ Hk (demo_channel 21, []) _ eq_refl)).
    vm_compute. reflexivity.
  - apply (proj2 (handleEvent_dispatch _ _ Hk (demo_channel POLLHUP, []) _ eq_refl));
      reflexivity.
Defined.
