(* ===== verification/PollerBase.v ===== *)
(** * PollerBase: net/PollerBase.hpp

    The interface an [EventLoop] uses of its poller, and what it relies on:
    the poller keeps a table from descriptors to channels with the events each
    asks for.  Poller.v and Epoller.v implement it. *)
From Stdlib Require Import ZArith Lia List.
From stdpp Require Import base option list numbers gmap tactics.
From S2P Require Import Prelude.
From S2P Require Import Channel.
Open Scope Z_scope.
Open Scope outcome_scope.

(** The live [Channel] objects by address; a dead address is not in the map. *)
Abbreviation Store F := (gmap ChanId (Channel F)).

Definition deref_channel {F} (cid : ChanId) (st : Store F) : outcome (Channel F) :=
  match st !! cid with Some c => Ok c | None => Undef end.

(** The virtual functions.  [Answer] is what the kernel returns to one wait. *)
Class PollerBase (P F : Type) := {
  Answer : Type;
  updateChannel : ChanId -> P * Store F -> outcome (P * Store F);
  removeChannel : ChanId -> P * Store F -> outcome (P * Store F);
  poll : Answer -> P * Store F -> outcome (list ChanId * (P * Store F));
}.
Arguments Answer P F {_}.
Arguments updateChannel {P F _}.
Arguments removeChannel {P F _}.
Arguments poll {P F _}.

(** The events a client can ask for. *)
Definition client_mask (m : Z) : Prop :=
  m = Z.land m (Z.lor kReadEvent kWriteEvent).

(** Two stores that differ at most in the [index_] of their channels. *)
Definition same_but_index {F} (c c' : Channel F) : Prop := c' = setIndex (index_ c') c.
Definition store_upto_index {F} (st st' : Store F) : Prop :=
  forall cid, match st !! cid, st' !! cid with
  | Some c, Some c' => same_but_index c c'
  | None, None => True
  | _, _ => False
  end.

(** What the interface promises: an invariant and the table it represents. *)
Class PollerLaws (P F : Type) `{PollerBase P F} := {
  poller_inv : P -> Store F -> Prop;
  watched : P -> Z -> option (ChanId * Z);
  watched_live : forall p st fd cid m, poller_inv p st -> watched p fd = Some (cid, m) ->
    exists c, st !! cid = Some c /\ fd_ c = fd;
  update_law : forall p st cid c,
    poller_inv p st -> st !! cid = Some c -> 0 <= fd_ c -> client_mask (events_ c) ->
    (forall cid' m, watched p (fd_ c) = Some (cid', m) -> cid' = cid) ->
    exists p' st', updateChannel cid (p, st) = Ok (p', st') /\ poller_inv p' st' /\
      store_upto_index st st' /\
      forall fd, watched p' fd = if decide (fd = fd_ c) then Some (cid, events_ c)
                                 else watched p fd;
  remove_law : forall p st cid c m,
    poller_inv p st -> st !! cid = Some c -> watched p (fd_ c) = Some (cid, m) ->
    exists p' st', removeChannel cid (p, st) = Ok (p', st') /\ poller_inv p' st' /\
      store_upto_index st st' /\
      forall fd, watched p' fd = if decide (fd = fd_ c) then None else watched p fd;
  (** What else changes in a channel, and new channels, are not the poller's
      concern until the next update. *)
  member_law : forall p st cid c c', poller_inv p st -> st !! cid = Some c ->
    fd_ c' = fd_ c -> index_ c' = index_ c -> poller_inv p (<[cid := c']> st);
  fresh_law : forall p st cid c, poller_inv p st -> st !! cid = None ->
    index_ c = NOT_FILL -> poller_inv p (<[cid := c]> st);
}.

Lemma same_but_index_refl {F} (c : Channel F) : same_but_index c c.
Proof. by destruct c. Qed.

Lemma store_upto_refl {F} (st : Store F) : store_upto_index st st.
Proof. intros cid. destruct (st !! cid); [apply same_but_index_refl|done]. Qed.

Lemma store_upto_trans {F} (s1 s2 s3 : Store F) :
  store_upto_index s1 s2 -> store_upto_index s2 s3 -> store_upto_index s1 s3.
Proof.
  intros H12 H23 cid. specialize (H12 cid). specialize (H23 cid).
  destruct (s1 !! cid), (s2 !! cid), (s3 !! cid); try done.
  unfold same_but_index in *. rewrite H12 in H23. by rewrite H23 at 1.
Qed.

Lemma store_upto_lookup {F} (st st' : Store F) cid c :
  store_upto_index st st' -> st !! cid = Some c ->
  exists i, st' !! cid = Some (setIndex i c).
Proof.
  intros H Hc. specialize (H cid). rewrite Hc in H.
  destruct (st' !! cid) as [c'|] eqn:E; [|done]. exists (index_ c'). by rewrite <- H.
Qed.

Lemma store_upto_insert {F} (st : Store F) cid c i :
  st !! cid = Some c -> store_upto_index st (<[cid := setIndex i c]> st).
Proof.
  intros Hc cid'. destruct (decide (cid = cid')) as [<-|Hne].
  - by rewrite Hc, lookup_insert_eq.
  - rewrite lookup_insert_ne by done. apply store_upto_refl.
Qed.

#[global] Instance store_upto_preorder {F} : PreOrder (@store_upto_index F).
Proof. split; [exact store_upto_refl|exact store_upto_trans]. Qed.

(** ** What a client of the interface does *)

(** Ask for the events [m] on channel [cid] ([listenTill...] and [ignore...]
    of Channel.hpp), or remove it. *)
Inductive request : Type :=
| Ask (cid : ChanId) (m : Z)
| Forget (cid : ChanId).

Section Client.
Context {P F : Type} `{PollerBase P F}.

Definition serve (r : request) (ps : P * Store F) : outcome (P * Store F) :=
  match r with
  | Ask cid m =>
      let! c := deref_channel cid ps.2 in
      updateChannel cid (ps.1, <[cid := setEvents m c]> ps.2)
  | Forget cid => removeChannel cid ps
  end.

Fixpoint serve_all (rs : list request) (ps : P * Store F) : outcome (P * Store F) :=
  match rs with
  | [] => Ok ps
  | r :: rs => let! ps := serve r ps in serve_all rs ps
  end.
End Client.

(** The table a request leaves, for the descriptors [fds] of the channels. *)
Definition spec_request (fds : ChanId -> option Z) (r : request)
    (tbl : gmap Z (ChanId * Z)) : gmap Z (ChanId * Z) :=
  match r with
  | Ask cid m => match fds cid with Some fd => <[fd := (cid, m)]> tbl | None => tbl end
  | Forget cid => match fds cid with Some fd => delete fd tbl | None => tbl end
  end.

(** The request names a live channel; no other channel is registered for its
    descriptor, and only registered channels are removed. *)
Definition request_ok (fds : ChanId -> option Z) (r : request)
    (tbl : gmap Z (ChanId * Z)) : Prop :=
  match r with
  | Ask cid m => exists fd, fds cid = Some fd /\ 0 <= fd /\ client_mask m /\
      (forall cid' m', tbl !! fd = Some (cid', m') -> cid' = cid)
  | Forget cid => exists fd m, fds cid = Some fd /\ tbl !! fd = Some (cid, m)
  end.

Fixpoint requests_ok (fds : ChanId -> option Z) (rs : list request)
    (tbl : gmap Z (ChanId * Z)) : Prop :=
  match rs with
  | [] => True
  | r :: rs => request_ok fds r tbl /\ requests_ok fds rs (spec_request fds r tbl)
  end.

Section ClientLaws.
Context {P F : Type} `{PollerLaws P F}.

Definition fds_of (st : Store F) (cid : ChanId) : option Z := fd_ <$> st !! cid.

(** The poller represents the table. *)
Definition represents (ps : P * Store F) (fds : ChanId -> option Z)
    (tbl : gmap Z (ChanId * Z)) : Prop :=
  poller_inv ps.1 ps.2 /\ (forall fd, watched ps.1 fd = tbl !! fd) /\
  (forall cid, fds_of ps.2 cid = fds cid).

Lemma fds_upto st st' cid : store_upto_index st st' -> fds_of st' cid = fds_of st cid.
Proof.
  intros Hst. specialize (Hst cid). unfold fds_of.
  destruct (st !! cid), (st' !! cid); cbn in *; try done. by rewrite Hst.
Qed.

Lemma fds_setEvents st cid c m cid' : st !! cid = Some c ->
  fds_of (<[cid := setEvents m c]> st) cid' = fds_of st cid'.
Proof.
  intros Hc. unfold fds_of. destruct (decide (cid = cid')) as [<-|].
  - by rewrite lookup_insert_eq, Hc.
  - by rewrite lookup_insert_ne.
Qed.

Lemma serve_represents r ps fds tbl :
  represents ps fds tbl -> request_ok fds r tbl ->
  exists ps', serve r ps = Ok ps' /\ represents ps' fds (spec_request fds r tbl).
Proof.
  destruct ps as [p st]. intros (Hinv & Hw & Hf) Hok. cbn [fst snd] in *.
  destruct r as [cid m|cid]; cbn in Hok |- *.
  - destruct Hok as (fd & Hfd & Hpos & Hm & Huniq). rewrite Hfd.
    pose proof (Hf cid) as Hc. rewrite Hfd in Hc. unfold fds_of in Hc.
    destruct (st !! cid) as [c|] eqn:Ec; cbn in Hc; [|discriminate].
    injection Hc as Hc. unfold deref_channel. rewrite Ec. cbn.
    destruct (update_law p (<[cid := setEvents m c]> st) cid (setEvents m c))
      as (p' & st' & E & Hinv' & Hst & Hw').
    + by eapply member_law.
    + apply lookup_insert_eq.
    + cbn. lia.
    + done.
    + cbn. rewrite Hc, Hw. done.
    + exists (p', st'). split; [done|]. split_and!; [done| |].
      * intros fd'. cbn. rewrite Hw'. cbn. rewrite Hc, lookup_insert, Hw.
        repeat case_decide; congruence.
      * intros cid'. cbn. by rewrite (fds_upto _ _ _ Hst), (fds_setEvents _ _ c).
  - destruct Hok as (fd & m & Hfd & Htbl). rewrite Hfd.
    pose proof (Hf cid) as Hc. rewrite Hfd in Hc. unfold fds_of in Hc.
    destruct (st !! cid) as [c|] eqn:Ec; cbn in Hc; [|discriminate].
    injection Hc as Hc.
    destruct (remove_law p st cid c m) as (p' & st' & E & Hinv' & Hst & Hw');
      [done|done|by rewrite Hc, Hw|].
    exists (p', st'). split; [done|]. split_and!; [done| |].
    + intros fd'. cbn. rewrite Hw', Hc, lookup_delete, Hw. repeat case_decide; congruence.
    + intros cid'. cbn. by rewrite (fds_upto _ _ _ Hst).
Qed.

Lemma serve_all_represents rs ps fds tbl :
  represents ps fds tbl -> requests_ok fds rs tbl ->
  exists ps', serve_all rs ps = Ok ps' /\
    represents ps' fds (fold_left (fun t r => spec_request fds r t) rs tbl).
Proof.
  revert ps tbl. induction rs as [|r rs IH]; intros ps tbl Hrep Hok; cbn in *.
  { by exists ps. }
  destruct Hok as [Hr Hrs]. destruct (serve_represents r ps fds tbl Hrep Hr) as (ps1 & -> & H1).
  cbn. by apply IH.
Qed.
End ClientLaws.
