(* ===== verification/Poller.v ===== *)
(** * Poller: the poll(2) poller of net/Poller.hpp and net/Poller.cpp

    The array handed to [::poll] and the map from descriptors to channels; a
    channel remembers its slot of the array in [index_].  Removal moves the
    last slot into the hole. *)
From Stdlib Require Import ZArith Lia List.
From stdpp Require Import base option list numbers gmap tactics.
From S2P Require Import Prelude.
From S2P Require Import Channel.
From S2P Require Import PollerBase.
Open Scope Z_scope.
Open Scope outcome_scope.

Record pollfd := mkPollfd { fd : Z; events : Z; revents : Z }.

Record Poller := mkPoller {
  channels_ : gmap Z ChanId;
  pollFdList_ : list pollfd;
}.

Definition make_Poller : Poller := mkPoller ∅ [].

(** [static_cast<short>]. *)
Definition to_short (z : Z) : Z := (z + 2 ^ 15) mod 2 ^ 16 - 2 ^ 15.

(** A descriptor [fd] is stored as [~fd] while its channel asks for nothing. *)
Definition stored_fd (e : pollfd) : Z := if fd e <? 0 then Z.lnot (fd e) else fd e.

Section Poller.
Context {F : Type}.
Implicit Types st : Store F.

(** [pollFdList_[index]]. *)
Definition slot (p : Poller) (index : Z) : outcome pollfd :=
  if (0 <=? index)
  then match pollFdList_ p !! Z.to_nat index with Some e => Ok e | None => Undef end
  else Undef.

Definition set_slot (p : Poller) (index : Z) (e : pollfd) : Poller :=
  mkPoller (channels_ p) (<[Z.to_nat index := e]> (pollFdList_ p)).

Definition updateChannel (cid : ChanId) (ps : Poller * Store F)
    : outcome (Poller * Store F) :=
  let '(p, st) := ps in
  let! c := deref_channel cid st in
  if index_ c =? NOT_FILL then
    let list := pollFdList_ p ++ [mkPollfd (fd_ c) (to_short (events_ c)) 0] in
    let index := Zlen list - 1 in
    Ok (mkPoller (<[fd_ c := cid]> (channels_ p)) list, <[cid := setIndex index c]> st)
  else
    let index := index_ c in
    let! _ := slot p index in
    let new_fd := if isNoneEvent c then Z.lnot (fd_ c) else fd_ c in
    Ok (set_slot p index (mkPollfd new_fd (to_short (events_ c)) 0), st).

Definition removeChannel (cid : ChanId) (ps : Poller * Store F)
    : outcome (Poller * Store F) :=
  let '(p, st) := ps in
  let! c := deref_channel cid st in
  let index := index_ c in
  let size := Zlen (pollFdList_ p) in
  if (index <? 0) || (size <=? index) then Ok (p, st) else
  let! (p, st) :=
    if index <? size - 1 then
      let! here := slot p index in
      let! back := slot p (size - 1) in
      let p := set_slot (set_slot p index back) (size - 1) here in
      match channels_ p !! stored_fd back with
      | Some other =>
          let! o := deref_channel other st in
          Ok (p, <[other := setIndex index o]> st)
      | None => Ok (p, st)
      end
    else Ok (p, st) in
  let! c := deref_channel cid st in
  Ok (mkPoller (delete (fd_ c) (channels_ p)) (take (length (pollFdList_ p) - 1) (pollFdList_ p)),
      <[cid := setIndex NOT_FILL c]> st).

(** The loop of [fillActiveChannels] over the slots. *)
Fixpoint fill_loop (channels : gmap Z ChanId) (slots : list pollfd) (num_events : Z)
    (st : Store F) : outcome (list ChanId * Store F) :=
  match slots with
  | [] => Ok ([], st)
  | e :: slots =>
      if num_events <=? 0 then Ok ([], st) else
      if 0 <? revents e then
        match channels !! fd e with
        | Some cid =>
            let! c := deref_channel cid st in
            if fd_ c =? fd e then
              let! (active, st') := fill_loop channels slots (num_events - 1)
                                      (<[cid := setReturnEvents (revents e) c]> st) in
              Ok (cid :: active, st')
            else fill_loop channels slots (num_events - 1) st
        | None => fill_loop channels slots (num_events - 1) st
        end
      else fill_loop channels slots num_events st
  end.

Definition fillActiveChannels (num_events : Z) (ps : Poller * Store F)
    : outcome (list ChanId * (Poller * Store F)) :=
  let '(p, st) := ps in
  let! (active, st) := fill_loop (channels_ p) (pollFdList_ p) num_events st in
  Ok (active, (p, st)).

(** The answer of [::poll]: its return value and the [revents] it stored. *)
Definition set_revents (l : list pollfd) (revs : list Z) : list pollfd :=
  zip_with (fun e r => mkPollfd (fd e) (events e) r) l revs.

Definition poll (answer : Z * list Z) (ps : Poller * Store F)
    : outcome (list ChanId * (Poller * Store F)) :=
  let '(num_events, revs) := answer in
  let '(p, st) := ps in
  if num_events <? 0 then Ok ([], (p, st)) else
  let p := mkPoller (channels_ p) (set_revents (pollFdList_ p) revs) in
  if num_events =? 0 then Ok ([], (p, st)) else
  fillActiveChannels num_events (p, st).

#[global] Instance Poller_base : PollerBase Poller F := {
  PollerBase.Answer := Z * list Z;
  PollerBase.updateChannel := updateChannel;
  PollerBase.removeChannel := removeChannel;
  PollerBase.poll := poll;
}.

(** ** The invariant: slots and channels point at each other *)
Record inv (p : Poller) st : Prop := {
  inv_slots : forall i e, pollFdList_ p !! i = Some e ->
    exists cid c, channels_ p !! stored_fd e = Some cid /\ st !! cid = Some c /\
      fd_ c = stored_fd e /\ index_ c = Z.of_nat i;
  inv_channels : forall n cid, channels_ p !! n = Some cid ->
    exists c i e, st !! cid = Some c /\ fd_ c = n /\ index_ c = Z.of_nat i /\
      pollFdList_ p !! i = Some e /\ stored_fd e = n;
  inv_store : forall cid c, st !! cid = Some c ->
    index_ c = NOT_FILL \/ channels_ p !! fd_ c = Some cid;
}.

Definition mask (e : pollfd) : Z := if fd e <? 0 then 0 else events e.

(** The table the array and the map represent. *)
Definition watched (p : Poller) (n : Z) : option (ChanId * Z) :=
  match channels_ p !! n with
  | Some cid =>
      match list_find (fun e => stored_fd e = n) (pollFdList_ p) with
      | Some (_, e) => Some (cid, mask e)
      | None => None
      end
  | None => None
  end.

Lemma watched_slot p st n cid c i e :
  inv p st -> channels_ p !! n = Some cid -> st !! cid = Some c -> index_ c = Z.of_nat i ->
  pollFdList_ p !! i = Some e -> stored_fd e = n ->
  watched p n = Some (cid, mask e).
Proof.
  intros Hinv Hch Hc Hi He Hn. unfold watched. rewrite Hch.
  destruct (list_find _ _) as [[j e']|] eqn:E.
  - apply list_find_Some in E as (He' & Hn' & _).
    destruct (inv_slots _ _ Hinv j e' He') as (cid' & c' & Hch' & Hc' & _ & Hj).
    rewrite Hn', Hch in Hch'. injection Hch' as <-.
    assert (j = i) as -> by (rewrite Hc in Hc'; injection Hc' as <-; lia).
    by rewrite He in He'; injection He' as <-.
  - eapply list_find_None in E. rewrite Forall_lookup in E. by destruct (E i e He).
Qed.

Lemma watched_inv p st n cid m :
  inv p st -> watched p n = Some (cid, m) ->
  exists c i e, channels_ p !! n = Some cid /\ st !! cid = Some c /\ fd_ c = n /\
    index_ c = Z.of_nat i /\ pollFdList_ p !! i = Some e /\ stored_fd e = n /\ mask e = m.
Proof.
  intros Hinv Hw.
  destruct (channels_ p !! n) as [cid'|] eqn:Hch; [|unfold watched in Hw; by rewrite Hch in Hw].
  destruct (inv_channels _ _ Hinv n cid' Hch) as (c & i & e & Hc & Hfd & Hi & He & Hn).
  rewrite (watched_slot p st n cid' c i e) in Hw by done. injection Hw as -> <-.
  by exists c, i, e.
Qed.

Lemma watched_None p st n : inv p st -> watched p n = None -> channels_ p !! n = None.
Proof.
  intros Hinv Hw. destruct (channels_ p !! n) as [cid|] eqn:Hch; [|done].
  destruct (inv_channels _ _ Hinv n cid Hch) as (c & i & e & ? & ? & ? & ? & ?).
  by rewrite (watched_slot p st n cid c i e) in Hw.
Qed.

(** [watched] of two pollers that agree on the slots of [n]. *)
Lemma watched_same p st p' st' n :
  inv p st -> inv p' st' -> channels_ p' !! n = channels_ p !! n ->
  (forall cid c i e, channels_ p !! n = Some cid -> st !! cid = Some c ->
     index_ c = Z.of_nat i -> pollFdList_ p !! i = Some e -> stored_fd e = n ->
     exists c' i', st' !! cid = Some c' /\ index_ c' = Z.of_nat i' /\
       pollFdList_ p' !! i' = Some e) ->
  watched p' n = watched p n.
Proof.
  intros Hinv Hinv' Hch Hs. destruct (channels_ p !! n) as [cid|] eqn:Hcid.
  - destruct (inv_channels _ _ Hinv n cid Hcid) as (c & i & e & Hc & Hfd & Hi & He & Hn).
    rewrite (watched_slot p st n cid c i e) by done.
    destruct (Hs cid c i e) as (c' & i' & Hc' & Hi' & He'); [done..|].
    by apply (watched_slot p' st' n cid c' i' e).
  - unfold watched. by rewrite Hch, Hcid.
Qed.

Lemma client_mask_range m : client_mask m -> 0 <= m <= 7.
Proof.
  intros ->. change (Z.lor kReadEvent kWriteEvent) with (Z.ones 3).
  rewrite Z.land_ones by lia. pose proof (Z.mod_pos_bound m (2 ^ 3) ltac:(lia)). lia.
Qed.

Lemma to_short_mask m : client_mask m -> to_short m = m.
Proof. intros H%client_mask_range. unfold to_short. rewrite Z.mod_small; lia. Qed.

Lemma stored_fd_nonneg n ev r : 0 <= n -> stored_fd (mkPollfd n ev r) = n.
Proof. intros. unfold stored_fd. cbn. by decide_bools. Qed.
Lemma stored_fd_lnot n ev r : 0 <= n -> stored_fd (mkPollfd (Z.lnot n) ev r) = n.
Proof.
  intros. unfold stored_fd. cbn [fd]. unfold Z.lnot. decide_bools. lia.
Qed.

(** ** [updateChannel] *)
Lemma fresh_fd p st cid c :
  inv p st -> st !! cid = Some c -> index_ c = NOT_FILL ->
  (forall cid' m, watched p (fd_ c) = Some (cid', m) -> cid' = cid) ->
  channels_ p !! fd_ c = None.
Proof.
  intros Hinv Hc Hidx Huniq. apply (watched_None p st); [done|].
  destruct (watched p (fd_ c)) as [[cid' m]|] eqn:E; [|done].
  rewrite (Huniq cid' m eq_refl) in E.
  destruct (watched_inv p st _ cid m Hinv E) as (c' & i & e & _ & Hc' & _ & Hi & _).
  rewrite Hc in Hc'. injection Hc' as <-. unfold NOT_FILL in *. lia.
Qed.

Lemma update_new p st cid c :
  inv p st -> st !! cid = Some c -> 0 <= fd_ c -> client_mask (events_ c) ->
  index_ c = NOT_FILL -> channels_ p !! fd_ c = None ->
  exists p' st', updateChannel cid (p, st) = Ok (p', st') /\ inv p' st' /\
    store_upto_index st st' /\
    forall n, watched p' n = if decide (n = fd_ c) then Some (cid, events_ c) else watched p n.
Proof.
  intros Hinv Hc Hpos Hmask Hidx Hfresh. unfold updateChannel, deref_channel.
  rewrite Hc. cbn [mbind outcome_bind]. rewrite Hidx, Z.eqb_refl.
  set (e := mkPollfd (fd_ c) (to_short (events_ c)) 0).
  set (len := length (pollFdList_ p)).
  replace (Zlen (pollFdList_ p ++ [e]) - 1) with (Z.of_nat len)
    by (rewrite Zlen_app; unfold Zlen; cbn; lia).
  assert (He : stored_fd e = fd_ c) by (by apply stored_fd_nonneg).
  assert (Hold : forall n cid', channels_ p !! n = Some cid' -> n <> fd_ c /\ cid' <> cid).
  { intros n cid' Hch. split; [congruence|]. intros ->.
    destruct (inv_channels _ _ Hinv n cid Hch) as (c' & i & e' & Hc' & _ & Hi & _).
    rewrite Hc in Hc'. injection Hc' as <-. unfold NOT_FILL in *. lia. }
  assert (Hinv' : inv (mkPoller (<[fd_ c := cid]> (channels_ p)) (pollFdList_ p ++ [e]))
    (<[cid := setIndex (Z.of_nat len) c]> st)).
  { split; cbn [pollFdList_ channels_].
    - intros i e' Hi. apply lookup_app_Some in Hi as [Hi|[Hge Hi]].
      + destruct (inv_slots _ _ Hinv i e' Hi) as (cid' & c' & Hch & ? & ? & ?).
        destruct (Hold _ _ Hch). exists cid', c'. by simplify_map_eq.
      + apply list_lookup_singleton_Some in Hi as [Hi <-].
        exists cid, (setIndex (Z.of_nat len) c). rewrite He. simplify_map_eq.
        split_and!; [done..|]. cbn. subst len. lia.
    - intros n cid' Hch. destruct (decide (n = fd_ c)) as [->|Hne]; simplify_map_eq.
      + exists (setIndex (Z.of_nat len) c), len, e. simplify_map_eq.
        split_and!; try done. subst len. by rewrite lookup_app_r, Nat.sub_diag by lia.
      + destruct (inv_channels _ _ Hinv n cid' Hch) as (c' & i & e' & ? & ? & ? & Hi & ?).
        destruct (Hold _ _ Hch). exists c', i, e'. simplify_map_eq.
        split_and!; try done. by apply lookup_app_l_Some.
    - intros cid' c' Hc'. destruct (decide (cid' = cid)) as [->|Hne]; simplify_map_eq.
      + right. by simplify_map_eq.
      + destruct (inv_store _ _ Hinv cid' c' Hc') as [?|Hch]; [by left|right].
        destruct (Hold _ _ Hch). by simplify_map_eq. }
  eexists _, _. split; [done|]. split_and!; [done|by apply store_upto_insert|].
  intros n. case_decide as Hn.
  - subst n. replace (events_ c) with (mask e).
    + apply (watched_slot _ _ (fd_ c) cid (setIndex (Z.of_nat len) c) len e Hinv');
        cbn; simplify_map_eq; try done.
      subst len. by rewrite lookup_app_r, Nat.sub_diag by lia.
    + unfold mask, e. cbn. decide_bools. by apply to_short_mask.
  - apply (watched_same p st _ _ n Hinv Hinv'); cbn; [by simplify_map_eq|].
    intros cid' c' i e' Hch Hc' Hi He' Hst. destruct (Hold _ _ Hch).
    exists c', i. simplify_map_eq. split_and!; try done. by apply lookup_app_l_Some.
Qed.

Lemma update_registered p st cid c :
  inv p st -> st !! cid = Some c -> 0 <= fd_ c -> client_mask (events_ c) ->
  channels_ p !! fd_ c = Some cid ->
  exists p' st', updateChannel cid (p, st) = Ok (p', st') /\ inv p' st' /\
    store_upto_index st st' /\
    forall n, watched p' n = if decide (n = fd_ c) then Some (cid, events_ c) else watched p n.
Proof.
  intros Hinv Hc Hpos Hmask Hch. unfold updateChannel, deref_channel.
  rewrite Hc. cbn [mbind outcome_bind].
  destruct (inv_channels _ _ Hinv _ _ Hch) as (c0 & i & e0 & Hc0 & _ & Hi & He0 & Hst0).
  rewrite Hc in Hc0. injection Hc0 as <-. unfold NOT_FILL. decide_bools.
  unfold slot. decide_bools. rewrite Hi, Nat2Z.id, He0. cbn [mbind outcome_bind].
  set (e := mkPollfd _ _ 0).
  assert (He : stored_fd e = fd_ c).
  { subst e. destruct (isNoneEvent c); [by apply stored_fd_lnot|by apply stored_fd_nonneg]. }
  pose proof (lookup_lt_Some _ _ _ He0) as Hlt.
  assert (Hlook : forall j e', <[i:=e]> (pollFdList_ p) !! j = Some e' ->
    exists e'', pollFdList_ p !! j = Some e'' /\ stored_fd e'' = stored_fd e').
  { intros j e' Hj. destruct (decide (i = j)) as [<-|Hne].
    - rewrite list_lookup_insert_eq in Hj by done. injection Hj as <-.
      exists e0. by rewrite Hst0, He.
    - rewrite list_lookup_insert_ne in Hj by done. by exists e'. }
  assert (Hinv' : inv (mkPoller (channels_ p) (<[i:=e]> (pollFdList_ p))) st).
  { split; cbn [pollFdList_ channels_].
    - intros j e' Hj. destruct (Hlook j e' Hj) as (e'' & Hj' & <-).
      apply (inv_slots _ _ Hinv j e'' Hj').
    - intros n cid' Hn.
      destruct (inv_channels _ _ Hinv n cid' Hn) as (c' & j & e' & ? & ? & ? & Hj & ?).
      destruct (decide (i = j)) as [<-|Hne].
      + exists c', i, e. rewrite list_lookup_insert_eq by done. split_and!; try done.
        rewrite He. rewrite Hj in He0. injection He0 as ->. congruence.
      + exists c', j, e'. by rewrite list_lookup_insert_ne.
    - apply (inv_store _ _ Hinv). }
  unfold set_slot. rewrite Nat2Z.id.
  eexists _, _. split; [done|]. split_and!; [done|apply store_upto_refl|].
  intros n. case_decide as Hn.
  - subst n. replace (events_ c) with (mask e).
    + apply (watched_slot _ _ (fd_ c) cid c i e Hinv'); cbn; try done.
      by rewrite list_lookup_insert_eq.
    + unfold mask, e, isNoneEvent, kNoneEvent. cbn [fd events].
      destruct (Z.eqb_spec (events_ c) 0) as [->|]; unfold Z.lnot; decide_bools; [done|].
      by apply to_short_mask.
  - apply (watched_same p st _ _ n Hinv Hinv'); cbn; [done|].
    intros cid' c' j e' Hch' Hc' Hj He' Hst'. exists c', j. split_and!; try done.
    rewrite list_lookup_insert_ne; [done|]. intros <-. congruence.
Qed.

(** ** [removeChannel] *)

(** A slot belongs to one channel. *)
Lemma slot_owner p st i e cid c :
  inv p st -> pollFdList_ p !! i = Some e -> st !! cid = Some c ->
  index_ c = Z.of_nat i -> channels_ p !! stored_fd e = Some cid /\ fd_ c = stored_fd e.
Proof.
  intros Hinv He Hc Hi.
  destruct (inv_store _ _ Hinv cid c Hc) as [?|Hch]; [unfold NOT_FILL in *; lia|].
  destruct (inv_channels _ _ Hinv _ _ Hch) as (c' & j & e' & Hc' & _ & Hj & He' & Hst).
  rewrite Hc in Hc'. injection Hc' as <-. assert (i = j) as <- by lia.
  rewrite He in He'. injection He' as <-. by rewrite Hst.
Qed.

(** The index a channel has after the removal of slot [i] of [last + 1]. *)
Definition moved_index (i last : nat) (c : Channel F) : Channel F :=
  if decide (index_ c = Z.of_nat last /\ i <> last) then setIndex (Z.of_nat i) c else c.

(** What removing the channel in slot [i] leaves: the map without it, the array
    with the last slot in place of [i], the indices to match. *)
Record removed (p : Poller) st (cid : ChanId) (c : Channel F) (i last : nat)
    (p' : Poller) (st' : Store F) : Prop := {
  rm_channels : channels_ p' = delete (fd_ c) (channels_ p);
  rm_slots : forall j, pollFdList_ p' !! j =
    if decide (j < last)%nat then pollFdList_ p !! (if decide (j = i) then last else j) else None;
  rm_self : st' !! cid = Some (setIndex NOT_FILL c);
  rm_others : forall cid', cid' <> cid -> st' !! cid' = moved_index i last <$> st !! cid';
}.

Lemma removeChannel_removed p st cid c i last :
  inv p st -> st !! cid = Some c -> channels_ p !! fd_ c = Some cid ->
  index_ c = Z.of_nat i -> length (pollFdList_ p) = S last -> (i <= last)%nat ->
  exists p' st', removeChannel cid (p, st) = Ok (p', st') /\ removed p st cid c i last p' st'.
Proof.
  intros Hinv Hc Hch Hi Hlen Hle. unfold removeChannel, deref_channel.
  rewrite Hc. cbn [mbind outcome_bind].
  assert (HZ : Zlen (pollFdList_ p) = Z.of_nat last + 1) by (unfold Zlen; lia).
  rewrite Hi, HZ. decide_bools. cbn [orb].
  destruct (decide (i = last)) as [->|Hne].
  - decide_bools. cbn [mbind outcome_bind]. rewrite Hc. cbn [mbind outcome_bind].
    eexists _, _. split; [done|]. rewrite Hlen, Nat.sub_1_r. split; cbn [channels_ pollFdList_].
    + done.
    + intros j. rewrite lookup_take. repeat case_decide; try done; lia.
    + apply lookup_insert_eq.
    + intros cid' Hcid'. rewrite lookup_insert_ne by done. unfold moved_index.
      destruct (st !! cid') as [c'|]; cbn; [|done]. rewrite decide_False; [done|]. by intros [].
  - decide_bools. unfold slot. decide_bools.
    destruct (lookup_lt_is_Some_2 (pollFdList_ p) i) as [here Hhere]; [lia|].
    destruct (lookup_lt_is_Some_2 (pollFdList_ p) last) as [back Hback]; [lia|].
    replace (Z.to_nat (Z.of_nat last + 1 - 1)) with last by lia.
    rewrite Nat2Z.id, Hhere, Hback. cbn [mbind outcome_bind].
    destruct (inv_slots _ _ Hinv last back Hback) as (other & o & Hcho & Ho & Hfo & Hio).
    assert (Hoc : other <> cid).
    { intros ->. rewrite Hc in Ho. injection Ho as <-. lia. }
    unfold set_slot. cbn [channels_ pollFdList_]. rewrite Hcho, Ho. cbn [mbind outcome_bind].
    rewrite lookup_insert_ne, Hc by done. cbn [mbind outcome_bind channels_ pollFdList_].
    eexists _, _. split; [done|].
    rewrite Nat2Z.id, !length_insert, Hlen, Nat.sub_1_r.
    replace (Z.to_nat (Z.of_nat last + 1 - 1)) with last by lia.
    split; cbn [channels_ pollFdList_ Nat.pred].
    + done.
    + intros j. rewrite lookup_take. case_decide; [|done].
      rewrite list_lookup_insert_ne by lia.
      case_decide as Hj; [subst j; by rewrite list_lookup_insert_eq by lia|].
      by rewrite list_lookup_insert_ne by done.
    + apply lookup_insert_eq.
    + intros cid' Hcid'. rewrite lookup_insert_ne by done. unfold moved_index.
      destruct (decide (cid' = other)) as [->|Hno].
      * rewrite lookup_insert_eq, Ho. cbn. by rewrite decide_True.
      * rewrite lookup_insert_ne by done. destruct (st !! cid') as [c'|] eqn:Ec'; cbn; [|done].
        rewrite decide_False; [done|]. intros [Hlast _].
        destruct (slot_owner p st last back cid' c' Hinv Hback Ec' Hlast) as [Hw _].
        congruence.
Qed.

Lemma moved_index_fd i last c : fd_ (moved_index i last c) = fd_ c.
Proof. unfold moved_index. by case_decide. Qed.

Lemma same_but_index_moved i last c : same_but_index c (moved_index i last c).
Proof. unfold moved_index. case_decide; [done|apply same_but_index_refl]. Qed.

Section Removed.
Context (p p' : Poller) (st st' : Store F) (cid : ChanId) (c : Channel F) (i last : nat).
Hypothesis Hinv : inv p st.
Hypothesis Hc : st !! cid = Some c.
Hypothesis Hch : channels_ p !! fd_ c = Some cid.
Hypothesis Hi : index_ c = Z.of_nat i.
Hypothesis Hlen : length (pollFdList_ p) = S last.
Hypothesis Hle : (i <= last)%nat.
Hypothesis Hrm : removed p st cid c i last p' st'.

(** Every other channel keeps its slot, moved if it was the last. *)
Lemma removed_slot cid' c' j e :
  cid' <> cid -> st !! cid' = Some c' -> index_ c' = Z.of_nat j ->
  pollFdList_ p !! j = Some e ->
  exists c'' j', st' !! cid' = Some c'' /\ fd_ c'' = fd_ c' /\ index_ c'' = Z.of_nat j' /\
    pollFdList_ p' !! j' = Some e.
Proof.
  intros Hne Hc' Hj He.
  destruct (slot_owner p st j e cid' c' Hinv He Hc' Hj) as [Hown _].
  assert (Hji : j <> i).
  { intros ->. destruct (slot_owner p st i e cid c Hinv He Hc Hi). congruence. }
  pose proof (lookup_lt_Some _ _ _ He) as Hjl.
  exists (moved_index i last c'). rewrite (rm_others _ _ _ _ _ _ _ _ Hrm) by done.
  rewrite Hc', moved_index_fd.
  change (moved_index i last <$> Some c') with (Some (moved_index i last c')).
  unfold moved_index. setoid_rewrite (rm_slots _ _ _ _ _ _ _ _ Hrm).
  case_decide as Hd.
  - exists i. split_and!; [done..|]. rewrite !decide_True by lia.
    replace last with j by lia. done.
  - exists j. split_and!; [done..|]. rewrite decide_True by lia.
    by rewrite decide_False by done.
Qed.

Lemma removed_inv : inv p' st'.
Proof.
  pose proof Hrm as [Hchs Hsl Hself Hoth]. split.
  - intros j e Hj. rewrite Hsl in Hj. case_decide as Hlt; [|done].
    set (k := if decide (j = i) then last else j) in *.
    destruct (inv_slots _ _ Hinv k e Hj) as (cid' & c' & Hch' & Hc' & Hfd & Hk).
    assert (Hki : k <> i) by (subst k; case_decide; lia).
    assert (Hne : cid' <> cid).
    { intros ->. rewrite Hc in Hc'. injection Hc' as <-. lia. }
    exists cid', (moved_index i last c'). rewrite Hoth, Hc' by done.
    rewrite moved_index_fd, Hchs. split_and!; [|done..|].
    + rewrite lookup_delete_ne; [done|]. intros E. rewrite E in Hch. congruence.
    + unfold moved_index. subst k. repeat case_decide; cbn; try lia.
  - intros n cid' Hn. rewrite Hchs in Hn. apply lookup_delete_Some in Hn as [Hnf Hn].
    destruct (inv_channels _ _ Hinv n cid' Hn) as (c' & j & e & Hc' & Hfd & Hj & He & Hs).
    assert (Hne : cid' <> cid) by (intros ->; congruence).
    destruct (removed_slot cid' c' j e Hne Hc' Hj He) as (c'' & j' & ? & ? & ? & ?).
    exists c'', j', e. split_and!; congruence || done.
  - intros cid' c' Hc'. destruct (decide (cid' = cid)) as [->|Hne].
    { left. rewrite Hself in Hc'. by injection Hc' as <-. }
    rewrite Hoth in Hc' by done. destruct (st !! cid') as [c0|] eqn:E; [|done].
    cbn in Hc'. injection Hc' as <-. rewrite moved_index_fd, Hchs.
    destruct (inv_store _ _ Hinv cid' c0 E) as [Hnf|Hreg].
    + left. unfold moved_index. rewrite decide_False; [done|]. unfold NOT_FILL in *. lia.
    + right. rewrite lookup_delete_ne; [done|]. intros Ef. rewrite Ef in Hch. congruence.
Qed.

Lemma removed_store : store_upto_index st st'.
Proof.
  pose proof Hrm as [_ _ Hself Hoth]. intros cid'.
  destruct (decide (cid' = cid)) as [->|Hne]; [by rewrite Hc, Hself|].
  rewrite Hoth by done. destruct (st !! cid') as [c'|]; [apply same_but_index_moved|done].
Qed.

Lemma removed_watched n :
  watched p' n = if decide (n = fd_ c) then None else watched p n.
Proof.
  pose proof Hrm as [Hchs _ _ _]. case_decide as Hn.
  - subst n. unfold watched. by rewrite Hchs, lookup_delete_eq.
  - apply (watched_same p st _ _ n Hinv removed_inv); [by rewrite Hchs, lookup_delete_ne|].
    intros cid' c' j e Hn' Hc' Hj He Hs.
    assert (Hne : cid' <> cid).
    { intros ->. rewrite Hc in Hc'. injection Hc' as <-.
      destruct (slot_owner p st j e cid c Hinv He Hc Hj). congruence. }
    destruct (removed_slot cid' c' j e Hne Hc' Hj He) as (c'' & j' & ? & _ & ? & ?).
    by exists c'', j'.
Qed.
End Removed.

#[global] Program Instance Poller_laws : PollerLaws Poller F := {
  poller_inv := inv;
  PollerBase.watched := watched;
}.
Next Obligation.
  intros p st n cid m Hinv Hw.
  destruct (watched_inv p st n cid m Hinv Hw) as (c & i & e & _ & Hc & Hfd & _).
  by exists c.
Qed.
Next Obligation.
  intros p st cid c Hinv Hc Hpos Hmask Huniq.
  destruct (inv_store _ _ Hinv cid c Hc) as [Hidx|Hch].
  - apply update_new; try done. by apply (fresh_fd p st cid c).
  - by apply update_registered.
Qed.
Next Obligation.
  intros p st cid c m Hinv Hc Hw. cbn in Hw.
  destruct (watched_inv p st _ cid m Hinv Hw) as (c' & i & e & Hch & Hc' & _ & Hi & He & _).
  rewrite Hc in Hc'. injection Hc' as <-. pose proof (lookup_lt_Some _ _ _ He).
  set (last := (length (pollFdList_ p) - 1)%nat).
  assert (Hlen : length (pollFdList_ p) = S last) by lia.
  assert (Hle : (i <= last)%nat) by lia.
  destruct (removeChannel_removed p st cid c i last) as (p' & st' & E & Hrm); [done..|].
  exists p', st'. split; [exact E|]. split_and!.
  - by apply (removed_inv p p' st st' cid c i last).
  - by apply (removed_store p p' st st' cid c i last).
  - intros n. by apply (removed_watched p p' st st' cid c i last).
Qed.
Next Obligation.
  intros p st cid c c0 [Hs Hchs Hst] Hc Hfd Hix. split.
  - intros i e He. destruct (Hs i e He) as (cid' & c' & ? & Hc' & ? & ?).
    destruct (decide (cid' = cid)) as [->|]; simplify_map_eq.
    + exists cid, c0. simplify_map_eq. by split_and!; try congruence.
    + exists cid', c'. by simplify_map_eq.
  - intros n cid' Hn. destruct (Hchs n cid' Hn) as (c' & i & e & Hc' & ? & ? & ? & ?).
    destruct (decide (cid' = cid)) as [->|]; simplify_map_eq.
    + exists c0, i, e. simplify_map_eq. by split_and!; try congruence.
    + exists c', i, e. by simplify_map_eq.
  - intros cid' c' Hc'. destruct (decide (cid' = cid)) as [->|]; simplify_map_eq.
    + rewrite Hfd, Hix. apply (Hst cid c Hc).
    + by apply (Hst cid' c').
Qed.
Next Obligation.
  intros p st cid c [Hs Hchs Hst] Hc Hix.
  assert (Hne : forall cid' c', st !! cid' = Some c' -> cid' <> cid) by congruence.
  split.
  - intros i e He. destruct (Hs i e He) as (cid' & c' & ? & Hc' & ? & ?).
    exists cid', c'. specialize (Hne _ _ Hc'). by simplify_map_eq.
  - intros n cid' Hn. destruct (Hchs n cid' Hn) as (c' & i & e & Hc' & ? & ? & ? & ?).
    exists c', i, e. specialize (Hne _ _ Hc'). by simplify_map_eq.
  - intros cid' c' Hc'. destruct (decide (cid' = cid)) as [->|]; simplify_map_eq.
    + by left.
    + by apply (Hst cid' c').
Qed.

(** ** [poll] *)

(** The channels whose slots the kernel marked, with what it stored. *)
Definition ready (channels : gmap Z ChanId) (slots : list pollfd) : list (ChanId * Z) :=
  omap (fun e => if 0 <? revents e then (fun cid => (cid, revents e)) <$> channels !! fd e
                 else None) slots.

Definition mark (st : Store F) (r : ChanId * Z) : Store F :=
  alter (setReturnEvents r.2) r.1 st.

Definition marked (slots : list pollfd) : Z :=
  Zlen (filter (fun e => 0 < revents e) slots).

(** Every marked slot is the slot of a live channel. *)
Definition slots_ok (channels : gmap Z ChanId) (st : Store F) (slots : list pollfd) : Prop :=
  Forall (fun e => 0 < revents e -> exists cid c,
    channels !! fd e = Some cid /\ st !! cid = Some c /\ fd_ c = fd e) slots.

Lemma mark_lookup st r cid c : st !! cid = Some c ->
  exists c', mark st r !! cid = Some c' /\ fd_ c' = fd_ c /\ index_ c' = index_ c.
Proof.
  intros Hc. unfold mark. rewrite lookup_alter. case_decide as Hd.
  - subst cid. rewrite Hc. by eexists.
  - by exists c.
Qed.

Lemma slots_ok_mark channels st r slots :
  slots_ok channels st slots -> slots_ok channels (mark st r) slots.
Proof.
  apply Forall_impl. intros e He Hr. destruct (He Hr) as (cid & c & Hch & Hc & Hfd).
  destruct (mark_lookup st r cid c Hc) as (c' & ? & ? & _).
  exists cid, c'. split_and!; congruence || done.
Qed.

Lemma fill_loop_ready channels slots n st :
  slots_ok channels st slots -> marked slots <= n ->
  fill_loop channels slots n st
  = Ok (map fst (ready channels slots), fold_left mark (ready channels slots) st).
Proof.
  revert n st. induction slots as [|e slots IH]; intros n st Hok Hn; [done|].
  apply Forall_cons_1 in Hok as [He Hok].
  unfold marked in *. cbn [fill_loop ready omap list_omap].
  rewrite filter_cons in Hn.
  destruct (Z.ltb_spec 0 (revents e)) as [Hr|Hr].
  - rewrite decide_True, Zlen_cons in Hn by done.
    pose proof (Zlen_nonneg (filter (fun e => 0 < revents e) slots)). decide_bools.
    destruct (He Hr) as (cid & c & Hch & Hc & Hfd). unfold deref_channel.
    rewrite Hch, Hc. cbn [mbind outcome_bind fmap option_fmap option_map].
    rewrite Hfd, Z.eqb_refl.
    assert (Hm : <[cid := setReturnEvents (revents e) c]> st = mark st (cid, revents e)).
    { unfold mark. cbn. apply map_eq. intros cid'. rewrite lookup_insert, lookup_alter.
      case_decide as Hd; [subst; by rewrite Hc|done]. }
    rewrite Hm, IH by (by apply slots_ok_mark || lia). done.
  - rewrite decide_False in Hn by lia. destruct (Z.leb_spec n 0) as [Hz|]; [|by apply IH].
    specialize (IH n st Hok Hn). revert IH. clear -Hz. destruct slots as [|e' slots]; [done|].
    cbn [fill_loop]. by rewrite (proj2 (Z.leb_le n 0) Hz).
Qed.

Lemma inv_mark p st r : inv p st -> inv p (mark st r).
Proof.
  intros [Hs Hchs Hst]. split.
  - intros i e He. destruct (Hs i e He) as (cid & c & ? & Hc & ? & ?).
    destruct (mark_lookup st r cid c Hc) as (c' & ? & ? & ?).
    exists cid, c'. split_and!; congruence || done.
  - intros n cid Hn. destruct (Hchs n cid Hn) as (c & i & e & Hc & ? & ? & ? & ?).
    destruct (mark_lookup st r cid c Hc) as (c' & ? & ? & ?).
    exists c', i, e. split_and!; congruence || done.
  - intros cid c'. unfold mark. rewrite lookup_alter. case_decide as Hd.
    + subst cid. intros (c & Hc & ->)%fmap_Some. apply (Hst _ c Hc).
    + apply Hst.
Qed.

Lemma set_revents_lookup l revs i e :
  set_revents l revs !! i = Some e -> exists e0, l !! i = Some e0 /\
    fd e0 = fd e /\ events e0 = events e.
Proof.
  unfold set_revents. rewrite lookup_zip_with.
  intros (e0 & -> & (r & Hr & Hx)%bind_Some)%bind_Some. exists e0. by injection Hx as <-.
Qed.

Lemma inv_revents p st revs :
  inv p st -> length revs = length (pollFdList_ p) ->
  inv (mkPoller (channels_ p) (set_revents (pollFdList_ p) revs)) st.
Proof.
  intros [Hs Hchs Hst] Hlen. split; cbn [channels_ pollFdList_]; [| |exact Hst].
  - intros i e (e0 & He & Hfd & _)%set_revents_lookup.
    replace (stored_fd e) with (stored_fd e0) by (unfold stored_fd; by rewrite Hfd).
    by apply Hs.
  - intros n cid Hn. destruct (Hchs n cid Hn) as (c & i & e & ? & ? & ? & He & Hsf).
    destruct (lookup_lt_is_Some_2 revs i) as [r Hr];
      [rewrite Hlen; by apply lookup_lt_Some in He|].
    exists c, i, (mkPollfd (fd e) (events e) r). split_and!; try done.
    unfold set_revents. by rewrite lookup_zip_with, He, Hr.
Qed.

Lemma list_find_revents n l revs :
  length revs = length l ->
  (fun r => (r.1, mask r.2)) <$> list_find (fun e => stored_fd e = n) (set_revents l revs)
  = (fun r => (r.1, mask r.2)) <$> list_find (fun e => stored_fd e = n) l.
Proof.
  revert revs. induction l as [|e l IH]; intros [|r revs] Hlen; try done.
  cbn. injection Hlen as Hlen. unfold stored_fd at 1. cbn [fd]. fold (stored_fd e).
  destruct (decide (stored_fd e = n)); [done|]. specialize (IH revs Hlen). unfold set_revents in IH.
  destruct (list_find _ (zip_with _ l revs)) as [[i x]|],
    (list_find _ l) as [[j y]|]; cbn in *; try done. injection IH as -> IH. by rewrite IH.
Qed.

Lemma watched_revents p revs n :
  length revs = length (pollFdList_ p) ->
  watched (mkPoller (channels_ p) (set_revents (pollFdList_ p) revs)) n = watched p n.
Proof.
  intros Hlen. unfold watched. cbn [channels_ pollFdList_].
  destruct (channels_ p !! n); [|done].
  pose proof (list_find_revents n _ _ Hlen) as E.
  destruct (list_find _ (set_revents _ _)) as [[i x]|],
    (list_find _ (pollFdList_ p)) as [[j y]|]; cbn in E; try done.
  injection E as _ E. by rewrite E.
Qed.

(** The contract of [::poll]: one answer per slot, none for a disabled slot,
    and the number of marked slots as its return value. *)
Definition poll_answer_ok (p : Poller) (answer : Z * list Z) : Prop :=
  length answer.2 = length (pollFdList_ p) /\
  (forall i e r, pollFdList_ p !! i = Some e -> answer.2 !! i = Some r ->
     0 <= r /\ (fd e < 0 -> r = 0)) /\
  answer.1 = marked (set_revents (pollFdList_ p) answer.2).

(** C32: after [::poll] marked some slots, [Poller::poll] returns exactly the
    channels registered in these slots, in slot order, each with the events
    stored for it in [return_events_]; the other channels, and the invariant
    between slots, map and indices, are untouched. *)
Theorem poll_reports_ready (p : Poller) (st : Store F) (answer : Z * list Z) :
  inv p st -> poll_answer_ok p answer ->
  let slots := set_revents (pollFdList_ p) answer.2 in
  let p' := mkPoller (channels_ p) slots in
  let st' := fold_left mark (ready (channels_ p) slots) st in
  poll answer (p, st) = Ok (map fst (ready (channels_ p) slots), (p', st')) /\
  inv p' st' /\ (forall n, watched p' n = watched p n).
Proof.
  destruct answer as [n revs]. intros Hinv (Hlen & Hk & Hn) slots p' st'.
  cbn [fst snd] in *. change (n = marked slots) in Hn.
  pose proof (inv_revents p st revs Hinv Hlen) as Hinv1. fold slots p' in Hinv1.
  assert (Hok : slots_ok (channels_ p) st slots).
  { apply Forall_lookup. intros i e He Hr.
    destruct (inv_slots _ _ Hinv1 i e He) as (cid & c & Hch & Hc & Hfd & _).
    assert (Hs : stored_fd e = fd e).
    { unfold stored_fd. destruct (Z.ltb_spec (fd e) 0) as [Hneg|]; [|done].
      subst slots. unfold set_revents in He. rewrite lookup_zip_with in He.
      apply bind_Some in He as (e0 & He0 & (r & Hr0 & Hx)%bind_Some).
      injection Hx as <-. cbn in *. destruct (Hk i e0 r He0 Hr0). lia. }
    rewrite Hs in *. by exists cid, c. }
  assert (Hm : forall rs s, inv p' s -> inv p' (fold_left mark rs s)).
  { induction rs as [|r rs IH]; intros s Hi; cbn; [done|]. by apply IH, inv_mark. }
  pose proof (Zlen_nonneg (filter (fun e => 0 < revents e) slots)).
  split_and!.
  - unfold poll. fold slots p'. unfold fillActiveChannels. cbn [channels_ p'].
    destruct (Z.ltb_spec n 0); [unfold marked in Hn; lia|].
    destruct (Z.eqb_spec n 0) as [Hz|].
    + pose proof (fill_loop_ready (channels_ p) slots 0 st Hok ltac:(lia)) as E.
      assert (E0 : fill_loop (channels_ p) slots 0 st = Ok ([], st)) by (by destruct slots).
      rewrite E0 in E. injection E as E1 E2. subst st'. by rewrite <- E1, <- E2.
    + change (pollFdList_ p') with slots. rewrite fill_loop_ready by (done || lia). done.
  - by apply Hm.
  - intros m. by apply watched_revents.
Qed.
End Poller.


(** ** A poller with two channels *)
Lemma make_Poller_inv {F} (st : Store F) :
  (forall cid c, st !! cid = Some c -> index_ c = NOT_FILL) -> inv make_Poller st.
Proof.
  intros Hst. split; cbn.
  - intros i e He. by rewrite lookup_nil in He.
  - intros n cid Hn. by rewrite lookup_empty in Hn.
  - intros cid c Hc. left. by apply (Hst cid).
Qed.

(** Three channels, on descriptors 5, 6 and 7. *)
Definition demo_store : Store nat :=
  {[ 1 := make_Channel 0 5; 2 := make_Channel 0 6; 3 := make_Channel 0 7 ]}.

Lemma demo_store_fresh cid c : demo_store !! cid = Some c -> index_ c = NOT_FILL.
Proof.
  unfold demo_store. intros H.
  repeat (apply lookup_insert_Some in H as [[_ <-]|[_ H]]; [done|]).
  apply lookup_singleton_Some in H as [_ <-]. done.
Qed.

(** Two channels ask to read, the first also to write; the first is then
    silenced and removed again, which moves the second one's slot. *)
Definition demo_requests : list request :=
  [Ask 1 kReadEvent; Ask 2 kReadEvent; Ask 3 (Z.lor kReadEvent kWriteEvent);
   Ask 1 kNoneEvent; Forget 1].

Definition demo_fds : ChanId -> option Z := fds_of demo_store.

Lemma demo_requests_ok : requests_ok demo_fds demo_requests ∅.
Proof.
  cbn. repeat split.
  - exists 5. by split_and!.
  - exists 6. by split_and!.
  - exists 7. by split_and!.
  - exists 5. split_and!; try done. intros cid' m'. vm_compute. congruence.
  - exists 5, 0. by split.
Qed.

Definition demo_poller : Poller * Store nat :=
  match serve_all demo_requests (make_Poller, demo_store) with
  | Ok ps => ps
  | _ => (make_Poller, demo_store)
  end.

Lemma demo_poller_inv : inv demo_poller.1 demo_poller.2.
Proof.
  destruct (serve_all_represents demo_requests (make_Poller, demo_store) demo_fds ∅)
    as (ps & E & Hinv & _).
  - split_and!; [exact (make_Poller_inv _ demo_store_fresh)|done|done].
  - exact demo_requests_ok.
  - unfold demo_poller. by rewrite E.
Qed.

Lemma poll_reports_ready_witness :
  exists st', poll (1, [0; 5]) demo_poller
    = Ok ([2], (mkPoller (channels_ demo_poller.1) [mkPollfd 7 7 0; mkPollfd 6 3 5], st')).
Proof.
  eexists.
  destruct (poll_reports_ready demo_poller.1 demo_poller.2 (1, [0; 5])) as (E & _).
  - exact demo_poller_inv.
  - split_and!; [reflexivity| |reflexivity].
    intros [|[|i]] e r He Hr; vm_compute in He, Hr; try discriminate;
      injection He as <-; injection Hr as <-; cbn; lia.
  - cbn zeta in E. change (demo_poller.1, demo_poller.2) with demo_poller in E.
    etransitivity; [|etransitivity; [exact E|vm_compute; reflexivity]]. by destruct demo_poller.
Defined.
