(* ===== verification/Epoller.v ===== *)
(** * Epoller: the epoll(7) poller of net/Epoller.hpp and net/Epoller.cpp

    The kernel keeps the interest list; the class remembers which descriptors
    it has added, to choose between EPOLL_CTL_ADD and EPOLL_CTL_MOD.  The kernel
    object is the class [Epoll], its documented behaviour [EpollOk]. *)
From Stdlib Require Import ZArith Lia List.
From stdpp Require Import base option list numbers gmap tactics.
From S2P Require Import Prelude.
From S2P Require Import Channel.
From S2P Require Import PollerBase.
Open Scope Z_scope.
Open Scope outcome_scope.

(** ** Event bits of <sys/epoll.h> and the two translations *)
Definition EPOLLIN : Z := 1.
Definition EPOLLPRI : Z := 2.
Definition EPOLLOUT : Z := 4.
Definition EPOLLERR : Z := 8.
Definition EPOLLHUP : Z := 16.
Definition EPOLLRDHUP : Z := 8192.

(** [if (mask & bit) acc |= out]. *)
Definition add_if (mask bit out acc : Z) : Z := if has mask bit then Z.lor acc out else acc.

Definition pollToEpollEvents (poll_event : Z) : Z :=
  let events := 0 in
  let events := add_if poll_event POLLIN EPOLLIN events in
  let events := add_if poll_event POLLOUT EPOLLOUT events in
  let events := add_if poll_event POLLHUP EPOLLHUP events in
  let events := add_if poll_event POLLERR EPOLLERR events in
  let events := add_if poll_event POLLPRI EPOLLPRI events in
  Z.lor events EPOLLRDHUP.

Definition setPollEvents (epoll_events : Z) : Z :=
  let poll_events := 0 in
  let poll_events := add_if epoll_events EPOLLIN POLLIN poll_events in
  let poll_events := add_if epoll_events EPOLLOUT POLLOUT poll_events in
  let poll_events := add_if epoll_events EPOLLHUP POLLHUP poll_events in
  let poll_events := add_if epoll_events EPOLLERR POLLERR poll_events in
  let poll_events := add_if epoll_events EPOLLPRI POLLPRI poll_events in
  add_if epoll_events EPOLLRDHUP POLLHUP poll_events.

(** ** The kernel's epoll object *)
Inductive epoll_op : Type := EPOLL_CTL_ADD | EPOLL_CTL_MOD | EPOLL_CTL_DEL.

(** [epoll_ctl] takes the operation, the descriptor and the [epoll_event] (its
    mask and its pointer) and says whether it succeeded. *)
Class Epoll := {
  epoll : Type;
  epoll_ctl : epoll -> epoll_op -> Z -> option (Z * ChanId) -> epoll * bool;
  interest : epoll -> gmap Z (Z * ChanId);
}.

(** epoll_ctl(2) for open descriptors. *)
Class EpollOk `{Epoll} := {
  ctl_add : forall k n ev, 0 <= n -> interest k !! n = None ->
    (epoll_ctl k EPOLL_CTL_ADD n (Some ev)).2 = true /\
    interest (epoll_ctl k EPOLL_CTL_ADD n (Some ev)).1 = <[n := ev]> (interest k);
  ctl_mod : forall k n ev, is_Some (interest k !! n) ->
    (epoll_ctl k EPOLL_CTL_MOD n (Some ev)).2 = true /\
    interest (epoll_ctl k EPOLL_CTL_MOD n (Some ev)).1 = <[n := ev]> (interest k);
  ctl_del : forall k n, is_Some (interest k !! n) ->
    (epoll_ctl k EPOLL_CTL_DEL n None).2 = true /\
    interest (epoll_ctl k EPOLL_CTL_DEL n None).1 = delete n (interest k);
}.

Section Epoller.
Context `{EP : Epoll} {F : Type}.
Implicit Types st : Store F.

Record Epoller := mkEpoller {
  epoll_fd_ : epoll;
  events_size : Z;              (** [events_.size()] *)
  channel_map_ : gmap Z ChanId;
}.

Definition make_Epoller (k : epoll) : Epoller := mkEpoller k 16 ∅.

Definition removeChannel (cid : ChanId) (ps : Epoller * Store F)
    : outcome (Epoller * Store F) :=
  let '(p, st) := ps in
  let! c := deref_channel cid st in
  match channel_map_ p !! fd_ c with
  | Some _ =>
      let '(k, _) := epoll_ctl (epoll_fd_ p) EPOLL_CTL_DEL (fd_ c) None in
      Ok (mkEpoller k (events_size p) (delete (fd_ c) (channel_map_ p)), st)
  | None => Ok (p, st)
  end.

Definition updateChannel (cid : ChanId) (ps : Epoller * Store F)
    : outcome (Epoller * Store F) :=
  let '(p, st) := ps in
  let! c := deref_channel cid st in
  let event := (pollToEpollEvents (events_ c), cid) in
  let option := match channel_map_ p !! fd_ c with
                | Some _ => EPOLL_CTL_MOD
                | None => EPOLL_CTL_ADD
                end in
  let '(k, success) := epoll_ctl (epoll_fd_ p) option (fd_ c) (Some event) in
  if success
  then Ok (mkEpoller k (events_size p) (<[fd_ c := cid]> (channel_map_ p)), st)
  else Ok (mkEpoller k (events_size p) (channel_map_ p), st).

(** The loop of [fillActiveChannels] over the events [epoll_wait] stored; a
    null pointer is skipped. *)
Fixpoint fillActiveChannels (evs : list (Z * option ChanId)) (st : Store F)
    : outcome (list ChanId * Store F) :=
  match evs with
  | [] => Ok ([], st)
  | (events, None) :: evs => fillActiveChannels evs st
  | (events, Some cid) :: evs =>
      let! c := deref_channel cid st in
      let! (active, st') :=
        fillActiveChannels evs (<[cid := setReturnEvents (setPollEvents events) c]> st) in
      Ok (cid :: active, st')
  end.

(** The answer of [epoll_wait] is [-1] ([None]) or the events it stored. *)
Definition poll (answer : option (list (Z * option ChanId))) (ps : Epoller * Store F)
    : outcome (list ChanId * (Epoller * Store F)) :=
  let '(p, st) := ps in
  match answer with
  | None => Ok ([], (p, st))
  | Some evs =>
      let size := if Zlen evs =? events_size p then events_size p * 2 else events_size p in
      let p := mkEpoller (epoll_fd_ p) size (channel_map_ p) in
      if Zlen evs =? 0 then Ok ([], (p, st)) else
      let! (active, st) := fillActiveChannels evs st in
      Ok (active, (p, st))
  end.

#[global] Instance Epoller_base : PollerBase Epoller F := {
  PollerBase.Answer := option (list (Z * option ChanId));
  PollerBase.updateChannel := updateChannel;
  PollerBase.removeChannel := removeChannel;
  PollerBase.poll := poll;
}.

(** ** The invariant: map and interest list agree *)
Definition inv (p : Epoller) st : Prop :=
  forall n, match channel_map_ p !! n, interest (epoll_fd_ p) !! n with
  | Some cid, Some (ev, cid') => cid' = cid /\
      (exists m, client_mask m /\ ev = pollToEpollEvents m) /\
      exists c, st !! cid = Some c /\ fd_ c = n
  | None, None => True
  | _, _ => False
  end.

Definition watched (p : Epoller) (n : Z) : option (ChanId * Z) :=
  match interest (epoll_fd_ p) !! n with
  | Some (ev, cid) => Some (cid, setPollEvents (Z.land ev (Z.lnot EPOLLRDHUP)))
  | None => None
  end.

Lemma client_mask_cases m : client_mask m -> m ∈ [0; 1; 2; 3; 4; 5; 6; 7].
Proof.
  intros Hm.
  assert (0 <= m <= 7).
  { rewrite Hm. change (Z.lor kReadEvent kWriteEvent) with (Z.ones 3).
    rewrite Z.land_ones by lia. pose proof (Z.mod_pos_bound m (2 ^ 3) ltac:(lia)). lia. }
  rewrite list_elem_of_In. cbn. lia.
Qed.

(** What the kernel is asked for translates back to what the client asked. *)
Lemma mask_roundtrip m : client_mask m ->
  setPollEvents (Z.land (pollToEpollEvents m) (Z.lnot EPOLLRDHUP)) = m.
Proof.
  intros Hm%client_mask_cases%list_elem_of_In. cbn in Hm.
  repeat destruct Hm as [<-|Hm]; done.
Qed.

Lemma inv_map_None p st n : inv p st -> channel_map_ p !! n = None ->
  interest (epoll_fd_ p) !! n = None.
Proof.
  intros Hinv Hn. specialize (Hinv n). rewrite Hn in Hinv.
  by destruct (interest (epoll_fd_ p) !! n).
Qed.

Lemma inv_map_Some p st n cid : inv p st -> channel_map_ p !! n = Some cid ->
  exists ev, interest (epoll_fd_ p) !! n = Some (ev, cid).
Proof.
  intros Hinv Hn. specialize (Hinv n). rewrite Hn in Hinv.
  destruct (interest (epoll_fd_ p) !! n) as [[ev cid']|]; [|done].
  destruct Hinv as [-> _]. by exists ev.
Qed.

Lemma inv_live p st st' : inv p st ->
  (forall cid c, st !! cid = Some c -> exists c', st' !! cid = Some c' /\ fd_ c' = fd_ c) ->
  inv p st'.
Proof.
  intros Hinv Hst n. specialize (Hinv n).
  destruct (channel_map_ p !! n) as [cid|], (interest (epoll_fd_ p) !! n) as [[ev cid']|];
    try done.
  destruct Hinv as (-> & Hm & c & Hc & Hfd). destruct (Hst cid c Hc) as (c' & Hc' & Hfd').
  split_and!; [done|done|]. exists c'. by rewrite Hfd'.
Qed.

Context {EPok : EpollOk}.

Lemma updateChannel_law p st cid c :
  inv p st -> st !! cid = Some c -> 0 <= fd_ c -> client_mask (events_ c) ->
  exists p', updateChannel cid (p, st) = Ok (p', st) /\ inv p' st /\
    forall n, watched p' n = if decide (n = fd_ c) then Some (cid, events_ c) else watched p n.
Proof.
  intros Hinv Hc Hpos Hmask. unfold updateChannel, deref_channel.
  rewrite Hc. cbn [mbind outcome_bind].
  set (event := (pollToEpollEvents (events_ c), cid)).
  assert (Hctl : exists k', epoll_ctl (epoll_fd_ p)
      (match channel_map_ p !! fd_ c with Some _ => EPOLL_CTL_MOD | None => EPOLL_CTL_ADD end)
      (fd_ c) (Some event) = (k', true) /\
      interest k' = <[fd_ c := event]> (interest (epoll_fd_ p))).
  { destruct (channel_map_ p !! fd_ c) as [cid'|] eqn:Hch.
    - destruct (inv_map_Some p st _ cid' Hinv Hch) as [ev Hi].
      destruct (ctl_mod (epoll_fd_ p) (fd_ c) event) as [H1 H2]; [by rewrite Hi|].
      destruct (epoll_ctl _ _ _ _) as [k' ok]. cbn in *. subst ok. by exists k'.
    - destruct (ctl_add (epoll_fd_ p) (fd_ c) event Hpos) as [H1 H2];
        [by apply (inv_map_None p st)|].
      destruct (epoll_ctl _ _ _ _) as [k' ok]. cbn in *. subst ok. by exists k'. }
  destruct Hctl as (k' & -> & Hint). eexists. split; [done|]. split.
  - intros n. cbn [channel_map_ epoll_fd_]. rewrite Hint.
    destruct (decide (n = fd_ c)) as [->|Hne].
    + rewrite !lookup_insert_eq. split_and!; [done| |by exists c].
      by exists (events_ c).
    + rewrite !lookup_insert_ne by done. apply Hinv.
  - intros n. unfold watched. cbn [epoll_fd_]. rewrite Hint, lookup_insert.
    repeat case_decide; try congruence. cbn. by rewrite mask_roundtrip.
Qed.

Lemma removeChannel_law p st cid c m :
  inv p st -> st !! cid = Some c -> watched p (fd_ c) = Some (cid, m) ->
  exists p', removeChannel cid (p, st) = Ok (p', st) /\ inv p' st /\
    forall n, watched p' n = if decide (n = fd_ c) then None else watched p n.
Proof.
  intros Hinv Hc Hw. unfold removeChannel, deref_channel.
  rewrite Hc. cbn [mbind outcome_bind].
  assert (Hi : is_Some (interest (epoll_fd_ p) !! fd_ c)).
  { unfold watched in Hw. by destruct (interest (epoll_fd_ p) !! fd_ c). }
  destruct (channel_map_ p !! fd_ c) as [cid'|] eqn:Hch.
  2: { rewrite (inv_map_None p st _ Hinv Hch) in Hi. by apply is_Some_None in Hi. }
  destruct (ctl_del (epoll_fd_ p) (fd_ c) Hi) as [_ Hint].
  destruct (epoll_ctl _ _ _ _) as [k' ok]. cbn in Hint.
  eexists. split; [done|]. split; intros n; unfold watched; cbn [channel_map_ epoll_fd_];
    rewrite Hint.
  - destruct (decide (n = fd_ c)) as [->|Hne]; [by rewrite !lookup_delete_eq|].
    rewrite !lookup_delete_ne by done. apply Hinv.
  - rewrite lookup_delete. repeat case_decide; congruence || done.
Qed.

#[global] Program Instance Epoller_laws : PollerLaws Epoller F := {
  poller_inv := inv;
  PollerBase.watched := watched;
}.
Next Obligation.
  intros p st n cid m Hinv Hw. specialize (Hinv n). unfold watched in Hw.
  destruct (interest (epoll_fd_ p) !! n) as [[ev cid']|]; [|done]. injection Hw as -> _.
  destruct (channel_map_ p !! n) as [cid''|]; [|done].
  by destruct Hinv as (-> & _ & ?).
Qed.
Next Obligation.
  intros p st cid c Hinv Hc Hpos Hmask _.
  destruct (updateChannel_law p st cid c) as (p' & E & ? & ?); [done..|].
  exists p', st. split; [exact E|]. split_and!; [done|reflexivity|done].
Qed.
Next Obligation.
  intros p st cid c m Hinv Hc Hw.
  destruct (removeChannel_law p st cid c m) as (p' & E & ? & ?); [done..|].
  exists p', st. split; [exact E|]. split_and!; [done|reflexivity|done].
Qed.
Next Obligation.
  intros p st cid c c0 Hinv Hc Hfd _. apply (inv_live p st); [done|].
  intros cid' c' Hc'. destruct (decide (cid' = cid)) as [->|]; simplify_map_eq; eauto.
Qed.
Next Obligation.
  intros p st cid c Hinv Hc _. apply (inv_live p st); [done|].
  intros cid' c' Hc'. destruct (decide (cid' = cid)) as [->|]; simplify_map_eq; eauto.
Qed.
(** ** What [poll] reports *)
Definition mark (st : Store F) (r : Z * option ChanId) : Store F :=
  match r.2 with
  | Some cid => alter (setReturnEvents (setPollEvents r.1)) cid st
  | None => st
  end.

Lemma mark_live st r cid c : st !! cid = Some c ->
  exists c', mark st r !! cid = Some c' /\ fd_ c' = fd_ c.
Proof.
  intros Hc. unfold mark. destruct r.2 as [cid'|]; [|by exists c].
  rewrite lookup_alter. case_decide as Hd; [subst; rewrite Hc; by eexists|by exists c].
Qed.

Definition pointers_live st (evs : list (Z * option ChanId)) : Prop :=
  Forall (fun ev => forall cid, ev.2 = Some cid -> is_Some (st !! cid)) evs.

Lemma fillActiveChannels_spec evs st :
  pointers_live st evs ->
  fillActiveChannels evs st = Ok (omap snd evs, fold_left mark evs st).
Proof.
  revert st. induction evs as [|[ev [cid|]] evs IH]; intros st Hl; [done| |];
    apply Forall_cons_1 in Hl as [Hc Hl]; cbn.
  - destruct (Hc cid eq_refl) as [c Ec]. unfold deref_channel. rewrite Ec. cbn.
    assert (Hm : <[cid := setReturnEvents (setPollEvents ev) c]> st
      = mark st (ev, Some cid)).
    { unfold mark. cbn. apply map_eq. intros cid'. rewrite lookup_insert, lookup_alter.
      case_decide as Hd; [subst; by rewrite Ec|done]. }
    rewrite Hm, IH; [done|]. eapply List.Forall_impl; [|exact Hl]. intros r Hr cid' E.
    destruct (Hr cid' E) as [c' Hc'].
    destruct (mark_live st (ev, Some cid) cid' c' Hc') as (c'' & -> & _). by eexists.
  - by apply IH.
Qed.

(** [Epoller::poll] returns exactly the channels whose pointers the kernel
    reported, in its order, each with the translated events in
    [return_events_]; a full event array is doubled for the next call, and a
    failed or empty wait reports nothing.  The interest table is untouched. *)
Theorem epoll_reports_ready (p : Epoller) (st : Store F)
    (answer : option (list (Z * option ChanId))) :
  inv p st -> 0 < events_size p -> pointers_live st (default [] answer) ->
  let evs := default [] answer in
  let st' := fold_left mark evs st in
  exists p', poll answer (p, st) = Ok (omap snd evs, (p', st')) /\ inv p' st' /\
    (forall n, watched p' n = watched p n) /\
    events_size p' = (if Zlen evs =? events_size p then 2 * events_size p
                      else events_size p).
Proof.
  intros Hinv Hpos Hl evs st'.
  assert (Hst : forall es s, (forall cid c, s !! cid = Some c ->
    exists c', fold_left mark es s !! cid = Some c' /\ fd_ c' = fd_ c)).
  { induction es as [|e es IH]; intros s cid c Hc; cbn; [by exists c|].
    destruct (mark_live s e cid c Hc) as (c1 & H1 & <-). by apply IH. }
  destruct answer as [es|]; cbn [default id] in *; subst evs st'.
  - exists (mkEpoller (epoll_fd_ p)
      (if Zlen es =? events_size p then events_size p * 2 else events_size p)
      (channel_map_ p)).
    split_and!.
    + unfold poll. destruct (Z.eqb_spec (Zlen es) 0) as [H0|].
      * apply Zlen_0_nil in H0. by subst es.
      * by rewrite fillActiveChannels_spec.
    + by apply (inv_live p st _ Hinv), Hst.
    + done.
    + cbn. by rewrite Z.mul_comm.
  - exists p. split_and!; [done..|]. rewrite Zlen_nil. by decide_bools.
Qed.

(** ** Hang-ups *)
Lemma has_lor acc out b : has (Z.lor acc out) b = has acc b || has out b.
Proof.
  unfold has. rewrite Z.land_lor_distr_l.
  destruct (Z.eqb_spec (Z.lor (Z.land acc b) (Z.land out b)) 0) as [H|H].
  - apply Z.lor_eq_0_iff in H as [-> ->]. done.
  - destruct (Z.eqb_spec (Z.land acc b) 0) as [Ha|], (Z.eqb_spec (Z.land out b) 0) as [Ho|];
      try done. destruct H. by rewrite Ha, Ho.
Qed.

Lemma has_add_if mask bit out acc b :
  has (add_if mask bit out acc) b = has acc b || (has mask bit && has out b).
Proof.
  unfold add_if. destruct (has mask bit); cbn; [apply has_lor|by rewrite orb_false_r].
Qed.

Lemma setPollEvents_has ev b :
  has (setPollEvents ev) b
  = (has ev EPOLLIN && has POLLIN b) || (has ev EPOLLOUT && has POLLOUT b)
    || (has ev EPOLLHUP && has POLLHUP b) || (has ev EPOLLERR && has POLLERR b)
    || (has ev EPOLLPRI && has POLLPRI b) || (has ev EPOLLRDHUP && has POLLHUP b).
Proof. unfold setPollEvents. by rewrite !has_add_if. Qed.

(** The epoll translation loses the peer's half-close: whatever the kernel
    reports, the events handed to a channel never contain POLLRDHUP or
    POLLNVAL, so these cases of [handleEvent] are dead under epoll; and a report
    with only EPOLLRDHUP or EPOLLHUP runs no callback of the channel at all,
    although every registration asks for EPOLLRDHUP. *)
Theorem epoll_hangup_reaches_no_callback (ev m : Z) (c : Channel F) :
  has (pollToEpollEvents m) EPOLLRDHUP = true /\
  has (setPollEvents ev) POLLRDHUP = false /\
  has (setPollEvents ev) POLLNVAL = false /\
  (has ev EPOLLIN = false -> has ev EPOLLPRI = false -> has ev EPOLLOUT = false ->
   has ev EPOLLERR = false ->
   selected (setReturnEvents (setPollEvents ev) c) = []).
Proof.
  split_and!.
  - unfold pollToEpollEvents. rewrite has_lor. apply orb_true_r.
  - rewrite setPollEvents_has. cbn. by rewrite !andb_false_r.
  - rewrite setPollEvents_has. cbn. by rewrite !andb_false_r.
  - intros Hin Hpri Hout Herr. unfold selected. cbn [return_events_ setReturnEvents].
    rewrite !setPollEvents_has, Hin, Hpri, Hout, Herr. cbn.
    by rewrite !andb_false_r.
Qed.
End Epoller.
Arguments Epoller {EP}.

(** ** A concrete kernel *)
Definition table_ctl (k : gmap Z (Z * ChanId)) (op : epoll_op) (n : Z)
    (ev : option (Z * ChanId)) : gmap Z (Z * ChanId) * bool :=
  match op, ev, k !! n with
  | EPOLL_CTL_ADD, Some ev, None => (<[n := ev]> k, true)
  | EPOLL_CTL_MOD, Some ev, Some _ => (<[n := ev]> k, true)
  | EPOLL_CTL_DEL, _, Some _ => (delete n k, true)
  | _, _, _ => (k, false)
  end.

Definition table_epoll : Epoll := {|
  epoll := gmap Z (Z * ChanId);
  epoll_ctl := table_ctl;
  interest := fun k => k;
|}.

Lemma table_epoll_ok : EpollOk (H := table_epoll).
Proof.
  split; cbn; unfold table_ctl.
  - intros k n ev _ ->. done.
  - intros k n ev [x ->]. done.
  - intros k n [x ->]. done.
Qed.

Definition demo_epoller : Epoller (EP := table_epoll) :=
  mkEpoller (EP := table_epoll) {[ 5 := (8195, 1) ]} 2 {[ 5 := 1 ]}.
Definition demo_epoll_store : Store nat := {[ 1 := make_Channel 0 5 ]}.

Lemma epoll_reports_ready_witness :
  exists p', poll (EP := table_epoll) (Some [(EPOLLIN, Some 1); (EPOLLIN, None)])
      (demo_epoller, demo_epoll_store)
    = Ok ([1], (p', {[ 1 := setReturnEvents POLLIN (make_Channel 0 5) ]})) /\
    events_size (EP := table_epoll) p' = 4.
Proof.
  destruct (epoll_reports_ready (EP := table_epoll) demo_epoller demo_epoll_store
    (Some [(EPOLLIN, Some 1); (EPOLLIN, None)])) as (p' & E & _ & _ & Hs).
  - intros n. cbn. destruct (decide (n = 5)) as [->|Hn].
    + rewrite !lookup_singleton_eq. split_and!; [done| |].
      * exists kReadEvent. by split.
      * exists (make_Channel 0 5). by split.
    + by rewrite !lookup_singleton_ne.
  - reflexivity.
  - repeat constructor; cbn; intros cid H; [|done]. injection H as <-. by eexists.
  - exists p'. split; [|by rewrite Hs]. rewrite E. reflexivity.
Defined.

Lemma epoll_hangup_reaches_no_callback_witness :
  selected (setReturnEvents (setPollEvents EPOLLRDHUP) (demo_channel 0)) = [].
Proof.
  apply (proj2 (proj2 (proj2 (epoll_hangup_reaches_no_callback EPOLLRDHUP 0 (demo_channel 0)))));
    reflexivity.
Defined.
