(* ===== verification/Pollers.v ===== *)
(** * The choice of the poller: getPoller of net/EventLoop.cpp, and why it does
    not matter

    The loop owns one of two pollers, chosen by the platform and by an
    environment variable.  Both implement [PollerBase], so a loop sees the same
    table whichever it got. *)
From Stdlib Require Import ZArith Lia List String.
From stdpp Require Import base option list numbers gmap strings tactics.
From S2P Require Import Prelude.
From S2P Require Import Channel.
From S2P Require Import PollerBase.
From S2P Require Poller.
From S2P Require Epoller.
Open Scope Z_scope.
Open Scope outcome_scope.

Section Pollers.
Context `{EP : Epoller.Epoll} {EPok : Epoller.EpollOk} {F : Type}.

(** [std::unique_ptr<PollerBase>] of the loop. *)
Definition AnyPoller : Type := Poller.Poller + Epoller.Epoller.

(** [linux] is [defined(__linux__)], [env] the value of HYPERMUDUO_USE_POLL and
    [k] the instance [epoll_create1] returned. *)
Definition getPoller (linux : bool) (env : option string) (k : Epoller.epoll)
    : AnyPoller :=
  if linux then
    match env with
    | Some value => if decide (value = "1"%string) then inl Poller.make_Poller
                    else inr (Epoller.make_Epoller k)
    | None => inr (Epoller.make_Epoller k)
    end
  else inl Poller.make_Poller.

(** The virtual calls. *)
Definition virtual {A} (poll_side : Poller.Poller * Store F -> outcome (A * (Poller.Poller * Store F)))
    (epoll_side : Epoller.Epoller * Store F -> outcome (A * (Epoller.Epoller * Store F)))
    (ps : AnyPoller * Store F) : outcome (A * (AnyPoller * Store F)) :=
  match ps.1 with
  | inl p => let! (a, (p, st)) := poll_side (p, ps.2) in Ok (a, (inl p, st))
  | inr p => let! (a, (p, st)) := epoll_side (p, ps.2) in Ok (a, (inr p, st))
  end.

Definition no_result {P} (f : P * Store F -> outcome (P * Store F)) (ps : P * Store F)
    : outcome (unit * (P * Store F)) :=
  let! ps := f ps in Ok (tt, ps).

Definition any_update (cid : ChanId) (ps : AnyPoller * Store F)
    : outcome (AnyPoller * Store F) :=
  let! (_, ps) := virtual (no_result (updateChannel cid)) (no_result (updateChannel cid)) ps in
  Ok ps.
Definition any_remove (cid : ChanId) (ps : AnyPoller * Store F)
    : outcome (AnyPoller * Store F) :=
  let! (_, ps) := virtual (no_result (removeChannel cid)) (no_result (removeChannel cid)) ps in
  Ok ps.
Definition any_poll
    (answer : (Z * list Z) * option (list (Z * option ChanId)))
    (ps : AnyPoller * Store F) : outcome (list ChanId * (AnyPoller * Store F)) :=
  virtual (Poller.poll answer.1) (Epoller.poll answer.2) ps.

#[global] Instance Any_base : PollerBase AnyPoller F := {
  Answer := (Z * list Z) * option (list (Z * option ChanId));
  updateChannel := any_update;
  removeChannel := any_remove;
  poll := any_poll;
}.

Definition any_inv (p : AnyPoller) (st : Store F) : Prop :=
  match p with
  | inl p => poller_inv p st
  | inr p => poller_inv p st
  end.
Definition any_watched (p : AnyPoller) : Z -> option (ChanId * Z) :=
  match p with
  | inl p => watched (F := F) p
  | inr p => watched (F := F) p
  end.

#[global] Program Instance Any_laws : PollerLaws AnyPoller F := {
  poller_inv := any_inv;
  watched := any_watched;
}.
Next Obligation. intros [p|p]; cbn [any_inv any_watched]; apply watched_live. Qed.
Next Obligation.
  intros [p|p] st cid c Hinv Hc Hpos Hm Hu; cbn [any_inv any_watched] in *;
    destruct (update_law p st cid c) as (p' & st' & E & ?); try done;
    [exists (inl p'), st'|exists (inr p'), st'];
    cbn in E |- *; unfold any_update, virtual, no_result; cbn; by rewrite E.
Qed.
Next Obligation.
  intros [p|p] st cid c m Hinv Hc Hw; cbn [any_inv any_watched] in *;
    destruct (remove_law p st cid c m) as (p' & st' & E & ?); try done;
    [exists (inl p'), st'|exists (inr p'), st'];
    cbn in E |- *; unfold any_remove, virtual, no_result; cbn; by rewrite E.
Qed.
Next Obligation. intros [p|p]; cbn [any_inv]; apply member_law. Qed.
Next Obligation. intros [p|p]; cbn [any_inv]; apply fresh_law. Qed.

(** No channel is registered yet and the kernel's instance is new. *)
Definition fresh_start (k : Epoller.epoll) (st : Store F) : Prop :=
  Epoller.interest k = ∅ /\ forall cid c, st !! cid = Some c -> index_ c = NOT_FILL.

Lemma getPoller_represents linux env k st :
  fresh_start k st -> represents (getPoller linux env k, st) (fds_of st) ∅.
Proof.
  intros [Hk Hst].
  assert (Hp : represents (P := AnyPoller) (inl Poller.make_Poller, st) (fds_of st) ∅).
  { split_and!; [by apply Poller.make_Poller_inv|intros n; by cbn|done]. }
  assert (He : represents (P := AnyPoller) (inr (Epoller.make_Epoller k), st) (fds_of st) ∅).
  { split_and!; [|intros n; cbn; unfold Epoller.watched; cbn; by rewrite Hk|done].
    intros n. cbn. by rewrite Hk. }
  unfold getPoller. destruct linux; [|done]. destruct env as [value|]; [|done].
  by case_decide.
Qed.

(** C30: whichever poller [getPoller] picks, on any platform and with any value
    of HYPERMUDUO_USE_POLL, the same sequence of registrations and removals is
    carried out without an error and leaves the same table of watched
    descriptors: the one obtained by the insertions and deletions themselves. *)
Theorem poller_choice_irrelevant (linux linux' : bool) (env env' : option string)
    (k : Epoller.epoll) (st : Store F) (rs : list request) :
  fresh_start k st -> requests_ok (fds_of st) rs ∅ ->
  exists ps ps',
    serve_all rs (getPoller linux env k, st) = Ok ps /\
    serve_all rs (getPoller linux' env' k, st) = Ok ps' /\
    (forall n, watched ps.1 n = watched ps'.1 n) /\
    forall n, watched ps.1 n
      = fold_left (fun t r => spec_request (fds_of st) r t) rs ∅ !! n.
Proof.
  intros Hk Hrs.
  destruct (serve_all_represents rs _ _ _ (getPoller_represents linux env k st Hk) Hrs)
    as (ps & E & _ & Hw & _).
  destruct (serve_all_represents rs _ _ _ (getPoller_represents linux' env' k st Hk) Hrs)
    as (ps' & E' & _ & Hw' & _).
  exists ps, ps'. split_and!; [done..| |done]. intros n. by rewrite Hw, Hw'.
Qed.
End Pollers.

#[local] Existing Instance Epoller.table_epoll_ok.

Lemma poller_choice_irrelevant_witness :
  exists ps ps',
    serve_all (P := AnyPoller (EP := Epoller.table_epoll)) Poller.demo_requests
      (getPoller true (Some "1"%string) ∅, Poller.demo_store) = Ok ps /\
    serve_all (P := AnyPoller (EP := Epoller.table_epoll)) Poller.demo_requests
      (getPoller true None ∅, Poller.demo_store) = Ok ps' /\
    watched (F := nat) ps.1 6 = Some (2, kReadEvent) /\ watched (F := nat) ps'.1 6 = Some (2, kReadEvent) /\
    watched (F := nat) ps.1 5 = None.
Proof.
  destruct (poller_choice_irrelevant (EP := Epoller.table_epoll)
    (EPok := Epoller.table_epoll_ok) true true (Some "1"%string) None ∅ Poller.demo_store
    Poller.demo_requests) as (ps & ps' & E & E' & Heq & Hw).
  - split; [reflexivity|exact Poller.demo_store_fresh].
  - exact Poller.demo_requests_ok.
  - exists ps, ps'. split_and!; [exact E|exact E'|rewrite Hw|rewrite <- Heq, Hw|rewrite Hw];
      vm_compute; reflexivity.
Defined.
