(* ===== verification/EventLoop.v ===== *)
(** * EventLoop: net/EventLoop.hpp, net/EventLoop.cpp, Base/CurrentThread.hpp
    and the calls of net/Channel.hpp that reach the loop

    One reactor: its poller, its queue of pending tasks and the eventfd that
    wakes it.  [C] is the type of the closures that clients hand to
    [runInLoop] and to the channels' callbacks; what one does is the parameter
    [client].  A thread is named by its id; where the code reads
    [CurrentThread::getTid()] the model takes [tid].  This file is the loop seen
    by its own thread; LoopThreads.v interleaves other threads. *)
From Stdlib Require Import ZArith Lia List.
From stdpp Require Import base option list numbers gmap relations tactics.
From S2P Require Import Prelude.
From S2P Require Import Channel.
From S2P Require Import PollerBase.
From S2P Require Poller.
Open Scope Z_scope.
Open Scope outcome_scope.

(** The kernel's eventfd: [write] of 1, [read] of the counter, readability. *)
Class EventFd := {
  eventfd : Type;
  eventfd_write : eventfd -> eventfd;
  eventfd_read : eventfd -> eventfd;
  eventfd_ready : eventfd -> bool;
}.

(** eventfd(2): readable exactly while the counter is not 0; a read resets it. *)
Class EventFdOk `{EventFd} := {
  ready_after_write : forall e, eventfd_ready (eventfd_write e) = true;
  ready_after_read : forall e, eventfd_ready (eventfd_read e) = false;
}.

(** The closures of the channels of a loop: its own wakeup reader, set in the
    constructor, and the clients'. *)
Inductive Closure (C : Type) : Type :=
| ReadWakeup
| Client (c : C).
Arguments ReadWakeup {C}.
Arguments Client {C} c.

Record EventLoop `{EventFd} (P C : Type) := mkEventLoop {
  self : LoopId;
  is_running_ : bool;
  quit_ : bool;
  is_processing_tasks_ : bool;
  thread_id_ : Z;
  poller_ : P;
  ready_channels_ : list ChanId;
  wakeup_fd_ : Z;
  wakeup_counter : eventfd;        (** the state of [wakeup_fd_] *)
  wakeup_channel_ : ChanId;
  task_queue_ : list C;
}.
Arguments mkEventLoop {H P C}.
Arguments self {H P C}.
Arguments is_running_ {H P C}.
Arguments quit_ {H P C}.
Arguments is_processing_tasks_ {H P C}.
Arguments thread_id_ {H P C}.
Arguments poller_ {H P C}.
Arguments ready_channels_ {H P C}.
Arguments wakeup_fd_ {H P C}.
Arguments wakeup_counter {H P C}.
Arguments wakeup_channel_ {H P C}.
Arguments task_queue_ {H P C}.

Section EventLoop.
Context `{EFD : EventFd} {P C : Type} `{PB : !PollerBase P (Closure C)}.
Abbreviation EventLoop := (EventLoop P C).
Abbreviation Store := (Store (Closure C)).
Implicit Types lp : EventLoop.

(** ** The members, one writer each *)
Definition set_running (b : bool) lp : EventLoop :=
  mkEventLoop (self lp) b (quit_ lp) (is_processing_tasks_ lp) (thread_id_ lp)
    (poller_ lp) (ready_channels_ lp) (wakeup_fd_ lp) (wakeup_counter lp)
    (wakeup_channel_ lp) (task_queue_ lp).
Definition set_quit (b : bool) lp : EventLoop :=
  mkEventLoop (self lp) (is_running_ lp) b (is_processing_tasks_ lp) (thread_id_ lp)
    (poller_ lp) (ready_channels_ lp) (wakeup_fd_ lp) (wakeup_counter lp)
    (wakeup_channel_ lp) (task_queue_ lp).
Definition set_processing (b : bool) lp : EventLoop :=
  mkEventLoop (self lp) (is_running_ lp) (quit_ lp) b (thread_id_ lp)
    (poller_ lp) (ready_channels_ lp) (wakeup_fd_ lp) (wakeup_counter lp)
    (wakeup_channel_ lp) (task_queue_ lp).
Definition set_poller (p : P) lp : EventLoop :=
  mkEventLoop (self lp) (is_running_ lp) (quit_ lp) (is_processing_tasks_ lp)
    (thread_id_ lp) p (ready_channels_ lp) (wakeup_fd_ lp) (wakeup_counter lp)
    (wakeup_channel_ lp) (task_queue_ lp).
Definition set_ready (l : list ChanId) lp : EventLoop :=
  mkEventLoop (self lp) (is_running_ lp) (quit_ lp) (is_processing_tasks_ lp)
    (thread_id_ lp) (poller_ lp) l (wakeup_fd_ lp) (wakeup_counter lp)
    (wakeup_channel_ lp) (task_queue_ lp).
Definition set_counter (e : eventfd) lp : EventLoop :=
  mkEventLoop (self lp) (is_running_ lp) (quit_ lp) (is_processing_tasks_ lp)
    (thread_id_ lp) (poller_ lp) (ready_channels_ lp) (wakeup_fd_ lp) e
    (wakeup_channel_ lp) (task_queue_ lp).
Definition set_tasks (q : list C) lp : EventLoop :=
  mkEventLoop (self lp) (is_running_ lp) (quit_ lp) (is_processing_tasks_ lp)
    (thread_id_ lp) (poller_ lp) (ready_channels_ lp) (wakeup_fd_ lp)
    (wakeup_counter lp) (wakeup_channel_ lp) q.

(** ** Threads *)
Definition isInLoopThread (tid : Z) lp : bool := thread_id_ lp =? tid.

Definition assertInLoopThread (tid : Z) lp : outcome unit :=
  if negb (isInLoopThread tid lp) then Abort else Ok tt.

(** ** Waking and queueing *)
Definition wakeup lp : EventLoop := set_counter (eventfd_write (wakeup_counter lp)) lp.

Definition handleWakeupRead lp : EventLoop :=
  set_counter (eventfd_read (wakeup_counter lp)) lp.

(** The locked scope of [queueInLoop], then the rest of it. *)
Definition queue_push (callback : C) lp : EventLoop :=
  set_tasks (task_queue_ lp ++ [callback]) lp.

Definition queue_wakeup (tid : Z) lp : EventLoop :=
  if negb (isInLoopThread tid lp) || is_processing_tasks_ lp then wakeup lp else lp.

Definition queueInLoop (tid : Z) (callback : C) lp : EventLoop :=
  queue_wakeup tid (queue_push callback lp).

(** [quit] likewise is a store and then a wakeup. *)
Definition quit_wakeup (tid : Z) lp : EventLoop :=
  if negb (isInLoopThread tid lp) then wakeup lp else lp.

Definition quit (tid : Z) lp : EventLoop := quit_wakeup tid (set_quit true lp).

(** ** Channels

    The poller's own [assertInLoopThread] repeats the one here. *)
Definition updateChannel (tid : Z) (cid : ChanId) (ls : EventLoop * Store)
    : outcome (EventLoop * Store) :=
  let '(lp, st) := ls in
  let! c := deref_channel cid st in
  if loop_ c =? self lp then
    let! _ := assertInLoopThread tid lp in
    let! (p, st) := PollerBase.updateChannel cid (poller_ lp, st) in
    Ok (set_poller p lp, st)
  else Ok (lp, st).

Definition removeChannel (tid : Z) (cid : ChanId) (ls : EventLoop * Store)
    : outcome (EventLoop * Store) :=
  let '(lp, st) := ls in
  let! c := deref_channel cid st in
  if loop_ c =? self lp then
    let! _ := assertInLoopThread tid lp in
    let! (p, st) := PollerBase.removeChannel cid (poller_ lp, st) in
    Ok (set_poller p lp, st)
  else Ok (lp, st).

(** [Channel::notifyLoop] after a change of the event mask. *)
Definition change_events (f : Channel (Closure C) -> Z) (tid : Z) (cid : ChanId)
    (ls : EventLoop * Store) : outcome (EventLoop * Store) :=
  let! c := deref_channel cid ls.2 in
  updateChannel tid cid (ls.1, <[cid := setEvents (f c) c]> ls.2).

Definition listenTillReadable := change_events listenTillReadable_events.
Definition listenTillWritable := change_events listenTillWritable_events.
Definition ignoreReadable := change_events ignoreReadable_events.
Definition ignoreWritable := change_events ignoreWritable_events.
Definition ignoreAll := change_events ignoreAll_events.

(** ** Construction and destruction

    [current] is the thread's [t_current_thread_loop]; [p] and [st] are the
    poller and the channels as the [TimerQueue] member left them. *)
Definition make_EventLoop (this : LoopId) (tid : Z) (current : option LoopId) (p : P)
    (fd : Z) (counter : eventfd) (cid : ChanId) (st : Store)
    : outcome (EventLoop * Store * option LoopId) :=
  let lp := mkEventLoop this false true false tid p [] fd counter cid [] in
  match current with
  | Some _ => Abort
  | None =>
      let! (lp, st) := listenTillReadable tid cid
        (lp, <[cid := setReadCallback ReadWakeup (make_Channel this fd)]> st) in
      Ok (lp, st, Some this)
  end.

(** With the assertion of the destructor enabled. *)
Definition destroy_EventLoop (tid : Z) (ls : EventLoop * Store)
    : outcome (EventLoop * Store * option LoopId) :=
  if is_running_ ls.1 then Abort else
  let! (lp, st) := ignoreAll tid (wakeup_channel_ ls.1) ls in
  Ok (lp, st, None).
End EventLoop.

(** ** The world of a loop

    What the closures of the loop can reach: the loop, the channels and the
    clients' own state. *)
Class LoopWorld `{EventFd} (W P C : Type) := {
  get_loop : W -> EventLoop P C;
  put_loop : EventLoop P C -> W -> W;
  get_channels : W -> Store (Closure C);
  put_channels : Store (Closure C) -> W -> W;
}.

Class LoopWorldLaws `{EventFd} (W P C : Type) `{!LoopWorld W P C} := {
  get_put_loop : forall lp (w : W), get_loop (put_loop lp w) = lp;
  put_put_loop : forall lp lp' (w : W), put_loop lp (put_loop lp' w) = put_loop lp w;
  get_put_channels : forall st (w : W), get_channels (put_channels st w) = st;
  loop_put_channels : forall st (w : W), get_loop (put_channels st w) = get_loop w;
  channels_put_loop : forall lp (w : W), get_channels (put_loop lp w) = get_channels w;
}.

Section Loop.
Context `{EFD : EventFd} {W P C : Type} `{PB : !PollerBase P (Closure C)}.
Context `{LW : !LoopWorld W P C}.

(** What the clients' closures do when called on the loop's thread. *)
Variable client : C -> W -> outcome W.

Definition on_loop (f : EventLoop P C -> EventLoop P C) (w : W) : W :=
  put_loop (f (get_loop w)) w.

(** An operation on the loop and the channels. *)
Definition on_channels
    (f : EventLoop P C * Store (Closure C) -> outcome (EventLoop P C * Store (Closure C)))
    (w : W) : outcome W :=
  let! (lp, st) := f (get_loop w, get_channels w) in
  Ok (put_channels st (put_loop lp w)).

Definition run (f : Closure C) (w : W) : outcome W :=
  match f with
  | ReadWakeup => Ok (on_loop handleWakeupRead w)
  | Client c => client c w
  end.

Definition runInLoop (tid : Z) (callback : C) (w : W) : outcome W :=
  if isInLoopThread tid (get_loop w) then client callback w
  else Ok (on_loop (queueInLoop tid callback) w).

Fixpoint run_tasks (tasks : list C) (w : W) : outcome W :=
  match tasks with
  | [] => Ok w
  | task :: tasks => let! w := client task w in run_tasks tasks w
  end.

Definition executePendingTasks (w : W) : outcome W :=
  let w := on_loop (set_processing true) w in
  let tasks := task_queue_ (get_loop w) in
  let w := on_loop (set_tasks []) w in
  let! w := run_tasks tasks w in
  Ok (on_loop (set_processing false) w).

(** [for (auto* channel : ready_channels_) channel->handleEvent(...)]. *)
Fixpoint handle_ready (ready : list ChanId) (w : W) : outcome W :=
  match ready with
  | [] => Ok w
  | cid :: ready =>
      let! w := handleEvent (fun w => get_channels w !! cid) run w in
      handle_ready ready w
  end.

(** [ready_channels_.clear(); poller_->poll(kPollTime, ready_channels_);].
    [answer] is what the kernel gives this wait. *)
Definition poll_ready (answer : Answer P (Closure C)) (w : W) : outcome W :=
  let! (active, (p, st)) := poll answer (poller_ (get_loop w), get_channels w) in
  Ok (put_channels st (on_loop (fun lp => set_ready active (set_poller p lp)) w)).

(** The body of [while (!quit_)]. *)
Definition iterate (answer : Answer P (Closure C)) (w : W) : outcome W :=
  let! w := poll_ready answer w in
  let! w := handle_ready (ready_channels_ (get_loop w)) w in
  executePendingTasks w.

(** The loop against the answers of successive waits; [false] when it has used
    them all and waits for the next one. *)
Fixpoint iterations (answers : list (Answer P (Closure C))) (w : W) : outcome (bool * W) :=
  if quit_ (get_loop w) then Ok (true, w) else
  match answers with
  | [] => Ok (false, w)
  | answer :: answers => let! w := iterate answer w in iterations answers w
  end.

Definition loop (tid : Z) (answers : list (Answer P (Closure C))) (w : W)
    : outcome (bool * W) :=
  if negb (is_running_ (get_loop w)) then
    let! _ := assertInLoopThread tid (get_loop w) in
    let w := on_loop (fun lp => set_quit false (set_running true lp)) w in
    let! (returned, w) := iterations answers w in
    if returned : bool then Ok (true, on_loop (set_running false) w) else Ok (false, w)
  else Ok (true, on_loop (set_running false) w).

(** ** What a closure can do to its loop

    The members are private: other code reaches them by the public functions. *)
Inductive loop_call (lp : EventLoop P C) : EventLoop P C -> Prop :=
| call_queueInLoop tid c : loop_call lp (queueInLoop tid c lp)
| call_quit tid : loop_call lp (quit tid lp)
| call_channels p : loop_call lp (set_poller p lp)
| call_nested_loop : loop_call lp (set_running false lp).

Definition loop_calls := rtc loop_call.

Definition respects_loop : Prop :=
  forall c w w', client c w = Ok w' -> loop_calls (get_loop w) (get_loop w').
End Loop.

(** ** A channel changes its mask

    The one lemma that connections, the acceptor and the server share: through
    the loop's checks down to the poller's table. *)
Section ChannelLemmas.
Context `{EFD : EventFd} {W P C : Type} `{PB : !PollerBase P (Closure C)}.
Context `{LW : !LoopWorld W P C} {PL : PollerLaws P (Closure C)}.

Lemma change_events_ok f tid cid (w : W) ch :
  poller_inv (poller_ (get_loop w)) (get_channels w) -> get_channels w !! cid = Some ch ->
  loop_ ch = self (get_loop w) -> thread_id_ (get_loop w) = tid -> 0 <= fd_ ch ->
  client_mask (f ch) ->
  (forall x m, watched (F := Closure C) (poller_ (get_loop w)) (fd_ ch) = Some (x, m) -> x = cid) ->
  exists p' st' i,
    on_channels (change_events f tid cid) w
      = Ok (put_channels st' (put_loop (set_poller p' (get_loop w)) w)) /\
    poller_inv p' st' /\ st' !! cid = Some (setIndex i (setEvents (f ch) ch)) /\
    store_upto_index (<[cid := setEvents (f ch) ch]> (get_channels w)) st' /\
    forall fd, watched (F := Closure C) p' fd
      = if decide (fd = fd_ ch) then Some (cid, f ch)
        else watched (F := Closure C) (poller_ (get_loop w)) fd.
Proof.
  intros Hp Hch Hown Ht Hpos Hmask Hu.
  destruct (update_law (poller_ (get_loop w)) (<[cid := setEvents (f ch) ch]> (get_channels w))
    cid (setEvents (f ch) ch)) as (p' & st' & E & Hinv' & Hst & Hw'); try done.
  { by eapply member_law. }
  { by rewrite lookup_insert_eq. }
  destruct (store_upto_lookup _ _ _ _ Hst (lookup_insert_eq _ _ _)) as [i Hi].
  exists p', st', i. split_and!; try done.
  unfold on_channels, change_events, deref_channel. cbn [fst snd]. rewrite Hch.
  cbn [mbind outcome_bind]. unfold updateChannel, deref_channel. rewrite lookup_insert_eq.
  cbn [mbind outcome_bind]. cbn [loop_ setEvents]. rewrite Hown, Z.eqb_refl.
  unfold assertInLoopThread, isInLoopThread. rewrite Ht, Z.eqb_refl. cbn [negb mbind outcome_bind].
  by rewrite E.
Qed.
End ChannelLemmas.

(** ** How a loop evolves *)
Section Evolution.
Context `{EFD : EventFd} {P C : Type}.
Implicit Types lp : EventLoop P C.

(** Nothing queued is lost or overtaken, a [quit] stays, the identity stays. *)
Record grows (lp lp' : EventLoop P C) : Prop := {
  grows_self : self lp' = self lp;
  grows_thread : thread_id_ lp' = thread_id_ lp;
  grows_processing : is_processing_tasks_ lp' = is_processing_tasks_ lp;
  grows_ready : ready_channels_ lp' = ready_channels_ lp;
  grows_quit : quit_ lp = true -> quit_ lp' = true;
  grows_queue : exists pushed, task_queue_ lp' = task_queue_ lp ++ pushed;
}.

(** Moreover tasks queued while tasks run have written the eventfd. *)
Record wakes (lp lp' : EventLoop P C) : Prop := {
  wakes_grows : grows lp lp';
  wakes_ready : eventfd_ready (wakeup_counter lp) = true ->
    eventfd_ready (wakeup_counter lp') = true;
  wakes_pushed : is_processing_tasks_ lp = true -> task_queue_ lp' <> task_queue_ lp ->
    eventfd_ready (wakeup_counter lp') = true;
}.

#[global] Instance grows_preorder : PreOrder grows.
Proof.
  split.
  - intros lp. split; try done. exists []. by rewrite app_nil_r.
  - intros lp1 lp2 lp3 [? ? ? ? ? [n1 Hn1]] [? ? ? ? ? [n2 Hn2]].
    split; try congruence; [by auto|]. exists (n1 ++ n2). by rewrite Hn2, Hn1, app_assoc.
Qed.

#[global] Instance wakes_preorder : PreOrder wakes.
Proof.
  split.
  - intros lp. by split.
  - intros lp1 lp2 lp3 [G12 R12 P12] [G23 R23 P23]. split; [by etrans|by auto|].
    intros Hp Hq.
    destruct (grows_queue _ _ G12) as [n1 Hn1].
    destruct n1 as [|c n1].
    + rewrite app_nil_r in Hn1. apply P23; [by rewrite (grows_processing _ _ G12)|].
      by rewrite Hn1.
    + apply R23, P12; [done|]. rewrite Hn1. intros H.
      apply (f_equal length) in H. rewrite length_app in H. cbn in H. lia.
Qed.

Context {EFok : EventFdOk}.

Lemma loop_call_wakes lp lp' : loop_call lp lp' -> wakes lp lp'.
Proof.
  intros [tid c|tid|p|].
  - unfold queueInLoop, queue_wakeup, isInLoopThread. cbn.
    destruct (negb _ || _) eqn:E; (split; [split; try done; by exists [c]|..]); cbn.
    + intros _. apply ready_after_write.
    + intros _ _. apply ready_after_write.
    + done.
    + intros Hp. rewrite Hp, orb_true_r in E. discriminate.
  - unfold quit, quit_wakeup. destruct (negb _);
      (split; [split; try done; exists []; by rewrite app_nil_r|..]); cbn; try done.
    intros _. apply ready_after_write.
  - split; [split; try done; exists []; by rewrite app_nil_r|done|done].
  - split; [split; try done; exists []; by rewrite app_nil_r|done|done].
Qed.

Lemma loop_calls_wakes lp lp' : loop_calls lp lp' -> wakes lp lp'.
Proof.
  induction 1 as [|lp1 lp2 lp3 H12 _ IH]; [reflexivity|].
  etrans; [by apply loop_call_wakes|exact IH].
Qed.

Lemma handleWakeupRead_grows lp : grows lp (handleWakeupRead lp).
Proof. split; try done. exists []. by rewrite app_nil_r. Qed.
End Evolution.

Section LoopTheorems.
Context `{EFD : EventFd} {W P C : Type} `{PB : !PollerBase P (Closure C)}.
Context `{LW : !LoopWorld W P C} {LWok : LoopWorldLaws W P C} {EFok : EventFdOk}.
Context (client : C -> W -> outcome W).
Context (respects : respects_loop client).

Lemma get_on_loop f w : get_loop (on_loop f w) = f (get_loop w).
Proof. apply get_put_loop. Qed.

Lemma channels_on_loop f w : get_channels (on_loop f w) = get_channels w.
Proof. apply channels_put_loop. Qed.

Lemma run_grows f w w' : run client f w = Ok w' -> grows (get_loop w) (get_loop w').
Proof.
  destruct f as [|c]; cbn; intros H.
  - injection H as <-. rewrite get_on_loop. apply handleWakeupRead_grows.
  - by apply wakes_grows, loop_calls_wakes, (respects c).
Qed.

Lemma run_tasks_wakes tasks w w' :
  run_tasks client tasks w = Ok w' -> wakes (get_loop w) (get_loop w').
Proof.
  revert w. induction tasks as [|c tasks IH]; intros w H; cbn in H; inv_ok; [reflexivity|].
  etrans; [by apply loop_calls_wakes, (respects c)|by apply IH].
Qed.

Lemma on_events_grows this bits cb w w' :
  on_events this (run client) bits cb w = Ok w' -> grows (get_loop w) (get_loop w').
Proof.
  unfold on_events, call_if_set. intros H. inv_ok. destruct (has _ _); [|by inv_ok].
  destruct (cb _) as [f|]; [by apply (run_grows f)|by inv_ok].
Qed.

Lemma handleEvent_grows this w w' :
  handleEvent this (run client) w = Ok w' -> grows (get_loop w) (get_loop w').
Proof.
  unfold handleEvent. intros H. inv_ok. etrans; [|by eapply on_events_grows].
  etrans; by eapply on_events_grows.
Qed.

Lemma handle_ready_grows ready w w' :
  handle_ready client ready w = Ok w' -> grows (get_loop w) (get_loop w').
Proof.
  revert w. induction ready as [|cid ready IH]; intros w H; cbn in H; inv_ok; [reflexivity|].
  etrans; [by eapply handleEvent_grows|by apply IH].
Qed.

Lemma poll_ready_loop answer w w' : poll_ready answer w = Ok w' ->
  exists active p, get_loop w' = set_ready active (set_poller p (get_loop w)).
Proof.
  unfold poll_ready. intros H. inv_ok. destruct a as (active & p & st). inv_ok.
  exists active, p. by rewrite loop_put_channels, get_on_loop.
Qed.

(** The world in which the pending tasks [tasks] start, and the one they leave. *)
Definition tasks_started (w : W) : W :=
  on_loop (set_tasks []) (on_loop (set_processing true) w).
Definition tasks_finished (w : W) : W := on_loop (set_processing false) w.

Lemma executePendingTasks_eq w :
  executePendingTasks client w
  = let! w' := run_tasks client (task_queue_ (get_loop w)) (tasks_started w) in
    Ok (tasks_finished w').
Proof. unfold executePendingTasks. by rewrite get_on_loop. Qed.

Lemma executePendingTasks_spec w w' : executePendingTasks client w = Ok w' ->
  (quit_ (get_loop w) = true -> quit_ (get_loop w') = true) /\
  is_processing_tasks_ (get_loop w') = false /\
  thread_id_ (get_loop w') = thread_id_ (get_loop w) /\
  (task_queue_ (get_loop w') <> [] ->
   eventfd_ready (wakeup_counter (get_loop w')) = true).
Proof.
  rewrite executePendingTasks_eq. intros H. inv_ok.
  match goal with H : run_tasks _ _ _ = Ok _ |- _ => apply run_tasks_wakes in H as Hw end.
  unfold tasks_finished. rewrite get_on_loop.
  unfold tasks_started in Hw. rewrite !get_on_loop in Hw. destruct Hw as [G R Hp].
  cbn in *. split_and!.
  - apply (grows_quit _ _ G).
  - done.
  - apply (grows_thread _ _ G).
  - by apply Hp.
Qed.

(** C28: one pass of the loop.  The handlers of the channels the poller reported
    run first; what they queue is run in the same pass, behind the tasks that
    were pending, and the tasks run once each in the order they were queued.
    A task queued by a running task waits for the next pass, and then the
    eventfd is readable, so that the next wait does not block on it. *)
Theorem iterate_runs_snapshot (answer : Answer P (Closure C)) (w w1 w2 : W) :
  poll_ready answer w = Ok w1 ->
  handle_ready client (ready_channels_ (get_loop w1)) w1 = Ok w2 ->
  exists pushed, task_queue_ (get_loop w2) = task_queue_ (get_loop w) ++ pushed /\
    iterate client answer w
    = (let! w3 := run_tasks client (task_queue_ (get_loop w) ++ pushed) (tasks_started w2) in
       Ok (tasks_finished w3)) /\
    forall w', iterate client answer w = Ok w' -> task_queue_ (get_loop w') <> [] ->
      eventfd_ready (wakeup_counter (get_loop w')) = true.
Proof.
  intros H1 H2. unfold iterate. rewrite H1. cbn [mbind outcome_bind]. rewrite H2.
  cbn [mbind outcome_bind].
  destruct (grows_queue _ _ (handle_ready_grows _ _ _ H2)) as [pushed Hq].
  destruct (poll_ready_loop _ _ _ H1) as (active & p & E1). rewrite E1 in Hq. cbn in Hq.
  exists pushed. split; [done|]. split.
  - by rewrite executePendingTasks_eq, Hq.
  - intros w' Hw'. by apply executePendingTasks_spec in Hw' as (_ & _ & _ & ?).
Qed.

Lemma iterate_keeps answer w w' : iterate client answer w = Ok w' ->
  (quit_ (get_loop w) = true -> quit_ (get_loop w') = true) /\
  thread_id_ (get_loop w') = thread_id_ (get_loop w).
Proof.
  unfold iterate. intros H. inv_ok.
  match goal with H : poll_ready _ _ = Ok _ |- _ =>
    apply poll_ready_loop in H as (active & p & E) end.
  match goal with H : handle_ready _ _ _ = Ok _ |- _ => apply handle_ready_grows in H as G end.
  apply executePendingTasks_spec in H as (Hq & _ & Ht & _).
  rewrite E in G. split.
  - intros H. apply Hq, (grows_quit _ _ G). done.
  - rewrite Ht. apply (grows_thread _ _ G).
Qed.

Fixpoint iterate_all (answers : list (Answer P (Closure C))) (w : W) : outcome W :=
  match answers with
  | [] => Ok w
  | answer :: answers => let! w := iterate client answer w in iterate_all answers w
  end.

Lemma iterate_all_quit answers w w' : iterate_all answers w = Ok w' ->
  quit_ (get_loop w) = true -> quit_ (get_loop w') = true.
Proof.
  revert w. induction answers as [|a l IH]; intros w H Hq; cbn in H; inv_ok; [done|].
  eapply IH; [done|]. by eapply iterate_keeps.
Qed.

Lemma iterations_running answers more w w' : iterate_all answers w = Ok w' ->
  quit_ (get_loop w') = false ->
  iterations client (answers ++ more) w = iterations client more w'.
Proof.
  revert w. induction answers as [|a l IH]; intros w H Hq; cbn in H; inv_ok; [done|].
  match goal with H : iterate _ _ _ = Ok _ |- _ => rename H into Hi end.
  cbn [app iterations]. destruct (quit_ (get_loop w)) eqn:Hw.
  - apply iterate_keeps in Hi as [Hk _]. apply (iterate_all_quit l) in H; [|by apply Hk].
    congruence.
  - rewrite Hi. cbn. by apply IH.
Qed.

Lemma quit_returns w : quit_ (get_loop w) = true ->
  forall more, iterations client more w = Ok (true, w).
Proof. intros Hq [|]; cbn; by rewrite Hq. Qed.

Lemma on_loop_on_loop f g w : on_loop f (on_loop g w) = on_loop (fun lp => f (g lp)) w.
Proof. unfold on_loop. by rewrite get_put_loop, put_put_loop. Qed.

(** The world in which [loop] enters its [while]. *)
Definition entered (w : W) : W := on_loop (fun lp => set_quit false (set_running true lp)) w.

Lemma loop_enters tid answers w :
  is_running_ (get_loop w) = false -> thread_id_ (get_loop w) = tid ->
  loop client tid answers w
  = let! (returned, w) := iterations client answers (entered w) in
    if returned : bool then Ok (true, on_loop (set_running false) w) else Ok (false, w).
Proof.
  intros Hr Ht. unfold loop. rewrite Hr. unfold assertInLoopThread, isInLoopThread.
  rewrite Ht, Z.eqb_refl. done.
Qed.

(** C38: [loop] returns exactly after the pass in which [quit_] becomes true, and
    that pass is completed, the pending tasks included; with fewer answers of
    the kernel it is still waiting in the poller. *)
Theorem loop_returns_after_quit (tid : Z) (before : list (Answer P (Closure C)))
    (answer : Answer P (Closure C)) (w w1 w2 : W) :
  is_running_ (get_loop w) = false -> thread_id_ (get_loop w) = tid ->
  iterate_all before (entered w) = Ok w1 -> quit_ (get_loop w1) = false ->
  iterate client answer w1 = Ok w2 -> quit_ (get_loop w2) = true ->
  loop client tid before w = Ok (false, w1) /\
  forall more, loop client tid (before ++ answer :: more) w
    = Ok (true, on_loop (set_running false) w2).
Proof.
  intros Hr Ht H1 Hq1 H2 Hq2. split.
  - rewrite loop_enters by done. rewrite <- (app_nil_r before).
    rewrite (iterations_running before [] _ w1) by done. cbn. by rewrite Hq1.
  - intros more. rewrite loop_enters by done.
    rewrite (iterations_running before _ _ w1) by done. cbn [iterations].
    rewrite Hq1, H2. cbn [mbind outcome_bind]. rewrite (quit_returns w2) by done. done.
Qed.

(** A [quit] that comes before [loop] is lost: [loop] stores [quit_ = false]
    first, so it behaves as if only the wakeup had happened, and goes into the
    poller. *)
Theorem quit_before_loop_lost (tid tid' : Z) (answers : list (Answer P (Closure C))) (w : W) :
  is_running_ (get_loop w) = false -> thread_id_ (get_loop w) = tid ->
  loop client tid answers (on_loop (quit tid') w)
    = loop client tid answers (on_loop (quit_wakeup tid') w) /\
  exists w', loop client tid [] (on_loop (quit tid') w) = Ok (false, w').
Proof.
  intros Hr Ht.
  assert (Hq : forall f, f = quit tid' \/ f = quit_wakeup tid' ->
    is_running_ (get_loop (on_loop f w)) = false /\ thread_id_ (get_loop (on_loop f w)) = tid).
  { intros f [-> | ->]; rewrite get_on_loop; unfold quit, quit_wakeup;
      destruct (negb _); done. }
  destruct (Hq (quit tid')) as [Hr1 Ht1]; [by left|].
  destruct (Hq (quit_wakeup tid')) as [Hr2 Ht2]; [by right|].
  assert (E : entered (on_loop (quit tid') w) = entered (on_loop (quit_wakeup tid') w)).
  { unfold entered. rewrite !on_loop_on_loop. unfold on_loop. f_equal.
    unfold quit, quit_wakeup, isInLoopThread. cbn. by destruct (negb _). }
  split.
  - rewrite !loop_enters by done. by rewrite E.
  - eexists. rewrite loop_enters by done. cbn [iterations].
    unfold entered. rewrite get_on_loop. cbn. reflexivity.
Qed.

(** What the other threads' calls do.  Off the loop's thread, running the
    loop, or changing or removing one of its channels, aborts; [runInLoop] does
    not run the closure but appends it to the tasks and makes the eventfd
    readable, touching no channel; on the loop's thread it runs it at once. *)
Theorem thread_confinement (tid : Z) (w : W) (c : C) (cid : ChanId) :
  (thread_id_ (get_loop w) = tid -> runInLoop client tid c w = client c w) /\
  (thread_id_ (get_loop w) <> tid ->
   (is_running_ (get_loop w) = false -> forall answers, loop client tid answers w = Abort) /\
   (forall ch, get_channels w !! cid = Some ch -> loop_ ch = self (get_loop w) ->
    on_channels (updateChannel tid cid) w = Abort /\
    on_channels (removeChannel tid cid) w = Abort) /\
   exists w', runInLoop client tid c w = Ok w' /\
     task_queue_ (get_loop w') = task_queue_ (get_loop w) ++ [c] /\
     eventfd_ready (wakeup_counter (get_loop w')) = true /\
     get_channels w' = get_channels w).
Proof.
  split.
  { intros Ht. unfold runInLoop, isInLoopThread. by rewrite Ht, Z.eqb_refl. }
  intros Ht%Z.eqb_neq. assert (Hin : isInLoopThread tid (get_loop w) = false) by done.
  split_and!.
  - intros Hr answers. unfold loop, assertInLoopThread. by rewrite Hr, Hin.
  - intros ch Hch Hl. unfold on_channels, updateChannel, removeChannel, deref_channel,
      assertInLoopThread. rewrite Hch. cbn. by rewrite Hl, Z.eqb_refl, Hin.
  - exists (on_loop (queueInLoop tid c) w). unfold runInLoop. rewrite Hin, get_on_loop.
    unfold isInLoopThread in Hin. unfold queueInLoop, queue_wakeup, isInLoopThread. cbn.
    rewrite Hin. cbn.
    split_and!; [done..|apply ready_after_write|apply channels_on_loop].
Qed.
End LoopTheorems.

(** ** A loop on thread 7 over the poll poller *)
#[global] Instance counter_eventfd : EventFd := {|
  eventfd := nat;
  eventfd_write := S;
  eventfd_read := fun _ => 0%nat;
  eventfd_ready := fun e => negb (e =? 0)%nat;
|}.

#[global] Instance counter_eventfd_ok : EventFdOk.
Proof. by split. Qed.

(** Clients log a number, queue a task, or stop the loop. *)
Inductive DemoTask : Type :=
| Log (n : Z)
| Post (t : DemoTask)
| Stop.

Record DemoWorld := mkDemoWorld {
  demo_loop : EventLoop Poller.Poller DemoTask;
  demo_channels : Store (Closure DemoTask);
  demo_log : list Z;
}.

#[global] Instance demo_loop_world : LoopWorld DemoWorld Poller.Poller DemoTask := {
  get_loop := demo_loop;
  put_loop lp w := mkDemoWorld lp (demo_channels w) (demo_log w);
  get_channels := demo_channels;
  put_channels st w := mkDemoWorld (demo_loop w) st (demo_log w);
}.

#[global] Instance demo_loop_world_laws : LoopWorldLaws DemoWorld Poller.Poller DemoTask.
Proof. by split. Qed.

Definition demo_client (c : DemoTask) (w : DemoWorld) : outcome DemoWorld :=
  match c with
  | Log n => Ok (mkDemoWorld (demo_loop w) (demo_channels w) (demo_log w ++ [n]))
  | Post t => Ok (on_loop (queueInLoop 7 t) w)
  | Stop => Ok (on_loop (quit 7) w)
  end.

Lemma demo_respects : respects_loop demo_client.
Proof.
  intros [n|t|] w w' H; injection H as <-; [reflexivity| |]; apply rtc_once.
  - apply call_queueInLoop.
  - apply call_quit.
Qed.

(** The loop as constructed, its wakeup channel registered on descriptor 4. *)
Definition demo_start : DemoWorld :=
  match make_EventLoop 0 7 None Poller.make_Poller 4 0%nat 10 ∅ with
  | Ok (lp, st, _) => mkDemoWorld lp st []
  | _ => mkDemoWorld (mkEventLoop 0 false true false 7 Poller.make_Poller [] 4 0%nat 10 []) ∅ []
  end.

(** Thread 3 queues a task that queues another and a task that logs 1. *)
Definition demo_queued : DemoWorld :=
  on_loop (queueInLoop 3 (Log 1)) (on_loop (queueInLoop 3 (Post (Log 2))) demo_start).

(** The poller finds the eventfd readable. *)
Definition demo_answer : Answer Poller.Poller (Closure DemoTask) := (1, [1]).

Definition result_or {A} (d : A) (m : outcome A) : A :=
  match m with Ok a => a | _ => d end.

Definition demo_polled : DemoWorld :=
  result_or demo_start (poll_ready demo_answer demo_queued).
Definition demo_handled : DemoWorld :=
  result_or demo_start
    (handle_ready demo_client (ready_channels_ (get_loop demo_polled)) demo_polled).

Lemma iterate_runs_snapshot_witness :
  exists w', iterate demo_client demo_answer demo_queued = Ok w' /\
    demo_log w' = [1] /\ task_queue_ (get_loop w') = [Log 2] /\
    eventfd_ready (wakeup_counter (get_loop w')) = true.
Proof.
  destruct (iterate_runs_snapshot demo_client demo_respects demo_answer
    demo_queued demo_polled demo_handled) as (pushed & Hq & E & Hr).
  - vm_compute. reflexivity.
  - vm_compute. reflexivity.
  - assert (pushed = []) as -> by (vm_compute in Hq; by injection Hq as <-).
    eexists. split; [rewrite E; vm_compute; reflexivity|].
    split_and!; [reflexivity|reflexivity|].
    eapply Hr; [rewrite E; vm_compute; reflexivity|done].
Defined.

Definition demo_stop : DemoWorld := on_loop (queueInLoop 3 Stop) demo_start.

Lemma loop_returns_after_quit_witness :
  exists w', forall more, loop demo_client 7 (demo_answer :: more) demo_stop = Ok (true, w') /\
    is_running_ (get_loop w') = false.
Proof.
  pose (w2 := result_or demo_start (iterate demo_client demo_answer (entered demo_stop))).
  exists (on_loop (set_running false) w2). intros more. split; [|reflexivity].
  refine (proj2 (loop_returns_after_quit demo_client demo_respects 7 [] demo_answer
    demo_stop (entered demo_stop) w2 _ _ _ _ _ _) more); vm_compute; reflexivity.
Defined.

Lemma quit_before_loop_lost_witness :
  exists w', loop demo_client 7 [] (on_loop (quit 7) demo_start) = Ok (false, w').
Proof.
  apply (quit_before_loop_lost demo_client 7 7 [] demo_start); reflexivity.
Defined.

Lemma thread_confinement_witness :
  exists w', runInLoop demo_client 3 (Log 5) demo_start = Ok w' /\
    task_queue_ (get_loop w') = [Log 5] /\
    loop demo_client 3 [] demo_start = Abort /\
    on_channels (updateChannel 3 10) demo_start = Abort.
Proof.
  assert (Hne : thread_id_ (get_loop demo_start) <> 3) by (vm_compute; discriminate).
  destruct (proj2 (thread_confinement demo_client 3 demo_start (Log 5) 10) Hne) as (Hl & Hu & w' & E & Hq & _).
  exists w'. split_and!; [exact E|exact Hq|by apply Hl|].
  eapply Hu; vm_compute; reflexivity.
Defined.
