(* ===== verification/LoopThreads.v ===== *)
(** * LoopThreads: other threads against an [EventLoop]

    The interleavings of net/EventLoop.cpp: any thread may call [queueInLoop]
    and [quit], each of which is a store and, separately, a wakeup; the loop's
    thread goes round [loop] and [executePendingTasks].  A state is the loop,
    where its thread is, which threads are between their store and their wakeup,
    and the tasks queued and run so far (which no code reads). *)
From Stdlib Require Import ZArith Lia List.
From stdpp Require Import base option list numbers gmap relations tactics.
From S2P Require Import Prelude.
From S2P Require Import Channel.
From S2P Require Import PollerBase.
From S2P Require Import EventLoop.
From S2P Require Poller.
Open Scope Z_scope.

(** Where the loop's thread is: in [poller_->poll]; running the handlers of the
    ready channels; behind [is_processing_tasks_ = true]; running the tasks it
    swapped out; at the test of [while (!quit_)]; past the loop. *)
Inductive Phase (C : Type) : Type :=
| Polling
| Dispatching
| Swapping
| Running (rest : list C)
| Checking
| Stopped.
Arguments Polling {C}.
Arguments Dispatching {C}.
Arguments Swapping {C}.
Arguments Running {C} rest.
Arguments Checking {C}.
Arguments Stopped {C}.

(** A thread inside [queueInLoop] after its push, or inside [quit] after its
    store. *)
Inductive Caller : Type := AfterPush | AfterQuit.

Record Sys `{EventFd} (P C : Type) := mkSys {
  lp : EventLoop P C;
  phase : Phase C;
  calling : gmap Z Caller;
  pushed : list C;
  executed : list C;
}.
Arguments mkSys {H P C}.
Arguments lp {H P C}.
Arguments phase {H P C}.
Arguments calling {H P C}.
Arguments pushed {H P C}.
Arguments executed {H P C}.

(** The loop's own steps with the poller returning because the eventfd is
    readable, or anything else. *)
Inductive Label : Type := LoopStep | OtherStep.

Section LoopThreads.
Context `{EFD : EventFd} {P C : Type}.
Implicit Types s : Sys P C.

Definition loop_tid s : Z := thread_id_ (lp s).
Definition readable s : Prop := eventfd_ready (wakeup_counter (lp s)) = true.

(** The loop's thread makes calls only from handlers and tasks. *)
Definition can_call (tid : Z) s : Prop :=
  calling s !! tid = None /\
  (tid = loop_tid s -> phase s = Dispatching \/ exists rest, phase s = Running rest).

Definition loop_idle s : Prop := calling s !! loop_tid s = None.

Definition with_loop (f : EventLoop P C -> EventLoop P C) (ph : Phase C) s : Sys P C :=
  mkSys (f (lp s)) ph (calling s) (pushed s) (executed s).

Inductive step : Label -> Sys P C -> Sys P C -> Prop :=
| step_push s tid c : can_call tid s ->
    step OtherStep s (mkSys (queue_push c (lp s)) (phase s)
      (<[tid := AfterPush]> (calling s)) (pushed s ++ [c]) (executed s))
| step_push_wakeup s tid : calling s !! tid = Some AfterPush ->
    step OtherStep s (mkSys (queue_wakeup tid (lp s)) (phase s) (delete tid (calling s))
      (pushed s) (executed s))
| step_quit s tid : can_call tid s ->
    step OtherStep s (mkSys (set_quit true (lp s)) (phase s)
      (<[tid := AfterQuit]> (calling s)) (pushed s) (executed s))
| step_quit_wakeup s tid : calling s !! tid = Some AfterQuit ->
    step OtherStep s (mkSys (quit_wakeup tid (lp s)) (phase s) (delete tid (calling s))
      (pushed s) (executed s))
| step_poll_wakeup s : phase s = Polling -> readable s ->
    step LoopStep s (with_loop id Dispatching s)
| step_poll_other s : phase s = Polling ->
    step OtherStep s (with_loop id Dispatching s)
| step_read s : phase s = Dispatching -> loop_idle s ->
    step LoopStep s (with_loop handleWakeupRead Dispatching s)
| step_process s : phase s = Dispatching -> loop_idle s ->
    step LoopStep s (with_loop (set_processing true) Swapping s)
| step_swap s : phase s = Swapping ->
    step LoopStep s (with_loop (set_tasks []) (Running (task_queue_ (lp s))) s)
| step_run s c rest : phase s = Running (c :: rest) -> loop_idle s ->
    step LoopStep s (mkSys (lp s) (Running rest) (calling s) (pushed s)
      (executed s ++ [c]))
| step_done s : phase s = Running [] -> loop_idle s ->
    step LoopStep s (with_loop (set_processing false) Checking s)
| step_continue s : phase s = Checking -> quit_ (lp s) = false ->
    step LoopStep s (with_loop id Polling s)
| step_stop s : phase s = Checking -> quit_ (lp s) = true ->
    step LoopStep s (with_loop (set_running false) Stopped s).

Definition any_step s s' : Prop := exists l, step l s s'.

(** [loop] has just been entered.  Tasks the loop's own thread queued before
    that have written nothing: they are excluded by the second clause. *)
Definition starts s : Prop :=
  phase s = Polling /\ calling s = ∅ /\ executed s = [] /\ pushed s = task_queue_ (lp s) /\
  (task_queue_ (lp s) <> [] -> readable s) /\
  is_processing_tasks_ (lp s) = false /\ quit_ (lp s) = false.

Definition reachable s : Prop := exists s0, starts s0 /\ rtc any_step s0 s.

(** The tasks swapped out and not yet run. *)
Definition in_flight s : list C :=
  match phase s with Running rest => rest | _ => [] end.

Definition processing_phase (ph : Phase C) : bool :=
  match ph with Swapping | Running _ => true | _ => false end.

(** After the swap a queued task is covered: the eventfd is readable or the
    thread that queued it is about to write it. *)
Definition covered s : Prop :=
  task_queue_ (lp s) <> [] -> readable s \/
  exists tid, calling s !! tid = Some AfterPush /\
    (tid <> loop_tid s \/ is_processing_tasks_ (lp s) = true).

Definition quit_covered s : Prop :=
  quit_ (lp s) = true -> readable s \/
  exists tid, calling s !! tid = Some AfterQuit /\ tid <> loop_tid s.

Record inv s : Prop := {
  inv_history : pushed s = executed s ++ in_flight s ++ task_queue_ (lp s);
  inv_processing : is_processing_tasks_ (lp s) = processing_phase (phase s);
  inv_idle : match phase s with Dispatching | Running _ => True | _ => loop_idle s end;
  inv_covered : match phase s with Dispatching | Swapping => True | _ => covered s end;
  inv_quit : phase s = Polling -> quit_covered s;
}.

Lemma starts_inv s : starts s -> inv s.
Proof.
  intros (Hph & Hc & He & Hp & Hq & Hpr & Hqu).
  split; unfold in_flight; rewrite ?Hph; cbn.
  - by rewrite He, Hp.
  - done.
  - unfold loop_idle. by rewrite Hc.
  - intros H. left. by apply Hq.
  - intros _ H. congruence.
Qed.

Context {EFok : EventFdOk}.

Lemma queue_wakeup_fields tid (l : EventLoop P C) :
  thread_id_ (queue_wakeup tid l) = thread_id_ l /\
  task_queue_ (queue_wakeup tid l) = task_queue_ l /\
  is_processing_tasks_ (queue_wakeup tid l) = is_processing_tasks_ l /\
  quit_ (queue_wakeup tid l) = quit_ l /\
  (eventfd_ready (wakeup_counter l) = true ->
   eventfd_ready (wakeup_counter (queue_wakeup tid l)) = true) /\
  (tid <> thread_id_ l \/ is_processing_tasks_ l = true ->
   eventfd_ready (wakeup_counter (queue_wakeup tid l)) = true).
Proof.
  unfold queue_wakeup, isInLoopThread.
  destruct (negb (thread_id_ l =? tid) || is_processing_tasks_ l) eqn:E.
  - cbn. split_and!; try done; intros _; apply ready_after_write.
  - apply orb_false_iff in E as [E1%negb_false_iff%Z.eqb_eq E2].
    split_and!; try done. intros [H|H]; congruence.
Qed.

Lemma quit_wakeup_fields tid (l : EventLoop P C) :
  thread_id_ (quit_wakeup tid l) = thread_id_ l /\
  task_queue_ (quit_wakeup tid l) = task_queue_ l /\
  is_processing_tasks_ (quit_wakeup tid l) = is_processing_tasks_ l /\
  quit_ (quit_wakeup tid l) = quit_ l /\
  (eventfd_ready (wakeup_counter l) = true ->
   eventfd_ready (wakeup_counter (quit_wakeup tid l)) = true) /\
  (tid <> thread_id_ l ->
   eventfd_ready (wakeup_counter (quit_wakeup tid l)) = true).
Proof.
  unfold quit_wakeup, isInLoopThread.
  destruct (Z.eqb_spec (thread_id_ l) tid) as [E|E]; cbn; split_and!; try done;
    intros _; apply ready_after_write.
Qed.

(** The threads of a cover survive another thread's entry. *)
Lemma covered_weaken s s' :
  loop_tid s' = loop_tid s -> is_processing_tasks_ (lp s') = is_processing_tasks_ (lp s) ->
  (readable s -> readable s') ->
  (forall tid, calling s !! tid = Some AfterPush ->
    tid <> loop_tid s \/ is_processing_tasks_ (lp s) = true ->
    readable s' \/ calling s' !! tid = Some AfterPush) ->
  task_queue_ (lp s') = task_queue_ (lp s) -> covered s -> covered s'.
Proof.
  intros Ht Hp Hr Hc Hq Hcov Hne. rewrite Hq in Hne.
  destruct (Hcov Hne) as [?|(tid & Htid & Hw)]; [left; auto|].
  destruct (Hc tid Htid Hw) as [?|?]; [by left|right]. exists tid. by rewrite Ht, Hp.
Qed.

Lemma quit_covered_weaken s s' :
  loop_tid s' = loop_tid s -> (readable s -> readable s') ->
  (forall tid, calling s !! tid = Some AfterQuit -> tid <> loop_tid s ->
    readable s' \/ calling s' !! tid = Some AfterQuit) ->
  quit_ (lp s') = quit_ (lp s) -> quit_covered s -> quit_covered s'.
Proof.
  intros Ht Hr Hc Hq Hcov H. rewrite Hq in H.
  destruct (Hcov H) as [?|(tid & Htid & Hw)]; [left; auto|].
  destruct (Hc tid Htid Hw) as [?|?]; [by left|right]. exists tid. by rewrite Ht.
Qed.

(** Tactics for the steps of other threads. *)
Ltac same_phase I :=
  destruct I as [Hh Hp Hi Hc Hq]; split; unfold in_flight in *; cbn in *.

Lemma step_push_inv s tid c : inv s -> can_call tid s ->
  inv (mkSys (queue_push c (lp s)) (phase s) (<[tid := AfterPush]> (calling s))
    (pushed s ++ [c]) (executed s)).
Proof.
  intros I [Hnone Hcan]. same_phase I.
  - by rewrite Hh, <- !app_assoc.
  - done.
  - unfold loop_idle, loop_tid in *; cbn.
    destruct (phase s) eqn:Hph; try done;
      (rewrite lookup_insert_ne; [exact Hi|]; intros ->;
       destruct (Hcan eq_refl) as [?|[? ?]]; congruence).
  - assert (Hnew : tid <> loop_tid s \/ processing_phase (phase s) = true ->
      covered (mkSys (queue_push c (lp s)) (phase s) (<[tid := AfterPush]> (calling s))
        (pushed s ++ [c]) (executed s))).
    { intros Hw _. right. exists tid. cbn. rewrite lookup_insert_eq, Hp. by split. }
    destruct (decide (tid = loop_tid s)) as [Ht|Ht].
    + destruct (Hcan Ht) as [->|[rest Hr]]; [done|]. rewrite Hr in *. apply Hnew. by right.
    + destruct (phase s); try done; apply Hnew; by left.
  - intros Hph. specialize (Hq Hph). revert Hq. apply quit_covered_weaken; cbn; try done.
    intros t Hs _. right. by rewrite lookup_insert_ne by congruence.
Qed.

Lemma step_quit_inv s tid : inv s -> can_call tid s ->
  inv (mkSys (set_quit true (lp s)) (phase s) (<[tid := AfterQuit]> (calling s))
    (pushed s) (executed s)).
Proof.
  intros I [Hnone Hcan]. same_phase I.
  - done.
  - done.
  - unfold loop_idle, loop_tid in *; cbn.
    destruct (phase s) eqn:Hph; try done;
      (rewrite lookup_insert_ne; [exact Hi|]; intros ->;
       destruct (Hcan eq_refl) as [?|[? ?]]; congruence).
  - destruct (phase s); try done; revert Hc; apply covered_weaken; cbn; try done;
      intros t Hs _; right; by rewrite lookup_insert_ne by congruence.
  - intros Hph _. right. exists tid. cbn. rewrite lookup_insert_eq. split; [done|].
    intros Ht. destruct (Hcan Ht) as [?|[? ?]]; congruence.
Qed.

Lemma step_push_wakeup_inv s tid : inv s -> calling s !! tid = Some AfterPush ->
  inv (mkSys (queue_wakeup tid (lp s)) (phase s) (delete tid (calling s))
    (pushed s) (executed s)).
Proof.
  intros I Hs. destruct (queue_wakeup_fields tid (lp s)) as (Ft & Fq & Fp & Fquit & Fr & Fw).
  same_phase I.
  - by rewrite Fq.
  - by rewrite Fp.
  - unfold loop_idle, loop_tid in *; cbn. rewrite Ft.
    destruct (phase s) eqn:Hph; try done; rewrite lookup_delete_None; by right.
  - assert (Hk : covered s -> covered (mkSys (queue_wakeup tid (lp s)) (phase s)
      (delete tid (calling s)) (pushed s) (executed s))).
    { apply covered_weaken; cbn; [exact Ft|exact Fp|exact Fr| |exact Fq].
      intros t Htid Hw. destruct (decide (t = tid)) as [->|].
      - left. by apply Fw.
      - right. by rewrite lookup_delete_ne. }
    destruct (phase s); auto.
  - intros Hph. specialize (Hq Hph). revert Hq. apply quit_covered_weaken; cbn.
    + exact Ft.
    + exact Fr.
    + intros t Htid _. right. rewrite lookup_delete_ne; [done|]. intros ->. congruence.
    + exact Fquit.
Qed.

Lemma step_quit_wakeup_inv s tid : inv s -> calling s !! tid = Some AfterQuit ->
  inv (mkSys (quit_wakeup tid (lp s)) (phase s) (delete tid (calling s))
    (pushed s) (executed s)).
Proof.
  intros I Hs. destruct (quit_wakeup_fields tid (lp s)) as (Ft & Fq & Fp & Fquit & Fr & Fw).
  same_phase I.
  - by rewrite Fq.
  - by rewrite Fp.
  - unfold loop_idle, loop_tid in *; cbn. rewrite Ft.
    destruct (phase s) eqn:Hph; try done; rewrite lookup_delete_None; by right.
  - assert (Hk : covered s -> covered (mkSys (quit_wakeup tid (lp s)) (phase s)
      (delete tid (calling s)) (pushed s) (executed s))).
    { apply covered_weaken; cbn; [exact Ft|exact Fp|exact Fr| |exact Fq].
      intros t Htid Hw. right. rewrite lookup_delete_ne; [done|]. intros ->. congruence. }
    destruct (phase s); auto.
  - intros Hph. specialize (Hq Hph). revert Hq. apply quit_covered_weaken; cbn.
    + exact Ft.
    + exact Fr.
    + intros t Htid Hw. destruct (decide (t = tid)) as [->|].
      * left. by apply Fw.
      * right. by rewrite lookup_delete_ne.
    + exact Fquit.
Qed.

Lemma step_inv l s s' : inv s -> step l s s' -> inv s'.
Proof.
  intros I Hs. destruct Hs as [s tid c Hcan|s tid Hc|s tid Hcan|s tid Hc|s Hph Hr|s Hph
    |s Hph Hidle|s Hph Hidle|s Hph|s c rest Hph Hidle|s Hph Hidle|s Hph Hqf|s Hph Hqf].
  - by apply step_push_inv.
  - by apply step_push_wakeup_inv.
  - by apply step_quit_inv.
  - by apply step_quit_wakeup_inv.
  - same_phase I; rewrite ?Hph in *; try done.
  - same_phase I; rewrite ?Hph in *; try done.
  - same_phase I; rewrite ?Hph in *; try done.
  - same_phase I; rewrite ?Hph in *; try done.
  - same_phase I; rewrite ?Hph in *; try done.
    + by rewrite app_nil_r.
    + by intros Hne.
  - same_phase I; rewrite ?Hph in *; try done. by rewrite Hh, <- app_assoc.
  - same_phase I; rewrite ?Hph in *; try done. intros Hne.
    destruct (Hc Hne) as [?|(tid & Htid & Hw)]; [by left|right]. exists tid. cbn.
    split; [done|left]. intros ->. unfold loop_tid, loop_idle in *. cbn in *.
    unfold loop_tid in *. congruence.
  - same_phase I; rewrite ?Hph in *; try done. intros _ H. cbn in H. congruence.
  - same_phase I; rewrite ?Hph in *; try done.
Qed.

Lemma reachable_inv s : reachable s -> inv s.
Proof.
  intros (s0 & H0 & Hr). apply starts_inv in H0.
  induction Hr as [|s1 s2 s3 [l Hl] _ IH]; [done|]. apply IH. by eapply step_inv.
Qed.

(** C8: no wakeup is lost.  However other threads' [queueInLoop] and [quit]
    interleave with the loop, whenever the loop's thread is in the poller with
    tasks queued or a [quit] requested, the eventfd is readable or another
    thread is inside its call and has yet to write it. *)
Theorem no_lost_wakeup s : reachable s -> phase s = Polling ->
  task_queue_ (lp s) <> [] \/ quit_ (lp s) = true ->
  readable s \/ exists tid, tid <> loop_tid s /\ is_Some (calling s !! tid).
Proof.
  intros [_ Hp _ Hc Hq]%reachable_inv Hph Hwork. rewrite Hph in *.
  destruct Hwork as [Hne|Hquit].
  - destruct (Hc Hne) as [?|(tid & Htid & [Hw|Hw])]; [by left| |cbn in Hp; congruence].
    right. exists tid. split; [done|by eexists].
  - destruct (Hq eq_refl Hquit) as [?|(tid & Htid & Hw)]; [by left|].
    right. exists tid. split; [done|by eexists].
Qed.

(** C9: every task runs exactly once, on the loop's thread and in the order of
    the pushes: at any time the tasks pushed by all threads are those run so
    far, followed by those swapped out, followed by the queue. *)
Theorem tasks_run_once_in_order s : reachable s ->
  pushed s = executed s ++ in_flight s ++ task_queue_ (lp s).
Proof. intros H. apply inv_history, reachable_inv, H. Qed.

(** ** Progress *)
Definition loop_steps : Sys P C -> Sys P C -> Prop := rtc (step LoopStep).

Lemma run_rest s rest : phase s = Running rest -> loop_idle s ->
  loop_steps s (mkSys (lp s) (Running []) (calling s) (pushed s) (executed s ++ rest)).
Proof.
  revert s. induction rest as [|c rest IH]; intros s Hph Hi.
  - rewrite app_nil_r. destruct s as [l ph cl pu ex]; cbn in *; subst ph. reflexivity.
  - eapply rtc_l; [by apply step_run|].
    replace (executed s ++ c :: rest) with ((executed s ++ [c]) ++ rest)
      by (by rewrite <- app_assoc).
    exact (IH (mkSys (lp s) (Running rest) (calling s) (pushed s) (executed s ++ [c]))
      eq_refl Hi).
Qed.

End LoopThreads.

(** ** Thread 3 queues a task while the loop of thread 7 polls *)
Definition demo_sys (f : EventLoop Poller.Poller DemoTask -> EventLoop Poller.Poller DemoTask)
    (calls : gmap Z Caller) (queued : list DemoTask) : Sys Poller.Poller DemoTask :=
  mkSys (f (get_loop (entered demo_start))) Polling calls queued [].

Lemma demo_sys_starts : starts (demo_sys id ∅ []).
Proof. split_and!; try reflexivity. intros H. by destruct H. Qed.

Definition demo_pushed := demo_sys (queue_push (Log 1)) {[ 3 := AfterPush ]} [Log 1].
Definition demo_woken := demo_sys (queueInLoop 3 (Log 1)) ∅ [Log 1].

Lemma demo_push_step : any_step (demo_sys id ∅ []) demo_pushed.
Proof.
  exists OtherStep. apply (step_push (demo_sys id ∅ []) 3 (Log 1)).
  split; [reflexivity|]. vm_compute. discriminate.
Qed.

Lemma demo_pushed_reachable : reachable demo_pushed.
Proof.
  exists (demo_sys id ∅ []). split; [exact demo_sys_starts|].
  apply rtc_once, demo_push_step.
Qed.

Lemma demo_woken_reachable : reachable demo_woken.
Proof.
  exists (demo_sys id ∅ []). split; [exact demo_sys_starts|].
  eapply rtc_l; [exact demo_push_step|]. apply rtc_once. exists OtherStep.
  apply (step_push_wakeup demo_pushed 3). reflexivity.
Qed.

Lemma no_lost_wakeup_witness :
  readable demo_pushed \/ exists tid, tid <> 7 /\ is_Some (calling demo_pushed !! tid).
Proof.
  apply (no_lost_wakeup demo_pushed demo_pushed_reachable eq_refl).
  left. discriminate.
Defined.

Lemma tasks_run_once_in_order_witness :
  pushed demo_woken = [] ++ [] ++ task_queue_ (lp demo_woken).
Proof. exact (tasks_run_once_in_order demo_woken demo_woken_reachable). Defined.

