(* ===== verification/TimerQueue.v ===== *)
(** * TimerQueue: net/Timer.hpp, net/Timer.cpp, net/TimerQueue.hpp,
    net/TimerQueue.cpp and the timer calls of net/EventLoop.cpp

    Live timers by sequence number, and a priority queue of (time, sequence)
    whose entries may outlive their timer: cancelling only erases the timer.
    Times are nanoseconds of [steady_clock], intervals milliseconds.  The
    priority queue is the list of its entries in the order [top]/[pop] deliver
    them.  [F] is the type of the timers' callbacks. *)
From Stdlib Require Import ZArith Lia List.
From stdpp Require Import base option list numbers gmap relations sorting tactics.
From S2P Require Import Prelude.
From S2P Require Import Channel.
From S2P Require Import PollerBase.
From S2P Require Import EventLoop.
Open Scope Z_scope.
Open Scope outcome_scope.

Record Timer (F : Type) := mkTimer {
  expiration_time_ : Z;
  interval_ : Z;
  cb_ : F;
  sequence_ : Z;
}.
Arguments mkTimer {F}.
Arguments expiration_time_ {F}.
Arguments interval_ {F}.
Arguments cb_ {F}.
Arguments sequence_ {F}.

(** [Entry] and [std::greater<>] on it: time first, then sequence. *)
Definition Entry : Type := Z * Z.
Definition entry_le (a b : Entry) : Prop := a.1 < b.1 \/ a.1 = b.1 /\ a.2 <= b.2.
#[global] Instance entry_le_dec : RelDecision entry_le.
Proof. intros [a1 a2] [b1 b2]. unfold entry_le. cbn. apply _. Defined.
#[global] Instance entry_le_total : Total entry_le.
Proof. intros [a1 a2] [b1 b2]. unfold entry_le. cbn. lia. Qed.
#[global] Instance entry_le_trans : Transitive entry_le.
Proof. intros [a1 a2] [b1 b2] [c1 c2]. unfold entry_le. cbn. lia. Qed.
#[global] Instance entry_le_antisymm : AntiSymm (=) entry_le.
Proof.
  intros [a1 a2] [b1 b2]. unfold entry_le. cbn. intros. f_equal; lia.
Qed.

(** [priority_queue::emplace]. *)
Fixpoint emplace (e : Entry) (q : list Entry) : list Entry :=
  match q with
  | [] => [e]
  | e' :: q' => if decide (entry_le e e') then e :: q else e' :: emplace e q'
  end.

Record TimerQueue (F : Type) := mkTimerQueue {
  timer_queue_ : list Entry;
  timers_ : gmap Z (Timer F);
  (** [it_value] of the last [timerfd_settime]: seconds, nanoseconds. *)
  timer_spec : Z * Z;
}.
Arguments mkTimerQueue {F}.
Arguments timer_queue_ {F}.
Arguments timers_ {F}.
Arguments timer_spec {F}.

Section TimerQueue.
Context {F : Type}.
Implicit Types (q : TimerQueue F) (t : Timer F).

Definition set_queue (l : list Entry) q : TimerQueue F :=
  mkTimerQueue l (timers_ q) (timer_spec q).
Definition set_timers (m : gmap Z (Timer F)) q : TimerQueue F :=
  mkTimerQueue (timer_queue_ q) m (timer_spec q).
Definition set_spec (s : Z * Z) q : TimerQueue F :=
  mkTimerQueue (timer_queue_ q) (timers_ q) s.

(** ** Timer *)
Definition isRepeated t : bool := 0 <? interval_ t.

Definition ns_per_ms : Z := 1000000.
Definition ns_per_s : Z := 1000000000.

Definition restart (now : Z) t : Timer F :=
  if isRepeated t
  then mkTimer (now + interval_ t * ns_per_ms) (interval_ t) (cb_ t) (sequence_ t)
  else t.

(** ** TimerQueue *)

(** [duration_cast] truncates towards zero. *)
Definition split_time (tp : Z) : Z * Z :=
  let seconds := Z.quot tp ns_per_s in (seconds, tp - seconds * ns_per_s).

Definition resetTimerFd_ q : TimerQueue F :=
  set_spec match timer_queue_ q with
           | [] => (0, 0)
           | (earliest_tp, _) :: _ => split_time earliest_tp
           end q.

(** The [while] of [getExpiredTimers_]. *)
Fixpoint pop_expired (now : Z) (l : list Entry) : list Entry * list Entry :=
  match l with
  | (tp, sequence) :: l' =>
      if tp <=? now
      then let '(expired, rest) := pop_expired now l' in ((tp, sequence) :: expired, rest)
      else ([], l)
  | [] => ([], [])
  end.

Definition getExpiredTimers_ (now : Z) q : list Entry * TimerQueue F :=
  let '(expired, rest) := pop_expired now (timer_queue_ q) in (expired, set_queue rest q).

(** The closure of [addTimer]. *)
Definition addTimerInLoop (sequence tp : Z) t q : TimerQueue F :=
  let q := set_timers (<[sequence := t]> (timers_ q)) q in
  let q := set_queue (emplace (tp, sequence) (timer_queue_ q)) q in
  match timer_queue_ q with
  | (top, _) :: _ => if tp =? top then resetTimerFd_ q else q
  | [] => q
  end.

(** The closure of [cancelTimer]. *)
Definition cancelTimerInLoop (timerId : Z) q : TimerQueue F :=
  match timers_ q !! timerId with
  | Some _ => set_timers (delete timerId (timers_ q)) q
  | None => q
  end.

(** What [handleExpiredTimers_] does with a timer whose callback has returned,
    if the timer is still there. *)
Definition finish_timer (now sequence : Z) q : TimerQueue F :=
  match timers_ q !! sequence with
  | Some t =>
      if isRepeated t then
        let t := restart now t in
        set_queue (emplace (expiration_time_ t, sequence) (timer_queue_ q))
          (set_timers (<[sequence := t]> (timers_ q)) q)
      else set_timers (delete sequence (timers_ q)) q
  | None => q
  end.
End TimerQueue.

(** ** The timers in the world of their loop *)
Inductive TimerTask (F : Type) : Type :=
| AddTask (sequence tp : Z) (t : Timer F)
| CancelTask (timerId : Z)
| ExpiredTask.
Arguments AddTask {F}.
Arguments CancelTask {F}.
Arguments ExpiredTask {F}.

Class TimerWorld (W F : Type) := {
  get_timers : W -> TimerQueue F;
  put_timers : TimerQueue F -> W -> W;
  (** [steady_clock::now()] *)
  clock : W -> Z;
  (** [Timer::counter_] *)
  counter_ : W -> Z;
  put_counter : Z -> W -> W;
  (** The eight bytes of the timerfd can be read. *)
  timerfd_readable : W -> bool;
}.

Class TimerWorldLaws (W F : Type) `{TimerWorld W F} := {
  get_put_timers : forall q (w : W), get_timers (put_timers q w) = q;
  clock_put_timers : forall q (w : W), clock (put_timers q w) = clock w;
  counter_put_timers : forall q (w : W), counter_ (put_timers q w) = counter_ w;
  timers_put_counter : forall n (w : W), get_timers (put_counter n w) = get_timers w;
  counter_put_counter : forall n (w : W), counter_ (put_counter n w) = n;
}.

Section TimerRuns.
Context {W F : Type} `{TW : TimerWorld W F}.
(** What the timers' callbacks do. *)
Variable callback : F -> W -> outcome W.

Definition on_timers (f : TimerQueue F -> TimerQueue F) (w : W) : W :=
  put_timers (f (get_timers w)) w.

(** The [for] of [handleExpiredTimers_]; [clock w] is read after the callback. *)
Fixpoint run_expired (expired : list Entry) (w : W) : outcome W :=
  match expired with
  | [] => Ok w
  | (_, sequence) :: expired =>
      match timers_ (get_timers w) !! sequence with
      | Some t =>
          let! w := callback (cb_ t) w in
          run_expired expired (on_timers (finish_timer (clock w) sequence) w)
      | None => run_expired expired w
      end
  end.

Definition handleExpiredTimers_ (w : W) : outcome W :=
  if negb (timerfd_readable w) then Ok w else
  let '(expired_timers, q) := getExpiredTimers_ (clock w) (get_timers w) in
  let! w := run_expired expired_timers (put_timers q w) in
  Ok (on_timers resetTimerFd_ w).

Definition run_timer_task (task : TimerTask F) (w : W) : outcome W :=
  match task with
  | AddTask sequence tp t => Ok (on_timers (addTimerInLoop sequence tp t) w)
  | CancelTask timerId => Ok (on_timers (cancelTimerInLoop timerId) w)
  | ExpiredTask => handleExpiredTimers_ w
  end.

(** ** Entry points, on any thread *)
Context `{EFD : EventFd} {P C : Type} `{LW : !LoopWorld W P C}.
Variable client : C -> W -> outcome W.
(** The timers' closures among those of the loop. *)
Variable task : TimerTask F -> C.

(** The constructor of [Timer]. *)
Definition make_Timer (cb : F) (expiration_time interval : Z) (w : W) : Timer F * W :=
  (mkTimer expiration_time interval cb (counter_ w), put_counter (counter_ w + 1) w).

Definition addTimer (tid : Z) (cb : F) (tp interval : Z) (w : W) : outcome (Z * W) :=
  let '(timer, w) := make_Timer cb tp interval w in
  let sequence := sequence_ timer in
  let! w := runInLoop client tid (task (AddTask sequence tp timer)) w in
  Ok (sequence, w).

Definition cancelTimer (tid timerId : Z) (w : W) : outcome W :=
  runInLoop client tid (task (CancelTask timerId)) w.

(** [EventLoop::runAt], [runEvery], [runAfter]. *)
Definition runAt (tid tp : Z) (cb : F) (w : W) : outcome (Z * W) :=
  addTimer tid cb tp 0 w.
Definition runEvery (tid ms : Z) (cb : F) (w : W) : outcome (Z * W) :=
  addTimer tid cb (clock w + ms * ns_per_ms) ms w.
Definition runAfter (tid ms : Z) (cb : F) (w : W) : outcome (Z * W) :=
  addTimer tid cb (clock w + ms * ns_per_ms) 0 w.

(** Construction and destruction: the timerfd's channel. *)
Definition make_TimerQueue `{PB : !PollerBase P (Closure C)} (tid fd : Z) (cid : ChanId)
    (ls : EventLoop P C * Store (Closure C))
    : outcome (EventLoop P C * Store (Closure C) * TimerQueue F) :=
  let '(lp, st) := ls in
  let! _ := assertInLoopThread tid lp in
  let! (lp, st) := listenTillReadable tid cid
    (lp, <[cid := setReadCallback (Client (task ExpiredTask)) (make_Channel (self lp) fd)]> st)
  in Ok (lp, st, mkTimerQueue [] ∅ (0, 0)).

Definition destroy_TimerQueue `{PB : !PollerBase P (Closure C)} (tid : Z) (cid : ChanId)
    (ls : EventLoop P C * Store (Closure C))
    : outcome (EventLoop P C * Store (Closure C)) :=
  let! (lp, st) := removeChannel tid cid ls in Ok (lp, delete cid st).
End TimerRuns.

(** ** The priority queue *)
Lemma NoDup_fmap_snd_inj (l : list Entry) a b s :
  NoDup l.*2 -> (a, s) ∈ l -> (b, s) ∈ l -> a = b.
Proof.
  induction l as [|[c s'] l IH]; cbn; [by intros _ ?%elem_of_nil|].
  intros [Hn Hd]%list.NoDup_cons [Ha|Ha]%list.elem_of_cons [Hb|Hb]%list.elem_of_cons.
  - congruence.
  - injection Ha as <- <-. destruct Hn. apply list_elem_of_fmap. by exists (b, s).
  - injection Hb as <- <-. destruct Hn. apply list_elem_of_fmap. by exists (a, s).
  - by apply IH.
Qed.

Lemma emplace_perm e l : emplace e l ≡ₚ e :: l.
Proof.
  induction l as [|e' l IH]; cbn; [done|]. case_decide; [done|]. rewrite IH. apply Permutation_swap.
Qed.

Lemma emplace_sorted e l :
  StronglySorted entry_le l -> StronglySorted entry_le (emplace e l).
Proof.
  induction 1 as [|e' l Hl IH Hf]; cbn; [repeat constructor|].
  case_decide as Hd.
  - constructor; [by constructor|]. constructor; [done|].
    eapply List.Forall_impl; [|exact Hf]. intros x. by etrans.
  - constructor; [done|]. rewrite emplace_perm. constructor; [|done].
    destruct (total entry_le e e'); done.
Qed.

Lemma pop_expired_spec now l : StronglySorted entry_le l ->
  let '(expired, rest) := pop_expired now l in
  l = expired ++ rest /\ StronglySorted entry_le expired /\ StronglySorted entry_le rest /\
  Forall (fun e => e.1 <= now) expired /\ Forall (fun e => now < e.1) rest.
Proof.
  induction 1 as [|[tp s] l Hl IH Hf]; cbn; [by repeat constructor|].
  destruct (Z.leb_spec tp now).
  - destruct (pop_expired now l) as [expired rest].
    destruct IH as (-> & He & Hr & Hle & Hgt). apply Forall_app in Hf as [Hf _].
    split_and!; [done|by constructor|done|by constructor|done].
  - split_and!; [done|constructor|by constructor|constructor|].
    constructor; [done|]. eapply List.Forall_impl; [|exact Hf].
    intros x [?|[? ?]]; cbn in *; lia.
Qed.

(** ** The invariant

    [running] are the entries popped and not yet handled; [bound] is the next
    sequence number. *)
Section Invariant.
Context {F : Type}.
Implicit Types (q : TimerQueue F) (t : Timer F) (running : list Entry).

Definition entries running q : list Entry := running ++ timer_queue_ q.

Record inv running q (bound : Z) : Prop := {
  inv_sorted : StronglySorted entry_le (timer_queue_ q);
  inv_live : forall s t, timers_ q !! s = Some t ->
    sequence_ t = s /\ (expiration_time_ t, s) ∈ entries running q;
  inv_nodup : NoDup (entries running q).*2;
  inv_bound : Forall (fun e => e.2 < bound) (entries running q);
}.

(** The timerfd is set to the top of the queue. *)
Definition armed q : Prop :=
  match timer_queue_ q with
  | [] => True
  | (tp, _) :: _ => timer_spec q = split_time tp
  end.

Lemma inv_weaken running q b b' : inv running q b -> b <= b' -> inv running q b'.
Proof.
  intros [? ? ? Hb] Hle. split; try done. eapply List.Forall_impl; [|exact Hb]. cbn. lia.
Qed.

(** Entries up to reordering. *)
Lemma inv_entries running q running' q' b :
  inv running q b -> StronglySorted entry_le (timer_queue_ q') ->
  timers_ q' = timers_ q -> entries running' q' ≡ₚ entries running q -> inv running' q' b.
Proof.
  intros [Hs Hl Hn Hb] Hs' Ht Hp. split; [done|..].
  - intros s t. rewrite Ht, Hp. apply Hl.
  - by rewrite Hp.
  - by rewrite Hp.
Qed.

Lemma fresh_not_in running q s :
  s ∉ (entries running q).*2 <-> forall e, e ∈ entries running q -> e.2 <> s.
Proof.
  rewrite list_elem_of_fmap. split.
  - intros H e He Hs. apply H. by exists e.
  - intros H (e & -> & He). by apply (H e He).
Qed.

Lemma addTimerInLoop_queue s tp t q :
  timer_queue_ (addTimerInLoop s tp t q) = emplace (tp, s) (timer_queue_ q) /\
  timers_ (addTimerInLoop s tp t q) = <[s := t]> (timers_ q).
Proof.
  unfold addTimerInLoop. cbn [timer_queue_ set_queue].
  destruct (emplace (tp, s) _) as [|[top s'] l] eqn:E; cbn; [by rewrite <- E|].
  destruct (tp =? top); cbn; by rewrite ?E.
Qed.

Lemma addTimerInLoop_inv running q b s t :
  inv running q b -> s ∉ (entries running q).*2 -> s < b -> sequence_ t = s ->
  inv running (addTimerInLoop s (expiration_time_ t) t q) b.
Proof.
  intros [Hs Hl Hn Hb] Hfresh Hlt Hseq.
  destruct (addTimerInLoop_queue s (expiration_time_ t) t q) as [Eq Et].
  assert (Hp : entries running (addTimerInLoop s (expiration_time_ t) t q)
    ≡ₚ (expiration_time_ t, s) :: entries running q).
  { unfold entries. rewrite Eq, emplace_perm. symmetry. apply Permutation_middle. }
  split.
  - rewrite Eq. by apply emplace_sorted.
  - intros s' t'. rewrite Et, Hp. intros [[<- <-]|[Hne H]]%lookup_insert_Some.
    + split; [done|]. by constructor.
    + destruct (Hl s' t' H). split; [done|]. by constructor.
  - rewrite Hp. by constructor.
  - rewrite Hp. by constructor.
Qed.

Lemma cancelTimerInLoop_inv running q b s :
  inv running q b -> inv running (cancelTimerInLoop s q) b.
Proof.
  unfold cancelTimerInLoop. destruct (timers_ q !! s); [|done].
  intros [Hs Hl Hn Hb]. split; try done.
  cbn. intros s' t' [_ H]%lookup_delete_Some. by apply Hl.
Qed.

Lemma finish_timer_inv running q b tp s now :
  inv ((tp, s) :: running) q b -> inv running (finish_timer now s q) b.
Proof.
  intros [Hs Hl Hn Hb]. unfold entries in *. cbn in Hn, Hb, Hl.
  apply list.NoDup_cons in Hn as [Hfresh Hn]. apply list.Forall_cons in Hb as [Hlt Hb]. cbn in Hlt.
  assert (Hother : forall s' t', timers_ q !! s' = Some t' -> s' <> s ->
    sequence_ t' = s' /\ (expiration_time_ t', s') ∈ running ++ timer_queue_ q).
  { intros s' t' H Hne. destruct (Hl s' t' H) as [? He]. split; [done|].
    apply list.elem_of_cons in He as [He|He]; [by injection He as _ ->|done]. }
  unfold finish_timer. destruct (timers_ q !! s) as [t|] eqn:Et.
  2: { split; try done. intros s' t' H. apply Hother; [done|]. congruence. }
  destruct (isRepeated t) eqn:Er.
  - assert (Hp : entries running (set_queue (emplace (expiration_time_ (restart now t), s)
        (timer_queue_ q)) (set_timers (<[s := restart now t]> (timers_ q)) q))
      ≡ₚ (expiration_time_ (restart now t), s) :: running ++ timer_queue_ q).
    { unfold entries. cbn [timer_queue_ set_queue]. rewrite emplace_perm.
      symmetry. apply Permutation_middle. }
    split.
    + by apply emplace_sorted.
    + intros s' t'. rewrite Hp. cbn. intros [[<- <-]|[Hne H]]%lookup_insert_Some.
      * split; [|by constructor]. unfold restart. rewrite Er. by apply (Hl s t).
      * destruct (Hother s' t' H) as [? ?]; [done|]. split; [done|]. by constructor.
    + rewrite Hp. by constructor.
    + rewrite Hp. by constructor.
  - split; try done. cbn. intros s' t' [Hne H]%lookup_delete_Some. by apply Hother.
Qed.

Lemma resetTimerFd_inv running q b : inv running q b -> inv running (resetTimerFd_ q) b.
Proof. by intros [Hs Hl Hn Hb]. Qed.

Lemma resetTimerFd_armed q : armed (resetTimerFd_ q).
Proof. unfold armed, resetTimerFd_. cbn. by destruct (timer_queue_ q) as [|[tp s] l]. Qed.

Lemma addTimerInLoop_armed q s tp t : armed q -> armed (addTimerInLoop s tp t q).
Proof.
  intros Ha. unfold addTimerInLoop. cbn [timer_queue_ set_queue set_timers].
  destruct (timer_queue_ q) as [|[top s'] l] eqn:El; cbn.
  - rewrite Z.eqb_refl. apply resetTimerFd_armed.
  - case_decide as Hd; cbn.
    + rewrite Z.eqb_refl. apply resetTimerFd_armed.
    + destruct (Z.eqb_spec tp top); [apply resetTimerFd_armed|].
      unfold armed in *. cbn. by rewrite El in Ha.
Qed.

Lemma cancelTimerInLoop_armed q s : armed q -> armed (cancelTimerInLoop s q).
Proof. unfold cancelTimerInLoop. by destruct (timers_ q !! s). Qed.
End Invariant.

(** ** What a timer's callback can do to the timers

    It runs on the loop's thread, where [addTimer] and [cancelTimer] take effect
    at once; other threads may draw sequence numbers meanwhile. *)
Section TimerTheorems.
Context {W F : Type} `{TW : TimerWorld W F} {TWok : TimerWorldLaws W F}.
Context (callback : F -> W -> outcome W).

Inductive timer_call (w w' : W) : Prop :=
| call_add cb tp interval :
    get_timers w' = addTimerInLoop (counter_ w) tp (mkTimer tp interval cb (counter_ w))
      (get_timers w) -> counter_ w' = counter_ w + 1 -> timer_call w w'
| call_cancel timerId :
    get_timers w' = cancelTimerInLoop timerId (get_timers w) -> counter_ w' = counter_ w ->
    timer_call w w'
| call_other : get_timers w' = get_timers w -> counter_ w <= counter_ w' -> timer_call w w'.

Definition timer_calls := rtc timer_call.

Context (respects : forall f w w', callback f w = Ok w' -> timer_calls w w').
Context (returns : forall f w, exists w', callback f w = Ok w').

Definition world_inv (running : list Entry) (w : W) : Prop :=
  inv running (get_timers w) (counter_ w).

Lemma timer_calls_inv running w w' :
  timer_calls w w' -> world_inv running w -> world_inv running w'.
Proof.
  unfold world_inv. induction 1 as [|w1 w2 w3 H _ IH]; [done|]. intros Hinv. apply IH.
  destruct H as [cb tp interval -> ->|s -> -> | -> Hle].
  - apply (addTimerInLoop_inv running _ _ _ (mkTimer tp interval cb (counter_ w1))); cbn;
      [eapply inv_weaken; [exact Hinv|lia]| |lia|done].
    apply fresh_not_in. intros e He Heq.
    pose proof (proj1 (List.Forall_forall _ _) (inv_bound _ _ _ Hinv) e) as Hb.
    rewrite <- list_elem_of_In in Hb. specialize (Hb He). cbn in Hb. lia.
  - by apply cancelTimerInLoop_inv.
  - by eapply inv_weaken.
Qed.

(** A sequence number that has been drawn and is not live never is again. *)
Definition dead (s : Z) (w : W) : Prop :=
  timers_ (get_timers w) !! s = None /\ s < counter_ w.

Lemma timer_calls_dead s w w' : timer_calls w w' -> dead s w -> dead s w'.
Proof.
  unfold dead. induction 1 as [|w1 w2 w3 H _ IH]; [done|]. intros [Hn Hlt]. apply IH.
  destruct H as [cb tp interval Ht ->|s' Ht ->|Ht Hle]; rewrite Ht.
  - rewrite (proj2 (addTimerInLoop_queue _ _ _ _)), lookup_insert_ne by lia. split; [done|lia].
  - unfold cancelTimerInLoop. destruct (_ !! s'); [|done]. cbn.
    split; [|done]. rewrite lookup_delete_None. by right.
  - split; [done|lia].
Qed.

Lemma finish_timer_dead s s' now (w : W) :
  dead s w -> dead s (on_timers (finish_timer now s') w).
Proof.
  unfold dead, on_timers. rewrite get_put_timers, counter_put_timers. intros [Hn ?].
  split; [|done]. unfold finish_timer. destruct (timers_ (get_timers w) !! s') as [t|] eqn:E;
    [|done].
  assert (s <> s') by congruence.
  destruct (isRepeated t); cbn; [by rewrite lookup_insert_ne|by rewrite lookup_delete_ne].
Qed.

Lemma finish_world_inv running tp s (w : W) :
  world_inv ((tp, s) :: running) w ->
  world_inv running (on_timers (finish_timer (clock w) s) w).
Proof.
  unfold world_inv, on_timers. rewrite get_put_timers, counter_put_timers.
  apply finish_timer_inv.
Qed.

(** The entry of a dead timer is skipped. *)
Lemma run_expired_skip (live : Z -> Prop) `{!forall s, Decision (live s)} l w :
  Forall (fun e => ~ live e.2 -> dead e.2 w) l ->
  run_expired callback l w = run_expired callback (filter (fun e => live e.2) l) w.
Proof.
  revert w. induction l as [|[tp s] l IH]; intros w Hl; [done|].
  apply list.Forall_cons in Hl as [Hs Hl]. cbn in Hs. rewrite filter_cons. cbn [snd].
  cbn [run_expired]. destruct (decide (live s)) as [Hlive|Hlive]; cbn [run_expired].
  - destruct (timers_ (get_timers w) !! s) as [t|]; [|by apply IH].
    destruct (callback (cb_ t) w) as [w1| |] eqn:Ec; cbn; try done. apply IH.
    eapply List.Forall_impl; [|exact Hl]. cbn. intros e He Hn.
    apply finish_timer_dead. eapply timer_calls_dead; [by eapply respects|by apply He].
  - destruct (Hs Hlive) as [-> _]. by apply IH.
Qed.

Lemma run_expired_inv l w w' :
  world_inv l w -> run_expired callback l w = Ok w' -> world_inv [] w'.
Proof.
  revert w. induction l as [|[tp s] l IH]; intros w Hinv H; cbn in H.
  { by injection H as <-. }
  destruct (timers_ (get_timers w) !! s) as [t|] eqn:Et.
  - inv_ok. match goal with Hc : callback _ _ = Ok _ |- _ => apply respects in Hc as Hc end.
    eapply IH; [|exact H]. eapply finish_world_inv. by eapply timer_calls_inv.
  - eapply IH; [|exact H]. apply (finish_world_inv _ _ _ _) in Hinv. revert Hinv.
    unfold world_inv, on_timers, finish_timer. rewrite get_put_timers, counter_put_timers.
    by rewrite Et.
Qed.

Lemma run_expired_returns l w : exists w', run_expired callback l w = Ok w'.
Proof.
  revert w. induction l as [|[tp s] l IH]; intros w; cbn; [by eexists|].
  destruct (_ !! s) as [t|]; [|apply IH].
  destruct (returns (cb_ t) w) as [w1 ->]. cbn. apply IH.
Qed.

Lemma popped_inv w : world_inv [] w ->
  let '(expired, q) := getExpiredTimers_ (clock w) (get_timers w) in
  world_inv expired (put_timers q w) /\ StronglySorted entry_le expired /\
  timers_ q = timers_ (get_timers w) /\
  forall e, e ∈ timer_queue_ (get_timers w) -> (e ∈ expired <-> e.1 <= clock w).
Proof.
  intros Hinv. unfold getExpiredTimers_.
  pose proof (pop_expired_spec (clock w) _ (inv_sorted _ _ _ Hinv)) as H.
  destruct (pop_expired _ _) as [expired rest]. destruct H as (E & He & Hr & Hle & Hgt).
  split_and!; [|done|done|].
  - unfold world_inv. rewrite get_put_timers, counter_put_timers.
    eapply inv_entries; [exact Hinv|exact Hr|done|]. unfold entries. cbn. by rewrite E.
  - intros e. rewrite E, elem_of_app. rewrite list.Forall_forall in Hle, Hgt.
    intros [H|H]; (split; [|try done]).
    + intros _. by apply Hle.
    + intros H'. by apply Hle.
    + intros Hc. specialize (Hgt e H). cbn in Hgt. lia.
Qed.

Lemma entries_filter_sorted (live : Entry -> Prop) `{!forall e, Decision (live e)} l :
  StronglySorted entry_le l -> StronglySorted entry_le (filter live l).
Proof.
  induction 1 as [|e l Hl IH Hf]; [constructor|]. rewrite filter_cons.
  case_decide; [|done]. constructor; [done|].
  apply list.Forall_forall. intros x [_ Hx]%list_elem_of_filter.
  by apply (proj1 (list.Forall_forall _ _) Hf).
Qed.

(** C19: when the timerfd fires, [handleExpiredTimers_] handles exactly the live
    timers that are due, earliest first (ties by age): the priority queue, with
    the entries cancelled timers left in it, behaves as the set of live timers.
    The handler returns if the callbacks do. *)
Theorem handleExpired_fires_due (w : W) :
  world_inv [] w -> timerfd_readable w = true ->
  exists due q', StronglySorted entry_le due /\ NoDup due.*2 /\
    (forall tp s, (tp, s) ∈ due <->
      tp <= clock w /\ exists t, timers_ (get_timers w) !! s = Some t /\
                                 expiration_time_ t = tp) /\
    timers_ q' = timers_ (get_timers w) /\
    Forall (fun e => clock w < e.1) (timer_queue_ q') /\
    handleExpiredTimers_ callback w
    = (let! w' := run_expired callback due (put_timers q' w) in
       Ok (on_timers resetTimerFd_ w')) /\
    exists w', handleExpiredTimers_ callback w = Ok w'.
Proof.
  intros Hinv Hread. pose proof (popped_inv w Hinv) as Hp.
  assert (Hq' : Forall (fun e => clock w < e.1)
    (timer_queue_ (getExpiredTimers_ (clock w) (get_timers w)).2)).
  { pose proof (pop_expired_spec (clock w) _ (inv_sorted _ _ _ Hinv)) as H.
    unfold getExpiredTimers_. destruct (pop_expired _ _). by destruct H as (_ & _ & _ & _ & ?). }
  unfold handleExpiredTimers_. rewrite Hread. cbn [negb].
  destruct (getExpiredTimers_ _ _) as [expired q'] eqn:E. cbn [snd] in Hq'.
  destruct Hp as (Hinv' & Hs & Ht & Hdue).
  set (live := fun s => is_Some (timers_ (get_timers w) !! s)).
  exists (filter (fun e => live e.2) expired), q'.
  destruct Hinv' as [Hs' Hl' Hn' Hb']. rewrite get_put_timers in Hl', Hn', Hb'.
  unfold entries in Hn', Hb', Hl'. rewrite counter_put_timers in Hb'.
  split_and!.
  - by apply (entries_filter_sorted (fun e => live e.2)).
  - rewrite fmap_app in Hn'. apply list.NoDup_app in Hn' as [Hn' _].
    eapply sublist_NoDup; [exact Hn'|]. apply fmap_sublist, sublist_filter.
  - intros tp s. rewrite list_elem_of_filter. unfold live. cbn. split.
    + intros [[t Hts] He].
      assert (Hq : (tp, s) ∈ expired ++ timer_queue_ q') by (apply elem_of_app; by left).
      assert (Hold : (tp, s) ∈ timer_queue_ (get_timers w)).
      { unfold getExpiredTimers_ in E.
        pose proof (pop_expired_spec (clock w) _ (inv_sorted _ _ _ Hinv)) as H.
        destruct (pop_expired _ _) as [a b]. injection E as -> <-. cbn in Hq.
        by rewrite (proj1 H). }
      split; [by apply (Hdue (tp, s))|]. exists t. split; [done|].
      destruct (Hl' s t) as [_ Hin]; [by rewrite Ht|].
      eapply (NoDup_fmap_snd_inj _ _ _ _ Hn' Hin Hq).
    + intros (Hle & t & Hts & <-). split; [by exists t|].
      destruct (inv_live _ _ _ Hinv s t Hts) as [_ Hin]. cbn in Hin.
      by apply (Hdue (expiration_time_ t, s)).
  - done.
  - done.
  - rewrite (run_expired_skip live); [done|]. apply list.Forall_forall. intros e He Hnl.
    split; rewrite ?get_put_timers, ?counter_put_timers.
    + rewrite Ht. by apply eq_None_not_Some.
    + apply (proj1 (list.Forall_forall _ _) Hb'). apply elem_of_app. by left.
  - destruct (run_expired_returns expired (put_timers q' w)) as [w' ->]. cbn. by eexists.
Qed.

(** The fate of a timer whose turn has come.  If its callback cancelled it,
    it stays cancelled; otherwise a repeating timer is queued again at the time
    after its callback plus its interval, strictly later, and a one-shot timer
    is gone. *)
Theorem fired_timer_fate (w w1 : W) (tp s : Z) (t : Timer F) (rest : list Entry) :
  world_inv ((tp, s) :: rest) w -> timers_ (get_timers w) !! s = Some t ->
  callback (cb_ t) w = Ok w1 ->
  exists w2, run_expired callback ((tp, s) :: rest) w = run_expired callback rest w2 /\
    world_inv rest w2 /\
    match timers_ (get_timers w1) !! s with
    | None => timers_ (get_timers w2) !! s = None
    | Some t1 =>
        if 0 <? interval_ t1
        then exists next, next = clock w1 + interval_ t1 * 1000000 /\ clock w1 < next /\
               (next, s) ∈ timer_queue_ (get_timers w2) /\
               timers_ (get_timers w2) !! s
               = Some (mkTimer next (interval_ t1) (cb_ t1) (sequence_ t1))
        else timers_ (get_timers w2) !! s = None /\
             forall next, (next, s) ∉ timer_queue_ (get_timers w2)
    end.
Proof.
  intros Hinv Ht Hc.
  assert (Hinv1 : world_inv ((tp, s) :: rest) w1)
    by (eapply timer_calls_inv; [by eapply respects|done]).
  exists (on_timers (finish_timer (clock w1) s) w1).
  split_and!; [cbn; by rewrite Ht, Hc| |].
  { by apply (finish_world_inv rest tp s). }
  unfold on_timers. rewrite get_put_timers. unfold finish_timer, isRepeated.
  destruct (timers_ (get_timers w1) !! s) as [t1|] eqn:E1; [|done].
  destruct (Z.ltb_spec 0 (interval_ t1)) as [Hi|Hi].
  - unfold restart, isRepeated. rewrite (proj2 (Z.ltb_lt _ _) Hi). cbn.
    exists (clock w1 + interval_ t1 * ns_per_ms). split_and!; [done|unfold ns_per_ms; lia| |].
    + rewrite emplace_perm. by constructor.
    + by rewrite lookup_insert_eq.
  - cbn. split; [apply lookup_delete_eq|]. intros next Hin.
    pose proof (inv_nodup _ _ _ Hinv1) as Hn. unfold entries in Hn. cbn in Hn.
    apply list.NoDup_cons in Hn as [Hn _]. apply Hn, list_elem_of_fmap.
    exists (next, s). split; [done|]. apply elem_of_app. by right.
Qed.

Lemma run_expired_clockwork w w' : world_inv [] w ->
  handleExpiredTimers_ callback w = Ok w' ->
  world_inv [] w' /\ (timerfd_readable w = true -> armed (get_timers w')).
Proof.
  intros Hinv. unfold handleExpiredTimers_. destruct (timerfd_readable w); cbn [negb].
  2: { intros H. by injection H as <-. }
  pose proof (popped_inv w Hinv) as Hp. destruct (getExpiredTimers_ _ _) as [expired q'].
  destruct Hp as [Hinv' _]. intros H. inv_ok.
  match goal with Hr : run_expired _ _ _ = Ok _ |- _ => apply run_expired_inv in Hr; [|done] end.
  unfold world_inv, on_timers in *. rewrite get_put_timers, counter_put_timers.
  split; [by apply resetTimerFd_inv|]. intros _. apply resetTimerFd_armed.
Qed.

(** What a timer task of the loop's queue needs: an added timer has a sequence
    number drawn once, which is not in the queue, and its own time. *)
Definition task_ok (task : TimerTask F) (w : W) : Prop :=
  match task with
  | AddTask s tp t => sequence_ t = s /\ expiration_time_ t = tp /\ s < counter_ w /\
                      s ∉ (timer_queue_ (get_timers w)).*2
  | _ => True
  end.

End TimerTheorems.

(** C40: the timerfd is programmed with the exact time: seconds and nanoseconds
    recompose it and the nanoseconds are below a second.  The one time that
    disarms the timerfd is 0, so adding a timer for time 0 stops every timer of
    the queue until another reset. *)
Theorem resetTimerFd_exact {F} (q : TimerQueue F) (tp s : Z) (l : list Entry) :
  timer_queue_ q = (tp, s) :: l -> 0 <= tp ->
  (exists seconds nanoseconds, timer_spec (resetTimerFd_ q) = (seconds, nanoseconds) /\
    seconds * 1000000000 + nanoseconds = tp /\ 0 <= seconds /\
    0 <= nanoseconds < 1000000000) /\
  (timer_spec (resetTimerFd_ q) = (0, 0) <-> tp = 0) /\
  forall s' t, timer_spec (addTimerInLoop s' 0 t q) = (0, 0).
Proof.
  intros Hq Hpos. unfold resetTimerFd_. rewrite Hq. cbn [timer_spec set_spec].
  assert (Hs : 0 < ns_per_s) by reflexivity. unfold split_time.
  rewrite Z.quot_div_nonneg by lia.
  pose proof (Z.mod_pos_bound tp ns_per_s Hs). pose proof (Z.div_mod tp ns_per_s ltac:(lia)).
  pose proof (Z.div_pos tp ns_per_s Hpos Hs).
  split_and!.
  - eexists _, _. split; [done|]. unfold ns_per_s in *. lia.
  - split; [|by intros ->]. intros E. injection E as E1 E2. rewrite E1 in E2. lia.
  - intros s' t. unfold addTimerInLoop. cbn [timer_queue_ set_queue set_timers].
    rewrite Hq. cbn. case_decide as Hd; cbn; [done|].
    destruct (Z.eqb_spec 0 tp) as [<-|Hne]; [done|].
    destruct Hd. left. cbn. lia.
Qed.

(** ** A world with two timers due and one to come *)
Record DemoTimers := mkDemoTimers {
  demo_timers : TimerQueue Z;
  demo_counter : Z;
  demo_fired : list Z;
}.

#[global] Instance demo_timer_world : TimerWorld DemoTimers Z := {
  get_timers := demo_timers;
  put_timers q w := mkDemoTimers q (demo_counter w) (demo_fired w);
  clock _ := 5000000000;
  counter_ := demo_counter;
  put_counter n w := mkDemoTimers (demo_timers w) n (demo_fired w);
  timerfd_readable _ := true;
}.

#[global] Instance demo_timer_world_laws : TimerWorldLaws DemoTimers Z.
Proof. by split. Qed.

(** The callback [n] logs itself and cancels timer [n]. *)
Definition demo_callback (n : Z) (w : DemoTimers) : outcome DemoTimers :=
  Ok (on_timers (cancelTimerInLoop n)
        (mkDemoTimers (demo_timers w) (demo_counter w) (demo_fired w ++ [n]))).

Lemma demo_callback_respects n w w' : demo_callback n w = Ok w' -> timer_calls w w'.
Proof. intros H. injection H as <-. apply rtc_once. by apply (call_cancel _ _ n). Qed.

Lemma demo_callback_returns n w : exists w', demo_callback n w = Ok w'.
Proof. by eexists. Qed.

Definition demo_empty : DemoTimers := mkDemoTimers (mkTimerQueue [] ∅ (0, 0)) 0 [].

(** Timer 0 at 4s repeats each second and cancels 1; timer 1 at 4.5s; timer 2
    at 3s cancels a timer that does not exist; timer 3 at 9s. *)
Definition demo_add (t : Timer Z) (q : TimerQueue Z) : TimerQueue Z :=
  addTimerInLoop (sequence_ t) (expiration_time_ t) t q.
Definition demo_timer3 : Timer Z := mkTimer 9000000000 0 9 3.
Definition demo_queue : TimerQueue Z :=
  foldr demo_add (get_timers demo_empty)
    [mkTimer 3000000000 0 7 2; mkTimer 4500000000 0 8 1; mkTimer 4000000000 1000 1 0].
Definition demo_three : DemoTimers := mkDemoTimers demo_queue 4 [].
Definition demo_four : DemoTimers := mkDemoTimers (demo_add demo_timer3 demo_queue) 4 [].

Lemma demo_add_inv t q : inv [] q 4 ->
  bool_decide ((sequence_ t ∉ (timer_queue_ q).*2) /\ sequence_ t < 4) = true ->
  inv [] (demo_add t q) 4.
Proof. intros Hq [? ?]%bool_decide_eq_true. by apply addTimerInLoop_inv. Qed.

Lemma demo_three_inv : world_inv [] demo_three.
Proof.
  unfold world_inv, demo_three, demo_queue. cbn [get_timers counter_ demo_timer_world
    demo_timers demo_counter foldr].
  do 3 (apply demo_add_inv; [|vm_compute; reflexivity]).
  split; cbn; [constructor| |constructor|constructor].
  intros s t H. by rewrite lookup_empty in H.
Qed.

Lemma demo_four_inv : world_inv [] demo_four.
Proof.
  unfold world_inv, demo_four. cbn [get_timers counter_ demo_timer_world demo_timers
    demo_counter]. apply demo_add_inv; [exact demo_three_inv|vm_compute; reflexivity].
Qed.

Lemma handleExpired_fires_due_witness :
  exists w', handleExpiredTimers_ demo_callback demo_four = Ok w' /\
    demo_fired w' = [7; 1] /\ timer_queue_ (get_timers w') = [(6000000000, 0); (9000000000, 3)].
Proof.
  destruct (handleExpired_fires_due demo_callback demo_callback_respects
    demo_callback_returns demo_four demo_four_inv eq_refl)
    as (due & q' & _ & _ & _ & _ & _ & _ & w' & E).
  exists w'. split; [exact E|]. vm_compute in E. injection E as <-. by split.
Defined.

Lemma fired_timer_fate_witness :
  exists w2, run_expired demo_callback [(3000000000, 2)] 
      (on_timers (set_queue []) (mkDemoTimers (demo_add (mkTimer 3000000000 0 7 2)
        (get_timers demo_empty)) 4 [])) = Ok w2 /\
    timers_ (get_timers w2) !! 2 = None.
Proof.
  destruct (fired_timer_fate demo_callback demo_callback_respects
    (on_timers (set_queue []) (mkDemoTimers (demo_add (mkTimer 3000000000 0 7 2)
        (get_timers demo_empty)) 4 []))
    (mkDemoTimers (set_queue [] (demo_add (mkTimer 3000000000 0 7 2)
        (get_timers demo_empty))) 4 [7])
    3000000000 2 (mkTimer 3000000000 0 7 2) []) as (w2 & E & _ & H).
  - eapply (inv_entries [] (demo_add (mkTimer 3000000000 0 7 2) (get_timers demo_empty)));
      [|constructor|done|done].
    apply demo_add_inv; [|vm_compute; reflexivity].
    split; cbn; [constructor| |constructor|constructor].
    intros s t H. by rewrite lookup_empty in H.
  - reflexivity.
  - reflexivity.
  - exists w2. split; [exact E|]. vm_compute in H. apply H.
Defined.


Lemma resetTimerFd_exact_witness :
  timer_spec (resetTimerFd_ (mkTimerQueue (F := Z) [(4500000000, 1)] ∅ (0, 0))) = (4, 500000000) /\
  timer_spec (addTimerInLoop 2 0 (mkTimer 0 0 7 2)
    (mkTimerQueue (F := Z) [(4500000000, 1)] ∅ (4, 500000000))) = (0, 0).
Proof.
  split; [vm_compute; reflexivity|].
  apply (proj2 (proj2 (resetTimerFd_exact
    (mkTimerQueue (F := Z) [(4500000000, 1)] ∅ (4, 500000000)) 4500000000 1 []
    eq_refl ltac:(lia)))).
Defined.
