(* ===== verification/InetAddress.v ===== *)
(** * InetAddress: net/InetAddress.hpp and net/InetAddress.cpp

    An IPv4 address and port as a [sockaddr_in], the port in network order.  The
    C library's text conversions are the class [InetText]. *)
From Stdlib Require Import ZArith Lia List String.
From stdpp Require Import base option list numbers strings pretty tactics.
From S2P Require Import Prelude.
From S2P Require Import Endian.
Open Scope Z_scope.

(** inet_pton(3) and inet_ntop(3) on AF_INET: the 32 bits of [s_addr]. *)
Class InetText := {
  inet_pton : string -> option Z;
  inet_ntop : Z -> string;
}.

(** What inet_ntop writes, inet_pton reads back. *)
Class InetTextOk `{InetText} := {
  pton_ntop : forall a, 0 <= a < 2 ^ 32 -> inet_pton (inet_ntop a) = Some a;
  ntop_pton : forall ip a, inet_pton ip = Some a -> 0 <= a < 2 ^ 32;
}.

Definition AF_INET : Z := 2.

Record sockaddr_in := mkSockaddr {
  sin_family : Z;
  sin_port : Z;
  s_addr : Z;
}.

Section InetAddress.
Context `{InetText}.

(** An address that does not parse is reported and left as zero. *)
Definition make_InetAddress (ip : string) (port : Z) : sockaddr_in :=
  mkSockaddr AF_INET (htons port)
    match inet_pton ip with Some a => a | None => 0 end.

Definition InetAddress_of_port (port : Z) : sockaddr_in := make_InetAddress "0.0.0.0" port.

Definition toIp (addr : sockaddr_in) : string := inet_ntop (s_addr addr).
Definition toPort (addr : sockaddr_in) : Z := ntohs (sin_port addr).
Definition toIpPort (addr : sockaddr_in) : string :=
  (toIp addr ++ ":" ++ pretty (toPort addr))%string.

Context {Ok : InetTextOk}.

(** The address of a [sockaddr_in] and the port survive the way through the
    constructor: the port in full, the text of an address as the canonical text
    of the same address.  A text that is not an address is not refused: the
    result is 0.0.0.0 with the given port, which a server then listens on. *)
Theorem address_roundtrip (ip : string) (port : Z) :
  0 <= port < 2 ^ 16 ->
  toPort (make_InetAddress ip port) = port /\
  (forall a, 0 <= a < 2 ^ 32 -> toIp (make_InetAddress (inet_ntop a) port) = inet_ntop a) /\
  (forall a, inet_pton ip = Some a ->
   inet_pton (toIp (make_InetAddress ip port)) = Some a) /\
  (inet_pton ip = None -> inet_pton "0.0.0.0" = Some 0 ->
   make_InetAddress ip port = InetAddress_of_port port).
Proof.
  intros Hp. unfold toPort, toIp, InetAddress_of_port, make_InetAddress. cbn. split_and!.
  - by apply ntohs_htons.
  - intros a Ha. by rewrite pton_ntop.
  - intros a Ha. rewrite Ha. apply pton_ntop. by apply (ntop_pton ip).
  - intros -> ->. done.
Qed.
End InetAddress.

(** Texts of four characters, the bytes of the address, for the sake of a
    witness; and the wildcard. *)
Definition byte_char (a k : Z) : Ascii.ascii := Ascii.ascii_of_N (Z.to_N (a / 2 ^ k mod 2 ^ 8)).
Definition char_byte (c : Ascii.ascii) : Z := Z.of_N (Ascii.N_of_ascii c).

Definition raw_ntop (a : Z) : string :=
  String (byte_char a 0) (String (byte_char a 8)
    (String (byte_char a 16) (String (byte_char a 24) EmptyString))).

Definition raw_pton (ip : string) : option Z :=
  match ip with
  | String c0 (String c1 (String c2 (String c3 EmptyString))) =>
      Some (char_byte c0 + char_byte c1 * 2 ^ 8 + char_byte c2 * 2 ^ 16 + char_byte c3 * 2 ^ 24)
  | _ => if decide (ip = "0.0.0.0"%string) then Some 0 else None
  end.

Definition raw_text : InetText := {| inet_pton := raw_pton; inet_ntop := raw_ntop |}.

Lemma char_byte_char a k : char_byte (byte_char a k) = a / 2 ^ k mod 2 ^ 8.
Proof.
  unfold char_byte, byte_char. pose proof (Z.mod_pos_bound (a / 2 ^ k) (2 ^ 8) ltac:(lia)).
  rewrite Ascii.N_ascii_embedding by lia. lia.
Qed.

Lemma char_byte_range c : 0 <= char_byte c < 2 ^ 8.
Proof. unfold char_byte. pose proof (Ascii.N_ascii_bounded c). lia. Qed.

Lemma raw_text_ok : InetTextOk (H := raw_text).
Proof.
  split.
  - intros a Ha. cbn [inet_pton inet_ntop raw_text raw_pton raw_ntop]. f_equal.
    rewrite !char_byte_char. rewrite Z.pow_0_r, Z.div_1_r.
    replace (2 ^ 16) with (2 ^ 8 * 2 ^ 8) by done. replace (2 ^ 24) with (2 ^ 8 * 2 ^ 8 * 2 ^ 8) by done.
    rewrite <- !Z.div_div by lia.
    pose proof (Z.div_mod a (2 ^ 8) ltac:(lia)).
    pose proof (Z.div_mod (a / 2 ^ 8) (2 ^ 8) ltac:(lia)).
    pose proof (Z.div_mod (a / 2 ^ 8 / 2 ^ 8) (2 ^ 8) ltac:(lia)).
    assert (0 <= a / 2 ^ 8 / 2 ^ 8 / 2 ^ 8 < 2 ^ 8).
    { rewrite !Z.div_div by lia. split; [apply Z.div_pos; lia|]. apply Z.div_lt_upper_bound; lia. }
    rewrite (Z.mod_small (a / 2 ^ 8 / 2 ^ 8 / 2 ^ 8)) by lia. lia.
  - intros ip a Ha. cbn [inet_pton raw_text] in Ha. unfold raw_pton in Ha.
    destruct ip as [|c0 [|c1 [|c2 [|c3 [|c4 ip]]]]];
      try (destruct (decide _); [injection Ha as <-; lia|discriminate]).
    injection Ha as <-.
    pose proof (char_byte_range c0). pose proof (char_byte_range c1).
    pose proof (char_byte_range c2). pose proof (char_byte_range c3). lia.
Qed.

Lemma address_roundtrip_witness :
  toPort (make_InetAddress (H := raw_text) "abcd" 8080) = 8080 /\
  make_InetAddress (H := raw_text) "localhost" 8080 = InetAddress_of_port (H := raw_text) 8080.
Proof.
  destruct (address_roundtrip (H := raw_text) (Ok := raw_text_ok) "localhost" 8080 ltac:(lia))
    as (_ & _ & _ & Hw).
  split; [|by apply Hw].
  apply (proj1 (address_roundtrip (H := raw_text) (Ok := raw_text_ok) "abcd" 8080 ltac:(lia))).
Defined.
