(* ===== verification/Socket.v ===== *)
(** * Socket: net/Socket.hpp and net/Socket.cpp

    A [Socket] owns a descriptor: it is adopted or created by a constructor,
    moves from object to object, and is closed by the object that holds it last.
    The state is the [Socket] objects by address, and the descriptors obtained
    and closed so far, in order.  The other methods are system calls on the
    descriptor: they are given on it, over the class [SocketCalls], and used by
    Acceptor, TcpConnection and TcpClient. *)
From Stdlib Require Import ZArith Lia List.
From stdpp Require Import base option list numbers gmap fin_maps tactics.
From S2P Require Import Prelude.
From S2P Require Import InetAddress.
Open Scope Z_scope.
Open Scope outcome_scope.

Definition INVALID_FD : Z := -1.

Record Sockets := mkSockets {
  objects : gmap Z Z;        (** [socket_fd_] of each [Socket] *)
  obtained : list Z;
  closed : list Z;
}.

Definition no_sockets : Sockets := mkSockets ∅ [] [].

Definition getFd (this : Z) (s : Sockets) : outcome Z :=
  match objects s !! this with Some fd => Ok fd | None => Undef end.

Definition valid (fd : Z) : bool := negb (fd =? INVALID_FD).

Definition put_fd (this fd : Z) (s : Sockets) : Sockets :=
  mkSockets (<[this := fd]> (objects s)) (obtained s) (closed s).

Definition invalidate (this : Z) (s : Sockets) : Sockets := put_fd this INVALID_FD s.

(** A descriptor the kernel gave, held by the new object [this]. *)
Definition adopt (this fd : Z) (s : Sockets) : Sockets :=
  mkSockets (<[this := fd]> (objects s))
    (if valid fd then obtained s ++ [fd] else obtained s) (closed s).

(** [close(2)]. *)
Definition close (fd : Z) (s : Sockets) : Sockets :=
  mkSockets (objects s) (obtained s) (closed s ++ [fd]).

(** [Socket(int)]. *)
Definition make_Socket (this fd : Z) (s : Sockets) : outcome Sockets :=
  match objects s !! this with Some _ => Undef | None => Ok (adopt this fd s) end.

(** [Socket()]; [fd] is what [socket(2)] returned. *)
Definition create_Socket (this fd : Z) (s : Sockets) : outcome Sockets :=
  if fd =? -1 then Abort else make_Socket this fd s.

(** [Socket(Socket&& other)]. *)
Definition move_Socket (this other : Z) (s : Sockets) : outcome Sockets :=
  match objects s !! this with
  | Some _ => Undef
  | None => let! fd := getFd other s in Ok (invalidate other (put_fd this fd s))
  end.

(** [operator=(Socket&& other)]. *)
Definition assign_Socket (this other : Z) (s : Sockets) : outcome Sockets :=
  if decide (this = other) then Ok s else
  let! fd := getFd this s in
  let s := if valid fd then close fd s else s in
  let! fd := getFd other s in
  Ok (invalidate other (put_fd this fd s)).

(** [accept]: [conn_fd] is what [accept4] returned; the caller's new object is
    [this]. *)
Definition accept (listener this conn_fd : Z) (s : Sockets) : outcome Sockets :=
  let! _ := getFd listener s in
  if 0 <=? conn_fd then make_Socket this conn_fd s else make_Socket this INVALID_FD s.

Definition destroy_Socket (this : Z) (s : Sockets) : outcome Sockets :=
  let! fd := getFd this s in
  let s := if valid fd then close fd s else s in
  Ok (mkSockets (delete this (objects s)) (obtained s) (closed s)).

(** ** System calls on the descriptor

    A call answers [None] for 0 and [Some errno] for -1. *)
Class SocketCalls (W : Type) := {
  sys_setsockopt : Z -> Z -> Z -> Z -> W -> option Z * W;    (** level, name, value *)
  sys_bind : Z -> sockaddr_in -> W -> option Z * W;
  sys_listen : Z -> Z -> W -> option Z * W;
  sys_connect : Z -> sockaddr_in -> W -> option Z * W;
  sys_accept4 : Z -> W -> Z * sockaddr_in * W;               (** the descriptor or -1 *)
  sys_getsockname : Z -> W -> option sockaddr_in;
  sys_getpeername : Z -> W -> option sockaddr_in;
  sys_getsockopt_error : Z -> W -> (Z + Z) * W;              (** errno, or SO_ERROR *)
  sys_shutdown : Z -> Z -> W -> option Z * W;
  sys_close : Z -> W -> W;
}.

Definition SOL_SOCKET : Z := 1.
Definition SO_REUSEADDR : Z := 2.
Definition SO_KEEPALIVE : Z := 9.
Definition SO_REUSEPORT : Z := 15.
Definition IPPROTO_TCP : Z := 6.
Definition TCP_NODELAY : Z := 1.
Definition SOMAXCONN : Z := 4096.
Definition SHUT_RDWR : Z := 2.

Section Calls.
Context {W : Type} `{SC : !SocketCalls W}.
Implicit Types (fd : Z) (w : W).

Definition optval (on : bool) : Z := if on then 1 else 0.

(** A failure of these is only logged, or not even that. *)
Definition setTcpNoDelay fd (on : bool) w : W :=
  (sys_setsockopt fd IPPROTO_TCP TCP_NODELAY (optval on) w).2.
Definition setKeepAlive fd (on : bool) w : W :=
  (sys_setsockopt fd SOL_SOCKET SO_KEEPALIVE (optval on) w).2.
(** The overload without an argument. *)
Definition setKeepAlive_on fd w : W := (sys_setsockopt fd SOL_SOCKET SO_KEEPALIVE 1 w).2.
Definition setReuseAddr fd w : W := (sys_setsockopt fd SOL_SOCKET SO_REUSEADDR 1 w).2.
Definition setReusePort fd w : W := (sys_setsockopt fd SOL_SOCKET SO_REUSEPORT 1 w).2.
Definition shutdownWrite fd w : W := (sys_shutdown fd SHUT_RDWR w).2.

Definition bindAddress fd (addr : sockaddr_in) w : outcome W :=
  match sys_bind fd addr w with (None, w) => Ok w | (Some _, _) => Abort end.

Definition listen fd w : outcome W :=
  match sys_listen fd SOMAXCONN w with (None, w) => Ok w | (Some _, _) => Abort end.

(** Returns the errno, 0 for success. *)
Definition connect fd (addr : sockaddr_in) w : Z * W :=
  let '(r, w) := sys_connect fd addr w in (default 0 r, w).

(** The descriptor of the [Socket] that [accept] returns, and the address it
    stores in its argument. *)
Definition accept_fd fd w : Z * sockaddr_in * W :=
  let '(conn_fd, peer, w) := sys_accept4 fd w in
  (if 0 <=? conn_fd then conn_fd else INVALID_FD, peer, w).

(** The structure is cleared before the call. *)
Definition getLocalAddress fd w : sockaddr_in :=
  match sys_getsockname fd w with Some addr => addr | None => mkSockaddr 0 0 0 end.

(** Here it is not: after a failure its members are read uninitialised. *)
Definition getPeerAddress fd w : outcome sockaddr_in :=
  match sys_getpeername fd w with Some addr => Ok addr | None => Undef end.

Definition getSocketError fd w : Z * W :=
  let '(r, w) := sys_getsockopt_error fd w in
  (match r with inl errno => errno | inr optval => optval end, w).

(** [~Socket]. *)
Definition close_fd fd w : W := if valid fd then sys_close fd w else w.
End Calls.

(** ** Histories *)
Inductive sock_op : Type :=
| OpMake (this fd : Z)
| OpCreate (this fd : Z)
| OpMove (this other : Z)
| OpAssign (this other : Z)
| OpAccept (listener this conn_fd : Z)
| OpDestroy (this : Z).

Definition run_sock_op (o : sock_op) (s : Sockets) : outcome Sockets :=
  match o with
  | OpMake this fd => make_Socket this fd s
  | OpCreate this fd => create_Socket this fd s
  | OpMove this other => move_Socket this other s
  | OpAssign this other => assign_Socket this other s
  | OpAccept listener this conn_fd => accept listener this conn_fd s
  | OpDestroy this => destroy_Socket this s
  end.

Fixpoint run_sock_ops (os : list sock_op) (s : Sockets) : outcome Sockets :=
  match os with
  | [] => Ok s
  | o :: os => let! s := run_sock_op o s in run_sock_ops os s
  end.

(** The descriptors some object holds. *)
Definition fds_of (m : gmap Z Z) : list Z := filter (fun fd => fd <> INVALID_FD) (map_to_list m).*2.
Definition held (s : Sockets) : list Z := fds_of (objects s).

(** A descriptor the kernel gives is not in use. *)
Definition sock_op_ok (o : sock_op) (s : Sockets) : Prop :=
  match o with
  | OpMake _ fd | OpCreate _ fd | OpAccept _ _ fd => fd ∉ held s
  | _ => True
  end.

Fixpoint sock_ops_ok (os : list sock_op) (s : Sockets) : Prop :=
  match os with
  | [] => True
  | o :: os => sock_op_ok o s /\ forall s', run_sock_op o s = Ok s' -> sock_ops_ok os s'
  end.

Definition accounted (s : Sockets) : Prop :=
  obtained s ≡ₚ closed s ++ held s /\ NoDup (held s).

Definition one (fd : Z) : list Z := if valid fd then [fd] else [].

Lemma fds_insert m this fd : m !! this = None ->
  fds_of (<[this := fd]> m) ≡ₚ one fd ++ fds_of m.
Proof.
  intros Hm. unfold fds_of. rewrite (map_to_list_insert m this fd Hm). cbn [fmap list_fmap fst snd].
  rewrite filter_cons. unfold one, valid. unfold INVALID_FD.
  destruct (Z.eqb_spec fd (-1)) as [->|Hne]; cbn [negb].
  - rewrite decide_False by (intros H; by apply H). done.
  - by rewrite decide_True.
Qed.

Lemma fds_delete m this fd : m !! this = Some fd ->
  fds_of m ≡ₚ one fd ++ fds_of (delete this m).
Proof.
  intros Hm. rewrite <- (fds_insert (delete this m) this fd) by apply lookup_delete_eq.
  by rewrite insert_delete_id.
Qed.

Lemma fds_update m this old fd : m !! this = Some old ->
  one old ++ fds_of (<[this := fd]> m) ≡ₚ one fd ++ fds_of m.
Proof.
  intros Hm. rewrite (fds_delete m this old Hm).
  rewrite <- (insert_delete_eq m this fd), fds_insert by apply lookup_delete_eq.
  rewrite !app_assoc. apply Permutation_app_tail, Permutation_app_comm.
Qed.

Lemma adopt_accounted this fd s : objects s !! this = None ->
  fd ∉ held s -> accounted s -> accounted (adopt this fd s).
Proof.
  intros Hm Hfd [Ho Hn]. unfold accounted, held, adopt in *. cbn [objects obtained closed].
  rewrite (fds_insert _ this fd Hm). unfold one. destruct (valid fd); cbn [app]; [|done].
  split; [|by constructor].
  rewrite Ho. rewrite <- app_assoc. apply Permutation_app_head.
  symmetry. apply Permutation_cons_append.
Qed.

Lemma invalid_not_held s : INVALID_FD ∉ held s.
Proof. unfold held, fds_of. rewrite list_elem_of_filter. by intros [? _]. Qed.

Lemma close_one fd s : closed (if valid fd then close fd s else s) = closed s ++ one fd.
Proof. unfold one, close. destruct (valid fd); [done|by rewrite app_nil_r]. Qed.

Lemma close_objects fd s : objects (if valid fd then close fd s else s) = objects s /\
  obtained (if valid fd then close fd s else s) = obtained s.
Proof. by destruct (valid fd). Qed.

Lemma moved_fds m this other fd : this <> other -> m !! other = Some fd ->
  one fd ++ fds_of (<[other := INVALID_FD]> (<[this := fd]> m)) ≡ₚ fds_of (<[this := fd]> m).
Proof.
  intros Hne Ho. rewrite (fds_update _ other fd INVALID_FD); [done|].
  by rewrite lookup_insert_ne.
Qed.

Lemma sock_op_accounted o s s' : sock_op_ok o s -> run_sock_op o s = Ok s' ->
  accounted s -> accounted s'.
Proof.
  intros Hok H Hacc. pose proof Hacc as [Ho Hn]. unfold held in *.
  assert (Hmake : forall this fd, fd ∉ held s -> make_Socket this fd s = Ok s' -> accounted s').
  { intros this fd Hfd E. unfold make_Socket in E. destruct (objects s !! this) eqn:Em; [done|].
    injection E as <-. by apply adopt_accounted. }
  destruct o as [this fd|this fd|this other|this other|listener this fd|this]; cbn in H, Hok.
  - by apply (Hmake this fd).
  - unfold create_Socket in H. destruct (fd =? -1); [done|]. by apply (Hmake this fd).
  - unfold move_Socket, getFd in H. destruct (objects s !! this) eqn:Et; [done|].
    destruct (objects s !! other) as [fd|] eqn:Eo; [|done]. injection H as <-.
    unfold accounted, held, invalidate, put_fd. cbn [objects obtained closed].
    assert (Hp : fds_of (<[other := INVALID_FD]> (<[this := fd]> (objects s))) ≡ₚ fds_of (objects s)).
    { apply (Permutation_app_inv_l (one fd)). rewrite moved_fds by congruence || done.
      by apply fds_insert. }
    by rewrite Hp.
  - unfold assign_Socket in H. destruct (decide (this = other)) as [|Hne]; [by injection H as <-|].
    unfold getFd in H. destruct (objects s !! this) as [old|] eqn:Et; [|done].
    cbn [mbind outcome_bind] in H.
    destruct (close_objects old s) as [E1 E2]. rewrite E1 in H.
    destruct (objects s !! other) as [fd|] eqn:Eo; [|done]. injection H as <-.
    unfold accounted, held, invalidate, put_fd. cbn [objects obtained closed].
    rewrite E1, E2, close_one.
    assert (Hp : one old ++ fds_of (<[other := INVALID_FD]> (<[this := fd]> (objects s)))
      ≡ₚ fds_of (objects s)).
    { apply (Permutation_app_inv_l (one fd)). rewrite <- (fds_update _ this old fd Et).
      rewrite <- (moved_fds _ this other fd) by done.
      rewrite !app_assoc. apply Permutation_app_tail, Permutation_app_comm. }
    rewrite <- app_assoc, Hp. split; [done|].
    rewrite <- Hp in Hn. by apply list.NoDup_app in Hn as (_ & _ & Hn).
  - unfold accept, getFd in H. destruct (objects s !! listener); [|done]. cbn in H.
    destruct (0 <=? fd); [by apply (Hmake this fd)|].
    apply (Hmake this INVALID_FD); [apply invalid_not_held|done].
  - unfold destroy_Socket, getFd in H. destruct (objects s !! this) as [fd|] eqn:Et; [|done].
    injection H as <-. destruct (close_objects fd s) as [E1 E2].
    unfold accounted, held. cbn [objects obtained closed]. rewrite E1, E2, close_one.
    rewrite (fds_delete _ this fd Et) in Ho, Hn. rewrite <- app_assoc. split; [done|].
    by apply list.NoDup_app in Hn as (_ & _ & Hn).
Qed.

(** C31: descriptors are neither leaked nor closed twice.  After any history of
    [Socket] objects being constructed, moved, assigned, accepted and destroyed,
    the descriptors obtained are, each as often, those closed and those held by
    a live object, and no two objects hold the same; so once no object is left,
    every descriptor has been closed exactly once. *)
Theorem descriptors_closed_once (os : list sock_op) (s : Sockets) :
  sock_ops_ok os no_sockets -> run_sock_ops os no_sockets = Ok s ->
  obtained s ≡ₚ closed s ++ held s /\ NoDup (held s) /\
  (objects s = ∅ -> obtained s ≡ₚ closed s).
Proof.
  assert (Hrun : forall os s0, accounted s0 -> sock_ops_ok os s0 ->
    forall s, run_sock_ops os s0 = Ok s -> accounted s).
  { clear. induction os as [|o os IH]; intros s0 Hacc Hok s H; cbn in H.
    - by injection H as <-.
    - destruct Hok as [Ho Hok]. destruct (run_sock_op o s0) as [s1| |] eqn:E; try done.
      eapply (IH s1); [by eapply sock_op_accounted|by apply Hok|done]. }
  intros Hok H. destruct (Hrun os no_sockets) with (s := s) as [Ho Hn]; try done.
  { split; [done|]. constructor. }
  split_and!; [done|done|]. intros He. rewrite Ho. unfold held. rewrite He.
  unfold fds_of. by rewrite map_to_list_empty, app_nil_r.
Qed.

(** A listening socket accepts one connection, moved into its owner's object,
    and both are destroyed; a failed accept holds nothing. *)
Definition demo_sock_ops : list sock_op :=
  [OpCreate 1 5; OpAccept 1 2 6; OpMove 3 2; OpAccept 1 4 (-1); OpAssign 2 4;
   OpDestroy 2; OpDestroy 4; OpDestroy 3; OpDestroy 1].

Lemma descriptors_closed_once_witness :
  exists s, run_sock_ops demo_sock_ops no_sockets = Ok s /\ obtained s ≡ₚ closed s.
Proof.
  eexists. split; [vm_compute; reflexivity|].
  refine (proj2 (proj2 (descriptors_closed_once demo_sock_ops _ _ eq_refl)) eq_refl).
  cbn [sock_ops_ok demo_sock_ops sock_op_ok].
  repeat (split; [first [exact I | apply (bool_decide_unpack _); vm_compute; exact I]|];
          intros ? H; vm_compute in H; injection H as <-).
  exact I.
Defined.
