(* ===== verification/TcpConnection.v ===== *)
(** * TcpConnection: net/TcpConnection.hpp and net/TcpConnection.cpp

    One accepted or connected socket: its state, its channel in the loop it
    belongs to, and the buffers on both sides.  [U] is the type of the user's
    callbacks.  The socket calls of the kernel are the class [SocketKernel]; the
    bytes it has accepted for a descriptor are [wire]. *)
From Stdlib Require Import ZArith Lia List String.
From stdpp Require Import base option list numbers gmap relations strings tactics.
From S2P Require Import Prelude.
From S2P Require Import Buffer.
From S2P Require Import Channel.
From S2P Require Import PollerBase.
From S2P Require Import EventLoop.
From S2P Require Import InetAddress.
From S2P Require Socket.
From S2P Require Poller.
Open Scope Z_scope.
Open Scope outcome_scope.

Inductive State : Type := Connecting | Connected | Disconnected | Disconnecting.

#[global] Instance State_eq_dec : EqDecision State.
Proof. solve_decision. Defined.

(** [std::any]: the type it holds and the value, by their identities. *)
Record any := mkAny { any_type : Z; any_value : Z }.

Record TcpConnection (U : Type) := mkTcpConnection {
  home_ : LoopId;                        (** [loop_] *)
  name_ : string;
  state_ : State;
  socket_ : Z;                           (** the descriptor of [*socket_] *)
  channel_ : ChanId;                     (** the address of [*channel_] *)
  local_address_ : sockaddr_in;
  peer_address_ : sockaddr_in;
  receive_buffer_ : Buffer;
  send_buffer_ : Buffer;
  message_callback_ : option U;
  connection_callback_ : option U;
  high_water_mark_ : Z;
  high_water_callback_ : option U;
  write_complete_callback_ : option U;
  close_callback_ : option U;
  context_ : option any;
}.
Arguments mkTcpConnection {U}.
Arguments home_ {U}.
Arguments name_ {U}.
Arguments state_ {U}.
Arguments socket_ {U}.
Arguments channel_ {U}.
Arguments local_address_ {U}.
Arguments peer_address_ {U}.
Arguments receive_buffer_ {U}.
Arguments send_buffer_ {U}.
Arguments message_callback_ {U}.
Arguments connection_callback_ {U}.
Arguments high_water_mark_ {U}.
Arguments high_water_callback_ {U}.
Arguments write_complete_callback_ {U}.
Arguments close_callback_ {U}.
Arguments context_ {U}.

Section Fields.
Context {U : Type}.
Implicit Types c : TcpConnection U.

Definition setState (s : State) c : TcpConnection U :=
  mkTcpConnection (home_ c) (name_ c) s (socket_ c) (channel_ c) (local_address_ c)
    (peer_address_ c) (receive_buffer_ c)
    (send_buffer_ c) (message_callback_ c) (connection_callback_ c) (high_water_mark_ c)
    (high_water_callback_ c) (write_complete_callback_ c) (close_callback_ c) (context_ c).
Definition set_receive_buffer (b : Buffer) c : TcpConnection U :=
  mkTcpConnection (home_ c) (name_ c) (state_ c) (socket_ c) (channel_ c) (local_address_ c)
    (peer_address_ c) b
    (send_buffer_ c) (message_callback_ c) (connection_callback_ c) (high_water_mark_ c)
    (high_water_callback_ c) (write_complete_callback_ c) (close_callback_ c) (context_ c).
Definition set_send_buffer (b : Buffer) c : TcpConnection U :=
  mkTcpConnection (home_ c) (name_ c) (state_ c) (socket_ c) (channel_ c) (local_address_ c)
    (peer_address_ c) (receive_buffer_ c)
    b (message_callback_ c) (connection_callback_ c) (high_water_mark_ c)
    (high_water_callback_ c) (write_complete_callback_ c) (close_callback_ c) (context_ c).
Definition setMessageCallback (cb : U) c : TcpConnection U :=
  mkTcpConnection (home_ c) (name_ c) (state_ c) (socket_ c) (channel_ c) (local_address_ c)
    (peer_address_ c) (receive_buffer_ c)
    (send_buffer_ c) (Some cb) (connection_callback_ c) (high_water_mark_ c)
    (high_water_callback_ c) (write_complete_callback_ c) (close_callback_ c) (context_ c).
Definition setConnectionCallback (cb : U) c : TcpConnection U :=
  mkTcpConnection (home_ c) (name_ c) (state_ c) (socket_ c) (channel_ c) (local_address_ c)
    (peer_address_ c) (receive_buffer_ c)
    (send_buffer_ c) (message_callback_ c) (Some cb) (high_water_mark_ c)
    (high_water_callback_ c) (write_complete_callback_ c) (close_callback_ c) (context_ c).
Definition setWriteCompleteCallback (cb : U) c : TcpConnection U :=
  mkTcpConnection (home_ c) (name_ c) (state_ c) (socket_ c) (channel_ c) (local_address_ c)
    (peer_address_ c) (receive_buffer_ c)
    (send_buffer_ c) (message_callback_ c) (connection_callback_ c) (high_water_mark_ c)
    (high_water_callback_ c) (Some cb) (close_callback_ c) (context_ c).
Definition setHighWaterCallback (cb : U) (high_water_mark : Z) c : TcpConnection U :=
  mkTcpConnection (home_ c) (name_ c) (state_ c) (socket_ c) (channel_ c) (local_address_ c)
    (peer_address_ c) (receive_buffer_ c)
    (send_buffer_ c) (message_callback_ c) (connection_callback_ c) high_water_mark
    (Some cb) (write_complete_callback_ c) (close_callback_ c) (context_ c).
Definition setCloseCallback (cb : U) c : TcpConnection U :=
  mkTcpConnection (home_ c) (name_ c) (state_ c) (socket_ c) (channel_ c) (local_address_ c)
    (peer_address_ c) (receive_buffer_ c)
    (send_buffer_ c) (message_callback_ c) (connection_callback_ c) (high_water_mark_ c)
    (high_water_callback_ c) (write_complete_callback_ c) (Some cb) (context_ c).

Definition setContext (x : option any) c : TcpConnection U :=
  mkTcpConnection (home_ c) (name_ c) (state_ c) (socket_ c) (channel_ c) (local_address_ c)
    (peer_address_ c) (receive_buffer_ c)
    (send_buffer_ c) (message_callback_ c) (connection_callback_ c) (high_water_mark_ c)
    (high_water_callback_ c) (write_complete_callback_ c) (close_callback_ c) x.

(** [hasContext<T>] and [getContextAs<T>]; a [bad_any_cast] nobody catches ends
    the program. *)
Definition hasContext (T : Z) c : bool :=
  match context_ c with Some x => any_type x =? T | None => false end.
Definition getContextAs (T : Z) c : outcome Z :=
  match context_ c with
  | Some x => if any_type x =? T then Ok (any_value x) else Abort
  | None => Abort
  end.

Definition connected c : bool := bool_decide (state_ c = Connected).

Definition getState c : string :=
  match state_ c with
  | Connecting => "Connecting"
  | Connected => "Connected"
  | Disconnected => "Disconnected"
  | _ => "Invalid state"
  end.
End Fields.

(** The connection objects by address: those some [shared_ptr] keeps alive. *)
Class ConnWorld (W U : Type) := {
  get_conn : ConnId -> W -> option (TcpConnection U);
  put_conn : ConnId -> TcpConnection U -> W -> W;
  drop_conn : ConnId -> W -> W;
}.

(** write(2) and readv(2) (into so many bytes) on a descriptor, and the memory
    behind a caller's pointer: [None] once it is gone. *)
Class SocketKernel (W : Type) := {
  sys_write : Z -> list byte -> W -> write_result * W;
  sys_read : Z -> Z -> W -> read_result * W;
  load_bytes : Z -> Z -> W -> option (list byte);
}.

(** The closures a connection hands to its loop and its channel. *)
Inductive ConnTask : Type :=
| HandleReadable (conn : ConnId)
| SendString (conn : ConnId) (msg : list byte)
| SendRaw (conn : ConnId) (msg len : Z)
| SendBuffer (conn : ConnId) (msg : Buffer)
| ShutdownInLoop (conn : ConnId)
| WriteComplete (conn : ConnId)
| HighWater (conn : ConnId)
| ConnectionEstablished (conn : ConnId)
| ConnectionDestroyed (conn : ConnId).

Section TcpConnection.
Context `{EFD : EventFd} {W P C U : Type} `{PB : !PollerBase P (Closure C)}.
Context `{LW : !LoopWorld W P C} `{CW : !ConnWorld W U}.
Context `{SK : !SocketKernel W} `{SC : !Socket.SocketCalls W}.

(** A connection's closure among those of its loop; the user's callbacks. *)
Variable task : ConnTask -> C.
Variable user : U -> ConnId -> W -> outcome W.

Definition deref_conn (conn : ConnId) (w : W) : outcome (TcpConnection U) :=
  match get_conn conn w with Some c => Ok c | None => Undef end.

Definition conn_channel (c : TcpConnection U) (w : W) : outcome (Channel (Closure C)) :=
  deref_channel (channel_ c) (get_channels w).

Definition assert_loop (tid : Z) (w : W) : outcome unit :=
  assertInLoopThread tid (get_loop w).

Definition call_user (cb : option U) (conn : ConnId) (w : W) : outcome W :=
  match cb with Some f => user f conn w | None => Ok w end.

Definition queue (tid : Z) (t : ConnTask) (w : W) : W :=
  on_loop (queueInLoop tid (task t)) w.

(** ** Construction *)
Definition make_TcpConnection (loop : LoopId) (conn : ConnId) (cid : ChanId)
    (name : string) (fd : Z) (local_addr peer_addr : sockaddr_in) (w : W) : W :=
  let ch := setReadCallback (Client (task (HandleReadable conn))) (make_Channel loop fd) in
  put_conn conn
    (mkTcpConnection loop name Connecting fd cid local_addr peer_addr (make INITIALIZE_SIZE)
       (make INITIALIZE_SIZE) None None 0 None None None None)
    (put_channels (<[cid := ch]> (get_channels w)) w).

(** The destructor, once no [shared_ptr] is left: the channel goes, then the
    socket closes its descriptor.  Nothing is said to the poller. *)
Definition destroy_TcpConnection (conn : ConnId) (w : W) : outcome W :=
  let! c := deref_conn conn w in
  let w := put_channels (delete (channel_ c) (get_channels w)) w in
  Ok (drop_conn conn (Socket.close_fd (socket_ c) w)).

(** ** Sending, on the loop's thread *)

(** [sendInLoop(const char*, size_t)]. *)
Definition sendInLoop (tid : Z) (conn : ConnId) (data : list byte) (w : W) : outcome W :=
  let! _ := assert_loop tid w in
  let! c := deref_conn conn w in
  let! ch := conn_channel c w in
  let size := Zlen data in
  let idle := negb (isWriting ch) && (readableBytes (send_buffer_ c) =? 0) in
  let '(n_write, w) :=
    if idle then
      match sys_write (fd_ ch) data w with
      | (WriteOk n, w) =>
          (n, if n <? size then w else
              match write_complete_callback_ c with
              | Some _ => queue tid (WriteComplete conn) w
              | None => w
              end)
      | (WriteErr _, w) => (0, w)
      end
    else (0, w) in
  if n_write <? size then
    let! b := append (send_buffer_ c) (zdrop n_write data) in
    let w := put_conn conn (set_send_buffer b c) w in
    let! w := if negb (isWriting ch)
              then on_channels (listenTillWritable tid (channel_ c)) w else Ok w in
    match high_water_callback_ c with
    | Some _ => if high_water_mark_ c <=? readableBytes b
                then Ok (queue tid (HighWater conn) w) else Ok w
    | None => Ok w
    end
  else Ok w.

(** [sendInLoop(Buffer&)]; the buffer is handed back. *)
Definition sendBufferInLoop (tid : Z) (conn : ConnId) (buffer : Buffer) (w : W)
    : outcome (Buffer * W) :=
  let! _ := assert_loop tid w in
  let! c := deref_conn conn w in
  let! ch := conn_channel c w in
  let! (buffer, w) :=
    if negb (isWriting ch) && (readableBytes (send_buffer_ c) =? 0) then
      let! data := peek_bytes buffer (readableBytes buffer) in
      match sys_write (socket_ c) data w with
      | (WriteOk n, w) => Ok (retrieve buffer n, w)
      | (WriteErr _, w) => Ok (buffer, w)
      end
    else Ok (buffer, w) in
  if 0 <? readableBytes buffer then
    let! (b, buffer) :=
      if readableBytes (send_buffer_ c) =? 0 then Ok (swap (send_buffer_ c) buffer)
      else
        let! data := peek_bytes buffer (readableBytes buffer) in
        let! b := append (send_buffer_ c) data in
        Ok (b, retrieveAll buffer) in
    let w := put_conn conn (set_send_buffer b c) w in
    let w := match high_water_callback_ c with
             | Some _ => if high_water_mark_ c <=? readableBytes b
                         then queue tid (HighWater conn) w else w
             | None => w
             end in
    let! w := if negb (isWriting ch)
              then on_channels (listenTillWritable tid (channel_ c)) w else Ok w in
    Ok (buffer, w)
  else Ok (buffer, w).

(** ** Sending, on any thread *)
Definition send_raw (tid : Z) (conn : ConnId) (msg len : Z) (w : W) : outcome W :=
  match load_bytes msg len w with
  | Some data => sendInLoop tid conn data w
  | None => Undef
  end.

(** What the loop runs for a connection; [user] code is called from here. *)
Definition setState_of (conn : ConnId) (s : State) (w : W) : outcome W :=
  let! c := deref_conn conn w in Ok (put_conn conn (setState s c) w).

Definition shutdownInLoop (tid : Z) (conn : ConnId) (w : W) : outcome W :=
  let! _ := assert_loop tid w in
  let! c := deref_conn conn w in
  if decide (state_ c = Connected) then
    let w := put_conn conn (setState Disconnecting c) w in
    let! ch := conn_channel c w in
    if negb (isWriting ch) then Ok (Socket.shutdownWrite (socket_ c) w) else Ok w
  else Ok w.

Definition connectionEstablished (tid : Z) (conn : ConnId) (w : W) : outcome W :=
  let! _ := assert_loop tid w in
  let! c := deref_conn conn w in
  if negb (bool_decide (state_ c = Connecting)) then Abort else
  let w := put_conn conn (setState Connected c) w in
  let! ch := conn_channel c w in
  let w := put_channels (<[channel_ c := tie conn ch]> (get_channels w)) w in
  let! w := on_channels (listenTillReadable tid (channel_ c)) w in
  call_user (connection_callback_ c) conn w.

Definition connectionDestroyed (tid : Z) (conn : ConnId) (w : W) : outcome W :=
  let! _ := assert_loop tid w in
  let! c := deref_conn conn w in
  let w := put_conn conn (setState Disconnected c) w in
  let! w := on_channels (ignoreAll tid (channel_ c)) w in
  let! w := call_user (connection_callback_ c) conn w in
  on_channels (removeChannel tid (channel_ c)) w.

(** ** Events.  Calling an empty [close_callback_] throws, which ends the
    program. *)
Definition handleClose (tid : Z) (conn : ConnId) (w : W) : outcome W :=
  let! _ := assert_loop tid w in
  let! c := deref_conn conn w in
  if negb (bool_decide (state_ c = Connected))
     && negb (bool_decide (state_ c = Disconnecting)) then Abort else
  let w := put_conn conn (setState Disconnected c) w in
  let! w := on_channels (ignoreAll tid (channel_ c)) w in
  match close_callback_ c with Some f => user f conn w | None => Abort end.

Definition handleError (conn : ConnId) (w : W) : outcome W :=
  let! c := deref_conn conn w in Ok (Socket.getSocketError (socket_ c) w).2.

Definition handleReadable (tid : Z) (conn : ConnId) (w : W) : outcome W :=
  let! _ := assert_loop tid w in
  let! c := deref_conn conn w in
  let '(r, w) :=
    sys_read (socket_ c) (writableBytes (receive_buffer_ c) + EXTRA_SIZE) w in
  let! (n_read, savedErrno, b) := readFd (receive_buffer_ c) r in
  let w := put_conn conn (set_receive_buffer b c) w in
  if 0 <? n_read then call_user (message_callback_ c) conn w
  else if n_read =? 0 then handleClose tid conn w
  else handleError conn w.

Definition handleWritable (tid : Z) (conn : ConnId) (w : W) : outcome W :=
  let! _ := assert_loop tid w in
  let! c := deref_conn conn w in
  let! ch := conn_channel c w in
  if isWriting ch then
    let! data := peek_bytes (send_buffer_ c) (readableBytes (send_buffer_ c)) in
    let '(r, w) := sys_write (fd_ ch) data w in
    let n_write := match r with WriteOk n => n | WriteErr _ => -1 end in
    if 0 <? n_write then
      let b := retrieve (send_buffer_ c) n_write in
      let w := put_conn conn (set_send_buffer b c) w in
      if readableBytes b =? 0 then
        let! w := on_channels (ignoreWritable tid (channel_ c)) w in
        let w := match write_complete_callback_ c with
                 | Some _ => queue tid (WriteComplete conn) w
                 | None => w
                 end in
        if decide (state_ c = Disconnecting) then shutdownInLoop tid conn w else Ok w
      else Ok w
    else Ok w
  else Ok w.

(** ** Socket options *)
Definition setTcpNoDelay (conn : ConnId) (on : bool) (w : W) : outcome W :=
  let! c := deref_conn conn w in Ok (Socket.setTcpNoDelay (socket_ c) on w).
Definition setKeepAlive (conn : ConnId) (on : bool) (w : W) : outcome W :=
  let! c := deref_conn conn w in Ok (Socket.setKeepAlive (socket_ c) on w).

(** ** The closures, run by the loop's thread *)
Definition run_conn_task (tid : Z) (t : ConnTask) (w : W) : outcome W :=
  match t with
  | HandleReadable conn => handleReadable tid conn w
  | SendString conn msg => sendInLoop tid conn msg w
  | SendRaw conn msg len => send_raw tid conn msg len w
  | SendBuffer conn msg => let! (_, w) := sendBufferInLoop tid conn msg w in Ok w
  | ShutdownInLoop conn => shutdownInLoop tid conn w
  | WriteComplete conn =>
      let! c := deref_conn conn w in
      match write_complete_callback_ c with Some f => user f conn w | None => Abort end
  | HighWater conn =>
      let! c := deref_conn conn w in
      match high_water_callback_ c with Some f => user f conn w | None => Abort end
  | ConnectionEstablished conn => connectionEstablished tid conn w
  | ConnectionDestroyed conn => connectionDestroyed tid conn w
  end.

(** [loop_.runInLoop(t)]. *)
Definition run_in_loop (tid : Z) (t : ConnTask) (w : W) : outcome W :=
  if isInLoopThread tid (get_loop w) then run_conn_task tid t w else Ok (queue tid t w).

(** ** The public calls, on any thread *)
Definition when_connected (conn : ConnId) (w : W) (k : outcome W) : outcome W :=
  let! c := deref_conn conn w in
  if decide (state_ c = Connected) then k else Ok w.

Definition shutdown (tid : Z) (conn : ConnId) (w : W) : outcome W :=
  when_connected conn w (
    let! w := setState_of conn Disconnecting w in
    run_in_loop tid (ShutdownInLoop conn) w).

(** [send(std::string)] and [send(const char*, size_t)]. *)
Definition send (tid : Z) (conn : ConnId) (msg : list byte) (w : W) : outcome W :=
  when_connected conn w (
    if isInLoopThread tid (get_loop w) then sendInLoop tid conn msg w
    else run_in_loop tid (SendString conn msg) w).

Definition send_ptr (tid : Z) (conn : ConnId) (msg len : Z) (w : W) : outcome W :=
  when_connected conn w (
    if isInLoopThread tid (get_loop w) then send_raw tid conn msg len w
    else run_in_loop tid (SendRaw conn msg len) w).

(** [send(Buffer&)]; a thread other than the loop's swaps the bytes into a new
    buffer. *)
Definition send_buffer (tid : Z) (conn : ConnId) (buffer : Buffer) (w : W)
    : outcome (Buffer * W) :=
  let! c := deref_conn conn w in
  if decide (state_ c = Connected) then
    if isInLoopThread tid (get_loop w) then sendBufferInLoop tid conn buffer w
    else
      let '(msg, buffer) := swap (make INITIALIZE_SIZE) buffer in
      let! w := run_in_loop tid (SendBuffer conn msg) w in
      Ok (buffer, w)
  else Ok (buffer, w).
End TcpConnection.

(** ** What a connection relies on *)

(** The bytes of [data] a write took. *)
Definition taken (r : write_result) (data : list byte) : list byte :=
  match r with WriteOk n => ztake n data | WriteErr _ => [] end.

Class ConnLaws `{EventFd} (W P C U : Type)
    `{!LoopWorld W P C} `{!ConnWorld W U} `{!SocketKernel W} `{!Socket.SocketCalls W} := {
  get_put_conn : forall conn conn' c (w : W),
    get_conn conn (put_conn conn' c w) = if decide (conn = conn') then Some c else get_conn conn w;
  loop_put_conn : forall conn c (w : W), get_loop (put_conn conn c w) = get_loop w;
  channels_put_conn : forall conn c (w : W), get_channels (put_conn conn c w) = get_channels w;
  conn_put_loop : forall conn lp (w : W), get_conn conn (put_loop lp w) = get_conn conn w;
  conn_put_channels : forall conn st (w : W), get_conn conn (put_channels st w) = get_conn conn w;
  (** The bytes the kernel has accepted on a descriptor; nothing else of the
      model writes them. *)
  wire : Z -> W -> list byte;
  wire_put_conn : forall fd conn c (w : W), wire fd (put_conn conn c w) = wire fd w;
  wire_put_loop : forall fd lp (w : W), wire fd (put_loop lp w) = wire fd w;
  wire_put_channels : forall fd st (w : W), wire fd (put_channels st w) = wire fd w;
  write_law : forall fd data (w : W) r w', sys_write fd data w = (r, w') ->
    write_result_ok (Zlen data) r /\ wire fd w' = wire fd w ++ taken r data /\
    get_loop w' = get_loop w /\ get_channels w' = get_channels w /\
    forall conn, get_conn conn w' = get_conn conn w;
  read_law : forall fd cap (w : W) r w', 0 <= cap -> sys_read fd cap w = (r, w') ->
    match r with ReadOk data => Zlen data <= cap | ReadErr _ => True end /\
    get_loop w' = get_loop w /\ get_channels w' = get_channels w /\
    forall conn, get_conn conn w' = get_conn conn w;
  so_error_law : forall fd (w : W),
    get_loop (Socket.sys_getsockopt_error fd w).2 = get_loop w /\
    get_channels (Socket.sys_getsockopt_error fd w).2 = get_channels w /\
    forall conn, get_conn conn (Socket.sys_getsockopt_error fd w).2 = get_conn conn w;
}.

Section ConnTheorems.
Context `{EFD : EventFd} {W P C U : Type} `{PB : !PollerBase P (Closure C)}.
Context `{LW : !LoopWorld W P C} `{CW : !ConnWorld W U}.
Context `{SK : !SocketKernel W} `{SC : !Socket.SocketCalls W}.
Context {PL : PollerLaws P (Closure C)} {LWok : LoopWorldLaws W P C}.
Context {CLok : ConnLaws W P C U}.
Context (task : ConnTask -> C) (user : U -> ConnId -> W -> outcome W).

(** A connection [c] in its loop, on its loop's thread [tid]. *)
Record conn_base (tid : Z) (conn : ConnId) (w : W) (c : TcpConnection U)
    (ch : Channel (Closure C)) : Prop := {
  ok_conn : get_conn conn w = Some c;
  ok_channel : get_channels w !! channel_ c = Some ch;
  ok_socket : fd_ ch = socket_ c;
  ok_fd : 0 <= socket_ c;
  ok_owner : loop_ ch = self (get_loop w);
  ok_thread : thread_id_ (get_loop w) = tid;
  ok_mask : client_mask (events_ ch);
  ok_unwired : write_callback_ ch = None /\ error_callback_ ch = None;
  ok_poller : poller_inv (poller_ (get_loop w)) (get_channels w);
  ok_unique : forall cid m,
    watched (F := Closure C) (poller_ (get_loop w)) (socket_ c) = Some (cid, m) ->
    cid = channel_ c;
}.

(** Moreover [q] are the bytes that wait in its send buffer, and it asks for
    POLLOUT exactly when there are some. *)
Record conn_ok (tid : Z) (conn : ConnId) (w : W) (c : TcpConnection U)
    (ch : Channel (Closure C)) (q : list byte) (bound : Z) : Prop := {
  ok_base : conn_base tid conn w c ch;
  ok_buffer : refines (send_buffer_ c) q bound;
  ok_writing : isWriting ch = negb (Zlen q =? 0);
}.

Lemma assert_loop_ok tid (w : W) : thread_id_ (get_loop w) = tid -> assert_loop tid w = Ok tt.
Proof.
  intros H. unfold assert_loop, assertInLoopThread, isInLoopThread. by rewrite H, Z.eqb_refl.
Qed.

Lemma refines_readable b q bound : refines b q bound -> readableBytes b = Zlen q.
Proof. intros (Hwf & <- & _). by rewrite content_length. Qed.

Lemma refines_peek b q bound : refines b q bound ->
  peek_bytes b (readableBytes b) = Ok q.
Proof.
  intros H. pose proof (refines_readable _ _ _ H) as Hl. destruct H as (Hwf & <- & _).
  rewrite Hl. rewrite peek_content; [|done|rewrite Hl; pose proof (Zlen_nonneg (content b)); lia].
  by rewrite ztake_ge by lia.
Qed.

Lemma refines_append b q bound data :
  refines b q bound -> bound + Zlen data < 2 ^ 63 ->
  exists b', append b data = Ok b' /\ refines b' (q ++ data) (bound + Zlen data).
Proof.
  intros H Hb. pose proof H as (Hwf & _ & Hr & Hl).
  assert (Hw : write_index_ b <= bound) by (destruct Hwf as (? & ? & ?); lia).
  destruct (append_spec b data) as (b' & E & Happ); [done| |lia|].
  - right. rewrite writable_eq by done. destruct Hwf as (? & ? & ?). lia.
  - exists b'. split; [done|]. by eapply refines_appended.
Qed.

Lemma refines_weaken b q bound bound' : refines b q bound -> bound <= bound' ->
  refines b q bound'.
Proof. intros (? & ? & ? & ?) ?. split_and!; try done. lia. Qed.

(** The POLLOUT bit of the new masks. *)
Lemma mask_writable m : client_mask m ->
  client_mask (Z.lor m kWriteEvent) /\ has (Z.lor m kWriteEvent) kWriteEvent = true /\
  client_mask (Z.land m (Z.lnot kWriteEvent)) /\
  has (Z.land m (Z.lnot kWriteEvent)) kWriteEvent = false.
Proof.
  unfold client_mask, has. intros Hm. split_and!.
  - rewrite Z.land_lor_distr_l, <- Hm. f_equal.
  - rewrite Z.land_lor_distr_l. change (Z.land kWriteEvent kWriteEvent) with 4.
    destruct (Z.eqb_spec (Z.lor (Z.land m kWriteEvent) 4) 0) as [H|]; [|done].
    by apply Z.lor_eq_0_iff in H as [_ ?].
  - rewrite <- !Z.land_assoc, (Z.land_comm (Z.lnot _)), Z.land_assoc. by rewrite <- Hm.
  - rewrite <- Z.land_assoc. change (Z.land (Z.lnot kWriteEvent) kWriteEvent) with 0.
    by rewrite Z.land_0_r.
Qed.

(** Changing the mask of the connection's channel. *)
Lemma change_events_watch f tid conn w c ch :
  conn_base tid conn w c ch -> client_mask (f ch) ->
  exists w' i p', on_channels (change_events f tid (channel_ c)) w = Ok w' /\
    get_loop w' = set_poller p' (get_loop w) /\
    (forall fd, wire fd w' = wire fd w) /\
    conn_base tid conn w' c (setIndex i (setEvents (f ch) ch)) /\
    watched (F := Closure C) (poller_ (get_loop w')) (socket_ c) = Some (channel_ c, f ch).
Proof.
  intros [Hc Hch Hfd Hpos Hown Ht Hm Hwr Hp Hu] Hmask.
  destruct (change_events_ok f tid (channel_ c) w ch) as (p' & st' & i & E & Hinv' & Hi & _ & Hw');
    try done; [by rewrite Hfd|by rewrite Hfd|]. rewrite Hfd in Hw'.
  exists (put_channels st' (put_loop (set_poller p' (get_loop w)) w)), i, p'.
  split_and!; [done| | | |].
  - by rewrite loop_put_channels, get_put_loop.
  - intros fd. by rewrite wire_put_channels, wire_put_loop.
  - split; rewrite ?loop_put_channels, ?get_put_loop, ?get_put_channels,
      ?conn_put_channels, ?conn_put_loop; try done.
    intros cid m. cbn [poller_ set_poller]. rewrite Hw'. case_decide; [|done]. congruence.
  - rewrite loop_put_channels, get_put_loop. cbn [poller_ set_poller]. by rewrite Hw', decide_True.
Qed.

Lemma change_events_conn f tid conn w c ch :
  conn_base tid conn w c ch -> client_mask (f ch) ->
  exists w' i p', on_channels (change_events f tid (channel_ c)) w = Ok w' /\
    get_loop w' = set_poller p' (get_loop w) /\
    (forall fd, wire fd w' = wire fd w) /\
    conn_base tid conn w' c (setIndex i (setEvents (f ch) ch)).
Proof.
  intros Hb Hm. destruct (change_events_watch f tid conn w c ch Hb Hm)
    as (w' & i & p' & ? & ? & ? & ? & _). by exists w', i, p'.
Qed.

(** What leaves the connection as it is. *)
Lemma conn_base_frame tid conn w w' c ch :
  conn_base tid conn w c ch -> get_loop w' = get_loop w ->
  get_channels w' = get_channels w -> get_conn conn w' = get_conn conn w ->
  conn_base tid conn w' c ch.
Proof. intros [] Hl Hch Hc. split; rewrite ?Hl, ?Hch, ?Hc; done. Qed.

Lemma conn_base_put tid conn w c c' ch :
  conn_base tid conn w c ch -> channel_ c' = channel_ c -> socket_ c' = socket_ c ->
  conn_base tid conn (put_conn conn c' w) c' ch.
Proof.
  intros [] Hch Hs. split; rewrite ?get_put_conn, ?loop_put_conn, ?channels_put_conn, ?Hch, ?Hs;
    try done. by rewrite decide_True.
Qed.

(** A change of the loop's flags or queue. *)
Definition only_flags (f : EventLoop P C -> EventLoop P C) : Prop := forall lp,
  poller_ (f lp) = poller_ lp /\ self (f lp) = self lp /\ thread_id_ (f lp) = thread_id_ lp.

Lemma queueInLoop_flags tid k : only_flags (queueInLoop tid k).
Proof. intros lp. unfold queueInLoop, queue_wakeup. by destruct (_ || _). Qed.

Lemma quit_flags tid : only_flags (EventLoop.quit tid).
Proof. intros lp. unfold EventLoop.quit, quit_wakeup. by destruct (negb _). Qed.

Lemma conn_base_flags f tid conn w c ch : only_flags f ->
  conn_base tid conn w c ch -> conn_base tid conn (on_loop f w) c ch.
Proof.
  intros Hf []. destruct (Hf (get_loop w)) as (F1 & F2 & F3).
  split; rewrite ?get_on_loop, ?channels_on_loop, ?F1, ?F2, ?F3; try done.
  unfold on_loop. by rewrite conn_put_loop.
Qed.

Lemma conn_base_queueInLoop tid conn w c ch tid' k :
  conn_base tid conn w c ch -> conn_base tid conn (on_loop (queueInLoop tid' k) w) c ch.
Proof. apply conn_base_flags, queueInLoop_flags. Qed.

Lemma conn_base_queue tid conn w c ch t :
  conn_base tid conn w c ch -> conn_base tid conn (queue task tid t w) c ch.
Proof. apply conn_base_queueInLoop. Qed.

Lemma wire_queue tid t fd w : wire fd (queue task tid t w) = wire fd w.
Proof. apply wire_put_loop. Qed.

Lemma isWriting_setIndex i (c : Channel (Closure C)) : isWriting (setIndex i c) = isWriting c.
Proof. done. Qed.

(** The high-water notification of both sends. *)
Definition warn (tid : Z) (conn : ConnId) (c : TcpConnection U) (b : Buffer) (w : W) : W :=
  match high_water_callback_ c with
  | Some _ => if high_water_mark_ c <=? readableBytes b
              then queue task tid (HighWater conn) w else w
  | None => w
  end.

Lemma warn_base tid conn w c0 c ch b :
  conn_base tid conn w c ch -> conn_base tid conn (warn tid conn c0 b w) c ch.
Proof.
  intros H. unfold warn. destruct (high_water_callback_ c0); [|done].
  destruct (_ <=? _); [by apply conn_base_queue|done].
Qed.

Lemma warn_wire tid conn c b fd w : wire fd (warn tid conn c b w) = wire fd w.
Proof.
  unfold warn. destruct (high_water_callback_ c); [|done].
  destruct (_ <=? _); [apply wire_queue|done].
Qed.

(** The end of a send that left bytes in the buffer. *)
Lemma arm_writable tid conn w c ch q bound :
  conn_base tid conn w c ch -> refines (send_buffer_ c) q bound -> Zlen q <> 0 ->
  exists w' ch', (if negb (isWriting ch)
                  then on_channels (listenTillWritable tid (channel_ c)) w else Ok w) = Ok w' /\
    conn_ok tid conn w' c ch' q bound /\ same_dispatch ch ch' /\
    (forall fd, wire fd w' = wire fd w).
Proof.
  intros Hb Hq Hne. destruct (isWriting ch) eqn:Hw; cbn [negb].
  - exists w, ch. split_and!; try done. split; [done|done|]. rewrite Hw. by decide_bools.
  - destruct (mask_writable (events_ ch) (ok_mask _ _ _ _ _ Hb)) as (Hm & Hh & _).
    destruct (change_events_conn listenTillWritable_events tid conn w c ch Hb Hm)
      as (w' & i & p' & E & _ & Hwire & Hb').
    exists w', (setIndex i (setEvents (listenTillWritable_events ch) ch)).
    split_and!; [exact E| |done|exact Hwire]. split; [done|done|].
    rewrite isWriting_setIndex. unfold isWriting. cbn. unfold listenTillWritable_events.
    rewrite Hh. by decide_bools.
Qed.

(** ** The stream of a connection: what the kernel took, then what waits *)
Definition same_conn (c c' : TcpConnection U) : Prop :=
  c' = set_send_buffer (send_buffer_ c') c.

Lemma same_conn_refl c : same_conn c c.
Proof. by destruct c. Qed.

Lemma same_conn_trans c1 c2 c3 : same_conn c1 c2 -> same_conn c2 c3 -> same_conn c1 c3.
Proof. unfold same_conn. intros -> ->. done. Qed.

Lemma same_conn_fields c c' : same_conn c c' ->
  socket_ c' = socket_ c /\ channel_ c' = channel_ c /\ state_ c' = state_ c /\
  receive_buffer_ c' = receive_buffer_ c /\ message_callback_ c' = message_callback_ c /\
  write_complete_callback_ c' = write_complete_callback_ c.
Proof. intros ->. done. Qed.

Definition stream_grows (tid : Z) (conn : ConnId) (w : W) (c : TcpConnection U)
    (ch : Channel (Closure C)) (q : list byte) (bound : Z) (data : list byte) (w' : W) : Prop :=
  exists c' ch' q', conn_ok tid conn w' c' ch' q' bound /\ same_conn c c' /\
    same_dispatch ch ch' /\ wire (socket_ c) w' ++ q' = (wire (socket_ c) w ++ q) ++ data.

Lemma stream_kept tid conn w c ch q bound bound' :
  conn_ok tid conn w c ch q bound -> bound <= bound' -> stream_grows tid conn w c ch q bound' [] w.
Proof.
  intros [Hb Hr Hw] Hle. exists c, ch, q.
  split_and!; [|apply same_conn_refl|done|by rewrite app_nil_r].
  split; [done| |done]. by eapply refines_weaken.
Qed.

(** Queueing [rest] behind what is there, the buffer being [b] now. *)
Lemma stream_queued tid conn w c ch q bound rest b w1 taken_bytes data fd :
  conn_base tid conn w1 c ch -> refines b (q ++ rest) bound -> Zlen rest <> 0 ->
  fd = socket_ c -> wire fd w1 = wire fd w ++ taken_bytes ->
  taken_bytes ++ q ++ rest = q ++ data ->
  exists w2, (if negb (isWriting ch)
              then on_channels (listenTillWritable tid (channel_ c))
                     (put_conn conn (set_send_buffer b c) w1)
              else Ok (put_conn conn (set_send_buffer b c) w1)) = Ok w2 /\
    stream_grows tid conn w c ch q bound data w2 /\ forall fd, wire fd w2 = wire fd w1.
Proof.
  intros Hb Hr Hne -> Hwire Hd.
  destruct (arm_writable tid conn (put_conn conn (set_send_buffer b c) w1)
    (set_send_buffer b c) ch (q ++ rest) bound) as (w2 & ch2 & E & Hok & Hsd & Hw2).
  { by eapply conn_base_put. }
  { done. }
  { rewrite Zlen_app. pose proof (Zlen_nonneg q). pose proof (Zlen_nonneg rest). lia. }
  exists w2. split_and!; [exact E| |intros fd; by rewrite Hw2, wire_put_conn].
  exists (set_send_buffer b c), ch2, (q ++ rest).
  split_and!; [done|done|done|]. rewrite Hw2, wire_put_conn, Hwire.
  by rewrite <- !app_assoc, Hd.
Qed.

Lemma stream_queue_task tid conn w c ch q bound data w' t :
  stream_grows tid conn w c ch q bound data w' ->
  stream_grows tid conn w c ch q bound data (queue task tid t w').
Proof.
  intros (c' & ch' & q' & [Hb Hr Hw] & Hs & Hsd & Hd). exists c', ch', q'.
  split_and!; [|done|done|by rewrite wire_queue].
  split; [by apply conn_base_queue|done|done].
Qed.

(** The idle test of both sends. *)
Lemma idle_test tid conn w c ch q bound :
  conn_ok tid conn w c ch q bound ->
  negb (isWriting ch) && (readableBytes (send_buffer_ c) =? 0) = (Zlen q =? 0).
Proof.
  intros [_ Hr ->]. rewrite (refines_readable _ _ _ Hr), negb_involutive.
  by destruct (Zlen q =? 0).
Qed.

(** What the direct attempt leaves. *)
Lemma direct_write tid conn w c ch q bound data : conn_ok tid conn w c ch q bound ->
  exists n w1, conn_base tid conn w1 c ch /\ 0 <= n <= Zlen data /\
    (q = [] \/ n = 0) /\ wire (socket_ c) w1 = wire (socket_ c) w ++ ztake n data /\
    (if Zlen q =? 0 then
       match sys_write (fd_ ch) data w with
       | (WriteOk n, w) =>
           (n, if n <? Zlen data then w else
               match write_complete_callback_ c with
               | Some _ => queue task tid (WriteComplete conn) w
               | None => w
               end)
       | (WriteErr _, w) => (0, w)
       end
     else (0, w)) = (n, w1).
Proof.
  intros [Hb Hr Hw]. pose proof (Zlen_nonneg data).
  destruct (Z.eqb_spec (Zlen q) 0) as [Hq0|Hq0].
  2: { exists 0, w. split_and!; try done; [by right|by rewrite ztake_0, app_nil_r]. }
  destruct (sys_write (fd_ ch) data w) as [r w1] eqn:Ew.
  destruct (write_law _ _ _ _ _ Ew) as (Hn & Hwire & Hl & Hc & Hconn).
  rewrite (ok_socket _ _ _ _ _ Hb) in Hwire.
  assert (Hb1 : conn_base tid conn w1 c ch) by (by apply (conn_base_frame _ _ w)).
  destruct r as [n|e].
  - exists n. eexists. split; [|split_and!; [apply Hn|apply Hn| | |reflexivity]].
    + destruct (n <? Zlen data); [done|]. destruct (write_complete_callback_ c); [|done].
      by apply conn_base_queue.
    + left. by apply Zlen_0_nil.
    + cbn [taken] in Hwire. rewrite <- Hwire. destruct (n <? Zlen data); [done|].
      destruct (write_complete_callback_ c); [apply wire_queue|done].
  - exists 0, w1. split_and!; try done. by right.
Qed.

Lemma sendInLoop_stream tid conn w c ch q bound data :
  conn_ok tid conn w c ch q bound -> bound + Zlen data < 2 ^ 63 ->
  exists w', sendInLoop task tid conn data w = Ok w' /\
    stream_grows tid conn w c ch q (bound + Zlen data) data w' /\
    (q <> [] -> wire (socket_ c) w' = wire (socket_ c) w).
Proof.
  intros Hok Hmax. pose proof Hok as [Hb Hr Hw]. pose proof (Zlen_nonneg data).
  unfold sendInLoop, deref_conn, conn_channel, deref_channel.
  rewrite assert_loop_ok by apply Hb. rewrite (ok_conn _ _ _ _ _ Hb).
  cbn [mbind outcome_bind]. rewrite (ok_channel _ _ _ _ _ Hb). cbn [mbind outcome_bind].
  rewrite (idle_test _ _ _ _ _ _ _ Hok).
  destruct (direct_write tid conn w c ch q bound data Hok)
    as (n & w1 & Hb1 & Hn & Hcase & Hwire1 & ->).
  assert (Hidle : q <> [] -> wire (socket_ c) w1 = wire (socket_ c) w).
  { intros Hq. destruct Hcase as [?| ->]; [done|]. by rewrite Hwire1, ztake_0, app_nil_r. }
  destruct (Z.ltb_spec n (Zlen data)) as [Hlt|Hge].
  - destruct (refines_append (send_buffer_ c) q bound (zdrop n data)) as (b & -> & Hr');
      [done|rewrite Zlen_zdrop by lia; lia|]. cbn [mbind outcome_bind].
    destruct (stream_queued tid conn w c ch q (bound + Zlen data) (zdrop n data) b w1
      (ztake n data) data (socket_ c)) as (w2 & -> & Hs & Hw2); try done.
    + eapply refines_weaken; [exact Hr'|]. rewrite Zlen_zdrop by lia. lia.
    + rewrite Zlen_zdrop by lia. lia.
    + destruct Hcase as [-> | ->]; [by rewrite !app_nil_l, ztake_zdrop|].
      by rewrite ztake_0, zdrop_0, app_nil_l.
    + cbn [mbind outcome_bind]. rewrite <- Hw2 in Hidle.
      destruct (high_water_callback_ c); [|by exists w2].
      destruct (_ <=? _); [|by exists w2]. eexists. rewrite wire_queue.
      split_and!; [done|by apply stream_queue_task|exact Hidle].
  - exists w1. split_and!; [done| |exact Hidle]. exists c, ch, q.
    split_and!; [|apply same_conn_refl|done|].
    + split; [done| |done]. by eapply refines_weaken; [exact Hr|lia].
    + rewrite Hwire1, ztake_ge by lia. destruct Hcase as [-> | ->].
      * by rewrite !app_nil_r.
      * rewrite (Zlen_0_nil data) by lia. by rewrite !app_nil_r.
Qed.

(** While bytes wait or POLLOUT is asked for, a send only queues. *)
Lemma sendInLoop_waits tid conn w c ch q bound data :
  conn_base tid conn w c ch -> refines (send_buffer_ c) q bound ->
  q <> [] \/ isWriting ch = true ->
  bound + Zlen data < 2 ^ 63 ->
  exists w' c' ch', sendInLoop task tid conn data w = Ok w' /\ conn_base tid conn w' c' ch' /\
    refines (send_buffer_ c') (q ++ data) (bound + Zlen data) /\ same_conn c c' /\
    wire (socket_ c) w' = wire (socket_ c) w.
Proof.
  intros Hb Hr Hq Hmax. pose proof (Zlen_nonneg data).
  unfold sendInLoop, deref_conn, conn_channel, deref_channel.
  rewrite assert_loop_ok by apply Hb. rewrite (ok_conn _ _ _ _ _ Hb).
  cbn [mbind outcome_bind]. rewrite (ok_channel _ _ _ _ _ Hb). cbn [mbind outcome_bind].
  assert (negb (isWriting ch) && (readableBytes (send_buffer_ c) =? 0) = false) as ->.
  { rewrite (refines_readable _ _ _ Hr). destruct Hq as [Hq| ->]; [|done].
    rewrite (proj2 (Z.eqb_neq (Zlen q) 0)) by (intros E; by apply Hq, Zlen_0_nil).
    by rewrite andb_false_r. }
  destruct (Z.ltb_spec 0 (Zlen data)).
  2: { exists w, c, ch. rewrite (Zlen_0_nil data), app_nil_r, Zlen_nil, Z.add_0_r by lia.
       split_and!; [done..|apply same_conn_refl|done]. }
  rewrite zdrop_0. destruct (refines_append (send_buffer_ c) q bound data) as (b & -> & Hr');
    [done..|]. cbn [mbind outcome_bind].
  destruct (stream_queued tid conn w c ch q (bound + Zlen data) data b w [] data (socket_ c))
    as (w2 & -> & (c' & ch' & q' & [Hb' Hrq _] & Hs & _ & Hd) & Hw2);
    [done..|lia|done|by rewrite app_nil_r|done|].
  cbn [mbind outcome_bind]. rewrite Hw2, <- app_assoc in Hd. apply app_inv_head in Hd as ->.
  destruct (high_water_callback_ c); [|by exists w2, c', ch'].
  destruct (_ <=? _); [|by exists w2, c', ch'].
  eexists _, c', ch'. rewrite wire_queue. split_and!; [done|by apply conn_base_queue|done..|apply Hw2].
Qed.

(** A send in any state of the send buffer and the channel. *)
Lemma sendInLoop_grows tid conn w c ch q bound data :
  conn_base tid conn w c ch -> refines (send_buffer_ c) q bound -> bound + Zlen data < 2 ^ 63 ->
  exists w' c' ch' q', sendInLoop task tid conn data w = Ok w' /\ conn_base tid conn w' c' ch' /\
    refines (send_buffer_ c') q' (bound + Zlen data) /\ same_conn c c' /\
    wire (socket_ c) w' ++ q' = (wire (socket_ c) w ++ q) ++ data.
Proof.
  intros Hb Hr Hmax.
  assert (Hcase : (q <> [] \/ isWriting ch = true) \/ conn_ok tid conn w c ch q bound).
  { destruct q; [|by left; left]. destruct (isWriting ch) eqn:E; [by left; right|by right; split]. }
  destruct Hcase as [Hq|Hok].
  - destruct (sendInLoop_waits tid conn w c ch q bound data Hb Hr Hq Hmax)
      as (w' & c' & ch' & E & Hb' & Hr' & Hs & Hw).
    exists w', c', ch', (q ++ data). rewrite Hw, app_assoc. by split_and!.
  - destruct (sendInLoop_stream tid conn w c ch q bound data Hok Hmax)
      as (w' & E & (c' & ch' & q' & [Hb' Hr' _] & Hs & _ & Hd) & _).
    by exists w', c', ch', q'.
Qed.

(** The same for the buffer overload, whose written bytes are retrieved from the
    caller's buffer. *)
Lemma direct_write_buffer tid conn w c ch q bound buffer data bound' :
  conn_ok tid conn w c ch q bound -> refines buffer data bound' ->
  exists n w1 rest, conn_base tid conn w1 c ch /\ 0 <= n <= Zlen data /\
    (q = [] \/ n = 0) /\ wire (socket_ c) w1 = wire (socket_ c) w ++ ztake n data /\
    refines rest (zdrop n data) bound' /\
    (if Zlen q =? 0 then
       let! data := Ok data in
       match sys_write (socket_ c) data w with
       | (WriteOk n, w) => Ok (retrieve buffer n, w)
       | (WriteErr _, w) => Ok (buffer, w)
       end
     else Ok (buffer, w)) = Ok (rest, w1).
Proof.
  intros [Hb Hr Hw] Hbuf. pose proof (Zlen_nonneg data).
  destruct (Z.eqb_spec (Zlen q) 0) as [Hq0|Hq0].
  2: { exists 0, w, buffer. split_and!; try done; [by right|by rewrite ztake_0, app_nil_r]. }
  cbn [mbind outcome_bind]. destruct (sys_write (socket_ c) data w) as [r w1] eqn:Ew.
  destruct (write_law _ _ _ _ _ Ew) as (Hn & Hwire & Hl & Hc & Hconn).
  assert (Hb1 : conn_base tid conn w1 c ch) by (by apply (conn_base_frame _ _ w)).
  destruct r as [n|e].
  - exists n, w1, (retrieve buffer n). split_and!; try done; try apply Hn.
    + left. by apply Zlen_0_nil.
    + apply refines_retrieve; [done|apply Hn].
  - exists 0, w1, buffer. split_and!; try done. by right.
Qed.

(** Where the bytes the kernel did not take go: swapped in when nothing waited,
    appended behind what waited otherwise. *)
Lemma keep_rest sb rest q d bound bound' :
  refines sb q bound -> refines rest d bound' -> bound + Zlen d < 2 ^ 63 ->
  exists b buffer', refines b (q ++ d) (Z.max bound bound' + Zlen d) /\
    refines buffer' [] (Z.max bound bound') /\
    (if Zlen q =? 0 then Ok (swap sb rest)
     else let! data := peek_bytes rest (Zlen d) in
          let! b := append sb data in Ok (b, retrieveAll rest)) = Ok (b, buffer').
Proof.
  intros Hr Hrest Hmax. pose proof (Zlen_nonneg d).
  destruct (Z.eqb_spec (Zlen q) 0) as [Hq0|Hq0].
  - apply Zlen_0_nil in Hq0 as ->. exists rest, sb. split_and!; [| |done].
    + eapply refines_weaken; [exact Hrest|lia].
    + eapply refines_weaken; [exact Hr|lia].
  - rewrite <- (refines_readable _ _ _ Hrest), (refines_peek _ _ _ Hrest).
    cbn [mbind outcome_bind].
    destruct (refines_append sb q bound d) as (b & -> & Hr'); [done|lia|].
    cbn [mbind outcome_bind]. exists b, (retrieveAll rest). split_and!; [| |done].
    + eapply refines_weaken; [exact Hr'|]. rewrite (refines_readable _ _ _ Hrest). lia.
    + eapply refines_weaken; [by eapply refines_retrieveAll|lia].
Qed.

(** A send that runs late registers a dead connection again.
    [sendInLoop] does not look at the state: a closure queued by [send] while the
    connection was up, run after [connectionDestroyed] has taken the channel out
    of the poller, keeps the bytes and asks for POLLOUT, which puts the channel
    back; nobody will take it out again. *)
Theorem late_send_registers tid conn (w w1 : W) c ch bound data e :
  conn_ok tid conn w c ch [] bound -> state_ c = Disconnected ->
  watched (F := Closure C) (poller_ (get_loop w)) (socket_ c) = None ->
  data <> [] -> bound + Zlen data < 2 ^ 63 -> sys_write (socket_ c) data w = (WriteErr e, w1) ->
  exists w' c', sendInLoop task tid conn data w = Ok w' /\
    get_conn conn w' = Some c' /\ state_ c' = Disconnected /\
    watched (F := Closure C) (poller_ (get_loop w')) (socket_ c)
    = Some (channel_ c, Z.lor (events_ ch) kWriteEvent).
Proof.
  intros Hok Hs _ Hne Hmax Ew. pose proof Hok as [Hb Hr Hw].
  assert (Hlen : 0 < Zlen data).
  { pose proof (Zlen_nonneg data). destruct (decide (Zlen data = 0)); [|lia].
    by destruct Hne; apply Zlen_0_nil. }
  destruct (write_law _ _ _ _ _ Ew) as (_ & _ & Hl & Hc & Hconn).
  assert (Hb1 : conn_base tid conn w1 c ch) by (by apply (conn_base_frame _ _ w)).
  destruct (refines_append (send_buffer_ c) [] bound data) as (b & Eb & Hr'); [done..|].
  assert (Hb2 : conn_base tid conn (put_conn conn (set_send_buffer b c) w1)
    (set_send_buffer b c) ch) by (by eapply conn_base_put).
  destruct (mask_writable (events_ ch) (ok_mask _ _ _ _ _ Hb)) as (Hm & _ & _).
  destruct (change_events_watch listenTillWritable_events tid conn _ _ ch Hb2 Hm)
    as (w3 & i & p' & E & _ & _ & Hb3 & Hwat).
  assert (Hend : forall k, (get_conn conn (queue task tid k w3) = get_conn conn w3) /\
    poller_ (get_loop (queue task tid k w3)) = poller_ (get_loop w3)).
  { intros k. unfold queue, on_loop. rewrite conn_put_loop, get_put_loop. split; [done|].
    unfold queueInLoop, queue_wakeup. by destruct (_ || _). }
  unfold sendInLoop, deref_conn, conn_channel, deref_channel.
  rewrite assert_loop_ok by apply Hb. rewrite (ok_conn _ _ _ _ _ Hb).
  cbn [mbind outcome_bind]. rewrite (ok_channel _ _ _ _ _ Hb). cbn [mbind outcome_bind].
  rewrite (idle_test _ _ _ _ _ _ _ Hok). change (Zlen (@nil byte) =? 0) with true. cbv iota.
  rewrite (ok_socket _ _ _ _ _ Hb), Ew. rewrite (proj2 (Z.ltb_lt 0 (Zlen data))) by done.
  rewrite zdrop_0, Eb. cbn [mbind outcome_bind]. rewrite Hw.
  change (Zlen (@nil byte) =? 0) with true. cbn [negb].
  unfold listenTillWritable. cbn [channel_ set_send_buffer] in E. rewrite E.
  cbn [mbind outcome_bind]. pose proof (ok_conn _ _ _ _ _ Hb3) as Hc3.
  destruct (high_water_callback_ c); [destruct (_ <=? _)|]; eexists _, (set_send_buffer b c);
    split_and!; try done; try apply Hend; destruct (Hend (HighWater conn)) as [H1 H2];
    by rewrite ?H1, ?H2.
Qed.

Lemma sendBufferInLoop_stream tid conn w c ch q bound buffer data bound' :
  conn_ok tid conn w c ch q bound -> refines buffer data bound' ->
  Z.max bound bound' + Zlen data < 2 ^ 63 ->
  exists buffer' w', sendBufferInLoop task tid conn buffer w = Ok (buffer', w') /\
    refines buffer' [] (Z.max bound bound') /\
    stream_grows tid conn w c ch q (Z.max bound bound' + Zlen data) data w'.
Proof.
  intros Hok Hbuf Hmax. pose proof Hok as [Hb Hr Hw]. pose proof (Zlen_nonneg data).
  unfold sendBufferInLoop, deref_conn, conn_channel, deref_channel.
  rewrite assert_loop_ok by apply Hb. rewrite (ok_conn _ _ _ _ _ Hb).
  cbn [mbind outcome_bind]. rewrite (ok_channel _ _ _ _ _ Hb). cbn [mbind outcome_bind].
  rewrite (idle_test _ _ _ _ _ _ _ Hok), (refines_peek _ _ _ Hbuf).
  destruct (direct_write_buffer tid conn w c ch q bound buffer data bound' Hok Hbuf)
    as (n & w1 & rest & Hb1 & Hn & Hcase & Hwire1 & Hrest & ->).
  cbn [mbind outcome_bind].
  rewrite (refines_readable _ _ _ Hrest), (refines_readable _ _ _ Hr), (refines_peek _ _ _ Hrest)
    || rewrite (refines_readable _ _ _ Hrest), (refines_readable _ _ _ Hr).
  destruct (Z.ltb_spec 0 (Zlen (zdrop n data))) as [Hlt|Hge].
  - rewrite Zlen_zdrop in Hlt by lia.
    destruct (keep_rest (send_buffer_ c) rest q (zdrop n data) bound bound')
      as (b & buffer' & Hrb & Hrbuf & ->); [done|done|rewrite Zlen_zdrop by lia; lia|].
    cbn [mbind outcome_bind].
    destruct (arm_writable tid conn
      (warn tid conn c b (put_conn conn (set_send_buffer b c) w1)) (set_send_buffer b c) ch
      (q ++ zdrop n data) (Z.max bound bound' + Zlen data)) as (w2 & ch2 & E2 & Hok2 & Hsd2 & Hw2).
    { apply warn_base. by eapply conn_base_put. }
    { eapply refines_weaken; [exact Hrb|]. rewrite Zlen_zdrop by lia. lia. }
    { rewrite Zlen_app, Zlen_zdrop by lia. pose proof (Zlen_nonneg q). lia. }
    unfold warn in E2. cbn [channel_ set_send_buffer] in E2. rewrite E2.
    cbn [mbind outcome_bind].
    exists buffer', w2. split_and!; [done|done|].
    exists (set_send_buffer b c), ch2, (q ++ zdrop n data). split_and!; [done|done|done|].
    rewrite Hw2, warn_wire, wire_put_conn, Hwire1.
    destruct Hcase as [-> | ->].
    + by rewrite !app_nil_r, app_nil_l, <- app_assoc, ztake_zdrop.
    + by rewrite ztake_0, zdrop_0, app_nil_r, <- app_assoc.
  - rewrite Zlen_zdrop in Hge by lia. exists rest, w1. split_and!; [done| |].
    + rewrite zdrop_ge in Hrest by lia. eapply refines_weaken; [exact Hrest|lia].
    + exists c, ch, q. split_and!; [|apply same_conn_refl|done|].
      * split; [done| |done]. by eapply refines_weaken; [exact Hr|lia].
      * rewrite Hwire1, ztake_ge by lia. destruct Hcase as [-> | ->].
        -- by rewrite !app_nil_r.
        -- rewrite (Zlen_0_nil data) by lia. by rewrite !app_nil_r.
Qed.

(** [shutdownInLoop] is a no-op outside [Connected]. *)
Lemma shutdownInLoop_late tid conn w c :
  thread_id_ (get_loop w) = tid -> get_conn conn w = Some c -> state_ c <> Connected ->
  shutdownInLoop tid conn w = Ok w.
Proof.
  intros Ht Hc Hs. unfold shutdownInLoop, deref_conn. rewrite assert_loop_ok by done.
  rewrite Hc. cbn. by rewrite decide_False.
Qed.

(** Taking [n] bytes off the buffer. *)
Lemma stream_flushed tid conn w w1 c ch q bound n :
  conn_base tid conn w1 c ch -> isWriting ch = true -> refines (send_buffer_ c) q bound ->
  0 < n < Zlen q -> wire (socket_ c) w1 = wire (socket_ c) w ++ ztake n q ->
  stream_grows tid conn w c ch q bound []
    (put_conn conn (set_send_buffer (retrieve (send_buffer_ c) n) c) w1).
Proof.
  intros Hb Hw Hr Hn Hwire.
  exists (set_send_buffer (retrieve (send_buffer_ c) n) c), ch, (zdrop n q).
  split_and!; [|done|done|].
  - split; [by eapply conn_base_put|by apply refines_retrieve; [|lia]|].
    rewrite Hw, Zlen_zdrop by lia. by decide_bools.
  - by rewrite wire_put_conn, Hwire, app_nil_r, <- app_assoc, ztake_zdrop.
Qed.

(** ... and once all of them are out the channel stops asking for POLLOUT. *)
Lemma stream_emptied tid conn w w1 c ch q bound n :
  conn_ok tid conn w c ch q bound -> conn_base tid conn w1 c ch -> n = Zlen q ->
  wire (socket_ c) w1 = wire (socket_ c) w ++ ztake n q ->
  exists w3, on_channels (change_events ignoreWritable_events tid (channel_ c))
      (put_conn conn (set_send_buffer (retrieve (send_buffer_ c) n) c) w1) = Ok w3 /\
    stream_grows tid conn w c ch q bound [] w3.
Proof.
  intros [Hb Hr Hw] Hb1 Hn Hwire. pose proof (Zlen_nonneg q).
  assert (Hb2 : conn_base tid conn
    (put_conn conn (set_send_buffer (retrieve (send_buffer_ c) n) c) w1)
    (set_send_buffer (retrieve (send_buffer_ c) n) c) ch) by (by eapply conn_base_put).
  assert (Hr2 : refines (retrieve (send_buffer_ c) n) (zdrop n q) bound)
    by (apply refines_retrieve; [done|lia]).
  destruct (mask_writable (events_ ch) (ok_mask _ _ _ _ _ Hb)) as (_ & _ & Hm & Hh).
  destruct (change_events_conn ignoreWritable_events tid conn _ _ ch Hb2 Hm)
    as (w3 & i & p' & E & _ & Hw3 & Hb3).
  exists w3. split; [exact E|].
  eexists _, _, (zdrop n q). split_and!; [split; [exact Hb3|exact Hr2|]|done|done|].
  - rewrite isWriting_setIndex. unfold isWriting. cbn.
    unfold ignoreWritable_events. rewrite Hh, Zlen_zdrop by lia. by decide_bools.
  - rewrite Hw3. by rewrite wire_put_conn, Hwire, app_nil_r, <- app_assoc, ztake_zdrop.
Qed.

Lemma handleWritable_stream tid conn w c ch q bound :
  conn_ok tid conn w c ch q bound ->
  exists w', handleWritable task tid conn w = Ok w' /\ stream_grows tid conn w c ch q bound [] w'.
Proof.
  intros Hok. pose proof Hok as [Hb Hr Hw].
  unfold handleWritable, deref_conn, conn_channel, deref_channel.
  rewrite assert_loop_ok by apply Hb. rewrite (ok_conn _ _ _ _ _ Hb).
  cbn [mbind outcome_bind]. rewrite (ok_channel _ _ _ _ _ Hb). cbn [mbind outcome_bind].
  destruct (isWriting ch) eqn:Ewr.
  2: { exists w. split; [done|]. by eapply stream_kept; [exact Hok|]. }
  rewrite (refines_peek _ _ _ Hr). cbn [mbind outcome_bind].
  destruct (sys_write (fd_ ch) q w) as [r w1] eqn:Ew.
  destruct (write_law _ _ _ _ _ Ew) as (Hn & Hwire & Hl & Hc & Hconn).
  rewrite (ok_socket _ _ _ _ _ Hb) in Hwire.
  assert (Hb1 : conn_base tid conn w1 c ch) by (by apply (conn_base_frame _ _ w)).
  assert (Hkeep : taken r q = [] -> stream_grows tid conn w c ch q bound [] w1).
  { intros Ht. exists c, ch, q.
    split_and!; [|apply same_conn_refl|done|by rewrite Hwire, Ht, !app_nil_r].
    split; [done|done|by rewrite Ewr]. }
  destruct r as [n|e]; cbn [taken write_result_ok] in *.
  2: { exists w1. split; [done|by apply Hkeep]. }
  destruct (Z.ltb_spec 0 n) as [Hpos|Hz].
  2: { exists w1. split; [done|]. apply Hkeep. by replace n with 0 by lia. }
  set (w2 := put_conn conn (set_send_buffer (retrieve (send_buffer_ c) n) c) w1).
  assert (Hr2 : refines (retrieve (send_buffer_ c) n) (zdrop n q) bound)
    by (apply refines_retrieve; [done|lia]).
  rewrite (refines_readable _ _ _ Hr2), Zlen_zdrop by lia.
  destruct (Z.eqb_spec (Zlen q - n) 0) as [Hall|Hpart].
  2: { exists w2. split; [done|]. apply (stream_flushed tid conn w w1 c ch q bound n); try done.
       lia. }
  destruct (stream_emptied tid conn w w1 c ch q bound n Hok Hb1 ltac:(lia) Hwire)
    as (w3 & E & Hs3).
  unfold ignoreWritable, w2. rewrite E. cbn [mbind outcome_bind].
  set (w4 := match write_complete_callback_ c with
             | Some _ => queue task tid (WriteComplete conn) w3 | None => w3 end).
  assert (Hs4 : stream_grows tid conn w c ch q bound [] w4).
  { unfold w4. destruct (write_complete_callback_ c); [by apply stream_queue_task|done]. }
  exists w4. split; [|done]. case_decide as Hd; [|done].
  destruct Hs4 as (c4 & ch4 & q4 & [Hb4 _ _] & (_ & _ & Hst & _)%same_conn_fields & _).
  apply (shutdownInLoop_late tid conn w4 c4); [apply Hb4|apply Hb4|congruence].
Qed.

(** ** A history of the loop's thread *)
Inductive conn_op : Type :=
| OpSend (data : list byte)
| OpSendBuffer (buffer : Buffer)
| OpWritable.

Definition run_conn_op (tid : Z) (conn : ConnId) (o : conn_op) (w : W) : outcome W :=
  match o with
  | OpSend data => send task user tid conn data w
  | OpSendBuffer buffer => let! (_, w) := send_buffer task user tid conn buffer w in Ok w
  | OpWritable => handleWritable task tid conn w
  end.

Fixpoint run_conn_ops (tid : Z) (conn : ConnId) (os : list conn_op) (w : W) : outcome W :=
  match os with
  | [] => Ok w
  | o :: os => let! w := run_conn_op tid conn o w in run_conn_ops tid conn os w
  end.

(** The bytes an operation sends, and the storage it may need. *)
Definition op_data (o : conn_op) : list byte :=
  match o with
  | OpSend data => data | OpSendBuffer buffer => content buffer | OpWritable => []
  end.
Definition op_storage (o : conn_op) : Z :=
  match o with
  | OpSend data => Zlen data
  | OpSendBuffer buffer => Zlen (buffer_ buffer) + Zlen (content buffer)
  | OpWritable => 0
  end.
Definition op_wf (o : conn_op) : Prop :=
  match o with
  | OpSendBuffer buffer => wf buffer /\ CHEAP_PREPEND <= read_index_ buffer
  | _ => True
  end.
Definition ops_storage (os : list conn_op) : Z := foldr (fun o n => op_storage o + n) 0 os.

Lemma stream_weaken tid conn w c ch q b b' data w' :
  stream_grows tid conn w c ch q b data w' -> b <= b' -> stream_grows tid conn w c ch q b' data w'.
Proof.
  intros (c' & ch' & q' & [Hb Hr Hw] & Hs & Hsd & Hd) Hle. exists c', ch', q'.
  split_and!; [|done|done|done]. split; [done|by eapply refines_weaken|done].
Qed.

Lemma run_conn_op_stream tid conn o w c ch q bound :
  conn_ok tid conn w c ch q bound -> state_ c = Connected -> op_wf o ->
  bound + op_storage o < 2 ^ 63 -> 0 <= bound ->
  exists w', run_conn_op tid conn o w = Ok w' /\
    stream_grows tid conn w c ch q (bound + op_storage o) (op_data o) w'.
Proof.
  intros Hok Hs Hwf Hmax H0. pose proof (ok_base _ _ _ _ _ _ _ Hok) as Hb.
  assert (Hin : isInLoopThread tid (get_loop w) = true).
  { unfold isInLoopThread. rewrite (ok_thread _ _ _ _ _ Hb). apply Z.eqb_refl. }
  destruct o as [data|buffer|]; cbn [run_conn_op op_data op_storage op_wf] in *.
  - unfold send, when_connected, deref_conn. rewrite (ok_conn _ _ _ _ _ Hb).
    cbn [mbind outcome_bind]. rewrite decide_True by done. rewrite Hin.
    destruct (sendInLoop_stream tid conn w c ch q bound data) as (w' & E & Hg & _); [done..|].
    by exists w'.
  - destruct Hwf as [Hwf Hri].
    pose proof (Zlen_nonneg (buffer_ buffer)). pose proof (Zlen_nonneg (content buffer)).
    destruct (sendBufferInLoop_stream tid conn w c ch q bound buffer (content buffer)
      (Zlen (buffer_ buffer))) as (buffer' & w' & E & _ & Hg); [done| |lia|].
    { split_and!; [done|done|done|lia]. }
    unfold send_buffer, deref_conn. rewrite (ok_conn _ _ _ _ _ Hb).
    cbn [mbind outcome_bind]. rewrite decide_True by done. rewrite Hin, E.
    cbn. exists w'. split; [done|]. eapply stream_weaken; [exact Hg|lia].
  - destruct (handleWritable_stream tid conn w c ch q bound Hok) as (w' & E & Hg).
    exists w'. split; [done|]. eapply stream_weaken; [exact Hg|lia].
Qed.

Lemma ops_storage_nonneg os : 0 <= ops_storage os.
Proof.
  induction os as [|o os IH]; cbn; [done|]. fold (ops_storage os).
  destruct o; cbn; [pose proof (Zlen_nonneg data)| |]; try lia.
  pose proof (Zlen_nonneg (buffer_ buffer)). pose proof (Zlen_nonneg (content buffer)). lia.
Qed.

Lemma stream_grows_trans tid conn w c ch q b1 d1 w1 b2 d2 w2 :
  stream_grows tid conn w c ch q b1 d1 w1 ->
  (forall c1 ch1 q1, conn_ok tid conn w1 c1 ch1 q1 b1 -> same_conn c c1 ->
    stream_grows tid conn w1 c1 ch1 q1 b2 d2 w2) ->
  stream_grows tid conn w c ch q b2 (d1 ++ d2) w2.
Proof.
  intros (c1 & ch1 & q1 & Hok1 & Hs1 & Hsd1 & Hd1) H.
  destruct (H c1 ch1 q1 Hok1 Hs1) as (c2 & ch2 & q2 & Hok2 & Hs2 & Hsd2 & Hd2).
  pose proof (same_conn_fields _ _ Hs1) as (Hsock & _). rewrite Hsock in Hd2.
  exists c2, ch2, q2. split_and!; [done|by eapply same_conn_trans| |].
  - unfold same_dispatch in *. intuition congruence.
  - by rewrite Hd2, Hd1, <- !app_assoc.
Qed.

Lemma run_conn_ops_stream tid conn os w c ch q bound :
  conn_ok tid conn w c ch q bound -> state_ c = Connected -> Forall op_wf os ->
  0 <= bound -> bound + ops_storage os < 2 ^ 63 ->
  exists w', run_conn_ops tid conn os w = Ok w' /\
    stream_grows tid conn w c ch q (bound + ops_storage os) (concat (map op_data os)) w'.
Proof.
  revert w c ch q bound. induction os as [|o os IH]; intros w c ch q bound Hok Hs Hwf H0 Hmax.
  { exists w. split; [done|]. eapply stream_kept; [done|]. cbn. lia. }
  apply list.Forall_cons in Hwf as [Ho Hwf]. cbn [ops_storage foldr] in *. fold (ops_storage os) in *.
  pose proof (ops_storage_nonneg os) as Hgs. pose proof (ops_storage_nonneg [o]) as Hg.
  cbn in Hg. rewrite Z.add_0_r in Hg.
  destruct (run_conn_op_stream tid conn o w c ch q bound Hok Hs Ho) as (w1 & E1 & Hs1); [lia|done|].
  pose proof Hs1 as (c1 & ch1 & q1 & Hok1 & (_ & _ & Hst & _)%same_conn_fields & _).
  destruct (IH w1 c1 ch1 q1 _ Hok1) as (w2 & E2 & Hs2); [congruence|done|lia|lia|].
  exists w2. cbn [run_conn_ops]. rewrite E1. split; [exact E2|]. rewrite Z.add_assoc.
  eapply stream_grows_trans; [exact Hs1|]. intros c2 ch2 q2 Hok2 Hs2'.
  destruct (IH w1 c2 ch2 q2 _ Hok2) as (w2' & E2' & Hs2''); [|done|lia|lia|].
  { apply same_conn_fields in Hs2' as (_ & _ & Hst' & _). congruence. }
  rewrite E2 in E2'. by injection E2' as ->.
Qed.

(** C5: the outgoing stream is neither lost, duplicated nor reordered.  Whatever
    the kernel answers to the writes (all, some, none, an error), after any
    history of [send]s and writable events on the loop's thread, what the kernel
    took followed by what waits in [send_buffer_] is the bytes sent, in order;
    and the channel asks for POLLOUT exactly while bytes wait. *)
Theorem byte_stream_in_order tid conn (os : list conn_op) (w : W) c ch q bound :
  conn_ok tid conn w c ch q bound -> state_ c = Connected -> Forall op_wf os ->
  0 <= bound -> bound + ops_storage os < 2 ^ 63 ->
  exists w' c' ch' q', run_conn_ops tid conn os w = Ok w' /\
    conn_ok tid conn w' c' ch' q' (bound + ops_storage os) /\
    wire (socket_ c) w' ++ q' = wire (socket_ c) w ++ q ++ concat (map op_data os) /\
    (isWriting ch' = true <-> q' <> []).
Proof.
  intros Hok Hs Hwf H0 Hmax.
  destruct (run_conn_ops_stream tid conn os w c ch q bound Hok Hs Hwf H0 Hmax)
    as (w' & E & c' & ch' & q' & Hok' & _ & _ & Hd).
  exists w', c', ch', q'. rewrite app_assoc. split_and!; [done..|].
  rewrite (ok_writing _ _ _ _ _ _ _ Hok'). destruct q' as [|x q']; [done|].
  rewrite Zlen_cons. pose proof (Zlen_nonneg q'). by decide_bools.
Qed.

(** Bytes that wait are never flushed by the loop: no operation gives the
    connection's channel a write callback, so when the poller reports POLLOUT
    (alone or with POLLERR or POLLHUP) for a connection with a pending queue,
    [handleEvent] runs nothing and the queue stays as it is. *)
Theorem pollout_never_flushes tid conn (w : W) c ch q bound client :
  conn_ok tid conn w c ch q bound ->
  has (return_events_ ch) (Z.lor (Z.lor POLLIN POLLPRI) POLLRDHUP) = false ->
  handleEvent (fun w => get_channels w !! channel_ c) (run client) w = Ok w.
Proof.
  intros [Hb _ _] Hr. destruct (ok_unwired _ _ _ _ _ Hb) as [Hwr Herr].
  apply (handleEvent_reader _ _ _ ch); [apply Hb|done|by rewrite Hr|].
  exists ch. split; [apply Hb|done].
Qed.

(** C36: [shutdown] never reaches the socket.  It moves the connection to
    [Disconnecting] before [shutdownInLoop], which acts only on [Connected]; so
    on the loop's thread the state is all that changes, the task another thread
    queues is a no-op when it runs, and so is the one of [handleWritable] after
    the last byte.  From then on the connection drops everything it is sent. *)
Theorem shutdown_never_reaches_socket (conn : ConnId) (w : W) (c : TcpConnection U) :
  get_conn conn w = Some c -> state_ c = Connected ->
  (shutdown task user (thread_id_ (get_loop w)) conn w
   = Ok (put_conn conn (setState Disconnecting c) w)) /\
  (forall tid, tid <> thread_id_ (get_loop w) ->
   shutdown task user tid conn w
   = Ok (queue task tid (ShutdownInLoop conn) (put_conn conn (setState Disconnecting c) w))) /\
  forall tid w1 c1 data, get_conn conn w1 = Some c1 -> state_ c1 = Disconnecting ->
    send task user tid conn data w1 = Ok w1 /\
    (tid = thread_id_ (get_loop w1) ->
     run_conn_task task user tid (ShutdownInLoop conn) w1 = Ok w1).
Proof.
  intros Hc Hs.
  assert (Hgo : forall tid, shutdown task user tid conn w
    = run_in_loop task user tid (ShutdownInLoop conn) (put_conn conn (setState Disconnecting c) w)).
  { intros tid. unfold shutdown, when_connected, setState_of, deref_conn. rewrite Hc.
    cbn [mbind outcome_bind]. by rewrite decide_True. }
  split_and!.
  - rewrite Hgo. unfold run_in_loop, isInLoopThread. rewrite loop_put_conn, Z.eqb_refl.
    apply (shutdownInLoop_late _ _ _ (setState Disconnecting c)); [by rewrite loop_put_conn| |done].
    by rewrite get_put_conn, decide_True.
  - intros tid Hne. rewrite Hgo. unfold run_in_loop, isInLoopThread. rewrite loop_put_conn.
    by rewrite (proj2 (Z.eqb_neq _ _)).
  - intros tid w1 c1 data Hc1 Hs1. split.
    + unfold send, when_connected, deref_conn. rewrite Hc1. cbn. by rewrite decide_False by congruence.
    + intros ->. apply (shutdownInLoop_late _ _ _ c1); congruence.
Qed.

Lemma mask_readable m : client_mask m ->
  client_mask (Z.lor m kReadEvent) /\ has (Z.lor m kReadEvent) kWriteEvent = has m kWriteEvent.
Proof.
  unfold client_mask, has. intros Hm. split.
  - rewrite Z.land_lor_distr_l, <- Hm. f_equal.
  - rewrite Z.land_lor_distr_l. change (Z.land kReadEvent kWriteEvent) with 0.
    by rewrite Z.lor_0_r.
Qed.

(** Changing the parts of the channel that no poller reads. *)
Lemma conn_base_member tid conn w c ch ch' :
  conn_base tid conn w c ch -> fd_ ch' = fd_ ch -> index_ ch' = index_ ch ->
  loop_ ch' = loop_ ch -> events_ ch' = events_ ch ->
  write_callback_ ch' = write_callback_ ch -> error_callback_ ch' = error_callback_ ch ->
  conn_base tid conn (put_channels (<[channel_ c := ch']> (get_channels w)) w) c ch'.
Proof.
  intros [] Hfd Hi Hl He Hw Herr.
  split; rewrite ?loop_put_channels, ?get_put_channels, ?conn_put_channels,
    ?Hfd, ?Hl, ?He, ?Hw, ?Herr; try done.
  - apply lookup_insert_eq.
  - by eapply member_law.
Qed.

Lemma on_channels_shape f (w w' : W) : on_channels f w = Ok w' ->
  exists lp st, w' = put_channels st (put_loop lp w) /\ get_loop w' = lp.
Proof.
  unfold on_channels. intros H. inv_ok. destruct a as [lp st]. injection H as <-.
  exists lp, st. by rewrite loop_put_channels, get_put_loop.
Qed.

Lemma connectionEstablished_spec tid conn (w : W) c ch bound :
  conn_base tid conn w c ch -> refines (send_buffer_ c) [] bound -> isWriting ch = false ->
  (state_ c <> Connecting -> connectionEstablished user tid conn w = Abort) /\
  (state_ c = Connecting -> exists w' ch',
    connectionEstablished user tid conn w = call_user user (connection_callback_ c) conn w' /\
    conn_ok tid conn w' (setState Connected c) ch' [] bound /\
    tied_ ch' = true /\ parent_ ch' = Some conn /\ has (events_ ch') kReadEvent = true /\
    connectionEstablished user tid conn w' = Abort /\
    read_callback_ ch' = read_callback_ ch /\
    exists lp st st0, w' = put_channels st (put_loop lp
      (put_channels st0 (put_conn conn (setState Connected c) w)))).
Proof.
  intros Hb Hr Hw. split; intros Hs.
  { unfold connectionEstablished, deref_conn. rewrite assert_loop_ok by apply Hb.
    rewrite (ok_conn _ _ _ _ _ Hb). cbn. by rewrite bool_decide_false. }
  assert (Hb1 : conn_base tid conn (put_conn conn (setState Connected c) w)
    (setState Connected c) ch) by (by eapply conn_base_put).
  pose proof (conn_base_member _ _ _ _ _ (tie conn ch) Hb1 eq_refl eq_refl eq_refl eq_refl
    eq_refl eq_refl) as Hb2.
  destruct (mask_readable (events_ ch) (ok_mask _ _ _ _ _ Hb)) as [Hm Hh].
  destruct (change_events_conn listenTillReadable_events tid conn _ _ _ Hb2 Hm)
    as (w3 & i & p' & E & _ & _ & Hb3).
  destruct (on_channels_shape _ _ _ E) as (lp & st & Es & _).
  eexists w3, _. split_and!.
  - unfold connectionEstablished, deref_conn. rewrite assert_loop_ok by apply Hb.
    rewrite (ok_conn _ _ _ _ _ Hb). cbn [mbind outcome_bind]. rewrite bool_decide_true by done.
    cbn [negb]. unfold conn_channel, deref_channel.
    pose proof (ok_channel _ _ _ _ _ Hb1) as Hch. cbn [channel_ setState] in Hch. rewrite Hch.
    cbn [mbind outcome_bind]. unfold listenTillReadable. cbn [channel_ setState] in E.
    by rewrite E.
  - split; [exact Hb3|done|]. rewrite isWriting_setIndex. unfold isWriting. cbn.
    unfold listenTillReadable_events. cbn. by rewrite Hh.
  - done.
  - done.
  - cbn. unfold listenTillReadable_events, has. cbn. rewrite Z.land_lor_distr_l.
    destruct (Z.eqb_spec (Z.lor (Z.land (events_ ch) kReadEvent) (Z.land kReadEvent kReadEvent)) 0)
      as [H|]; [|done]. by apply Z.lor_eq_0_iff in H as [_ ?].
  - unfold connectionEstablished, deref_conn. rewrite assert_loop_ok by apply Hb3.
    rewrite (ok_conn _ _ _ _ _ Hb3). done.
  - done.
  - by eexists lp, st, _.
Qed.

(** The start of a connection.  [connectionEstablished] aborts unless the
    connection is [Connecting]; otherwise the connection is [Connected] and tied,
    asks for reading and not for writing, and the connection callback is called
    on it, once.  In particular it cannot be established twice. *)
Theorem connection_established tid conn (w : W) c ch bound :
  conn_base tid conn w c ch -> refines (send_buffer_ c) [] bound -> isWriting ch = false ->
  (state_ c <> Connecting -> connectionEstablished user tid conn w = Abort) /\
  (state_ c = Connecting -> exists w' ch',
    connectionEstablished user tid conn w = call_user user (connection_callback_ c) conn w' /\
    conn_ok tid conn w' (setState Connected c) ch' [] bound /\
    tied_ ch' = true /\ parent_ ch' = Some conn /\ has (events_ ch') kReadEvent = true /\
    connectionEstablished user tid conn w' = Abort).
Proof.
  intros Hb Hr Hw. destruct (connectionEstablished_spec tid conn w c ch bound Hb Hr Hw) as [H1 H2].
  split; [exact H1|]. intros Hs.
  destruct (H2 Hs) as (w' & ch' & ? & ? & ? & ? & ? & ? & _). by exists w', ch'.
Qed.

Lemma none_mask : client_mask kNoneEvent.
Proof. done. Qed.

Lemma handleClose_closes tid conn w c ch :
  conn_base tid conn w c ch -> state_ c = Connected \/ state_ c = Disconnecting ->
  exists w' ch',
    handleClose user tid conn w
    = match close_callback_ c with Some f => user f conn w' | None => Abort end /\
    conn_base tid conn w' (setState Disconnected c) ch' /\ events_ ch' = kNoneEvent /\
    exists p' st', w' = put_channels st' (put_loop (set_poller p' (get_loop w))
      (put_conn conn (setState Disconnected c) w)).
Proof.
  intros Hb Hs.
  assert (Hb1 : conn_base tid conn (put_conn conn (setState Disconnected c) w)
    (setState Disconnected c) ch) by (by eapply conn_base_put).
  destruct (change_events_conn ignoreAll_events tid conn _ _ _ Hb1 none_mask)
    as (w3 & i & p' & E & El & _ & Hb3).
  destruct (on_channels_shape _ _ _ E) as (lp & st' & Es & Elp).
  eexists w3, _. split_and!; [|exact Hb3|done|].
  2: { exists p', st'. rewrite <- (loop_put_conn conn (setState Disconnected c) w), <- El, Elp.
       exact Es. }
  unfold handleClose, deref_conn. rewrite assert_loop_ok by apply Hb.
  rewrite (ok_conn _ _ _ _ _ Hb). cbn [mbind outcome_bind].
  assert (Et : negb (bool_decide (state_ c = Connected))
               && negb (bool_decide (state_ c = Disconnecting)) = false).
  { by destruct Hs as [-> | ->]. }
  rewrite Et. unfold ignoreAll. cbn [channel_ setState] in E. by rewrite E.
Qed.

Lemma handleError_keeps tid conn w c ch : conn_base tid conn w c ch ->
  exists w', handleError conn w = Ok w' /\ conn_base tid conn w' c ch.
Proof.
  intros Hb. unfold handleError, deref_conn. rewrite (ok_conn _ _ _ _ _ Hb).
  cbn [mbind outcome_bind]. eexists. split; [done|].
  destruct (so_error_law (socket_ c) w) as (H1 & H2 & H3).
  unfold Socket.getSocketError. destruct (Socket.sys_getsockopt_error (socket_ c) w) as [r w'].
  by apply (conn_base_frame _ _ w).
Qed.

Lemma writable_room b q bound : refines b q bound -> 0 <= writableBytes b + EXTRA_SIZE.
Proof.
  intros (Hwf & _). rewrite writable_eq by done. destruct Hwf as (? & ? & ?).
  unfold EXTRA_SIZE. lia.
Qed.

(** A readable event that delivers [data], the end of file being [[]]. *)
Lemma handleReadable_read tid conn w c ch rq rbound data w1 :
  conn_base tid conn w c ch -> refines (receive_buffer_ c) rq rbound ->
  rbound + (rbound + EXTRA_SIZE) < 2 ^ 63 ->
  sys_read (socket_ c) (writableBytes (receive_buffer_ c) + EXTRA_SIZE) w = (ReadOk data, w1) ->
  exists b, refines b (rq ++ data) (rbound + Zlen data) /\
    conn_base tid conn (put_conn conn (set_receive_buffer b c) w1) (set_receive_buffer b c) ch /\
    handleReadable user tid conn w
    = (if 0 <? Zlen data then call_user user (message_callback_ c) conn
       else handleClose user tid conn) (put_conn conn (set_receive_buffer b c) w1).
Proof.
  intros Hb Hr Hmax Er. pose proof Hr as (Hwf & Hq & Hri & Hbound).
  pose proof Hwf as (? & ? & ?). pose proof (writable_eq _ Hwf) as Ew.
  destruct (read_law _ _ _ _ _ (writable_room _ _ _ Hr) Er) as (Hcap & Hl & Hch & Hconn).
  assert (Hb1 : conn_base tid conn w1 c ch) by (by apply (conn_base_frame _ _ w)).
  destruct (readFd_spec (receive_buffer_ c) data) as (b & E & Happ);
    [done|done|done|unfold EXTRA_SIZE in *; lia|].
  exists b. split_and!; [by eapply refines_appended|by eapply conn_base_put|].
  unfold handleReadable, deref_conn. rewrite assert_loop_ok by apply Hb.
  rewrite (ok_conn _ _ _ _ _ Hb). cbn [mbind outcome_bind]. rewrite Er, E.
  cbn [mbind outcome_bind]. pose proof (Zlen_nonneg data).
  destruct (Z.ltb_spec 0 (Zlen data)); [done|]. by rewrite (proj2 (Z.eqb_eq _ _)) by lia.
Qed.

(** ... and one whose read fails. *)
Lemma handleReadable_failed tid conn w c ch e w1 :
  conn_base tid conn w c ch -> 0 <= writableBytes (receive_buffer_ c) + EXTRA_SIZE ->
  sys_read (socket_ c) (writableBytes (receive_buffer_ c) + EXTRA_SIZE) w = (ReadErr e, w1) ->
  conn_base tid conn (put_conn conn c w1) c ch /\
  handleReadable user tid conn w = handleError conn (put_conn conn c w1).
Proof.
  intros Hb H0 Er. destruct (read_law _ _ _ _ _ H0 Er) as (_ & Hl & Hch & Hconn).
  assert (Hb1 : conn_base tid conn w1 c ch) by (by apply (conn_base_frame _ _ w)).
  split; [by eapply conn_base_put|].
  unfold handleReadable, deref_conn. rewrite assert_loop_ok by apply Hb.
  rewrite (ok_conn _ _ _ _ _ Hb). cbn [mbind outcome_bind]. rewrite Er.
  cbn [readFd mbind outcome_bind Z.ltb Z.compare Z.eqb].
  by assert (set_receive_buffer (receive_buffer_ c) c = c) as -> by (by destruct c).
Qed.

(** What a readable event does.  Bytes are appended to the receive buffer
    and the message callback is called with them there; end of file leads a
    connection that is up to [Disconnected], deaf to all events, and then to the
    close callback (an end of file in any other state aborts); an error of the
    read changes nothing of the connection, which stays open. *)
Theorem handleReadable_branches tid conn (w : W) c ch rq rbound :
  conn_base tid conn w c ch -> refines (receive_buffer_ c) rq rbound ->
  rbound + (rbound + 65536) < 2 ^ 63 ->
  match (sys_read (socket_ c) (writableBytes (receive_buffer_ c) + 65536) w).1 with
  | ReadOk [] =>
      (state_ c = Connected \/ state_ c = Disconnecting -> exists w' c' ch',
         handleReadable user tid conn w
         = match close_callback_ c with Some f => user f conn w' | None => Abort end /\
         conn_base tid conn w' c' ch' /\ state_ c' = Disconnected /\ events_ ch' = 0) /\
      (state_ c = Connecting \/ state_ c = Disconnected ->
         handleReadable user tid conn w = Abort)
  | ReadOk data => exists w' c',
      handleReadable user tid conn w = call_user user (message_callback_ c) conn w' /\
      conn_base tid conn w' c' ch /\ content (receive_buffer_ c') = rq ++ data /\
      state_ c' = state_ c
  | ReadErr _ => exists w', handleReadable user tid conn w = Ok w' /\
      conn_base tid conn w' c ch
  end.
Proof.
  intros Hb Hr Hmax. change 65536 with EXTRA_SIZE in *.
  destruct (sys_read _ _ w) as [r w1] eqn:Er. cbn [fst].
  destruct r as [data|e].
  2: { destruct (handleReadable_failed tid conn w c ch e w1 Hb (writable_room _ _ _ Hr) Er)
         as [Hb1 ->]. by apply (handleError_keeps tid conn _ c ch). }
  destruct (handleReadable_read tid conn w c ch rq rbound data w1 Hb Hr Hmax Er)
    as (b & Hr' & Hb' & ->).
  destruct data as [|x data]; [change (0 <? Zlen (@nil byte)) with false; cbv iota; split|].
  - intros Hs. destruct (handleClose_closes tid conn _ _ _ Hb' Hs) as (w' & ch' & -> & Hb3 & He & _).
    exists w', (setState Disconnected (set_receive_buffer b c)), ch'. by split_and!.
  - intros Hs. unfold handleClose, deref_conn. rewrite assert_loop_ok by apply Hb'.
    rewrite (ok_conn _ _ _ _ _ Hb'). cbn. by destruct Hs as [-> | ->].
  - rewrite (proj2 (Z.ltb_lt 0 (Zlen (x :: data)))).
    2: { rewrite Zlen_cons. pose proof (Zlen_nonneg data). lia. }
    eexists _, _. split_and!; [done|exact Hb'| |done]. apply Hr'.
Qed.

(** The two sends disagree on the write-complete callback.  When the kernel
    takes all the bytes at once, [sendInLoop(const char*, size_t)] queues the
    callback and [sendInLoop(Buffer&)] does not. *)
Theorem write_complete_differs tid conn (w w1 : W) c ch bound buffer data bound' f :
  conn_ok tid conn w c ch [] bound -> refines buffer data bound' ->
  write_complete_callback_ c = Some f ->
  sys_write (socket_ c) data w = (WriteOk (Zlen data), w1) ->
  sendInLoop task tid conn data w = Ok (queue task tid (WriteComplete conn) w1) /\
  exists buffer', sendBufferInLoop task tid conn buffer w = Ok (buffer', w1).
Proof.
  intros Hok Hbuf Hcb Hw. pose proof Hok as [Hb Hr _].
  pose proof (idle_test _ _ _ _ _ _ _ Hok) as Hidle. cbn in Hidle.
  unfold sendInLoop, sendBufferInLoop, deref_conn, conn_channel, deref_channel.
  rewrite assert_loop_ok by apply Hb. rewrite (ok_conn _ _ _ _ _ Hb).
  cbn [mbind outcome_bind]. rewrite (ok_channel _ _ _ _ _ Hb). cbn [mbind outcome_bind].
  rewrite Hidle. change (Zlen (@nil byte) =? 0) with true. cbv iota.
  rewrite (ok_socket _ _ _ _ _ Hb), Hw, Hcb, Z.ltb_irrefl. split; [done|].
  rewrite (refines_peek _ _ _ Hbuf). cbn [mbind outcome_bind]. rewrite Hw.
  cbn [mbind outcome_bind].
  pose proof (refines_retrieve buffer data bound' (Zlen data) Hbuf (Zlen_nonneg data)) as Hr'.
  rewrite (refines_readable _ _ _ Hr'), zdrop_ge by lia. by eexists.
Qed.

(** A pointer sent from another thread is read later.  [send(const char*,
    size_t)] off the loop's thread queues the pointer, and the task reads the
    memory when it runs: undefined if the caller has freed it by then, while
    [send(std::string)] queues the bytes. *)
Theorem raw_send_outlives_caller (tid : Z) conn (w w1 : W) c c1 msg len data :
  get_conn conn w = Some c -> state_ c = Connected -> tid <> thread_id_ (get_loop w) ->
  get_conn conn w1 = Some c1 -> load_bytes msg len w1 = None ->
  send_ptr task user tid conn msg len w = Ok (queue task tid (SendRaw conn msg len) w) /\
  run_conn_task task user (thread_id_ (get_loop w1)) (SendRaw conn msg len) w1 = Undef /\
  send task user tid conn data w = Ok (queue task tid (SendString conn data) w) /\
  run_conn_task task user (thread_id_ (get_loop w1)) (SendString conn data) w1
  = sendInLoop task (thread_id_ (get_loop w1)) conn data w1.
Proof.
  intros Hc Hs Hne Hc1 Hload.
  assert (Hin : isInLoopThread tid (get_loop w) = false).
  { unfold isInLoopThread. apply Z.eqb_neq. congruence. }
  unfold send_ptr, send, when_connected, deref_conn, run_in_loop. rewrite Hc.
  cbn [mbind outcome_bind]. rewrite !decide_True by done. rewrite Hin.
  split_and!; try done. cbn [run_conn_task]. unfold send_raw. by rewrite Hload.
Qed.
End ConnTheorems.

(** ** A connection over the poll poller and a scripted kernel *)
Record DemoConns := mkDemoConns {
  dc_loop : EventLoop Poller.Poller ConnTask;
  dc_channels : Store (Closure ConnTask);
  dc_conns : gmap ConnId (TcpConnection Z);
  dc_wire : gmap Z (list byte);
  dc_script : list (option nat);   (** what the next writes accept *)
  dc_input : option (list byte);   (** what a read delivers *)
  dc_calls : list Z;               (** the user callbacks that ran *)
}.

#[global] Instance demo_conns_loop : LoopWorld DemoConns Poller.Poller ConnTask := {
  get_loop := dc_loop;
  put_loop lp w := mkDemoConns lp (dc_channels w) (dc_conns w) (dc_wire w) (dc_script w)
    (dc_input w) (dc_calls w);
  get_channels := dc_channels;
  put_channels st w := mkDemoConns (dc_loop w) st (dc_conns w) (dc_wire w) (dc_script w)
    (dc_input w) (dc_calls w);
}.

#[global] Instance demo_conns_conns : ConnWorld DemoConns Z := {
  get_conn conn w := dc_conns w !! conn;
  put_conn conn c w := mkDemoConns (dc_loop w) (dc_channels w) (<[conn := c]> (dc_conns w))
    (dc_wire w) (dc_script w) (dc_input w) (dc_calls w);
  drop_conn conn w := mkDemoConns (dc_loop w) (dc_channels w) (delete conn (dc_conns w))
    (dc_wire w) (dc_script w) (dc_input w) (dc_calls w);
}.

Definition dc_on_wire (fd : Z) (w : DemoConns) : list byte := default [] (dc_wire w !! fd).

Definition demo_write (fd : Z) (data : list byte) (w : DemoConns) : write_result * DemoConns :=
  match dc_script w with
  | Some n :: script =>
      let n := Z.min (Z.of_nat n) (Zlen data) in
      (WriteOk n, mkDemoConns (dc_loop w) (dc_channels w) (dc_conns w)
         (<[fd := dc_on_wire fd w ++ ztake n data]> (dc_wire w)) script (dc_input w) (dc_calls w))
  | _ :: script =>
      (WriteErr EWOULDBLOCK, mkDemoConns (dc_loop w) (dc_channels w) (dc_conns w)
         (dc_wire w) script (dc_input w) (dc_calls w))
  | [] => (WriteErr EWOULDBLOCK, w)
  end.

#[global] Instance demo_conns_kernel : SocketKernel DemoConns := {
  sys_write := demo_write;
  sys_read fd cap w := (match dc_input w with
                        | Some data => ReadOk (take (Z.to_nat cap) data)
                        | None => ReadErr 104
                        end, w);
  load_bytes _ _ _ := None;
}.

#[global] Instance demo_conns_calls : Socket.SocketCalls DemoConns := {
  Socket.sys_setsockopt _ _ _ _ w := (None, w);
  Socket.sys_bind _ _ w := (None, w);
  Socket.sys_listen _ _ w := (None, w);
  Socket.sys_connect _ _ w := (None, w);
  Socket.sys_accept4 _ w := (-1, mkSockaddr 0 0 0, w);
  Socket.sys_getsockname _ _ := None;
  Socket.sys_getpeername _ _ := None;
  Socket.sys_getsockopt_error _ w := (inr 0, w);
  Socket.sys_shutdown _ _ w := (None, w);
  Socket.sys_close _ w := w;
}.

#[global] Instance demo_conns_loop_laws : LoopWorldLaws DemoConns Poller.Poller ConnTask.
Proof. by split. Qed.

Lemma ztake_take_le {A} cap (data : list A) : 0 <= cap -> Zlen (take (Z.to_nat cap) data) <= cap.
Proof. unfold Zlen. rewrite length_take. lia. Qed.

Lemma demo_write_law fd data (w : DemoConns) r w' : demo_write fd data w = (r, w') ->
  write_result_ok (Zlen data) r /\ dc_on_wire fd w' = dc_on_wire fd w ++ taken r data /\
  dc_loop w' = dc_loop w /\ dc_channels w' = dc_channels w /\ dc_conns w' = dc_conns w.
Proof.
  unfold demo_write. pose proof (Zlen_nonneg data).
  destruct (dc_script w) as [|[n|] script]; intros H'; injection H' as <- <-; cbn [taken];
    (split_and!; [cbn; lia || done| |done..]);
    unfold dc_on_wire; cbn [dc_wire]; rewrite ?lookup_insert_eq, ?app_nil_r; done.
Qed.

#[global] Program Instance demo_conns_laws : ConnLaws DemoConns Poller.Poller ConnTask Z := {
  wire := dc_on_wire;
}.
Next Obligation. intros conn conn' c w. cbn. rewrite lookup_insert. repeat case_decide; congruence. Qed.
Next Obligation. done. Qed.
Next Obligation. done. Qed.
Next Obligation. done. Qed.
Next Obligation. done. Qed.
Next Obligation. done. Qed.
Next Obligation. done. Qed.
Next Obligation. done. Qed.
Next Obligation.
  intros fd data w r w' H. destruct (demo_write_law _ _ _ _ _ H) as (? & ? & ? & ? & E).
  split_and!; try done. intros conn. cbn. by rewrite E.
Qed.
Next Obligation.
  intros fd cap w r w' H0 H. cbn in H. injection H as <- <-.
  destruct (dc_input w); split_and!; try done. by apply ztake_take_le.
Qed.
Next Obligation. done. Qed.

Definition demo_user (f : Z) (conn : ConnId) (w : DemoConns) : outcome DemoConns :=
  Ok (mkDemoConns (dc_loop w) (dc_channels w) (dc_conns w) (dc_wire w) (dc_script w)
        (dc_input w) (dc_calls w ++ [f])).

(** Connection 1 on descriptor 9, its channel at 20, in the loop of thread 7;
    the first write takes 2 bytes and the second none, the third all. *)
Definition demo_fresh : DemoConns :=
  make_TcpConnection (fun t => t) 0 1 20 "demo#1" 9 (mkSockaddr 2 0 0) (mkSockaddr 2 0 0)
    (mkDemoConns (mkEventLoop 0 true false false 7 Poller.make_Poller [] 4 0%nat 10 [])
       ∅ ∅ ∅ [Some 2%nat; None; Some 100%nat] (Some [Byte.x68; Byte.x69]) []).

Definition demo_channel9 : Channel (Closure ConnTask) :=
  setReadCallback (Client (HandleReadable 1)) (make_Channel 0 9).

Definition demo_conn (s : State) : TcpConnection Z :=
  setCloseCallback 3 (setWriteCompleteCallback 2 (setMessageCallback 1
    (setState s (mkTcpConnection 0 "demo#1" Connecting 9 20 (mkSockaddr 2 0 0) (mkSockaddr 2 0 0)
       (make INITIALIZE_SIZE) (make INITIALIZE_SIZE) None None 0 None None None None)))).

(** The same world with the connection in state [s] and its callbacks set. *)
Definition demo_in (s : State) : DemoConns := put_conn 1 (demo_conn s) demo_fresh.

Lemma demo_base s : conn_base 7 1 (demo_in s) (demo_conn s) demo_channel9.
Proof.
  split; try done.
  - apply (Poller.make_Poller_inv (F := Closure ConnTask)). intros cid c H.
    cbn in H. apply lookup_insert_Some in H as [[_ <-]|[_ H]]; [done|].
    by rewrite lookup_empty in H.
Qed.

Lemma demo_refines : refines (make INITIALIZE_SIZE) [] 1032.
Proof. by apply make_refines. Qed.

Lemma demo_ok s : conn_ok 7 1 (demo_in s) (demo_conn s) demo_channel9 [] 1032.
Proof. split; [apply demo_base|exact demo_refines|done]. Qed.

Definition hello_bytes : list byte := [Byte.x68; Byte.x65; Byte.x6c; Byte.x6c; Byte.x6f].

Lemma byte_stream_in_order_witness :
  exists w', run_conn_ops (fun t => t) demo_user 7 1
      [OpSend hello_bytes; OpSend hello_bytes; OpWritable; OpWritable] (demo_in Connected) = Ok w' /\
    wire 9 w' = hello_bytes ++ hello_bytes.
Proof.
  destruct (byte_stream_in_order (fun t => t) demo_user 7 1
    [OpSend hello_bytes; OpSend hello_bytes; OpWritable; OpWritable] (demo_in Connected)
    _ _ [] 1032 (demo_ok Connected) eq_refl) as (w' & c' & ch' & q' & E & _ & Hs & _).
  - repeat constructor.
  - lia.
  - vm_compute. reflexivity.
  - exists w'. split; [exact E|]. vm_compute in E. injection E as <-. vm_compute. reflexivity.
Defined.

Lemma pollout_never_flushes_witness :
  handleEvent (fun w : DemoConns => get_channels w !! 20)
    (run (run_conn_task (fun t => t) demo_user 7)) (demo_in Connected) = Ok (demo_in Connected).
Proof.
  exact (pollout_never_flushes 7 1 (demo_in Connected) _ _ [] 1032 _ (demo_ok Connected) eq_refl).
Defined.

Lemma shutdown_never_reaches_socket_witness :
  shutdown (fun t => t) demo_user 7 1 (demo_in Connected) = Ok (demo_in Disconnecting).
Proof.
  etrans; [exact (proj1 (shutdown_never_reaches_socket (fun t => t) demo_user 1
    (demo_in Connected) (demo_conn Connected) eq_refl eq_refl))|].
  vm_compute. reflexivity.
Defined.

Lemma connection_established_witness :
  connectionEstablished demo_user 7 1 (demo_in Connected) = Abort /\
  exists w', connectionEstablished demo_user 7 1 (demo_in Connecting) = Ok w'.
Proof.
  split.
  - apply (connection_established demo_user 7 1 (demo_in Connected) _ _ 1032
      (demo_base Connected) demo_refines eq_refl). discriminate.
  - destruct (proj2 (connection_established demo_user 7 1 (demo_in Connecting) _ _ 1032
      (demo_base Connecting) demo_refines eq_refl) eq_refl) as (w' & ch' & E & _).
    exists w'. exact E.
Defined.

Lemma handleReadable_branches_witness :
  exists w' c', handleReadable demo_user 7 1 (demo_in Connected) = Ok w' /\
    get_conn 1 w' = Some c' /\ content (receive_buffer_ c') = [Byte.x68; Byte.x69].
Proof.
  destruct (handleReadable_branches demo_user 7 1 (demo_in Connected) _ _ [] 1032
    (demo_base Connected) demo_refines eq_refl) as (w' & c' & E & Hb & Hc & _).
  eexists _, c'. split_and!; [exact E|exact (ok_conn _ _ _ _ _ Hb)|exact Hc].
Defined.

Definition demo_ready : DemoConns :=
  mkDemoConns (dc_loop (demo_in Connected)) (dc_channels (demo_in Connected))
    (dc_conns (demo_in Connected)) ∅ [Some 100%nat] None [].
Definition demo_hello : Buffer :=
  match append (make INITIALIZE_SIZE) hello_bytes with Ok b => b | _ => make 0 end.

Lemma write_complete_differs_witness :
  exists w', sendInLoop (fun t => t) 7 1 hello_bytes demo_ready
    = Ok (queue (fun t => t) 7 (WriteComplete 1) w') /\
  exists buffer', sendBufferInLoop (fun t => t) 7 1 demo_hello demo_ready = Ok (buffer', w').
Proof.
  eexists.
  apply (write_complete_differs (fun t => t) 7 1 demo_ready _ (demo_conn Connected)
    demo_channel9 1032 demo_hello hello_bytes 1032 2).
  - destruct (demo_ok Connected) as [Hb ? ?]. split; [|done|done].
    by apply (conn_base_frame _ _ (demo_in Connected)).
  - split_and!; vm_compute; done || congruence.
  - reflexivity.
  - vm_compute. reflexivity.
Defined.

Lemma raw_send_outlives_caller_witness :
  send_ptr (fun t => t) demo_user 3 1 4096 5 (demo_in Connected)
    = Ok (queue (fun t => t) 3 (SendRaw 1 4096 5) (demo_in Connected)) /\
  run_conn_task (fun t => t) demo_user 7 (SendRaw 1 4096 5) (demo_in Connected) = Undef.
Proof.
  destruct (raw_send_outlives_caller (fun t => t) demo_user 3 1 (demo_in Connected)
    (demo_in Connected) (demo_conn Connected) (demo_conn Connected) 4096 5 [])
    as (H1 & H2 & _); [reflexivity|reflexivity|discriminate|reflexivity|reflexivity|].
  split; [exact H1|exact H2].
Defined.

(** The connection is gone from its loop; the socket takes nothing. *)
Definition demo_stuck : DemoConns :=
  let w := demo_in Disconnected in
  mkDemoConns (dc_loop w) (dc_channels w) (dc_conns w) (dc_wire w) [None] (dc_input w) [].

Lemma demo_stuck_ok : conn_ok 7 1 demo_stuck (demo_conn Disconnected) demo_channel9 [] 1032.
Proof.
  split; [|exact demo_refines|done].
  by apply (conn_base_frame 7 1 (demo_in Disconnected)); [apply demo_base|..].
Qed.

Lemma late_send_registers_witness : exists w' c',
  sendInLoop (fun t => t) 7 1 hello_bytes demo_stuck = Ok w' /\
  get_conn 1 w' = Some c' /\ state_ c' = Disconnected /\
  watched (F := Closure ConnTask) (poller_ (get_loop w')) 9 = Some (20, kWriteEvent).
Proof.
  apply (late_send_registers (fun t => t) 7 1 demo_stuck
    (mkDemoConns (dc_loop demo_stuck) (dc_channels demo_stuck) (dc_conns demo_stuck)
       (dc_wire demo_stuck) [] (dc_input demo_stuck) [])
    (demo_conn Disconnected) demo_channel9 1032 hello_bytes EWOULDBLOCK).
  - exact demo_stuck_ok.
  - reflexivity.
  - reflexivity.
  - discriminate.
  - vm_compute. reflexivity.
  - reflexivity.
Defined.
