(* ===== verification/Connector.v ===== *)
(** * Connector: net/Connector.hpp and net/Connector.cpp

    The client's side of connection setup: a non-blocking connect, a channel
    that waits for POLLOUT, and retries on a timer.  Everything of the connector
    runs on its loop's thread except the flag [connect_] and the queueing of
    [start] and [stop].  The state carries, besides the members, what the
    connector leaves outside: the retry timers that will call [startInLoop], the
    tasks it queued, the sockets it has open and those it handed over. *)
From Stdlib Require Import ZArith Lia List String.
From stdpp Require Import base option list numbers gmap relations strings tactics.
From S2P Require Import Prelude.
Open Scope Z_scope.
Open Scope outcome_scope.

Inductive State : Type := Disconnected | Connecting | Connected.
#[global] Instance State_eq_dec : EqDecision State.
Proof. solve_decision. Defined.

(** Milliseconds. *)
Definition MAX_RETRY_DELAY : Z := 30000.
Definition DEFAULT_RETRY_DELAY : Z := 500.

(** <errno.h>, as [connect] names it. *)
Definition EINTR : Z := 4.
Definition ENETUNREACH : Z := 101.
Definition EADDRINUSE : Z := 98.
Definition EADDRNOTAVAIL : Z := 99.
Definition EISCONN : Z := 106.
Definition ECONNREFUSED : Z := 111.
Definition EINPROGRESS : Z := 115.

(** The closures queued by [start] and [stop] off the loop's thread. *)
Inductive ConnectorTask : Type := StartInLoop | StopInLoop.

Record Connector := mkConnector {
  connect_ : bool;
  has_callback : bool;             (** [new_connection_callback_] is set *)
  state_ : State;
  socket_ : option Z;              (** the descriptor of [*socket_] *)
  channel_ : option Z;             (** the descriptor [*channel_] waits on *)
  retry_delay_ : Z;
  retry_timers : list Z;           (** [runAfter] delays still to fire *)
  tasks : list ConnectorTask;
  open_fds : list Z;               (** sockets created and not closed *)
  handed_over : list Z;            (** sockets given to the callback *)
  stale : list Z;                  (** watched for a channel that is gone *)
}.

Definition make_Connector (has_callback : bool) : Connector :=
  mkConnector false has_callback Disconnected None None DEFAULT_RETRY_DELAY [] [] [] [] [].

(** ** The members, one writer each *)
Definition set_connect (b : bool) (c : Connector) : Connector :=
  mkConnector b (has_callback c) (state_ c) (socket_ c) (channel_ c) (retry_delay_ c)
    (retry_timers c) (tasks c) (open_fds c) (handed_over c) (stale c).
Definition setState (s : State) (c : Connector) : Connector :=
  mkConnector (connect_ c) (has_callback c) s (socket_ c) (channel_ c) (retry_delay_ c)
    (retry_timers c) (tasks c) (open_fds c) (handed_over c) (stale c).
Definition set_channel (ch : option Z) (c : Connector) : Connector :=
  mkConnector (connect_ c) (has_callback c) (state_ c) (socket_ c) ch (retry_delay_ c)
    (retry_timers c) (tasks c) (open_fds c) (handed_over c) (stale c).
Definition set_delay (d : Z) (c : Connector) : Connector :=
  mkConnector (connect_ c) (has_callback c) (state_ c) (socket_ c) (channel_ c) d
    (retry_timers c) (tasks c) (open_fds c) (handed_over c) (stale c).
Definition add_timer (d : Z) (c : Connector) : Connector :=
  mkConnector (connect_ c) (has_callback c) (state_ c) (socket_ c) (channel_ c)
    (retry_delay_ c) (retry_timers c ++ [d]) (tasks c) (open_fds c) (handed_over c) (stale c).
Definition set_tasks (ts : list ConnectorTask) (c : Connector) : Connector :=
  mkConnector (connect_ c) (has_callback c) (state_ c) (socket_ c) (channel_ c)
    (retry_delay_ c) (retry_timers c) ts (open_fds c) (handed_over c) (stale c).

Definition set_timers (ts : list Z) (c : Connector) : Connector :=
  mkConnector (connect_ c) (has_callback c) (state_ c) (socket_ c) (channel_ c)
    (retry_delay_ c) ts (tasks c) (open_fds c) (handed_over c) (stale c).

(** Replacing [*socket_]: the old [Socket] closes its descriptor. *)
Definition close_fd (fd : option Z) (fds : list Z) : list Z :=
  match fd with Some fd => filter (fun x => x <> fd) fds | None => fds end.

Definition reset_socket (c : Connector) : Connector :=
  mkConnector (connect_ c) (has_callback c) (state_ c) None (channel_ c) (retry_delay_ c)
    (retry_timers c) (tasks c) (close_fd (socket_ c) (open_fds c)) (handed_over c) (stale c).

(** [std::make_unique<Socket>()] with the descriptor [socket(2)] returned. *)
Definition new_socket (fd : Z) (c : Connector) : outcome Connector :=
  if fd =? -1 then Abort else
  Ok (mkConnector (connect_ c) (has_callback c) (state_ c) (Some fd) (channel_ c)
        (retry_delay_ c) (retry_timers c) (tasks c)
        (close_fd (socket_ c) (open_fds c) ++ [fd]) (handed_over c) (stale c)).

(** ** The functions of the loop's thread *)

(** [ignoreAll], [removeChannel] and the destruction of the channel. *)
Definition resetChannel (c : Connector) : Connector :=
  match channel_ c with Some _ => set_channel None c | None => c end.

Definition retry (c : Connector) : Connector :=
  let c := setState Disconnected c in
  let c := reset_socket c in
  let c := set_delay (Z.min (2 * retry_delay_ c) MAX_RETRY_DELAY) c in
  if connect_ c then add_timer (retry_delay_ c) c else c.

(** A channel that is replaced is destroyed without leaving the poller. *)
Definition connecting (c : Connector) : outcome Connector :=
  match socket_ c with
  | Some fd =>
      Ok (mkConnector (connect_ c) (has_callback c) (state_ c) (socket_ c) (Some fd)
            (retry_delay_ c) (retry_timers c) (tasks c) (open_fds c) (handed_over c)
            (stale c ++ option_list (channel_ c)))
  | None => Undef
  end.

(** The kernel's answer to one attempt: the descriptor of the new socket and the
    result of [Socket::connect]. *)
Record attempt := mkAttempt { new_fd : Z; savedErrno : Z }.

Definition connect (a : attempt) (c : Connector) : outcome Connector :=
  let! c := new_socket (new_fd a) c in
  let e := savedErrno a in
  if (e =? 0) || (e =? EINPROGRESS) || (e =? EINTR) || (e =? EISCONN)
  then connecting c
  else if (e =? EAGAIN) || (e =? EADDRINUSE) || (e =? EADDRNOTAVAIL)
          || (e =? ECONNREFUSED) || (e =? ENETUNREACH)
  then Ok (retry c)
  else Ok (setState Disconnected (reset_socket c)).

Definition startInLoop (a : attempt) (c : Connector) : outcome Connector :=
  if negb (bool_decide (state_ c = Disconnected)) then Abort
  else connect a (setState Connecting c).

Definition stopInLoop (c : Connector) : Connector :=
  let c := if decide (state_ c = Connecting) then reset_socket (resetChannel c) else c in
  setState Disconnected c.

Definition restart (a : attempt) (c : Connector) : outcome Connector :=
  let c := setState Disconnected c in
  let c := set_connect true c in
  let c := set_delay DEFAULT_RETRY_DELAY c in
  startInLoop a c.

(** [new_connection_callback_(std::move( *socket_ ))] leaves an empty [Socket]. *)
Definition hand_over (c : Connector) : Connector :=
  match socket_ c with
  | Some fd =>
      mkConnector (connect_ c) (has_callback c) (state_ c) None (channel_ c) (retry_delay_ c)
        (retry_timers c) (tasks c) (close_fd (Some fd) (open_fds c)) (handed_over c ++ [fd])
        (stale c)
  | None => c
  end.

(** [err] is SO_ERROR of the socket. *)
Definition handleWritable (err : Z) (c : Connector) : outcome Connector :=
  match socket_ c with
  | None => Undef
  | Some _ =>
      if negb (err =? 0) then
        let c := resetChannel c in
        let c := reset_socket c in
        Ok (retry c)
      else
        let c := setState Connected c in
        let c := resetChannel c in
        let c := if has_callback c then hand_over c else c in
        Ok (reset_socket c)
  end.

(** ** The public calls; [inloop] is [loop_.isInLoopThread()] *)
Definition run_task (t : ConnectorTask) (a : attempt) (c : Connector) : outcome Connector :=
  match t with
  | StartInLoop => startInLoop a c
  | StopInLoop => Ok (stopInLoop c)
  end.

Definition runInLoop (inloop : bool) (t : ConnectorTask) (a : attempt) (c : Connector)
    : outcome Connector :=
  if inloop then run_task t a c else Ok (set_tasks (tasks c ++ [t]) c).

Definition start (inloop : bool) (a : attempt) (c : Connector) : outcome Connector :=
  runInLoop inloop StartInLoop a (set_connect true c).

Definition stop (inloop : bool) (a : attempt) (c : Connector) : outcome Connector :=
  runInLoop inloop StopInLoop a (set_connect false c).

Definition destroy_Connector (c : Connector) : Connector := reset_socket (resetChannel c).

Definition getStateAsString (s : State) : string :=
  match s with
  | Disconnected => "Disconnected"
  | Connecting => "Connecting"
  | Connected => "Connected"
  end.

(** ** What happens to a connector

    The events of its loop, each with the kernel's answer. *)
Inductive event : Type :=
| EStart (inloop : bool) (a : attempt)
| EStop (inloop : bool)
| ERestart (a : attempt)
| ETask (a : attempt)            (** the loop runs the first queued task *)
| ETimer (a : attempt)           (** the first retry timer fires *)
| EWritable (err : Z).           (** POLLOUT on the channel *)

Definition no_attempt : attempt := mkAttempt 0 0.

Definition handle (e : event) (c : Connector) : outcome Connector :=
  match e with
  | EStart inloop a => start inloop a c
  | EStop inloop => stop inloop no_attempt c
  | ERestart a => restart a c
  | ETask a =>
      match tasks c with
      | t :: ts => run_task t a (set_tasks ts c)
      | [] => Ok c
      end
  | ETimer a =>
      match retry_timers c with
      | _ :: ts =>
          startInLoop a (mkConnector (connect_ c) (has_callback c) (state_ c) (socket_ c)
            (channel_ c) (retry_delay_ c) ts (tasks c) (open_fds c) (handed_over c) (stale c))
      | [] => Ok c
      end
  | EWritable err => match channel_ c with Some _ => handleWritable err c | None => Ok c end
  end.

Fixpoint run_events (es : list event) (c : Connector) : outcome Connector :=
  match es with
  | [] => Ok c
  | e :: es => let! c := handle e c in run_events es c
  end.

(** ** The invariant

    Between events: a channel exactly while [Connecting], on the connector's own
    socket; at most that one socket open; nothing left in the poller; the delays
    within their bounds. *)
Record inv (c : Connector) : Prop := {
  inv_connecting : state_ c = Connecting <-> socket_ c <> None;
  inv_channel : channel_ c = socket_ c;
  inv_fds : open_fds c = option_list (socket_ c);
  inv_stale : stale c = [];
  inv_delay : 500 <= retry_delay_ c <= 30000;
  inv_timers : Forall (fun d => 1000 <= d <= 30000) (retry_timers c);
}.

(** The owner restarts only a connector that is not connecting. *)
Definition event_ok (e : event) (c : Connector) : Prop :=
  match e with ERestart _ => state_ c <> Connecting | _ => True end.

Lemma close_own fd : close_fd fd (option_list fd) = [].
Proof. destruct fd as [fd|]; cbn; [|done]. rewrite decide_False by (intros H; by apply H). done. Qed.

Lemma retry_inv c :
  open_fds c = option_list (socket_ c) -> channel_ c = None -> stale c = [] ->
  500 <= retry_delay_ c <= 30000 ->
  Forall (fun d => 1000 <= d <= 30000) (retry_timers c) -> inv (retry c).
Proof.
  intros Ho Hc Hs Hd Ht. unfold retry. destruct c as [conn cb st so ch d tm ts fds ho sta].
  cbn in *. subst. unfold MAX_RETRY_DELAY. destruct conn; split; cbn;
    rewrite ?close_own; try done; try lia.
  apply Forall_app. split; [done|]. constructor; [lia|done].
Qed.

(** The start of an attempt, from a connector that holds nothing. *)
Definition idle (c : Connector) : Prop := inv c /\ state_ c <> Connecting.

Lemma idle_nothing c : idle c -> socket_ c = None /\ channel_ c = None /\ open_fds c = [].
Proof.
  intros [[Hc Hch Ho _ _ _] Hn]. destruct (socket_ c) eqn:E.
  - destruct Hn. apply Hc. done.
  - by rewrite Hch, Ho.
Qed.

Lemma connect_inv a c :
  idle c -> new_fd a <> -1 ->
  exists c', connect a (setState Connecting c) = Ok c' /\ inv c'.
Proof.
  intros Hi Hfd. destruct (idle_nothing c Hi) as (Hs & Hc & Ho). destruct Hi as [[_ _ _ Hst Hd Ht] _].
  destruct c as [conn cb st so ch d tm ts fds ho sta]. cbn in *. subst.
  unfold connect, new_socket. rewrite (proj2 (Z.eqb_neq _ _) Hfd). cbn.
  destruct (_ || _ || _ || _); [|destruct (_ || _ || _ || _ || _)].
  - eexists. split; [done|]. by split.
  - eexists. split; [done|]. apply retry_inv; cbn; done.
  - eexists. split; [done|]. split; cbn; try done.
    by rewrite decide_False by (intros H; by apply H).
Qed.

Lemma inv_fields c st tm ts b d : inv c -> (st = Connecting <-> state_ c = Connecting) ->
  Forall (fun d => 1000 <= d <= 30000) tm -> 500 <= d <= 30000 ->
  inv (mkConnector b (has_callback c) st (socket_ c) (channel_ c) d tm ts (open_fds c)
    (handed_over c) (stale c)).
Proof.
  intros [Hc Hch Ho Hst Hd Ht] Hs Htm Hd'. split; cbn; try done. by rewrite Hs.
Qed.

(** The event runs [startInLoop] with this answer of the kernel. *)
Definition starts (e : event) (c : Connector) : option attempt :=
  match e with
  | EStart true a | ERestart a => Some a
  | ETask a => match tasks c with StartInLoop :: _ => Some a | _ => None end
  | ETimer a => match retry_timers c with _ :: _ => Some a | [] => None end
  | _ => None
  end.

Definition is_restart (e : event) : bool := match e with ERestart _ => true | _ => false end.

Lemma startInLoop_step a c : inv c ->
  match startInLoop a c with
  | Ok c' => inv c'
  | Abort => new_fd a = -1 \/ state_ c <> Disconnected
  | Undef => False
  end.
Proof.
  intros Hinv. unfold startInLoop. case_bool_decide as Hs; cbn [negb]; [|by right].
  assert (Hi : idle c) by (split; [done|congruence]).
  destruct (decide (new_fd a = -1)) as [Hfd|Hfd].
  - unfold connect, new_socket. rewrite (proj2 (Z.eqb_eq _ _) Hfd). by left.
  - by destruct (connect_inv a c Hi Hfd) as (c' & -> & ?).
Qed.

Lemma stopInLoop_inv c : inv c -> inv (stopInLoop c).
Proof.
  intros Hinv. unfold stopInLoop. destruct (decide (state_ c = Connecting)) as [Hs|Hs].
  - destruct Hinv as [Hc Hch Ho Hst Hd Ht].
    destruct c as [conn cb st so ch d tm ts fds ho sta]. cbn in *. subst.
    destruct so as [fd|]; split; cbn; try done.
    by rewrite decide_False by (intros H; by apply H).
  - destruct (idle_nothing c) as (Hso & Hch & Ho); [done|]. destruct Hinv.
    by split.
Qed.

Lemma handleWritable_inv err c : inv c -> channel_ c <> None ->
  exists c', handleWritable err c = Ok c' /\ inv c'.
Proof.
  intros [Hc Hch Ho Hst Hd Ht] Hne. unfold handleWritable.
  destruct c as [conn cb st so ch d tm ts fds ho sta]. cbn in *. subst.
  destruct so as [fd|]; [|done]. destruct (err =? 0); cbn [negb].
  - eexists. split; [done|]. pose proof (close_own (Some fd)) as E. cbn [close_fd] in E.
    destruct cb; split; cbn -[filter]; rewrite ?E; done.
  - eexists. split; [done|]. apply retry_inv; cbn; try done.
    by rewrite decide_False by (intros H; by apply H).
Qed.

Lemma handle_step (e : event) (c : Connector) : inv c -> event_ok e c ->
  match handle e c with
  | Ok c' => inv c'
  | Abort => exists a, starts e c = Some a /\
      (new_fd a = -1 \/ state_ c <> Disconnected /\ is_restart e = false)
  | Undef => False
  end.
Proof.
  intros Hinv Hok. pose proof Hinv as [Hc Hch Ho Hst Hd Ht].
  assert (Hstart : forall a c1, inv c1 -> (state_ c1 <> Disconnected ->
      state_ c <> Disconnected /\ is_restart e = false) -> starts e c = Some a ->
    match startInLoop a c1 with
    | Ok c' => inv c'
    | Abort => exists a, starts e c = Some a /\
        (new_fd a = -1 \/ state_ c <> Disconnected /\ is_restart e = false)
    | Undef => False
    end).
  { intros a c1 H1 Hs He. pose proof (startInLoop_step a c1 H1) as Hst1.
    destruct (startInLoop a c1); try done. exists a. split; [done|].
    destruct Hst1 as [?|Hne]; [by left|right; by apply Hs]. }
  destruct e as [inloop a|inloop|a|a|a|err]; cbn [handle].
  - unfold start, runInLoop. destruct inloop; cbn.
    + apply (Hstart a); [by apply (inv_fields c)|by intros|done].
    + by apply (inv_fields c).
  - unfold stop, runInLoop. destruct inloop; cbn.
    + by apply stopInLoop_inv, (inv_fields c).
    + by apply (inv_fields c).
  - apply (Hstart a); [|intros Hne; by destruct Hne|done].
    by apply (inv_fields c).
  - destruct (tasks c) as [|[|] ts] eqn:Ets; [done| |]; cbn [run_task].
    + apply (Hstart a); [by apply (inv_fields c)|by intros|cbn; by rewrite Ets].
    + by apply stopInLoop_inv, (inv_fields c).
  - destruct (retry_timers c) as [|d ts] eqn:Etm; [done|].
    apply (Hstart a); [|by intros|cbn; by rewrite Etm].
    apply (inv_fields c); try done. by apply list.Forall_cons in Ht as [_ ?].
  - destruct (channel_ c) as [fd|] eqn:Ech; [|done].
    destruct (handleWritable_inv err c Hinv) as (c' & -> & ?); [by rewrite Ech|done].
Qed.


(** ** One start *)

(** At most one attempt is under way or scheduled. *)
Record single (c : Connector) : Prop := {
  single_inv : inv c;
  single_tasks : tasks c = [];
  single_timer : (length (retry_timers c) <= 1)%nat;
  single_busy : state_ c <> Disconnected -> retry_timers c = [];
}.

(** The events after a start: timers and the channel, with any answers of the
    kernel but the failure to create a socket. *)
Definition after_start (e : event) : Prop :=
  match e with
  | ETimer a => new_fd a <> -1
  | EWritable _ => True
  | _ => False
  end.

Lemma retry_timers_eq c : retry_timers (retry c)
  = if connect_ c then retry_timers c ++ [Z.min (2 * retry_delay_ c) 30000]
    else retry_timers c.
Proof. unfold retry. by destruct c as [[] ? ? ? ? ? ? ? ? ? ?]. Qed.

Lemma retry_fields c : tasks (retry c) = tasks c /\ state_ (retry c) = Disconnected.
Proof. unfold retry. by destruct c as [[] ? ? ? ? ? ? ? ? ? ?]. Qed.

Lemma connect_single a c c' : connect a c = Ok c' -> retry_timers c = [] -> tasks c = [] ->
  tasks c' = [] /\ (length (retry_timers c') <= 1)%nat /\
  (state_ c' <> Disconnected -> retry_timers c' = []).
Proof.
  intros H Ht Hts. unfold connect, new_socket in H. destruct (new_fd a =? -1); [discriminate|].
  cbn [mbind outcome_bind] in H.
  destruct (_ || _ || _ || _); [|destruct (_ || _ || _ || _ || _)].
  - unfold connecting in H. cbn in H. injection H as <-. cbn. rewrite Ht. split_and!; done || (cbn; lia).
  - injection H as <-. match goal with |- context [retry ?x] => pose proof (retry_fields x) as [E1 E2];
      pose proof (retry_timers_eq x) as E3 end.
    rewrite E1, E2, E3. cbn. rewrite Ht. split_and!; [done| |done].
    destruct (connect_ c); cbn; lia.
  - injection H as <-. cbn. rewrite Ht. split_and!; done || (cbn; lia).
Qed.

(** An attempt leaves the connector connecting or disconnected, and its flag. *)
Lemma connect_shape a c c' : connect a c = Ok c' ->
  state_ c <> Connected -> state_ c' <> Connected /\ connect_ c' = connect_ c.
Proof.
  intros H Hs. unfold connect, new_socket in H. destruct (new_fd a =? -1); [discriminate|].
  cbn [mbind outcome_bind] in H.
  destruct (_ || _ || _ || _); [|destruct (_ || _ || _ || _ || _)].
  - unfold connecting in H. cbn in H. by injection H as <-.
  - injection H as <-. destruct c as [[] ? ? ? ? ? ? ? ? ? ?]; by split.
  - by injection H as <-.
Qed.

Lemma after_start_single e c : single c -> after_start e ->
  exists c', handle e c = Ok c' /\ single c'.
Proof.
  intros Hsingle He. pose proof Hsingle as [Hinv Hts Hlen Hbusy].
  assert (Hok : event_ok e c) by (by destruct e).
  pose proof (handle_step e c Hinv Hok) as Hstep.
  destruct e as [| | | |a|err]; try done; cbn [handle after_start] in *.
  - destruct (retry_timers c) as [|d ts] eqn:Etm; [by exists c|].
    destruct ts; [|cbn in Hlen; lia].
    assert (Hd : state_ c = Disconnected).
    { destruct (decide (state_ c = Disconnected)); [done|]. by specialize (Hbusy n). }
    set (c1 := mkConnector _ _ _ _ _ _ _ _ _ _ _) in *.
    destruct (startInLoop a c1) as [c'| |] eqn:E; [|exfalso|done].
    + exists c'. split; [done|].
      unfold startInLoop in E. destruct (negb _); [discriminate|].
      destruct (connect_single _ _ _ E) as (? & ? & ?); [done|by rewrite <- Hts|]. by split.
    + destruct Hstep as (a' & Ha & [?|[? _]]); [|done]. unfold starts in Ha.
      rewrite Etm in Ha. injection Ha as <-. done.
  - destruct (channel_ c) as [fd|] eqn:Ech; [|by exists c].
    assert (Hcon : state_ c = Connecting).
    { apply (inv_connecting c Hinv). by rewrite <- (inv_channel c Hinv), Ech. }
    assert (Htm : retry_timers c = []) by (apply Hbusy; congruence).
    unfold handleWritable in *. destruct (socket_ c); [|done].
    destruct (negb (err =? 0)).
    + eexists. split; [done|]. match goal with |- context [retry ?x] =>
        pose proof (retry_fields x) as [E1 E2]; pose proof (retry_timers_eq x) as E3 end.
      assert (Ex : forall c, retry_timers (reset_socket (resetChannel c)) = retry_timers c /\
        tasks (reset_socket (resetChannel c)) = tasks c).
      { intros x. unfold resetChannel. by destruct (channel_ x). }
      destruct (Ex c) as [Ex1 Ex2].
      split; [done|by rewrite E1, Ex2|rewrite E3, Ex1, Htm|by rewrite E2].
      destruct (connect_ _); cbn; lia.
    + eexists. split; [done|]. 
      assert (Ex : forall c, retry_timers (reset_socket (if has_callback c then hand_over c else c))
        = retry_timers c /\ tasks (reset_socket (if has_callback c then hand_over c else c)) = tasks c).
      { intros x. unfold hand_over. destruct (has_callback x); [|done]. by destruct (socket_ x). }
      assert (Ey : retry_timers (resetChannel (setState Connected c)) = [] /\
        tasks (resetChannel (setState Connected c)) = []).
      { unfold resetChannel. cbn. rewrite Ech. by split. }
      destruct (Ex (resetChannel (setState Connected c))) as [Ex1 Ex2], Ey as [Ey1 Ey2].
      rewrite Ey1 in Ex1. rewrite Ey2 in Ex2.
      split; [done|exact Ex2|rewrite Ex1; cbn; lia|intros _; exact Ex1].
Qed.

(** A connector that is started once never aborts.  Whatever the kernel
    answers and however often it retries, timers and channel events always find
    it in a state where they make sense, with at most one retry scheduled and
    none while an attempt is under way. *)
Theorem single_start_never_aborts (cb : bool) (a : attempt) (es : list event) :
  new_fd a <> -1 -> Forall after_start es ->
  exists c, (let! c0 := start true a (make_Connector cb) in run_events es c0) = Ok c /\
    inv c /\ (length (retry_timers c) <= 1)%nat /\
    (state_ c <> Disconnected -> retry_timers c = []).
Proof.
  intros Hfd Hes.
  assert (Hrun : forall es c, Forall after_start es -> single c ->
    exists c', run_events es c = Ok c' /\ single c').
  { clear. induction es as [|e es IH]; intros c Hes Hs; [by exists c|].
    apply list.Forall_cons in Hes as [He Hes].
    destruct (after_start_single e c Hs He) as (c1 & E & H1). cbn. rewrite E. by apply IH. }
  assert (H0 : exists c0, start true a (make_Connector cb) = Ok c0 /\ single c0).
  { assert (Hi : idle (set_connect true (make_Connector cb))) by (by split; [split|]).
    destruct (connect_inv a _ Hi Hfd) as (c0 & E & Hinv0). exists c0.
    split; [exact E|]. by destruct (connect_single _ _ _ E) as (? & ? & ?); [..|split]. }
  destruct H0 as (c0 & E0 & Hs0). destruct (Hrun es c0 Hes Hs0) as (c & E & [? ? ? ?]).
  exists c. rewrite E0. by split_and!.
Qed.

(** ** Retries *)
Lemma retry_own conn cb st fd ch d tm ts ho sta :
  retry (mkConnector conn cb st (Some fd) ch d tm ts [fd] ho sta)
  = mkConnector conn cb Disconnected None ch (Z.min (2 * d) 30000)
      (if conn then tm ++ [Z.min (2 * d) 30000] else tm) ts [] ho sta.
Proof.
  assert (E : close_fd (Some fd) [fd] = []) by apply (close_own (Some fd)).
  unfold retry, reset_socket, setState, add_timer, set_delay. cbn -[close_fd]. rewrite E.
  by destruct conn.
Qed.

(** An attempt the kernel refuses at once. *)
Definition refused (a : attempt) : Prop :=
  new_fd a <> -1 /\ savedErrno a = ECONNREFUSED.

(** A connector that waits for its retry timer. *)
Definition waiting (cb : bool) (delay : Z) (c : Connector) : Prop :=
  exists ho, c = mkConnector true cb Disconnected None None delay [delay] [] [] ho [].

Lemma refused_waits cb delay a c : refused a -> waiting cb delay c ->
  exists c', handle (ETimer a) c = Ok c' /\ waiting cb (Z.min (2 * delay) 30000) c'.
Proof.
  intros [Hfd He] [ho ->]. cbn. unfold startInLoop. cbn.
  unfold connect, new_socket. rewrite (proj2 (Z.eqb_neq _ _) Hfd), He. cbn.
  eexists. split; [done|]. exists ho.
  exact (retry_own true cb Connecting (new_fd a) None delay [] [] ho []).
Qed.

Fixpoint doubled (n : nat) (delay : Z) : Z :=
  match n with O => delay | S n => doubled n (Z.min (2 * delay) 30000) end.

Lemma doubled_closed n delay : 0 <= delay <= 30000 ->
  doubled n delay = Z.min (delay * 2 ^ Z.of_nat n) 30000.
Proof.
  revert delay. induction n as [|n IH]; intros delay Hd; cbn [doubled]; [cbn; lia|].
  rewrite IH by lia. rewrite Nat2Z.inj_succ, Z.pow_succ_r by lia.
  assert (1 <= 2 ^ Z.of_nat n) by (pose proof (Z.pow_pos_nonneg 2 (Z.of_nat n)); lia). nia.
Qed.

(** The retry delays.  A connector refused again and again waits 1000 ms,
    then 2000, 4000 and so on up to 30000 ms, where it stays: the first wait is
    twice [DEFAULT_RETRY_DELAY], which itself is never waited for. *)
Theorem retry_backoff (cb : bool) (a : attempt) (more : list attempt) :
  refused a -> Forall refused more ->
  exists c, (let! c0 := start true a (make_Connector cb) in run_events (map ETimer more) c0) = Ok c /\
    state_ c = Disconnected /\
    retry_timers c = [Z.min (1000 * 2 ^ Zlen more) 30000].
Proof.
  intros Ha Hmore.
  assert (H0 : exists c0, start true a (make_Connector cb) = Ok c0 /\ waiting cb 1000 c0).
  { destruct Ha as [Hfd He]. unfold start, runInLoop. cbn. unfold startInLoop. cbn.
    unfold connect, new_socket. rewrite (proj2 (Z.eqb_neq _ _) Hfd), He. cbn.
    eexists. split; [done|]. exists [].
    exact (retry_own true cb Connecting (new_fd a) None 500 [] [] [] []). }
  assert (Hrun : forall more delay c, Forall refused more -> waiting cb delay c ->
    exists c', run_events (map ETimer more) c = Ok c' /\ waiting cb (doubled (length more) delay) c').
  { clear. induction more as [|a more IH]; intros delay c Hm Hw; [by exists c|].
    apply list.Forall_cons in Hm as [Ha Hm].
    destruct (refused_waits cb delay a c Ha Hw) as (c1 & E & H1).
    cbn [map run_events]. rewrite E. cbn. by apply IH. }
  destruct H0 as (c0 & E0 & Hw0). destruct (Hrun more 1000 c0 Hmore Hw0) as (c & E & Hw).
  exists c. rewrite E0. cbn [mbind outcome_bind]. rewrite E.
  destruct Hw as [ho ->]. cbn. rewrite doubled_closed by lia. by split_and!.
Qed.

(** [stop] does not cancel a scheduled retry.  After a refused attempt and a
    [stop], the timer still opens a socket and connects, though [connect_] is
    false; and after [stop] and a new [start], the timer of the first attempt
    finds the second one under way and aborts the program. *)
Theorem stop_keeps_retry (cb : bool) (a a1 a2 : attempt) :
  refused a -> new_fd a1 <> -1 -> savedErrno a1 = EINPROGRESS ->
  (exists c, (let! c0 := start true a (make_Connector cb) in
              run_events [EStop true; ETimer a1] c0) = Ok c /\
     connect_ c = false /\ state_ c = Connecting /\ open_fds c = [new_fd a1]) /\
  (let! c0 := start true a (make_Connector cb) in
   run_events [EStop true; EStart true a1; ETimer a2] c0) = Abort.
Proof.
  intros [Hfd He] Hfd1 He1.
  unfold start, runInLoop. cbn [run_task]. unfold startInLoop. cbn [state_ set_connect make_Connector].
  rewrite bool_decide_true by done. cbn [negb]. unfold connect, new_socket.
  rewrite (proj2 (Z.eqb_neq _ _) Hfd), He. cbn -[retry].
  rewrite retry_own. cbn. unfold stopInLoop, startInLoop, connect, new_socket. cbn.
  rewrite (proj2 (Z.eqb_neq _ _) Hfd1), He1. cbn. split; [by eexists|done].
Qed.

(** ** Sockets 5 and 6, refused and then in progress *)
Definition demo_refused : attempt := mkAttempt 5 ECONNREFUSED.
Definition demo_progress : attempt := mkAttempt 6 EINPROGRESS.

Lemma demo_refused_ok : refused demo_refused.
Proof. by split. Qed.

Definition demo_waiting : Connector :=
  mkConnector true true Disconnected None None 1000 [1000] [] [] [] [].


Lemma single_start_never_aborts_witness :
  exists c, (let! c0 := start true demo_refused (make_Connector true) in
    run_events [ETimer demo_progress; EWritable 111; ETimer demo_progress; EWritable 0] c0) = Ok c /\
    inv c.
Proof.
  destruct (single_start_never_aborts true demo_refused
    [ETimer demo_progress; EWritable 111; ETimer demo_progress; EWritable 0])
    as (c & E & Hinv & _).
  - discriminate.
  - repeat constructor; discriminate.
  - exists c. split; [exact E|exact Hinv].
Defined.

Lemma retry_backoff_witness :
  exists c, (let! c0 := start true demo_refused (make_Connector true) in
    run_events (map ETimer (replicate 6 demo_refused)) c0) = Ok c /\ retry_timers c = [30000].
Proof.
  destruct (retry_backoff true demo_refused (replicate 6 demo_refused)) as (c & E & _ & Ht).
  - exact demo_refused_ok.
  - repeat constructor; discriminate.
  - exists c. split; [exact E|exact Ht].
Defined.

Lemma stop_keeps_retry_witness :
  (let! c0 := start true demo_refused (make_Connector true) in
   run_events [EStop true; EStart true demo_progress; ETimer demo_progress] c0) = Abort.
Proof.
  apply (stop_keeps_retry true demo_refused demo_progress demo_progress demo_refused_ok);
    [discriminate|reflexivity].
Defined.
