(* ===== verification/EventLoopThread.v ===== *)
(** * EventLoopThread: net/EventLoopThread.hpp and net/EventLoopThread.cpp

    A worker thread that owns an [EventLoop] on its stack, and the object that
    starts and joins it.  The two threads interleave: a state is where each of
    them is, the pointer [loop_] they share, and the worker's loop, [None] while
    it does not exist. *)
From Stdlib Require Import ZArith Lia List.
From stdpp Require Import base option list numbers gmap relations tactics.
From S2P Require Import Prelude.
From S2P Require Import Channel.
From S2P Require Import PollerBase.
From S2P Require Import EventLoop.
From S2P Require Poller.
Open Scope Z_scope.

(** The worker: not created; before it publishes [loop_]; before [loop.loop()];
    in it; returned from it; past [loop_ = nullptr] and the end of its scope. *)
Inductive Worker : Type :=
| WorkerNone | WorkerInit | WorkerPublished | WorkerLooping | WorkerReturned | WorkerExited.

(** The owner: constructed; waiting in [startLoop]; returned from it; in the
    destructor, before [loop_->quit()], and before [thread_.join()]; destroyed;
    and two ways to fail: the destructor of a joinable [std::thread] terminates
    the program, [quit] on a loop that is gone is undefined. *)
Inductive Owner : Type :=
| OwnerIdle | OwnerWaiting | OwnerRunning | OwnerQuitting | OwnerJoining | OwnerDone
| OwnerTerminated | OwnerDangling.

#[global] Instance Worker_eq_dec : EqDecision Worker.
Proof. solve_decision. Defined.
#[global] Instance Owner_eq_dec : EqDecision Owner.
Proof. solve_decision. Defined.

Record Thread `{EventFd} (P C : Type) := mkThread {
  owner : Owner;
  worker : Worker;
  published : bool;                      (** [loop_ != nullptr] *)
  the_loop : option (EventLoop P C);     (** the worker's local [loop] *)
}.
Arguments mkThread {H P C}.
Arguments owner {H P C}.
Arguments worker {H P C}.
Arguments published {H P C}.
Arguments the_loop {H P C}.

Section EventLoopThread.
Context `{EFD : EventFd} {P C : Type}.
Implicit Types s : Thread P C.

(** [owner_tid] is the owner's thread; [other] any thread with a reference to
    the loop. *)
Variable owner_tid : Z.

(** The steps of the object and its thread.  The worker's poll returns at the
    latest after [kPollTime], so it always gets to the test of [quit_]. *)
Inductive step : Thread P C -> Thread P C -> Prop :=
| step_startLoop s lp :
    owner s = OwnerIdle -> is_running_ lp = false ->
    step s (mkThread OwnerWaiting WorkerInit (published s) (Some lp))
| step_publish s : worker s = WorkerInit ->
    step s (mkThread (owner s) WorkerPublished true (the_loop s))
| step_started s : owner s = OwnerWaiting -> published s = true ->
    step s (mkThread OwnerRunning (worker s) (published s) (the_loop s))
| step_enter s lp : worker s = WorkerPublished -> the_loop s = Some lp ->
    step s (mkThread (owner s) WorkerLooping (published s)
              (Some (set_quit false (set_running true lp))))
| step_return s lp : worker s = WorkerLooping -> the_loop s = Some lp -> quit_ lp = true ->
    step s (mkThread (owner s) WorkerReturned (published s) (Some (set_running false lp)))
| step_exit s : worker s = WorkerReturned ->
    step s (mkThread (owner s) WorkerExited false None)
| step_destroy_live s : owner s = OwnerRunning -> published s = true ->
    step s (mkThread OwnerQuitting (worker s) (published s) (the_loop s))
| step_destroy_gone s : owner s = OwnerRunning -> published s = false ->
    step s (mkThread OwnerTerminated (worker s) (published s) (the_loop s))
| step_quit s lp : owner s = OwnerQuitting -> the_loop s = Some lp ->
    step s (mkThread OwnerJoining (worker s) (published s) (Some (quit owner_tid lp)))
| step_quit_dangling s : owner s = OwnerQuitting -> the_loop s = None ->
    step s (mkThread OwnerDangling (worker s) (published s) None)
| step_join s : owner s = OwnerJoining -> worker s = WorkerExited ->
    step s (mkThread OwnerDone (worker s) (published s) (the_loop s)).

(** The user of the loop [startLoop] returned may also quit it, while the
    object is in use. *)
Inductive user_quit : Thread P C -> Thread P C -> Prop :=
| user_quits s lp tid : owner s = OwnerRunning -> the_loop s = Some lp ->
    user_quit s (mkThread (owner s) (worker s) (published s) (Some (quit tid lp))).

Definition any_step s s' : Prop := step s s' \/ user_quit s s'.

Definition fresh : Thread P C := mkThread OwnerIdle WorkerNone false None.
Definition reachable s : Prop := rtc any_step fresh s.

(** The destructor is waiting and the worker is on its way out, or done. *)
Definition stopping s : Prop :=
  owner s = OwnerDone \/
  owner s = OwnerJoining /\
  match worker s with
  | WorkerLooping => exists lp, the_loop s = Some lp /\ quit_ lp = true
  | WorkerReturned | WorkerExited => True
  | _ => False
  end.

Lemma stopping_step s s' : stopping s -> step s s' -> stopping s'.
Proof.
  intros [Hs|[Ho Hw]] H; destruct H; cbn in *; try congruence; try (rewrite Hs in *; congruence).
  all: first [by left | right; split; [done|]; destruct (worker s); try done; congruence].
Qed.

Lemma stopping_done s : stopping s -> exists s', rtc step s s' /\ owner s' = OwnerDone.
Proof.
  intros [Hs|[Ho Hw]]; [by exists s|].
  assert (Hexit : forall s, owner s = OwnerJoining -> worker s = WorkerExited ->
    exists s', rtc step s s' /\ owner s' = OwnerDone).
  { intros s1 H1 H2. eexists. split; [apply rtc_once; by apply step_join|done]. }
  assert (Hret : forall s, owner s = OwnerJoining -> worker s = WorkerReturned ->
    exists s', rtc step s s' /\ owner s' = OwnerDone).
  { intros s1 H1 H2. destruct (Hexit (mkThread (owner s1) WorkerExited false None)) as (s' & Hr & Hd);
      [done|done|]. exists s'. split; [|done]. eapply rtc_l; [by apply step_exit|exact Hr]. }
  destruct (worker s) eqn:Ew; try done; [|by apply Hret|by apply Hexit].
  destruct Hw as (lp & Hlp & Hq).
  destruct (Hret (mkThread (owner s) WorkerReturned (published s) (Some (set_running false lp))))
    as (s' & Hr & Hd); [done|done|].
  exists s'. split; [|done]. eapply rtc_l; [by apply (step_return s lp)|exact Hr].
Qed.

(** The destructor is waiting for a worker whose loop has not been told. *)
Definition stuck s : Prop :=
  owner s = OwnerJoining /\ worker s = WorkerLooping /\
  exists lp, the_loop s = Some lp /\ quit_ lp = false.

Lemma stuck_step s s' : stuck s -> step s s' -> stuck s'.
Proof.
  intros (Ho & Hw & lp & Hlp & Hq) H.
  destruct H; cbn in *; try congruence.
Qed.

Lemma rtc_invariant (I : Thread P C -> Prop) s s' :
  (forall s s', I s -> step s s' -> I s') -> rtc step s s' -> I s -> I s'.
Proof. intros HI. induction 1; eauto. Qed.

(** A destructor that finds the worker in its loop joins it.  If [quit] is
    called while the worker loops, every continuation can still reach the end of
    the destructor, and none hangs, terminates the program or touches a loop
    that is gone. *)
Theorem destructor_joins_looping_thread s lp :
  owner s = OwnerQuitting -> worker s = WorkerLooping -> the_loop s = Some lp ->
  exists s1, step s s1 /\ owner s1 = OwnerJoining /\
    forall s2, rtc step s1 s2 ->
      (owner s2 = OwnerJoining \/ owner s2 = OwnerDone) /\
      exists s3, rtc step s2 s3 /\ owner s3 = OwnerDone.
Proof.
  intros Ho Hw Hlp. eexists. split; [by apply (step_quit s lp)|]. split; [done|].
  intros s2 Hr.
  assert (H2 : stopping s2).
  { apply (rtc_invariant stopping _ _ stopping_step Hr). right. cbn. split; [done|].
    rewrite Hw. exists (quit owner_tid lp). split; [done|]. unfold quit, quit_wakeup.
    by destruct (negb _). }
  split; [destruct H2 as [?|[? _]]; [by right|by left]|by apply stopping_done].
Qed.

(** Two states every schedule below goes through: the loop published and
    [startLoop] returned, with [loop()] not yet entered; and [loop()] left after a
    quit the owner did not ask for. *)
Lemma published_reachable (lp : EventLoop P C) : is_running_ lp = false ->
  reachable (mkThread OwnerRunning WorkerPublished true (Some lp)).
Proof.
  intros Hrun.
  eapply rtc_l; [left; by apply (step_startLoop fresh lp)|].
  eapply rtc_l; [left; by apply (step_publish (mkThread OwnerWaiting WorkerInit false (Some lp)))|].
  apply rtc_once. left. by apply (step_started (mkThread OwnerWaiting WorkerPublished true (Some lp))).
Qed.

Definition left_loop (lp : EventLoop P C) : EventLoop P C :=
  quit owner_tid (set_quit false (set_running true lp)).

Lemma returned_reachable (lp : EventLoop P C) : is_running_ lp = false ->
  reachable (mkThread OwnerRunning WorkerReturned true
    (Some (set_running false (left_loop lp)))).
Proof.
  intros Hrun.
  eapply rtc_r; [|left; by apply (step_return
    (mkThread OwnerRunning WorkerLooping true (Some (left_loop lp))) (left_loop lp));
    [done|done|unfold left_loop, quit, quit_wakeup; by destruct (negb _)]].
  eapply rtc_r; [eapply rtc_r; [by apply (published_reachable lp)|]|].
  - left. by apply (step_enter (mkThread OwnerRunning WorkerPublished true (Some lp)) lp).
  - right. by apply (user_quits (mkThread OwnerRunning WorkerLooping true
      (Some (set_quit false (set_running true lp)))) (set_quit false (set_running true lp)) owner_tid).
Qed.

(** Three ways in which destroying an [EventLoopThread] goes wrong, all
    reachable.  A destructor that runs before the worker has entered [loop]
    calls [quit], [loop] stores [quit_ = false] over it, and [join] never
    returns whatever the two threads do next.  If a user of the loop quits it
    and the worker has finished, [loop_] is null and the joinable [std::thread]
    is destroyed, which terminates the program.  If the worker finishes between
    the destructor's test of [loop_] and its [quit], the loop is gone. *)
Theorem destructor_races (lp : EventLoop P C) : is_running_ lp = false ->
  (exists s, reachable s /\ stuck s /\
     forall s', rtc step s s' -> owner s' = OwnerJoining) /\
  (exists s, reachable s /\ owner s = OwnerTerminated) /\
  (exists s, reachable s /\ owner s = OwnerDangling).
Proof.
  intros Hrun. pose proof (published_reachable lp Hrun) as Hrun1.
  pose proof (returned_reachable lp Hrun) as Hback.
  split_and!.
  - exists (mkThread OwnerJoining WorkerLooping true
      (Some (set_quit false (set_running true (quit owner_tid lp))))).
    assert (Hs : stuck (mkThread OwnerJoining WorkerLooping true
      (Some (set_quit false (set_running true (quit owner_tid lp)))))).
    { split_and!; [done|done|]. by eexists. }
    split_and!; [|exact Hs|].
    + eapply rtc_r; [eapply rtc_r; [eapply rtc_r; [exact Hrun1|]|]|].
      * left. by apply (step_destroy_live (mkThread OwnerRunning WorkerPublished true (Some lp))).
      * left. by apply (step_quit (mkThread OwnerQuitting WorkerPublished true (Some lp)) lp).
      * left. by apply (step_enter (mkThread OwnerJoining WorkerPublished true
          (Some (quit owner_tid lp))) (quit owner_tid lp)).
    + intros s' Hr. by apply (rtc_invariant stuck _ _ stuck_step Hr).
  - exists (mkThread OwnerTerminated WorkerExited false None). split; [|done].
    eapply rtc_r; [eapply rtc_r; [exact Hback|]|].
    + left. by apply (step_exit (mkThread OwnerRunning WorkerReturned true
        (Some (set_running false (left_loop lp))))).
    + left. by apply (step_destroy_gone (mkThread OwnerRunning WorkerExited false None)).
  - exists (mkThread OwnerDangling WorkerExited false None). split; [|done].
    eapply rtc_r; [eapply rtc_r; [eapply rtc_r; [exact Hback|]|]|].
    + left. by apply (step_destroy_live (mkThread OwnerRunning WorkerReturned true
        (Some (set_running false (left_loop lp))))).
    + left. by apply (step_exit (mkThread OwnerQuitting WorkerReturned true
        (Some (set_running false (left_loop lp))))).
    + left. by apply (step_quit_dangling (mkThread OwnerQuitting WorkerExited false None)).
Qed.
End EventLoopThread.

Lemma destructor_joins_looping_thread_witness :
  exists s1, step 3 (mkThread OwnerQuitting WorkerLooping true (Some (get_loop demo_start))) s1 /\
    owner s1 = OwnerJoining.
Proof.
  destruct (destructor_joins_looping_thread 3
    (mkThread OwnerQuitting WorkerLooping true (Some (get_loop demo_start)))
    (get_loop demo_start) eq_refl eq_refl eq_refl) as (s1 & Hs & Ho & _).
  exists s1. split; [exact Hs|exact Ho].
Defined.

Lemma destructor_races_witness :
  exists s : Thread Poller.Poller DemoTask, reachable 3 s /\ stuck s.
Proof.
  assert (Hr : is_running_ (get_loop demo_start) = false) by (vm_compute; reflexivity).
  destruct (destructor_races 3 (get_loop demo_start) Hr) as [(s & Hreach & Hs & _) _].
  exists s. split; [exact Hreach|exact Hs].
Defined.
