(* ===== verification/EventLoopThreadPool.v ===== *)
(** * EventLoopThreadPool: net/EventLoopThreadPool.hpp and
    net/EventLoopThreadPool.cpp

    The worker loops of a server and the round robin over them.  A loop is its
    address; [started] by [EventLoopThread::startLoop], which EventLoopThread.v
    models. *)
From Stdlib Require Import ZArith Lia List.
From stdpp Require Import base option list numbers tactics.
From S2P Require Import Prelude.
From S2P Require Import Channel.
Open Scope Z_scope.
Open Scope outcome_scope.

Record EventLoopThreadPool := mkPool {
  base_loop_ : LoopId;
  started_ : bool;
  threads_num_ : Z;
  next_ : Z;                  (** an [int] *)
  loops_ : list LoopId;
}.

Definition make_Pool (base_loop : LoopId) : EventLoopThreadPool :=
  mkPool base_loop false 0 0 [].

Definition setThreadNum (n : Z) (p : EventLoopThreadPool) : EventLoopThreadPool :=
  mkPool (base_loop_ p) (started_ p) n (next_ p) (loops_ p).

(** [new_loops] are the loops the threads publish, in the order of the calls of
    [startLoop]; the [for] does nothing for a negative [threads_num_]. *)
Definition start (new_loops : nat -> LoopId) (p : EventLoopThreadPool) : EventLoopThreadPool :=
  if started_ p then p else
  mkPool (base_loop_ p) true (threads_num_ p) (next_ p)
    (loops_ p ++ map new_loops (seq 0 (Z.to_nat (threads_num_ p)))).

(** [fetch_add] wraps; the [int] it returns is converted to [size_t] before
    [%], and the result back to [int]. *)
Definition getNextLoop (p : EventLoopThreadPool) : outcome (LoopId * EventLoopThreadPool) :=
  match loops_ p with
  | [] => Ok (base_loop_ p, p)
  | _ :: _ =>
      let index := to_int32 (to_size (next_ p) mod Zlen (loops_ p)) in
      let p' := mkPool (base_loop_ p) (started_ p) (threads_num_ p) (to_int32 (next_ p + 1))
                  (loops_ p) in
      if index <? 0 then Undef else
      match loops_ p !! Z.to_nat index with
      | Some l => Ok (l, p')
      | None => Undef
      end
  end.

Fixpoint getLoops (n : nat) (p : EventLoopThreadPool) : outcome (list LoopId * EventLoopThreadPool) :=
  match n with
  | O => Ok ([], p)
  | S n =>
      let! (l, p) := getNextLoop p in
      let! (ls, p) := getLoops n p in
      Ok (l :: ls, p)
  end.

Definition next_ok (p : EventLoopThreadPool) : Prop := - 2 ^ 31 <= next_ p < 2 ^ 31.

Lemma getNextLoop_lookup p : next_ok p -> 0 < Zlen (loops_ p) < 2 ^ 31 ->
  exists l p', getNextLoop p = Ok (l, p') /\
    loops_ p !! Z.to_nat (to_size (next_ p) mod Zlen (loops_ p)) = Some l /\
    next_ p' = to_int32 (next_ p + 1) /\ loops_ p' = loops_ p.
Proof.
  intros Hn Hl. pose proof (Z.mod_pos_bound (to_size (next_ p)) (Zlen (loops_ p)) ltac:(lia)) as Hm.
  unfold getNextLoop. rewrite to_int32_small by lia. decide_bools.
  destruct (lookup_lt_is_Some_2 (loops_ p) (Z.to_nat (to_size (next_ p) mod Zlen (loops_ p))))
    as [l El]; [unfold Zlen in *; lia|]. rewrite El.
  destruct (loops_ p) as [|l0 ls] eqn:E; [done|]. rewrite <- E.
  eexists _, _. by split_and!.
Qed.

(** Whatever the counter, the result is the base loop or one of the workers'. *)
Lemma getNextLoop_member p : next_ok p -> Zlen (loops_ p) < 2 ^ 31 ->
  exists l p', getNextLoop p = Ok (l, p') /\ next_ok p' /\ loops_ p' = loops_ p /\
    base_loop_ p' = base_loop_ p /\ (l = base_loop_ p \/ l ∈ loops_ p).
Proof.
  intros Hn Hl. destruct (decide (loops_ p = [])) as [E|E].
  - exists (base_loop_ p), p. unfold getNextLoop. rewrite E. split_and!; try done; try apply Hn.
    by left.
  - assert (Hpos : 0 < Zlen (loops_ p)).
    { destruct (loops_ p); [done|]. rewrite Zlen_cons. pose proof (Zlen_nonneg l0). lia. }
    destruct (getNextLoop_lookup p) as (l & p' & Eg & El & En & Els); [done|done|].
    exists l, p'. split_and!; [done| |done| |].
    + unfold next_ok. rewrite En. apply to_int32_range.
    + unfold getNextLoop in Eg. destruct (loops_ p); [done|]. destruct (_ <? 0); [done|].
      destruct (_ !! _); [|done]. by injection Eg as _ <-.
    + right. by apply list_elem_of_lookup_2 in El.
Qed.

(** The loops a counter [k] yields without wrapping. *)
Lemma getLoops_from p n : 0 <= next_ p -> next_ p + Z.of_nat n < 2 ^ 31 ->
  0 < Zlen (loops_ p) < 2 ^ 31 ->
  exists ls p', getLoops n p = Ok (ls, p') /\ length ls = n /\
    forall i, (i < n)%nat ->
      ls !! i = loops_ p !! Z.to_nat ((next_ p + Z.of_nat i) mod Zlen (loops_ p)).
Proof.
  revert p. induction n as [|n IH]; intros p H0 Hmax Hl.
  { exists [], p. split_and!; [done|done|]. intros i Hi. lia. }
  destruct (getNextLoop_lookup p) as (l & p1 & E & El & En & Els); [unfold next_ok; lia|done|].
  rewrite to_int32_small in En by lia.
  destruct (IH p1) as (ls & p' & E' & Hlen & Hls); [lia..|by rewrite Els|].
  exists (l :: ls), p'. cbn [getLoops]. rewrite E. cbn [mbind outcome_bind]. rewrite E'.
  split_and!; [done|cbn; lia|].
  intros [|i] Hi; cbn.
  - rewrite Z.add_0_r, <- El. by rewrite to_size_small by lia.
  - rewrite Hls by lia. rewrite Els, En. do 2 f_equal. f_equal. lia.
Qed.

(** New connections are spread round robin.  After [start] with a positive
    number of threads, the i-th call of [getNextLoop] yields worker [i mod n];
    without threads, every call yields the base loop. *)
Theorem pool_round_robin (base : LoopId) (threads : Z) (new_loops : nat -> LoopId) (n : nat) :
  threads < 2 ^ 31 -> Z.of_nat n < 2 ^ 31 ->
  exists ls p', getLoops n (start new_loops (setThreadNum threads (make_Pool base))) = Ok (ls, p') /\
    length ls = n /\
    forall i, (i < n)%nat ->
      ls !! i = Some (if 0 <? threads then new_loops (Z.to_nat (Z.of_nat i mod threads)) else base).
Proof.
  intros Ht Hn. unfold start, setThreadNum, make_Pool. cbn [started_ base_loop_ threads_num_ next_ loops_ app].
  destruct (Z.ltb_spec 0 threads) as [Hpos|Hneg].
  - set (p := mkPool _ _ _ _ _).
    assert (Hlen : Zlen (loops_ p) = threads).
    { unfold Zlen, p. cbn. rewrite length_map, length_seq. lia. }
    destruct (getLoops_from p n) as (ls & p' & E & Hl & Hls); [done|cbn; lia|lia|].
    exists ls, p'. split_and!; [done|done|]. intros i Hi. rewrite Hls by done. rewrite Hlen.
    cbn [next_ p loops_]. rewrite Z.add_0_l.
    pose proof (Z.mod_pos_bound (Z.of_nat i) threads Hpos).
    rewrite list_lookup_fmap, lookup_seq_lt by lia. done.
  - replace (Z.to_nat threads) with 0%nat by lia. cbn [seq map].
    clear Hn. induction n as [|n IH]; [exists []; eexists; split_and!; [done|done|lia]|].
    destruct IH as (ls & p' & E & Hl & Hls). exists (base :: ls), p'. cbn [getLoops].
    unfold getNextLoop. cbn [loops_ base_loop_ mbind outcome_bind]. rewrite E. cbn.
    split_and!; [done|lia|]. intros [|i] Hi; [done|]. apply Hls. lia.
Qed.

(** [getNextLoop] never leaves the vector, also after the counter has
    overflowed to negative values, and a second [start] changes nothing. *)
Theorem pool_index_in_bounds (p : EventLoopThreadPool) (new_loops : nat -> LoopId) :
  next_ok p -> Zlen (loops_ p) < 2 ^ 31 ->
  (exists l p', getNextLoop p = Ok (l, p') /\ next_ok p' /\ loops_ p' = loops_ p /\
     (l = base_loop_ p \/ l ∈ loops_ p)) /\
  (started_ p = true -> start new_loops p = p).
Proof.
  intros Hn Hl. split; [|unfold start; by intros ->].
  destruct (getNextLoop_member p Hn Hl) as (l & p' & E & Hn' & Hls & _ & Hm). by exists l, p'.
Qed.

Lemma pool_round_robin_witness :
  exists p', getLoops 5 (start (fun i => Z.of_nat i + 100) (setThreadNum 3 (make_Pool 7)))
    = Ok ([100; 101; 102; 100; 101], p').
Proof.
  destruct (pool_round_robin 7 3 (fun i => Z.of_nat i + 100) 5) as (ls & p' & E & Hl & Hls);
    [lia|lia|].
  exists p'. rewrite E. do 2 f_equal.
  apply list_eq. intros i. destruct (decide (i < 5)%nat) as [Hi|Hi].
  - rewrite Hls by done. do 5 (destruct i as [|i]; [done|]). lia.
  - rewrite !lookup_ge_None_2 by (cbn; lia). done.
Defined.

Lemma pool_index_in_bounds_witness :
  exists l p', getNextLoop (mkPool 7 true 3 (- 2 ^ 31) [100; 101; 102]) = Ok (l, p') /\ l ∈ [100; 101; 102].
Proof.
  destruct (pool_index_in_bounds (mkPool 7 true 3 (- 2 ^ 31) [100; 101; 102]) (fun _ => 0))
    as [(l & p' & E & _ & _ & [Hl|Hl]) _].
  - unfold next_ok. cbn. lia.
  - vm_compute. reflexivity.
  - exfalso. vm_compute in E. injection E as E _. vm_compute in Hl. congruence.
  - exists l, p'. split; [exact E|exact Hl].
Defined.
