(* ===== verification/TcpClient.v ===== *)
(** * TcpClient: net/TcpClient.hpp and net/TcpClient.cpp

    A client of one loop: its connector (Connector.v, an object that closures
    and timers keep alive), the connection it has, if any, and the close
    callback that starts the connector again.  The closures of the loop are
    [Work]; the callbacks stored in connections are [Callback]: the user's, the
    client's close callback, which captures the client by a bare [this], and the
    one that the destructor leaves behind. *)
From Stdlib Require Import ZArith Lia List String.
From stdpp Require Import base option list numbers gmap strings pretty tactics.
From S2P Require Import Prelude.
From S2P Require Import Buffer.
From S2P Require Import Channel.
From S2P Require Import PollerBase.
From S2P Require Import EventLoop.
From S2P Require Import InetAddress.
From S2P Require Socket.
From S2P Require Import TcpConnection.
From S2P Require Connector.
From S2P Require Poller.
Open Scope Z_scope.
Open Scope outcome_scope.

Inductive Work (T : Type) : Type :=
| ConnWork (t : ConnTask)
| ConnectorWork (t : Connector.ConnectorTask)
| DestroyConnection (conn : ConnId)           (** queued by [~TcpClient] *)
| UserWork (t : T).
Arguments ConnWork {T}.
Arguments ConnectorWork {T}.
Arguments DestroyConnection {T}.
Arguments UserWork {T}.

Inductive Callback (V : Type) : Type :=
| UserCallback (f : V)
| CloseCallback                               (** captures [this] *)
| ClosedAfterClient.                          (** logs *)
Arguments UserCallback {V}.
Arguments CloseCallback {V}.
Arguments ClosedAfterClient {V}.

Record TcpClient (V : Type) := mkTcpClient {
  loop_ : LoopId;
  name_ : string;
  connection_callback_ : option V;
  message_callback_ : option V;
  write_complete_callback_ : option V;
  high_water_mark_callback_ : option V;
  high_water_mark_ : Z;
  connection_ : option ConnId;
  next_conn_id_ : Z;                          (** an [atomic<int>] *)
  retry_ : bool;
  connect_ : bool;
}.
Arguments mkTcpClient {V}.
Arguments loop_ {V}.
Arguments name_ {V}.
Arguments connection_callback_ {V}.
Arguments message_callback_ {V}.
Arguments write_complete_callback_ {V}.
Arguments high_water_mark_callback_ {V}.
Arguments high_water_mark_ {V}.
Arguments connection_ {V}.
Arguments next_conn_id_ {V}.
Arguments retry_ {V}.
Arguments connect_ {V}.

Section Members.
Context {V : Type}.
Implicit Types k : TcpClient V.

Definition setConnectionCallback (cb : V) k : TcpClient V :=
  mkTcpClient (loop_ k) (name_ k) (Some cb) (message_callback_ k) (write_complete_callback_ k)
    (high_water_mark_callback_ k) (high_water_mark_ k) (connection_ k) (next_conn_id_ k)
    (retry_ k) (connect_ k).
Definition setMessageCallback (cb : V) k : TcpClient V :=
  mkTcpClient (loop_ k) (name_ k) (connection_callback_ k) (Some cb) (write_complete_callback_ k)
    (high_water_mark_callback_ k) (high_water_mark_ k) (connection_ k) (next_conn_id_ k)
    (retry_ k) (connect_ k).
Definition setWriteCompleteCallback (cb : V) k : TcpClient V :=
  mkTcpClient (loop_ k) (name_ k) (connection_callback_ k) (message_callback_ k) (Some cb)
    (high_water_mark_callback_ k) (high_water_mark_ k) (connection_ k) (next_conn_id_ k)
    (retry_ k) (connect_ k).
Definition setHighWaterMarkCallback (cb : V) (high_water_mark : Z) k : TcpClient V :=
  mkTcpClient (loop_ k) (name_ k) (connection_callback_ k) (message_callback_ k)
    (write_complete_callback_ k) (Some cb) high_water_mark (connection_ k) (next_conn_id_ k)
    (retry_ k) (connect_ k).
Definition setRetry (on : bool) k : TcpClient V :=
  mkTcpClient (loop_ k) (name_ k) (connection_callback_ k) (message_callback_ k)
    (write_complete_callback_ k) (high_water_mark_callback_ k) (high_water_mark_ k)
    (connection_ k) (next_conn_id_ k) on (connect_ k).
Definition set_connect (on : bool) k : TcpClient V :=
  mkTcpClient (loop_ k) (name_ k) (connection_callback_ k) (message_callback_ k)
    (write_complete_callback_ k) (high_water_mark_callback_ k) (high_water_mark_ k)
    (connection_ k) (next_conn_id_ k) (retry_ k) on.
Definition set_connection (conn : option ConnId) k : TcpClient V :=
  mkTcpClient (loop_ k) (name_ k) (connection_callback_ k) (message_callback_ k)
    (write_complete_callback_ k) (high_water_mark_callback_ k) (high_water_mark_ k)
    conn (next_conn_id_ k) (retry_ k) (connect_ k).
Definition set_next_conn_id (n : Z) k : TcpClient V :=
  mkTcpClient (loop_ k) (name_ k) (connection_callback_ k) (message_callback_ k)
    (write_complete_callback_ k) (high_water_mark_callback_ k) (high_water_mark_ k)
    (connection_ k) n (retry_ k) (connect_ k).

Definition getConnection k : option ConnId := connection_ k.
Definition getRetryFlag k : bool := retry_ k.
Definition getName k : string := name_ k.
End Members.

(** The client, [None] once it has been destroyed; its connector; what the kernel
    answers to the next attempt to connect; the addresses the allocator gives. *)
Class ClientWorld (W V : Type) := {
  get_client : W -> option (TcpClient V);
  put_client : option (TcpClient V) -> W -> W;
  get_connector : W -> Connector.Connector;
  put_connector : Connector.Connector -> W -> W;
  next_attempt : W -> Connector.attempt * W;
  allocate : W -> ConnId * ChanId;
}.

Section TcpClient.
Context `{EFD : EventFd} {W P T V : Type}.
Abbreviation C := (Work T).
Context `{PB : !PollerBase P (Closure C)} `{LW : !LoopWorld W P C}.
Context `{CW : !ConnWorld W (Callback V)} `{SK : !SocketKernel W}.
Context `{SC : !Socket.SocketCalls W} `{KW : !ClientWorld W V}.

(** The user's callbacks and tasks. *)
Variable user : V -> ConnId -> W -> outcome W.
Variable user_task : T -> W -> outcome W.

Definition deref_client (w : W) : outcome (TcpClient V) :=
  match get_client w with Some k => Ok k | None => Undef end.

Definition queue_work (tid : Z) (c : C) (w : W) : W := on_loop (queueInLoop tid c) w.

(** ** The connector, in the client's world *)

(** [startInLoop] and [restart] make one attempt to connect. *)
Definition connector_attempt (tid : Z)
    (f : Connector.attempt -> Connector.Connector -> outcome Connector.Connector) (w : W)
    : outcome W :=
  let! _ := assert_loop tid w in
  let '(a, w) := next_attempt w in
  let! c := f a (get_connector w) in
  Ok (put_connector c w).

Definition run_connector_task (tid : Z) (t : Connector.ConnectorTask) (w : W) : outcome W :=
  match t with
  | Connector.StartInLoop => connector_attempt tid Connector.startInLoop w
  | Connector.StopInLoop =>
      let! _ := assert_loop tid w in
      Ok (put_connector (Connector.stopInLoop (get_connector w)) w)
  end.

(** [start] and [stop]. *)
Definition connector_flag (tid : Z) (b : bool) (t : Connector.ConnectorTask) (w : W) : outcome W :=
  let w := put_connector (Connector.set_connect b (get_connector w)) w in
  if isInLoopThread tid (get_loop w) then run_connector_task tid t w
  else Ok (queue_work tid (ConnectorWork t) w).

(** ** The client's calls *)
Definition connect (tid : Z) (w : W) : outcome W :=
  let! k := deref_client w in
  let w := put_client (Some (set_connect true k)) w in
  connector_flag tid true Connector.StartInLoop w.

Definition stop (tid : Z) (w : W) : outcome W :=
  let! k := deref_client w in
  let w := put_client (Some (set_connect false k)) w in
  connector_flag tid false Connector.StopInLoop w.

(** The close callback; [conn] is its argument. *)
Definition connection_closed (tid : Z) (conn : ConnId) (w : W) : outcome W :=
  let! k := deref_client w in
  let w := put_client (Some (set_connection None k)) w in
  let w := queue_work tid (ConnWork (ConnectionDestroyed conn)) w in
  let! k := deref_client w in
  if retry_ k && connect_ k then connector_attempt tid Connector.restart w else Ok w.

(** The bodies of the callbacks stored in connections. *)
Definition call_callback (tid : Z) (cb : Callback V) (conn : ConnId) (w : W) : outcome W :=
  match cb with
  | UserCallback f => user f conn w
  | CloseCallback => connection_closed tid conn w
  | ClosedAfterClient => Ok w
  end.

Definition disconnect (tid : Z) (w : W) : outcome W :=
  let! k := deref_client w in
  let w := put_client (Some (set_connect false k)) w in
  match connection_ k with
  | Some conn => shutdown ConnWork (call_callback tid) tid conn w
  | None => Ok w
  end.

(** ** A new connection *)
Definition set_callbacks (k : TcpClient V) (c : TcpConnection (Callback V))
    : TcpConnection (Callback V) :=
  let c := match connection_callback_ k with
           | Some f => TcpConnection.setConnectionCallback (UserCallback f) c | None => c end in
  let c := match message_callback_ k with
           | Some f => TcpConnection.setMessageCallback (UserCallback f) c | None => c end in
  let c := match high_water_mark_callback_ k with
           | Some f => setHighWaterCallback (UserCallback f) (high_water_mark_ k) c | None => c end in
  let c := match write_complete_callback_ k with
           | Some f => TcpConnection.setWriteCompleteCallback (UserCallback f) c | None => c end in
  setCloseCallback CloseCallback c.

(** [name_ + "#" + std::to_string(next_conn_id_.fetch_add(1))]. *)
Definition connection_name (k : TcpClient V) : string :=
  (name_ k ++ "#" ++ pretty (next_conn_id_ k))%string.

Definition onConnection (tid : Z) (fd : Z) (w : W) : outcome W :=
  let! k := deref_client w in
  let! _ := assert_loop tid w in
  let name := connection_name k in
  let w := put_client (Some (set_next_conn_id (to_int32 (next_conn_id_ k + 1)) k)) w in
  let local_addr := Socket.getLocalAddress fd w in
  let! peer_addr := Socket.getPeerAddress fd w in
  let '(conn, cid) := allocate w in
  let w := make_TcpConnection ConnWork (loop_ k) conn cid name fd local_addr peer_addr w in
  let! c := deref_conn conn w in
  let w := put_conn conn (set_callbacks k c) w in
  let! k := deref_client w in
  let w := put_client (Some (set_connection (Some conn) k)) w in
  connectionEstablished (call_callback tid) tid conn w.

(** [Connector::handleWritable] with the client's callback in its place. *)
Definition connector_writable (tid : Z) (w : W) : outcome W :=
  let c := get_connector w in
  match Connector.socket_ c with
  | None => Undef
  | Some fd =>
      let '(err, w) := Socket.getSocketError fd w in
      if negb (err =? 0) then
        Ok (put_connector
              (Connector.retry (Connector.reset_socket (Connector.resetChannel c))) w)
      else
        let c := Connector.resetChannel (Connector.setState Connector.Connected c) in
        let w := put_connector (Connector.hand_over c) w in
        let! w := onConnection tid fd w in
        Ok (put_connector (Connector.reset_socket (get_connector w)) w)
  end.

(** ** Destruction *)

(** The destructor's closure. *)
Definition destroy_connection (tid : Z) (conn : ConnId) (w : W) : outcome W :=
  let! c := deref_conn conn w in
  let w := put_conn conn (setCloseCallback ClosedAfterClient c) w in
  connectionDestroyed (call_callback tid) tid conn w.

Definition destroy_TcpClient (tid : Z) (w : W) : outcome W :=
  let! k := deref_client w in
  let! w :=
    match connection_ k with
    | Some conn =>
        if isInLoopThread tid (get_loop w) then destroy_connection tid conn w
        else Ok (queue_work tid (DestroyConnection conn) w)
    | None => connector_flag tid false Connector.StopInLoop w
    end in
  Ok (put_client None w).

(** [loop] and [connector_] with its callback are set. *)
Definition make_TcpClient (loop : LoopId) (name : string) (w : W) : W :=
  put_client (Some (mkTcpClient loop name None None None None (64 * 1024 * 1024) None 0 false false))
    (put_connector (Connector.make_Connector true) w).

(** ** The closures of the loop *)
Definition client (tid : Z) (c : C) (w : W) : outcome W :=
  match c with
  | ConnWork t => run_conn_task ConnWork (call_callback tid) tid t w
  | ConnectorWork t => run_connector_task tid t w
  | DestroyConnection conn => destroy_connection tid conn w
  | UserWork t => user_task t w
  end.

(** A retry timer of the connector fires: its closure holds the connector. *)
Definition connector_timer (tid : Z) (w : W) : outcome W :=
  match Connector.retry_timers (get_connector w) with
  | _ :: ts =>
      let w := put_connector (Connector.set_timers ts (get_connector w)) w in
      connector_attempt tid Connector.startInLoop w
  | [] => Ok w
  end.
End TcpClient.

(** ** The client's world *)

(** The client, its connector, the connections, the loop and the channels are
    separate objects. *)
Class ClientLaws `{EFD : EventFd} (W P T V : Type) `{PB : !PollerBase P (Closure (Work T))}
    `{LW : !LoopWorld W P (Work T)} `{CW : !ConnWorld W (Callback V)} `{SK : !SocketKernel W}
    `{SC : !Socket.SocketCalls W} `{KW : !ClientWorld W V} := {
  client_loop_laws :: LoopWorldLaws W P (Work T);
  client_conn_laws :: ConnLaws W P (Work T) (Callback V);
  get_put_client : forall k (w : W), get_client (put_client k w) = k;
  get_put_connector : forall c (w : W), get_connector (put_connector c w) = c;
  client_put_connector : forall c (w : W), get_client (put_connector c w) = get_client w;
  client_put_conn : forall conn c (w : W), get_client (put_conn conn c w) = get_client w;
  client_put_loop : forall lp (w : W), get_client (put_loop lp w) = get_client w;
  client_put_channels : forall st (w : W), get_client (put_channels st w) = get_client w;
  connector_put_client : forall k (w : W), get_connector (put_client k w) = get_connector w;
  connector_put_conn : forall conn c (w : W), get_connector (put_conn conn c w) = get_connector w;
  connector_put_loop : forall lp (w : W), get_connector (put_loop lp w) = get_connector w;
  connector_put_channels : forall st (w : W), get_connector (put_channels st w) = get_connector w;
  conn_put_client : forall conn k (w : W), get_conn conn (put_client k w) = get_conn conn w;
  loop_put_client : forall k (w : W), get_loop (put_client k w) = get_loop w;
  channels_put_client : forall k (w : W), get_channels (put_client k w) = get_channels w;
  conn_put_connector : forall conn c (w : W), get_conn conn (put_connector c w) = get_conn conn w;
  loop_put_connector : forall c (w : W), get_loop (put_connector c w) = get_loop w;
  channels_put_connector : forall c (w : W), get_channels (put_connector c w) = get_channels w;
  (** Asking the kernel. *)
  attempt_law : forall (w : W), let w' := (next_attempt w).2 in
    get_client w' = get_client w /\ get_connector w' = get_connector w /\
    get_loop w' = get_loop w /\ get_channels w' = get_channels w /\
    forall conn, get_conn conn w' = get_conn conn w;
  so_error_client : forall fd (w : W), let w' := (Socket.sys_getsockopt_error fd w).2 in
    get_client w' = get_client w /\ get_connector w' = get_connector w;
}.

Section ClientTheorems.
Context `{EFD : EventFd} {W P T V : Type}.
Abbreviation C := (Work T).
Context `{PB : !PollerBase P (Closure C)} {PL : PollerLaws P (Closure C)}.
Context `{LW : !LoopWorld W P C} `{CW : !ConnWorld W (Callback V)}.
Context `{SK : !SocketKernel W} `{SC : !Socket.SocketCalls W} `{KW : !ClientWorld W V}.
Context {KL : ClientLaws W P T V}.
Context (user : V -> ConnId -> W -> outcome W) (user_task : T -> W -> outcome W).

(** Reading the world after a write. *)
Lemma client_at_client k (w : W) : get_client (put_client k w) = k.
Proof. apply get_put_client. Qed.
Lemma connector_at_connector c (w : W) : get_connector (put_connector c w) = c.
Proof. apply get_put_connector. Qed.
Lemma client_at_connector c (w : W) : get_client (put_connector c w) = get_client w.
Proof. apply client_put_connector. Qed.
Lemma client_at_conn conn c (w : W) : get_client (put_conn conn c w) = get_client w.
Proof. apply client_put_conn. Qed.
Lemma client_at_loop lp (w : W) : get_client (put_loop lp w) = get_client w.
Proof. apply client_put_loop. Qed.
Lemma client_at_channels st (w : W) : get_client (put_channels st w) = get_client w.
Proof. apply client_put_channels. Qed.
Lemma connector_at_client k (w : W) : get_connector (put_client k w) = get_connector w.
Proof. apply connector_put_client. Qed.
Lemma connector_at_conn conn c (w : W) :
  get_connector (put_conn conn c w) = get_connector w.
Proof. apply connector_put_conn. Qed.
Lemma connector_at_loop lp (w : W) : get_connector (put_loop lp w) = get_connector w.
Proof. apply connector_put_loop. Qed.
Lemma connector_at_channels st (w : W) :
  get_connector (put_channels st w) = get_connector w.
Proof. apply connector_put_channels. Qed.
Lemma conn_at_client conn k (w : W) : get_conn conn (put_client k w) = get_conn conn w.
Proof. apply conn_put_client. Qed.
Lemma loop_at_client k (w : W) : get_loop (put_client k w) = get_loop w.
Proof. apply loop_put_client. Qed.
Lemma channels_at_client k (w : W) : get_channels (put_client k w) = get_channels w.
Proof. apply channels_put_client. Qed.
Lemma conn_at_connector conn c (w : W) :
  get_conn conn (put_connector c w) = get_conn conn w.
Proof. apply conn_put_connector. Qed.
Lemma loop_at_connector c (w : W) : get_loop (put_connector c w) = get_loop w.
Proof. apply loop_put_connector. Qed.
Lemma channels_at_connector c (w : W) :
  get_channels (put_connector c w) = get_channels w.
Proof. apply channels_put_connector. Qed.
Lemma loop_at_loop lp (w : W) : get_loop (put_loop lp w) = lp.
Proof. apply get_put_loop. Qed.
Lemma loop_at_channels st (w : W) : get_loop (put_channels st w) = get_loop w.
Proof. apply loop_put_channels. Qed.
Lemma channels_at_channels st (w : W) : get_channels (put_channels st w) = st.
Proof. apply get_put_channels. Qed.
Lemma channels_at_loop lp (w : W) : get_channels (put_loop lp w) = get_channels w.
Proof. apply channels_put_loop. Qed.
Lemma loop_at_conn conn c (w : W) : get_loop (put_conn conn c w) = get_loop w.
Proof. apply loop_put_conn. Qed.
Lemma channels_at_conn conn c (w : W) :
  get_channels (put_conn conn c w) = get_channels w.
Proof. apply channels_put_conn. Qed.
Lemma conn_at_loop conn lp (w : W) : get_conn conn (put_loop lp w) = get_conn conn w.
Proof. apply conn_put_loop. Qed.
Lemma conn_at_channels conn st (w : W) :
  get_conn conn (put_channels st w) = get_conn conn w.
Proof. apply conn_put_channels. Qed.
Lemma conn_at_conn conn conn' c (w : W) :
  get_conn conn (put_conn conn' c w) = if decide (conn = conn') then Some c else get_conn conn w.
Proof. apply get_put_conn. Qed.

Create Rewrite HintDb client_world.
#[local] Hint Rewrite client_at_client connector_at_connector client_at_connector client_at_conn
  client_at_loop client_at_channels connector_at_client connector_at_conn
  connector_at_loop connector_at_channels conn_at_client loop_at_client
  channels_at_client conn_at_connector loop_at_connector channels_at_connector
  loop_at_loop loop_at_channels channels_at_channels channels_at_loop
  loop_at_conn channels_at_conn conn_at_loop conn_at_channels
  conn_at_conn : client_world.

Definition on_thread (tid : Z) (w : W) : Prop := thread_id_ (get_loop w) = tid.

Lemma in_loop tid w : on_thread tid w -> isInLoopThread tid (get_loop w) = true.
Proof. intros H. by apply Z.eqb_eq. Qed.

(** An attempt on the loop's thread. *)
Lemma connector_attempt_eq tid f w : on_thread tid w ->
  connector_attempt tid f w
  = let! c := f (next_attempt w).1 (get_connector w) in
    Ok (put_connector c (next_attempt w).2).
Proof.
  intros Ht. unfold connector_attempt. rewrite assert_loop_ok by done. cbn [mbind outcome_bind].
  destruct (attempt_law w) as (_ & E & _). destruct (next_attempt w) as [a w']. cbn in *. by rewrite E.
Qed.

(** What [queueInLoop] leaves. *)
Lemma queue_work_view tid c (w : W) : let w' := queue_work tid c w in
  task_queue_ (get_loop w') = task_queue_ (get_loop w) ++ [c] /\
  thread_id_ (get_loop w') = thread_id_ (get_loop w) /\
  get_client w' = get_client w /\ get_connector w' = get_connector w /\
  get_channels w' = get_channels w /\ forall conn, get_conn conn w' = get_conn conn w.
Proof.
  unfold queue_work, on_loop. cbn zeta. autorewrite with client_world.
  split_and!; try done.
  - unfold queueInLoop, queue_wakeup. by destruct (_ || _).
  - unfold queueInLoop, queue_wakeup. by destruct (_ || _).
  - intros conn. by autorewrite with client_world.
Qed.

(** ** The connection closes *)

(** [handleClose] of the client's connection ends in the close callback, with
    the client and its connector as they were. *)
Lemma close_reaches_client tid conn w c ch :
  conn_base tid conn w c ch -> state_ c = Connected \/ state_ c = Disconnecting ->
  close_callback_ c = Some CloseCallback ->
  exists w1, handleClose (call_callback user tid) tid conn w = connection_closed tid conn w1 /\
    on_thread tid w1 /\ task_queue_ (get_loop w1) = task_queue_ (get_loop w) /\
    get_client w1 = get_client w /\ get_connector w1 = get_connector w /\
    get_conn conn w1 = Some (setState Disconnected c).
Proof.
  intros Hb Hs Hcb.
  destruct (handleClose_closes (call_callback user tid) tid conn w c ch Hb Hs)
    as (w1 & ch' & E & Hb1 & _ & p' & st' & Es).
  exists w1. rewrite E, Hcb. split_and!; [done|apply Hb1| | | |apply Hb1];
    rewrite Es; by autorewrite with client_world.
Qed.

(** The connector starts again, whatever it was doing. *)
Lemma restart_single a c : Connector.single c -> Connector.state_ c = Connector.Connected ->
  Connector.new_fd a <> -1 ->
  exists c', Connector.restart a c = Ok c' /\ Connector.single c' /\
    Connector.state_ c' <> Connector.Connected /\ Connector.connect_ c' = true.
Proof.
  intros [Hi Ht Hl Hb] Hs Hfd.
  assert (Htm : Connector.retry_timers c = []) by (apply Hb; congruence).
  set (c0 := Connector.set_delay Connector.DEFAULT_RETRY_DELAY
    (Connector.set_connect true (Connector.setState Connector.Disconnected c))).
  assert (Hidle : Connector.idle c0).
  { split; [|done]. apply (Connector.inv_fields c Connector.Disconnected); [done|by rewrite Hs| |].
    - exact (Connector.inv_timers c Hi).
    - unfold Connector.DEFAULT_RETRY_DELAY. lia. }
  destruct (Connector.connect_inv a c0 Hidle Hfd) as (c' & E & Hi').
  exists c'. unfold Connector.restart. fold c0. unfold Connector.startInLoop.
  rewrite bool_decide_true by done. cbn [negb]. split; [done|].
  destruct (Connector.connect_single _ _ _ E) as (? & ? & ?); [done|done|].
  split; [by split|]. by apply (Connector.connect_shape _ _ _ E).
Qed.

(** When the client's connection closes, the client forgets it, queues
    [connectionDestroyed] once, and starts the connector again exactly when
    [setRetry] and [connect] asked for it; that never aborts, and leaves one
    attempt under way or scheduled. *)
Theorem client_reconnects tid conn (w : W) c ch k :
  conn_base tid conn w c ch -> state_ c = Connected \/ state_ c = Disconnecting ->
  close_callback_ c = Some CloseCallback -> get_client w = Some k ->
  Connector.single (get_connector w) ->
  Connector.state_ (get_connector w) = Connector.Connected ->
  (forall w1 : W, Connector.new_fd (next_attempt w1).1 <> -1) ->
  exists w', handleClose (call_callback user tid) tid conn w = Ok w' /\
    get_client w' = Some (set_connection None k) /\
    task_queue_ (get_loop w')
      = task_queue_ (get_loop w) ++ [ConnWork (ConnectionDestroyed conn)] /\
    get_conn conn w' = Some (setState Disconnected c) /\
    (if retry_ k && connect_ k
     then Connector.single (get_connector w') /\
       Connector.state_ (get_connector w') <> Connector.Connected /\
       Connector.connect_ (get_connector w') = true
     else get_connector w' = get_connector w).
Proof.
  intros Hb Hs Hcb Hk Hsingle Hup Hfd.
  destruct (close_reaches_client tid conn w c ch Hb Hs Hcb) as (w1 & E & Ht & Hq & Hk1 & Hc1 & Hcn).
  rewrite E. unfold connection_closed, deref_client. rewrite Hk1, Hk. cbn [mbind outcome_bind].
  set (w2 := queue_work tid _ _).
  destruct (queue_work_view tid (ConnWork (ConnectionDestroyed conn))
    (put_client (Some (set_connection None k)) w1)) as (V1 & V2 & V3 & V4 & V5 & V6).
  fold w2 in V1, V2, V3, V4, V5, V6. autorewrite with client_world in V1, V2, V3, V4, V5.
  specialize (V6 conn). autorewrite with client_world in V6. rewrite V3. cbn [mbind outcome_bind].
  change (retry_ (set_connection None k)) with (retry_ k).
  change (connect_ (set_connection None k)) with (connect_ k).
  destruct (retry_ k && connect_ k).
  - rewrite connector_attempt_eq by (unfold on_thread; congruence).
    rewrite V4, Hc1. destruct (attempt_law w2) as (A1 & A2 & A3 & A4 & A5).
    destruct (restart_single (next_attempt w2).1 (get_connector w) Hsingle Hup (Hfd _))
      as (c' & Er & Hs' & Hne & Hcon).
    rewrite Er. cbn [mbind outcome_bind]. eexists. split; [done|].
    autorewrite with client_world. rewrite A1, A3, A5. split_and!; congruence || done.
  - exists w2. split_and!; congruence || done.
Qed.

Lemma connect_connected tid w k : on_thread tid w -> get_client w = Some k ->
  Connector.state_ (get_connector w) = Connector.Connected -> connect tid w = Abort.
Proof.
  intros Ht Hk Hs. unfold connect, deref_client. rewrite Hk. cbn [mbind outcome_bind].
  unfold connector_flag. rewrite in_loop by (unfold on_thread; by autorewrite with client_world).
  cbn [run_connector_task]. rewrite connector_attempt_eq by (unfold on_thread; by autorewrite with client_world).
  autorewrite with client_world. unfold Connector.startInLoop. cbn [Connector.state_ Connector.set_connect].
  by rewrite Hs.
Qed.

(** A client whose connection has closed cannot connect again.  Nothing
    but [stop] or a restart leads the connector back from [Connected]: unless
    retry was asked for, [connect] after the close of the connection aborts
    the program; so it does while the connection is up. *)
Theorem connect_after_close_aborts tid conn (w : W) c ch k :
  conn_base tid conn w c ch -> state_ c = Connected \/ state_ c = Disconnecting ->
  close_callback_ c = Some CloseCallback -> get_client w = Some k ->
  retry_ k && connect_ k = false ->
  Connector.state_ (get_connector w) = Connector.Connected ->
  connect tid w = Abort /\
  exists w', handleClose (call_callback user tid) tid conn w = Ok w' /\
    get_client w' = Some (set_connection None k) /\ connect tid w' = Abort.
Proof.
  intros Hb Hs Hcb Hk Hno Hup.
  split; [by eapply connect_connected; [apply Hb|..]|].
  destruct (close_reaches_client tid conn w c ch Hb Hs Hcb) as (w1 & E & Ht & Hq & Hk1 & Hc1 & Hcn).
  rewrite E. unfold connection_closed, deref_client. rewrite Hk1, Hk. cbn [mbind outcome_bind].
  set (w2 := queue_work tid _ _).
  destruct (queue_work_view tid (ConnWork (ConnectionDestroyed conn))
    (put_client (Some (set_connection None k)) w1)) as (V1 & V2 & V3 & V4 & V5 & V6).
  fold w2 in V1, V2, V3, V4. autorewrite with client_world in V1, V2, V3, V4. rewrite V3.
  cbn [mbind outcome_bind retry_ connect_ set_connection]. rewrite Hno.
  exists w2. split_and!; [done|done|].
  eapply connect_connected; [unfold on_thread; congruence|exact V3|congruence].
Qed.

(** ** A client that is destroyed *)

(** [~TcpClient] off the loop's thread races with the peer.  The
    destructor leaves a closure for the connection and is gone; until that
    closure runs the connection still has the close callback that captured the
    client, so that an end of file handled first uses a destroyed object. *)
Theorem destroy_races_close tid tid' conn (w : W) c ch k :
  conn_base tid conn w c ch -> state_ c = Connected \/ state_ c = Disconnecting ->
  close_callback_ c = Some CloseCallback -> get_client w = Some k ->
  connection_ k = Some conn -> tid' <> tid ->
  exists w', destroy_TcpClient user tid' w = Ok w' /\
    task_queue_ (get_loop w') = task_queue_ (get_loop w) ++ [DestroyConnection conn] /\
    handleClose (call_callback user tid) tid conn w' = Undef.
Proof.
  intros Hb Hs Hcb Hk Hconn Hne.
  assert (Hoff : isInLoopThread tid' (get_loop w) = false).
  { apply Z.eqb_neq. pose proof (ok_thread _ _ _ _ _ Hb). congruence. }
  set (w' := put_client None (queue_work tid' (DestroyConnection conn) w)).
  assert (Hb' : conn_base tid conn w' c ch).
  { eapply (conn_base_frame tid conn (queue_work tid' (DestroyConnection conn) w)).
    - by apply conn_base_queueInLoop.
    - unfold w'. by autorewrite with client_world.
    - unfold w'. by autorewrite with client_world.
    - unfold w'. by autorewrite with client_world. }
  exists w'. split_and!.
  - unfold destroy_TcpClient, deref_client. rewrite Hk. cbn [mbind outcome_bind].
    by rewrite Hconn, Hoff.
  - unfold w'. autorewrite with client_world. apply queue_work_view.
  - destruct (close_reaches_client tid conn w' c ch Hb' Hs Hcb) as (w1 & E & _ & _ & Hk1 & _).
    rewrite E. unfold connection_closed, deref_client. rewrite Hk1. unfold w'.
    by autorewrite with client_world.
Qed.

(** The next attempts are in progress, and succeed. *)
Definition attempts_go_on : Prop := forall w : W,
  Connector.new_fd (next_attempt w).1 <> -1 /\
  Connector.savedErrno (next_attempt w).1 = Connector.EINPROGRESS /\
  forall fd, (Socket.sys_getsockopt_error fd w).1 = inr 0.

Lemma attempt_connecting a c : Connector.state_ c = Connector.Disconnected ->
  Connector.new_fd a <> -1 -> Connector.savedErrno a = Connector.EINPROGRESS ->
  exists c', Connector.startInLoop a c = Ok c' /\ Connector.socket_ c' = Some (Connector.new_fd a).
Proof.
  intros Hs Hfd He. unfold Connector.startInLoop. rewrite bool_decide_true by done. cbn [negb].
  unfold Connector.connect, Connector.new_socket. rewrite (proj2 (Z.eqb_neq _ _) Hfd), He.
  by eexists.
Qed.

Lemma getSocketError_view fd (w : W) : (Socket.sys_getsockopt_error fd w).1 = inr 0 ->
  (Socket.getSocketError fd w).1 = 0 /\
  get_client (Socket.getSocketError fd w).2 = get_client w.
Proof.
  intros H. unfold Socket.getSocketError. pose proof (so_error_client fd w) as [Hk _].
  destruct (Socket.sys_getsockopt_error fd w) as [r w']. cbn in *. by subst r.
Qed.

(** A retry outlives the client.  A client destroyed while its connector
    waits for a retry stops the connector, but the timer stays (Connector.v):
    it connects, and the connection that succeeds is handed to the client that
    is gone. *)
Theorem retry_outlives_client tid (w : W) k d :
  get_client w = Some k -> connection_ k = None -> on_thread tid w ->
  Connector.state_ (get_connector w) = Connector.Disconnected ->
  Connector.retry_timers (get_connector w) = [d] -> attempts_go_on ->
  exists w1 w2, destroy_TcpClient user tid w = Ok w1 /\ get_client w1 = None /\
    connector_timer tid w1 = Ok w2 /\ connector_writable user tid w2 = Undef.
Proof.
  intros Hk Hnone Ht Hs Htm Hgo.
  set (c1 := Connector.stopInLoop (Connector.set_connect false (get_connector w))).
  assert (Hc1 : Connector.state_ c1 = Connector.Disconnected /\ Connector.retry_timers c1 = [d]).
  { unfold c1, Connector.stopInLoop. cbn [Connector.state_ Connector.set_connect]. rewrite Hs. by split. }
  set (w1 := put_client None (put_connector c1
    (put_connector (Connector.set_connect false (get_connector w)) w))).
  assert (Ht1 : on_thread tid w1) by (unfold on_thread, w1; by autorewrite with client_world).
  set (w1' := put_connector (Connector.set_timers [] c1) w1).
  destruct (attempt_connecting (next_attempt w1').1 (Connector.set_timers [] c1))
    as (c2 & E2 & Hso); [apply Hc1|apply Hgo|apply Hgo|].
  exists w1, (put_connector c2 (next_attempt w1').2). split_and!.
  - unfold destroy_TcpClient, deref_client. rewrite Hk. cbn [mbind outcome_bind]. rewrite Hnone.
    unfold connector_flag. rewrite in_loop by (unfold on_thread; by autorewrite with client_world).
    cbn [run_connector_task].
    rewrite assert_loop_ok by (by autorewrite with client_world).
    cbn [mbind outcome_bind]. by autorewrite with client_world.
  - unfold w1. by autorewrite with client_world.
  - unfold connector_timer. unfold w1 at 1. autorewrite with client_world. rewrite (proj2 Hc1).
    assert (E1 : get_connector w1 = c1) by (unfold w1; by autorewrite with client_world).
    rewrite E1. fold w1'.
    rewrite connector_attempt_eq by (unfold on_thread, w1'; by autorewrite with client_world).
    assert (E1' : get_connector w1' = Connector.set_timers [] c1)
      by (unfold w1'; by autorewrite with client_world).
    rewrite E1', E2. done.
  - unfold connector_writable. autorewrite with client_world. rewrite Hso.
    set (w2 := put_connector c2 _).
    destruct (getSocketError_view (Connector.new_fd (next_attempt w1').1) w2) as [Ee Ek];
      [apply Hgo|].
    destruct (Socket.getSocketError _ w2) as [err w3]. cbn [fst snd] in *. subst err.
    cbn [Z.eqb negb]. unfold onConnection, deref_client. autorewrite with client_world.
    rewrite Ek. unfold w2. autorewrite with client_world.
    destruct (attempt_law w1') as (A1 & _). rewrite A1. unfold w1', w1. by autorewrite with client_world.
Qed.

(** ** A connection comes up *)

(** The loop of the client [k] on its thread, with room for a new connection:
    the descriptor is not watched, the addresses are not in use, the peer has an
    address. *)
Record room (tid : Z) (fd : Z) (conn : ConnId) (cid : ChanId) (peer : sockaddr_in)
    (k : TcpClient V) (w : W) : Prop := {
  rm_client : get_client w = Some k;
  rm_thread : on_thread tid w;
  rm_self : self (get_loop w) = loop_ k;
  rm_poller : poller_inv (poller_ (get_loop w)) (get_channels w);
  rm_fd : 0 <= fd;
  rm_watched : watched (F := Closure C) (poller_ (get_loop w)) fd = None;
  rm_channel : get_channels w !! cid = None;
  rm_peer : forall k', Socket.sys_getpeername fd (put_client k' w) = Some peer;
  rm_allocate : forall k', allocate (put_client k' w) = (conn, cid);
}.

(** The object [onConnection] makes. *)
Definition new_connection (k : TcpClient V) (fd : Z) (cid : ChanId) (local peer : sockaddr_in)
    : TcpConnection (Callback V) :=
  set_callbacks k (mkTcpConnection (loop_ k) (connection_name k) Connecting fd cid local peer
    (make INITIALIZE_SIZE) (make INITIALIZE_SIZE) None None 0 None None None None).

Lemma client_callbacks_members k (c : TcpConnection (Callback V)) :
  let c' := set_callbacks k c in
  home_ c' = home_ c /\ TcpConnection.name_ c' = TcpConnection.name_ c /\
  socket_ c' = socket_ c /\ channel_ c' = channel_ c /\ state_ c' = state_ c /\
  send_buffer_ c' = send_buffer_ c /\ receive_buffer_ c' = receive_buffer_ c /\
  close_callback_ c' = Some CloseCallback /\ peer_address_ c' = peer_address_ c /\
  (TcpConnection.connection_callback_ c = None ->
   TcpConnection.connection_callback_ c' = UserCallback <$> connection_callback_ k).
Proof.
  unfold set_callbacks. destruct (connection_callback_ k), (message_callback_ k),
    (high_water_mark_callback_ k), (write_complete_callback_ k); by split_and!.
Qed.

(** The new object in its loop, before it is established. *)
Lemma new_connection_base tid fd conn cid peer k w local k0 k' :
  room tid fd conn cid peer k w ->
  let c := new_connection k fd cid local peer in
  conn_base tid conn
    (put_client k' (put_conn conn c (make_TcpConnection ConnWork (loop_ k) conn cid
       (connection_name k) fd local peer (put_client k0 w))))
    c (setReadCallback (Client (ConnWork (HandleReadable conn))) (make_Channel (loop_ k) fd)).
Proof.
  intros [Hk Ht Hself Hp Hfd Hwat Hch _ _] c.
  destruct (client_callbacks_members k (mkTcpConnection (loop_ k) (connection_name k) Connecting fd cid
    local peer (make INITIALIZE_SIZE) (make INITIALIZE_SIZE) None None 0 None None None None))
    as (_ & _ & Es & Ec & _). fold (new_connection k fd cid local peer) in Es, Ec.
  fold c in Es, Ec. cbn [socket_ channel_] in Es, Ec. unfold make_TcpConnection.
  split; autorewrite with client_world; rewrite ?Es, ?Ec; try done.
  - by rewrite decide_True.
  - apply lookup_insert_eq.
  - by eapply fresh_law.
  - intros x m. by rewrite Hwat.
Qed.

(** The connection [onConnection] establishes, and the world it does it in. *)
Definition fresh_connection (fd : Z) (cid : ChanId) (peer : sockaddr_in) (k : TcpClient V) (w : W)
    : TcpConnection (Callback V) :=
  new_connection k fd cid
    (Socket.getLocalAddress fd
       (put_client (Some (set_next_conn_id (to_int32 (next_conn_id_ k + 1)) k)) w)) peer.
Definition with_connection (fd : Z) (conn : ConnId) (cid : ChanId) (peer : sockaddr_in)
    (k : TcpClient V) (w : W) : W :=
  let k1 := set_next_conn_id (to_int32 (next_conn_id_ k + 1)) k in
  let w0 := put_client (Some k1) w in
  put_client (Some (set_connection (Some conn) k1))
    (put_conn conn (fresh_connection fd cid peer k w)
      (make_TcpConnection ConnWork (loop_ k) conn cid (connection_name k) fd
         (Socket.getLocalAddress fd w0) peer w0)).

Lemma onConnection_eq tid fd conn cid peer k (w : W) : room tid fd conn cid peer k w ->
  onConnection user tid fd w
  = connectionEstablished (call_callback user tid) tid conn (with_connection fd conn cid peer k w).
Proof.
  intros [Hk Ht Hself Hp Hfd Hwat Hch Hpeer Hal].
  unfold onConnection, deref_client. rewrite Hk. cbn [mbind outcome_bind].
  rewrite assert_loop_ok by done. cbn [mbind outcome_bind].
  set (k1 := set_next_conn_id (to_int32 (next_conn_id_ k + 1)) k).
  set (w0 := put_client (Some k1) w). set (local := Socket.getLocalAddress fd w0).
  assert (Ep : Socket.getPeerAddress fd w0 = Ok peer).
  { unfold Socket.getPeerAddress, w0. by rewrite Hpeer. }
  assert (Ea : allocate w0 = (conn, cid)) by apply Hal.
  rewrite Ep. cbn [mbind outcome_bind]. rewrite Ea.
  set (wm := make_TcpConnection _ _ _ _ _ _ _ _ _).
  assert (Ed : deref_conn conn wm = Ok (mkTcpConnection (loop_ k) (connection_name k) Connecting
    fd cid local peer (make INITIALIZE_SIZE) (make INITIALIZE_SIZE) None None 0 None None None None)).
  { unfold deref_conn, wm, make_TcpConnection. by rewrite get_put_conn, decide_True. }
  rewrite Ed. cbn [mbind outcome_bind]. fold (new_connection k fd cid local peer).
  assert (Ek : get_client (put_conn conn (new_connection k fd cid local peer) wm) = Some k1).
  { unfold wm, make_TcpConnection, w0. by autorewrite with client_world. }
  rewrite Ek. cbn [mbind outcome_bind]. reflexivity.
Qed.

(** C16: a socket that the connector hands over becomes the client's
    connection: under the next name, with the user's callbacks and the client's
    close callback, in the client's loop, where it is up, reads and has nothing
    to send; then the connection callback runs, once. *)
Theorem client_connects tid fd conn cid peer k (w : W) : room tid fd conn cid peer k w ->
  exists w' c ch,
    onConnection user tid fd w
    = call_user (call_callback user tid) (UserCallback <$> connection_callback_ k) conn w' /\
    conn_ok tid conn w' c ch [] 1032 /\ state_ c = Connected /\
    TcpConnection.name_ c = (name_ k ++ "#" ++ pretty (next_conn_id_ k))%string /\
    peer_address_ c = peer /\ close_callback_ c = Some CloseCallback /\
    has (events_ ch) kReadEvent = true /\
    get_client w' = Some (set_connection (Some conn)
      (set_next_conn_id (to_int32 (next_conn_id_ k + 1)) k)).
Proof.
  intros Hr. rewrite (onConnection_eq _ _ _ _ _ _ _ Hr).
  set (c := fresh_connection fd cid peer k w). set (w5 := with_connection fd conn cid peer k w).
  assert (Hb : conn_base tid conn w5 c _) by (by apply new_connection_base).
  destruct (client_callbacks_members k (mkTcpConnection (loop_ k) (connection_name k) Connecting fd cid
    (Socket.getLocalAddress fd
       (put_client (Some (set_next_conn_id (to_int32 (next_conn_id_ k + 1)) k)) w)) peer
    (make INITIALIZE_SIZE) (make INITIALIZE_SIZE) None None 0 None None None None))
    as (_ & En & _ & _ & Est & Esb & _ & Ecl & Epa & Ecb).
  change (set_callbacks k _) with c in En, Est, Esb, Ecl, Epa, Ecb.
  rewrite <- (Ecb eq_refl).
  destruct (connectionEstablished_spec (call_callback user tid) tid conn w5 c _ 1032 Hb)
    as [_ Hup]; [rewrite Esb; apply demo_refines|done|].
  destruct (Hup Est) as (w6 & ch' & E & Hok & _ & _ & Hrd & _ & _ & lp & st & st0 & Es6).
  exists w6, (setState Connected c), ch'. split_and!; try done.
  rewrite Es6. unfold w5, with_connection. by autorewrite with client_world.
Qed.
End ClientTheorems.

(** ** A client over the poll poller, whose attempts succeed *)
Record DemoClient := mkDemoClient {
  dk_loop : EventLoop Poller.Poller (Work unit);
  dk_channels : Store (Closure (Work unit));
  dk_conns : gmap ConnId (TcpConnection (Callback Z));
  dk_client : option (TcpClient Z);
  dk_connector : Connector.Connector;
  dk_wire : gmap Z (list byte);
}.

#[global] Instance demo_client_loop : LoopWorld DemoClient Poller.Poller (Work unit) := {
  get_loop := dk_loop;
  put_loop lp w := mkDemoClient lp (dk_channels w) (dk_conns w) (dk_client w) (dk_connector w)
    (dk_wire w);
  get_channels := dk_channels;
  put_channels st w := mkDemoClient (dk_loop w) st (dk_conns w) (dk_client w) (dk_connector w)
    (dk_wire w);
}.
#[global] Instance demo_client_conns : ConnWorld DemoClient (Callback Z) := {
  get_conn conn w := dk_conns w !! conn;
  put_conn conn c w := mkDemoClient (dk_loop w) (dk_channels w) (<[conn := c]> (dk_conns w))
    (dk_client w) (dk_connector w) (dk_wire w);
  drop_conn conn w := mkDemoClient (dk_loop w) (dk_channels w) (delete conn (dk_conns w))
    (dk_client w) (dk_connector w) (dk_wire w);
}.
#[global] Instance demo_client_kernel : SocketKernel DemoClient := {
  sys_write fd data w := (WriteOk (Zlen data), mkDemoClient (dk_loop w) (dk_channels w) (dk_conns w)
    (dk_client w) (dk_connector w) (<[fd := default [] (dk_wire w !! fd) ++ data]> (dk_wire w)));
  sys_read fd cap w := (ReadOk [], w);
  load_bytes _ _ _ := None;
}.
#[global] Instance demo_client_calls : Socket.SocketCalls DemoClient := {
  Socket.sys_setsockopt _ _ _ _ w := (None, w);
  Socket.sys_bind _ _ w := (None, w);
  Socket.sys_listen _ _ w := (None, w);
  Socket.sys_connect _ _ w := (None, w);
  Socket.sys_accept4 _ w := (-1, mkSockaddr 0 0 0, w);
  Socket.sys_getsockname _ _ := None;
  Socket.sys_getpeername _ _ := Some (mkSockaddr 2 80 0);
  Socket.sys_getsockopt_error _ w := (inr 0, w);
  Socket.sys_shutdown _ _ w := (None, w);
  Socket.sys_close _ w := w;
}.
#[global] Instance demo_client_world : ClientWorld DemoClient Z := {
  get_client := dk_client;
  put_client k w := mkDemoClient (dk_loop w) (dk_channels w) (dk_conns w) k (dk_connector w)
    (dk_wire w);
  get_connector := dk_connector;
  put_connector c w := mkDemoClient (dk_loop w) (dk_channels w) (dk_conns w) (dk_client w) c
    (dk_wire w);
  next_attempt w := (Connector.mkAttempt 9 Connector.EINPROGRESS, w);
  allocate _ := (1, 20);
}.

#[global] Instance demo_client_loop_laws : LoopWorldLaws DemoClient Poller.Poller (Work unit).
Proof. by split. Qed.

#[global] Program Instance demo_client_conn_laws :
    ConnLaws DemoClient Poller.Poller (Work unit) (Callback Z) := {
  wire fd w := default [] (dk_wire w !! fd);
}.
Next Obligation. intros conn conn' c w. cbn. rewrite lookup_insert. repeat case_decide; congruence. Qed.
Next Obligation. done. Qed.
Next Obligation. done. Qed.
Next Obligation. done. Qed.
Next Obligation. done. Qed.
Next Obligation. done. Qed.
Next Obligation. done. Qed.
Next Obligation. done. Qed.
Next Obligation.
  intros fd data w r w' H. cbn in H. injection H as <- <-. pose proof (Zlen_nonneg data).
  split_and!; try done. cbn. rewrite lookup_insert_eq. cbn. by rewrite ztake_ge by lia.
Qed.
Next Obligation. intros fd cap w r w' H0 H. cbn in H. by injection H as <- <-. Qed.
Next Obligation. done. Qed.

#[global] Instance demo_client_laws : ClientLaws DemoClient Poller.Poller unit Z.
Proof. split; try apply _; done. Qed.

Definition demo_callback (f : Z) (conn : ConnId) (w : DemoClient) : outcome DemoClient := Ok w.

(** The client in the loop of thread 7, with the connector [c]. *)
Definition demo_client (retry : bool) : TcpClient Z :=
  set_connect true (setRetry retry
    (mkTcpClient 0 "demo" (Some 1) (Some 2) None None (64 * 1024 * 1024) None 0 false false)).
Definition demo_idle (retry : bool) (c : Connector.Connector) : DemoClient :=
  mkDemoClient (mkEventLoop 0 true false false 7 Poller.make_Poller [] 4 0%nat 10 [])
    ∅ ∅ (Some (demo_client retry)) c ∅.

Definition demo_waits : Connector.Connector :=
  Connector.mkConnector true true Connector.Disconnected None None 1000 [1000] [] [] [] [].
Definition demo_done : Connector.Connector :=
  Connector.mkConnector true true Connector.Connected None None 1000 [] [] [] [9] [].

Lemma demo_room retry c : room 7 9 1 20 (mkSockaddr 2 80 0) (demo_client retry) (demo_idle retry c).
Proof. by split. Qed.

(** The same client with connection 1 up. *)
Definition demo_new (retry : bool) : TcpConnection (Callback Z) :=
  setState Connected (new_connection (demo_client retry) 9 20 (mkSockaddr 0 0 0) (mkSockaddr 2 80 0)).
Definition demo_up (retry : bool) : DemoClient :=
  put_conn 1 (demo_new retry)
    (put_client (Some (set_connection (Some 1) (demo_client retry)))
      (put_conn 1 (new_connection (demo_client retry) 9 20 (mkSockaddr 0 0 0) (mkSockaddr 2 80 0))
        (make_TcpConnection ConnWork 0 1 20 (connection_name (demo_client retry)) 9
           (mkSockaddr 0 0 0) (mkSockaddr 2 80 0)
           (put_client (Some (demo_client retry)) (demo_idle retry demo_done))))).

Lemma demo_up_base retry : exists ch, conn_base 7 1 (demo_up retry) (demo_new retry) ch.
Proof.
  eexists. eapply (conn_base_put 7 1 _ (new_connection (demo_client retry) 9 20
    (mkSockaddr 0 0 0) (mkSockaddr 2 80 0))); [|done|done].
  apply (new_connection_base 7 9 1 20 (mkSockaddr 2 80 0) (demo_client retry)
    (demo_idle retry demo_done)). apply demo_room.
Qed.

Lemma demo_done_single : Connector.single demo_done.
Proof. split; [split|..]; cbn; try done; lia || by constructor. Qed.

Lemma client_connects_witness : exists w' c ch,
  onConnection demo_callback 7 9 (demo_idle true demo_done)
  = call_user (call_callback demo_callback 7) (Some (UserCallback 1)) 1 w' /\
  conn_ok 7 1 w' c ch [] 1032 /\ state_ c = Connected /\ TcpConnection.name_ c = "demo#0"%string.
Proof.
  destruct (client_connects demo_callback 7 9 1 20 (mkSockaddr 2 80 0) (demo_client true)
    (demo_idle true demo_done) (demo_room _ _)) as (w' & c & ch & H1 & H2 & H3 & H4 & _).
  exists w', c, ch. split_and!; [exact H1|exact H2|exact H3|exact H4].
Defined.

Lemma client_reconnects_witness : exists w',
  handleClose (call_callback demo_callback 7) 7 1 (demo_up true) = Ok w' /\
  Connector.state_ (get_connector w') = Connector.Connecting /\
  task_queue_ (get_loop w') = [ConnWork (ConnectionDestroyed 1)].
Proof.
  destruct (demo_up_base true) as [ch Hb].
  destruct (client_reconnects demo_callback 7 1 (demo_up true) (demo_new true) ch
    (set_connection (Some 1) (demo_client true)) Hb) as (w' & E & _ & Hq & _ & Hr).
  - by left.
  - reflexivity.
  - reflexivity.
  - exact demo_done_single.
  - reflexivity.
  - intros w1. discriminate.
  - exists w'. split; [exact E|]. split; [|exact Hq].
    assert (E' : handleClose (call_callback demo_callback 7) 7 1 (demo_up true)
      = Ok w') by exact E. vm_compute in E'. injection E' as <-. reflexivity.
Defined.

Lemma connect_after_close_aborts_witness : exists w',
  handleClose (call_callback demo_callback 7) 7 1 (demo_up false) = Ok w' /\ connect 7 w' = Abort.
Proof.
  destruct (demo_up_base false) as [ch Hb].
  destruct (connect_after_close_aborts demo_callback 7 1 (demo_up false) (demo_new false) ch
    (set_connection (Some 1) (demo_client false)) Hb) as (_ & w' & E & _ & Hc).
  - by left.
  - reflexivity.
  - reflexivity.
  - reflexivity.
  - reflexivity.
  - exists w'. split; [exact E|exact Hc].
Defined.

Lemma destroy_races_close_witness : exists w',
  destroy_TcpClient demo_callback 8 (demo_up true) = Ok w' /\
  handleClose (call_callback demo_callback 7) 7 1 w' = Undef.
Proof.
  destruct (demo_up_base true) as [ch Hb].
  destruct (destroy_races_close demo_callback 7 8 1 (demo_up true) (demo_new true) ch
    (set_connection (Some 1) (demo_client true)) Hb) as (w' & E & _ & Hu).
  - by left.
  - reflexivity.
  - reflexivity.
  - reflexivity.
  - discriminate.
  - exists w'. split; [exact E|exact Hu].
Defined.

Lemma retry_outlives_client_witness : exists w1 w2,
  destroy_TcpClient demo_callback 7 (demo_idle true demo_waits) = Ok w1 /\
  connector_timer 7 w1 = Ok w2 /\ connector_writable demo_callback 7 w2 = Undef.
Proof.
  destruct (retry_outlives_client demo_callback 7 (demo_idle true demo_waits) (demo_client true) 1000)
    as (w1 & w2 & H1 & _ & H2 & H3).
  - reflexivity.
  - reflexivity.
  - reflexivity.
  - reflexivity.
  - reflexivity.
  - intros w. split; [discriminate|]. split; reflexivity.
  - exists w1, w2. split; [exact H1|]. split; [exact H2|exact H3].
Defined.
