(* ===== verification/Acceptor.v ===== *)
(** * Acceptor: net/Acceptor.hpp and net/Acceptor.cpp

    The listening socket of a server and its channel.  The callback for a new
    connection is the argument [new_connection]; the closure that the channel
    holds is [accept_task]. *)
From Stdlib Require Import ZArith Lia List.
From stdpp Require Import base option list numbers gmap tactics.
From S2P Require Import Prelude.
From S2P Require Import Channel.
From S2P Require Import PollerBase.
From S2P Require Import EventLoop.
From S2P Require Import InetAddress.
From S2P Require Socket.
From S2P Require Poller.
Open Scope Z_scope.
Open Scope outcome_scope.

Record Acceptor := mkAcceptor {
  loop_ : LoopId;
  accept_socket_ : Z;                (** its descriptor *)
  accept_channel_ : ChanId;
  new_connection_callback_ : bool;   (** it is set *)
  is_listening_ : bool;
}.

Definition setNewConnectionCallback (a : Acceptor) : Acceptor :=
  mkAcceptor (loop_ a) (accept_socket_ a) (accept_channel_ a) true (is_listening_ a).
Definition set_listening (b : bool) (a : Acceptor) : Acceptor :=
  mkAcceptor (loop_ a) (accept_socket_ a) (accept_channel_ a) (new_connection_callback_ a) b.
Definition listening (a : Acceptor) : bool := is_listening_ a.

Section Acceptor.
Context `{EFD : EventFd} {W P C : Type} `{PB : !PollerBase P (Closure C)}.
Context `{LW : !LoopWorld W P C} `{SC : !Socket.SocketCalls W}.
Variable accept_task : C.

(** [fd] is what [socket(2)] returned, [cid] the address of the channel. *)
Definition make_Acceptor (loop : LoopId) (fd : Z) (cid : ChanId)
    (listen_address : sockaddr_in) (w : W) : outcome (Acceptor * W) :=
  if fd =? -1 then Abort else
  let w := Socket.setReuseAddr fd w in
  let! w := Socket.bindAddress fd listen_address w in
  let ch := setReadCallback (Client accept_task) (make_Channel loop fd) in
  Ok (mkAcceptor loop fd cid false false, put_channels (<[cid := ch]> (get_channels w)) w).

(** The read callback of [accept_channel_]; calling an empty
    [new_connection_callback_] throws. *)
Definition handleRead (tid : Z) (a : Acceptor)
    (new_connection : Z -> sockaddr_in -> W -> outcome W) (w : W) : outcome W :=
  let! _ := assertInLoopThread tid (get_loop w) in
  let '(conn_fd, peer_addr, w) := Socket.accept_fd (accept_socket_ a) w in
  if Socket.valid conn_fd then
    if new_connection_callback_ a then new_connection conn_fd peer_addr w else Abort
  else Ok w.

Definition listen (tid : Z) (a : Acceptor) (w : W) : outcome (Acceptor * W) :=
  let! _ := assertInLoopThread tid (get_loop w) in
  let a := set_listening true a in
  let! w := Socket.listen (accept_socket_ a) w in
  let! w := on_channels (listenTillReadable tid (accept_channel_ a)) w in
  Ok (a, w).

(** The members' destructors: the channel goes without telling the poller, the
    socket closes its descriptor. *)
Definition destroy_Acceptor (a : Acceptor) (w : W) : W :=
  Socket.close_fd (accept_socket_ a)
    (put_channels (delete (accept_channel_ a) (get_channels w)) w).
End Acceptor.

(** ** Listening and accepting *)

(** setsockopt(2), bind(2) and listen(2) leave the loop and the channels alone. *)
Class ListenLaws `{EventFd} (W P C : Type) `{!LoopWorld W P C} `{!Socket.SocketCalls W} := {
  setsockopt_frame : forall fd level name value (w : W),
    let w' := (Socket.sys_setsockopt fd level name value w).2 in
    get_loop w' = get_loop w /\ get_channels w' = get_channels w;
  bind_frame : forall fd addr (w : W), let w' := (Socket.sys_bind fd addr w).2 in
    get_loop w' = get_loop w /\ get_channels w' = get_channels w;
  listen_frame : forall fd n (w : W), let w' := (Socket.sys_listen fd n w).2 in
    get_loop w' = get_loop w /\ get_channels w' = get_channels w;
}.

Section AcceptorTheorems.
Context `{EFD : EventFd} {W P C : Type} `{PB : !PollerBase P (Closure C)}.
Context `{LW : !LoopWorld W P C} `{SC : !Socket.SocketCalls W}.
Context {PL : PollerLaws P (Closure C)} {LWok : LoopWorldLaws W P C} {LL : ListenLaws W P C}.
Context (accept_task : C).

(** The channel [listen] leaves behind. *)
Definition accept_channel (loop : LoopId) (fd i : Z) : Channel (Closure C) :=
  setIndex i (setEvents kReadEvent (setReadCallback (Client accept_task) (make_Channel loop fd))).

(** The acceptor's part of [TcpServer]: construct, set the callback, listen. *)
Definition open_acceptor (tid : Z) (loop : LoopId) (fd : Z) (cid : ChanId) (addr : sockaddr_in)
    (w : W) : outcome (Acceptor * W) :=
  let! (a, w) := make_Acceptor accept_task loop fd cid addr w in
  listen tid (setNewConnectionCallback a) w.

(** An acceptor in its loop, on a descriptor and a channel not in use.
    If bind(2) and listen(2) succeed, it listens: the poller watches the
    descriptor for reading, and the channel's callback is the acceptor's, for
    the read bits and no others.  If one of them fails, or socket(2) did, the
    program aborts. *)
Theorem acceptor_listens tid loop fd cid addr (w : W) :
  thread_id_ (get_loop w) = tid -> self (get_loop w) = loop ->
  poller_inv (poller_ (get_loop w)) (get_channels w) -> -1 <= fd ->
  get_channels w !! cid = None ->
  watched (F := Closure C) (poller_ (get_loop w)) fd = None ->
  match open_acceptor tid loop fd cid addr w with
  | Ok (a, w') =>
      (exists i, get_channels w' !! cid = Some (accept_channel loop fd i)) /\
      watched (F := Closure C) (poller_ (get_loop w')) fd = Some (cid, kReadEvent) /\
      poller_inv (poller_ (get_loop w')) (get_channels w') /\
      listening a = true /\ accept_socket_ a = fd /\ accept_channel_ a = cid
  | Abort => fd = -1 \/ (exists w0 e, (Socket.sys_bind fd addr w0).1 = Some e) \/
      exists w0 e, (Socket.sys_listen fd Socket.SOMAXCONN w0).1 = Some e
  | Undef => False
  end.
Proof.
  intros Ht Hself Hp Hfd Hch Hwat. unfold open_acceptor, make_Acceptor.
  destruct (Z.eqb_spec fd (-1)) as [->|Hne]; [by left|].
  destruct (setsockopt_frame fd Socket.SOL_SOCKET Socket.SO_REUSEADDR 1 w) as [L1 C1].
  unfold Socket.setReuseAddr. set (w1 := (Socket.sys_setsockopt _ _ _ _ w).2) in *.
  destruct (bind_frame fd addr w1) as [L2 C2]. unfold Socket.bindAddress.
  destruct (Socket.sys_bind fd addr w1) as [[e|] w2] eqn:Eb.
  { right. left. exists w1, e. by rewrite Eb. }
  cbn [snd] in L2, C2. cbn [mbind outcome_bind]. unfold listen.
  set (ch := setReadCallback _ _). set (w3 := put_channels _ w2).
  assert (L3 : get_loop w3 = get_loop w) by (unfold w3; rewrite loop_put_channels; congruence).
  assert (C3 : get_channels w3 = <[cid := ch]> (get_channels w)).
  { unfold w3. rewrite get_put_channels. congruence. }
  rewrite L3. unfold assertInLoopThread, isInLoopThread. rewrite Ht, Z.eqb_refl.
  cbn [negb mbind outcome_bind accept_socket_ accept_channel_ set_listening setNewConnectionCallback].
  destruct (listen_frame fd Socket.SOMAXCONN w3) as [L4 C4]. unfold Socket.listen.
  destruct (Socket.sys_listen fd Socket.SOMAXCONN w3) as [[e|] w4] eqn:El.
  { right. right. exists w3, e. by rewrite El. }
  cbn [snd] in L4, C4. cbn [mbind outcome_bind]. rewrite L3 in L4. rewrite C3 in C4.
  destruct (change_events_ok listenTillReadable_events tid cid w4 ch)
    as (p' & st' & i & E & Hinv' & Hi & _ & Hw'); rewrite ?L4, ?C4; try done.
  - by apply fresh_law.
  - apply lookup_insert_eq.
  - cbn. lia.
  - intros x m. cbn [fd_ ch setReadCallback make_Channel]. by rewrite Hwat.
  - unfold listenTillReadable. rewrite E. cbn [mbind outcome_bind].
    rewrite get_put_channels, loop_put_channels, get_put_loop. cbn [poller_ set_poller].
    split_and!; try done; [by exists i|]. rewrite Hw'. by rewrite decide_True.
Qed.

(** One connection per report.  The acceptor's read callback asserts its
    thread and accepts once: a descriptor goes to the server's callback with the
    address of the peer, a failure of accept(2) is dropped. *)
Theorem accept_branches tid a (new_connection : Z -> sockaddr_in -> W -> outcome W) (w : W) :
  (thread_id_ (get_loop w) <> tid -> handleRead tid a new_connection w = Abort) /\
  (thread_id_ (get_loop w) = tid -> new_connection_callback_ a = true ->
   forall fd peer w1, Socket.sys_accept4 (accept_socket_ a) w = (fd, peer, w1) ->
     handleRead tid a new_connection w
     = if 0 <=? fd then new_connection fd peer w1 else Ok w1).
Proof.
  unfold handleRead, assertInLoopThread, isInLoopThread. split.
  - intros Hne. by rewrite (proj2 (Z.eqb_neq _ _) Hne).
  - intros -> Hcb fd peer w1 E. rewrite Z.eqb_refl. cbn [negb mbind outcome_bind].
    unfold Socket.accept_fd. rewrite E. destruct (Z.leb_spec 0 fd) as [Hfd|Hfd].
    + unfold Socket.valid, Socket.INVALID_FD. destruct (Z.eqb_spec fd (-1)); [lia|].
      cbn [negb]. by rewrite Hcb.
    + done.
Qed.
End AcceptorTheorems.
