(* ===== verification/TcpServer.v ===== *)
(** * TcpServer: net/TcpServer.hpp and net/TcpServer.cpp

    A server over several loops: the acceptor in the base loop, a pool of
    worker loops, and a connection in one of them each.  [reactor l] is the
    access to the loop at address [l] and to the channels it owns.  The closures
    of all loops are [Work]; the callbacks stored in connections are [Callback]:
    the user's, or the server's own close callback with the connection it
    captured.  [T] and [V] are the types of the user's tasks and callbacks. *)
From Stdlib Require Import ZArith Lia List String.
From stdpp Require Import base option list numbers gmap strings pretty tactics.
From S2P Require Import Prelude.
From S2P Require Import Channel.
From S2P Require Import PollerBase.
From S2P Require Import EventLoop.
From S2P Require Import InetAddress.
From S2P Require Socket.
From S2P Require Import TcpConnection.
From S2P Require EventLoopThreadPool.
From S2P Require Acceptor.
From S2P Require Poller.
Open Scope Z_scope.
Open Scope outcome_scope.

Inductive ServerTask : Type :=
| HandleAccept                                 (** the acceptor's read callback *)
| Listen                                       (** queued by [start] *)
| RemoveConnectionInLoop (conn : ConnId).      (** queued by [removeConnection] *)

Inductive Work (T : Type) : Type :=
| ConnWork (t : ConnTask)
| ServerWork (t : ServerTask)
| UserWork (t : T).
Arguments ConnWork {T}.
Arguments ServerWork {T}.
Arguments UserWork {T}.

Inductive Callback (V : Type) : Type :=
| UserCallback (f : V)
| CloseCallback (conn : ConnId).               (** captures [conn] by [shared_ptr] *)
Arguments UserCallback {V}.
Arguments CloseCallback {V}.

Record TcpServer (V : Type) := mkTcpServer {
  loop_ : LoopId;
  server_name_ : string;
  acceptor_ : Acceptor.Acceptor;
  connection_callback_ : option V;
  message_callback_ : option V;
  write_complete_callback_ : option V;
  high_watermark_callback_ : option V;
  high_water_mark_ : Z;
  started_ : bool;
  next_conn_id_ : Z;                           (** an [int] *)
  connections_ : gmap string ConnId;
  thread_pool_ : EventLoopThreadPool.EventLoopThreadPool;
}.
Arguments mkTcpServer {V}.
Arguments loop_ {V}.
Arguments server_name_ {V}.
Arguments acceptor_ {V}.
Arguments connection_callback_ {V}.
Arguments message_callback_ {V}.
Arguments write_complete_callback_ {V}.
Arguments high_watermark_callback_ {V}.
Arguments high_water_mark_ {V}.
Arguments started_ {V}.
Arguments next_conn_id_ {V}.
Arguments connections_ {V}.
Arguments thread_pool_ {V}.

Section Members.
Context {V : Type}.
Implicit Types s : TcpServer V.

Definition set_acceptor (a : Acceptor.Acceptor) s : TcpServer V :=
  mkTcpServer (loop_ s) (server_name_ s) a (connection_callback_ s) (message_callback_ s)
    (write_complete_callback_ s) (high_watermark_callback_ s) (high_water_mark_ s) (started_ s)
    (next_conn_id_ s) (connections_ s) (thread_pool_ s).
Definition setConnectionCallback (cb : V) s : TcpServer V :=
  mkTcpServer (loop_ s) (server_name_ s) (acceptor_ s) (Some cb) (message_callback_ s)
    (write_complete_callback_ s) (high_watermark_callback_ s) (high_water_mark_ s) (started_ s)
    (next_conn_id_ s) (connections_ s) (thread_pool_ s).
Definition setMessageCallback (cb : V) s : TcpServer V :=
  mkTcpServer (loop_ s) (server_name_ s) (acceptor_ s) (connection_callback_ s) (Some cb)
    (write_complete_callback_ s) (high_watermark_callback_ s) (high_water_mark_ s) (started_ s)
    (next_conn_id_ s) (connections_ s) (thread_pool_ s).
Definition setWriteCompleteCallback (cb : V) s : TcpServer V :=
  mkTcpServer (loop_ s) (server_name_ s) (acceptor_ s) (connection_callback_ s)
    (message_callback_ s) (Some cb) (high_watermark_callback_ s) (high_water_mark_ s)
    (started_ s) (next_conn_id_ s) (connections_ s) (thread_pool_ s).
Definition setHighWaterMarkCallback (cb : V) (high_water_mark : Z) s : TcpServer V :=
  mkTcpServer (loop_ s) (server_name_ s) (acceptor_ s) (connection_callback_ s)
    (message_callback_ s) (write_complete_callback_ s) (Some cb) high_water_mark
    (started_ s) (next_conn_id_ s) (connections_ s) (thread_pool_ s).
Definition set_started (b : bool) s : TcpServer V :=
  mkTcpServer (loop_ s) (server_name_ s) (acceptor_ s) (connection_callback_ s)
    (message_callback_ s) (write_complete_callback_ s) (high_watermark_callback_ s)
    (high_water_mark_ s) b (next_conn_id_ s) (connections_ s) (thread_pool_ s).
Definition set_next_conn_id (n : Z) s : TcpServer V :=
  mkTcpServer (loop_ s) (server_name_ s) (acceptor_ s) (connection_callback_ s)
    (message_callback_ s) (write_complete_callback_ s) (high_watermark_callback_ s)
    (high_water_mark_ s) (started_ s) n (connections_ s) (thread_pool_ s).
Definition set_connections (m : gmap string ConnId) s : TcpServer V :=
  mkTcpServer (loop_ s) (server_name_ s) (acceptor_ s) (connection_callback_ s)
    (message_callback_ s) (write_complete_callback_ s) (high_watermark_callback_ s)
    (high_water_mark_ s) (started_ s) (next_conn_id_ s) m (thread_pool_ s).
Definition set_pool (p : EventLoopThreadPool.EventLoopThreadPool) s : TcpServer V :=
  mkTcpServer (loop_ s) (server_name_ s) (acceptor_ s) (connection_callback_ s)
    (message_callback_ s) (write_complete_callback_ s) (high_watermark_callback_ s)
    (high_water_mark_ s) (started_ s) (next_conn_id_ s) (connections_ s) p.

Definition setThreadNum (n : Z) s : TcpServer V :=
  set_pool (EventLoopThreadPool.setThreadNum n (thread_pool_ s)) s.
End Members.

(** The [TcpServer] object, [None] once it has been destroyed; and the addresses
    the allocator gives to the next [TcpConnection] and its [Channel]. *)
Class ServerWorld (W V : Type) := {
  get_server : W -> option (TcpServer V);
  put_server : option (TcpServer V) -> W -> W;
  allocate : W -> ConnId * ChanId;
}.

Definition INT_MAX : Z := 2 ^ 31 - 1.

(** [std::snprintf(buf, sizeof(buf), "#%d", id)] into 32 bytes. *)
Definition id_suffix (id : Z) : string := substring 0 31 ("#" ++ pretty id).

(** The buffer is never too short: the decimal digits of an [int] are at most
    ten, so that the suffix determines the number. *)
Lemma pretty_N_go_length n x s :
  (x < 10 ^ N.of_nat n)%N -> (String.length (pretty_N_go x s) <= n + String.length s)%nat.
Proof.
  revert x s. induction n as [|n IH]; intros x s Hx.
  - assert (x = 0)%N as -> by (cbn in Hx; lia). by rewrite pretty_N_go_0.
  - destruct (decide (x = 0)%N) as [->|Hpos]; [rewrite pretty_N_go_0; lia|].
    rewrite pretty_N_go_step by lia. etrans; [apply IH|cbn; lia].
    rewrite Nat2N.inj_succ, N.pow_succ_r' in Hx. by apply N.Div0.div_lt_upper_bound.
Qed.

Lemma substring_all s n : (String.length s <= n)%nat -> substring 0 n s = s.
Proof.
  revert n. induction s as [|a s IH]; intros [|n] Hn; cbn in *; try done; [lia|].
  f_equal. apply IH. lia.
Qed.

Lemma id_suffix_eq k : 0 <= k <= INT_MAX -> id_suffix k = ("#" ++ pretty k)%string.
Proof.
  intros Hk. apply substring_all. destruct k as [|p|p]; [apply (bool_decide_unpack _); vm_compute; exact I| |lia].
  cbn [String.append String.length]. change (pretty (Z.pos p)) with (pretty_N_go (N.pos p) "").
  pose proof (pretty_N_go_length 10 (N.pos p) "") as H. cbn [String.length] in H.
  change (S (String.length (pretty_N_go (N.pos p) "")) <= 31)%nat.
  change (10 ^ N.of_nat 10)%N with 10000000000%N in H. unfold INT_MAX in Hk. lia.
Qed.

#[global] Instance string_app_inj (s1 : string) : Inj (=) (=) (String.append s1).
Proof. intros s2 s3. induction s1 as [|a s1 IH]; cbn; [done|]. intros [= H]. by apply IH. Qed.

Lemma id_suffix_inj j k : 0 <= j <= INT_MAX -> 0 <= k <= INT_MAX ->
  id_suffix j = id_suffix k -> j = k.
Proof.
  intros Hj Hk. rewrite !id_suffix_eq by done. intros H%(inj (String.append "#")).
  by apply (inj pretty).
Qed.

(** The connection a task is about, and the one its closure keeps alive: the
    channel's callback captures a bare [this]. *)
Definition task_conn (t : ConnTask) : ConnId :=
  match t with
  | HandleReadable conn | SendString conn _ | SendRaw conn _ _ | SendBuffer conn _
  | ShutdownInLoop conn | WriteComplete conn | HighWater conn
  | ConnectionEstablished conn | ConnectionDestroyed conn => conn
  end.
Definition captured (t : ConnTask) : option ConnId :=
  match t with HandleReadable _ => None | _ => Some (task_conn t) end.

Section TcpServer.
Context `{EFD : EventFd} {W P T V : Type}.
Abbreviation C := (Work T).
Context `{PB : !PollerBase P (Closure C)}.
Variable reactor : LoopId -> LoopWorld W P C.
Context `{CW : !ConnWorld W (Callback V)} `{SK : !SocketKernel W}.
Context `{SC : !Socket.SocketCalls W} `{SW : !ServerWorld W V}.

(** The user's callbacks and tasks, and the thread that runs them. *)
Variable user : Z -> V -> ConnId -> W -> outcome W.
Variable user_task : Z -> T -> W -> outcome W.

Definition loop_at (l : LoopId) (w : W) : EventLoop P C := get_loop (LoopWorld := reactor l) w.
Definition channels_at (l : LoopId) (w : W) : Store (Closure C) :=
  get_channels (LoopWorld := reactor l) w.
Definition on_loop_at (l : LoopId) (f : EventLoop P C -> EventLoop P C) (w : W) : W :=
  on_loop (LW := reactor l) f w.
Definition queue_at (tid : Z) (l : LoopId) (c : C) (w : W) : W :=
  on_loop_at l (queueInLoop tid c) w.

Definition deref_server (w : W) : outcome (TcpServer V) :=
  match get_server w with Some s => Ok s | None => Undef end.

Definition assert_at (tid : Z) (l : LoopId) (w : W) : outcome unit :=
  assertInLoopThread tid (loop_at l w).

(** [loop.runInLoop(c)], where [now] is what [c] does. *)
Definition run_in_loop_at (tid : Z) (l : LoopId) (c : C) (now : W -> outcome W) (w : W)
    : outcome W :=
  if isInLoopThread tid (loop_at l w) then now w else Ok (queue_at tid l c w).

(** ** Removing a connection *)
Definition removeConnectionInLoop (tid : Z) (conn : ConnId) (w : W) : outcome W :=
  let! s := deref_server w in
  let! _ := assert_at tid (loop_ s) w in
  let! c := deref_conn conn w in
  let w := put_server (Some (set_connections (delete (name_ c) (connections_ s)) s)) w in
  Ok (queue_at tid (home_ c) (ConnWork (ConnectionDestroyed conn)) w).

Definition removeConnection (tid : Z) (conn : ConnId) (w : W) : outcome W :=
  let! s := deref_server w in
  run_in_loop_at tid (loop_ s) (ServerWork (RemoveConnectionInLoop conn))
    (removeConnectionInLoop tid conn) w.

(** The bodies of the callbacks stored in connections. *)
Definition call_callback (tid : Z) (cb : Callback V) (conn : ConnId) (w : W) : outcome W :=
  match cb with
  | UserCallback f => user tid f conn w
  | CloseCallback conn => removeConnection tid conn w
  end.

(** ** A new connection *)

(** The setters called on the new object; copying an empty [std::function] leaves
    the member empty. *)
Definition set_callbacks (s : TcpServer V) (conn : ConnId) (c : TcpConnection (Callback V))
    : TcpConnection (Callback V) :=
  let c := match message_callback_ s with
           | Some f => TcpConnection.setMessageCallback (UserCallback f) c | None => c end in
  let c := match connection_callback_ s with
           | Some f => TcpConnection.setConnectionCallback (UserCallback f) c | None => c end in
  let c := match write_complete_callback_ s with
           | Some f => TcpConnection.setWriteCompleteCallback (UserCallback f) c | None => c end in
  let c := setCloseCallback (CloseCallback conn) c in
  match high_watermark_callback_ s with
  | Some f => setHighWaterCallback (UserCallback f) (high_water_mark_ s) c | None => c
  end.

(** The callback the constructor gives to the acceptor. *)
Definition newConnection (tid : Z) (fd : Z) (peer_addr : sockaddr_in) (w : W) : outcome W :=
  let! s := deref_server w in
  let! _ := assert_at tid (loop_ s) w in
  if next_conn_id_ s =? INT_MAX then Undef else
  let connection_name := (server_name_ s ++ id_suffix (next_conn_id_ s))%string in
  let s := set_next_conn_id (next_conn_id_ s + 1) s in
  let local_addr := Socket.getLocalAddress fd w in
  let! (io_loop, pool) := EventLoopThreadPool.getNextLoop (thread_pool_ s) in
  let s := set_pool pool s in
  let '(conn, cid) := allocate w in
  let w := make_TcpConnection (LW := reactor io_loop) ConnWork io_loop conn cid
             connection_name fd local_addr peer_addr w in
  let! c := deref_conn conn w in
  let w := put_conn conn (set_callbacks s conn c) w in
  let s := set_connections (<[connection_name := conn]> (connections_ s)) s in
  let w := put_server (Some s) w in
  run_in_loop_at tid io_loop (ConnWork (ConnectionEstablished conn))
    (connectionEstablished (LW := reactor io_loop) (call_callback tid) tid conn) w.

(** ** The closures of the loops *)
Definition run_server_task (tid : Z) (t : ServerTask) (w : W) : outcome W :=
  match t with
  | HandleAccept =>
      let! s := deref_server w in
      Acceptor.handleRead (LW := reactor (Acceptor.loop_ (acceptor_ s))) tid (acceptor_ s)
        (newConnection tid) w
  | Listen =>
      let! s := deref_server w in
      let! (a, w) := Acceptor.listen (LW := reactor (Acceptor.loop_ (acceptor_ s))) tid
                       (acceptor_ s) w in
      Ok (put_server (Some (set_acceptor a s)) w)
  | RemoveConnectionInLoop conn => removeConnectionInLoop tid conn w
  end.

(** What the thread [tid] does when it calls [c]. *)
Definition client (tid : Z) (c : C) (w : W) : outcome W :=
  match c with
  | ConnWork t =>
      let! c := deref_conn (task_conn t) w in
      run_conn_task (LW := reactor (home_ c)) ConnWork (call_callback tid) tid t w
  | ServerWork t => run_server_task tid t w
  | UserWork t => user_task tid t w
  end.

(** ** Construction, start, destruction *)
Definition make_TcpServer (loop : LoopId) (listen_addr : sockaddr_in) (name : string)
    (fd : Z) (cid : ChanId) (w : W) : outcome W :=
  let! (a, w) := Acceptor.make_Acceptor (LW := reactor loop) (ServerWork HandleAccept)
                   loop fd cid listen_addr w in
  Ok (put_server (Some
    (mkTcpServer loop name (Acceptor.setNewConnectionCallback a) None None None None
       (64 * 1024 * 1024) false 1 ∅ (EventLoopThreadPool.make_Pool loop))) w).

(** [new_loops] are the loops the workers publish, see EventLoopThreadPool.v. *)
Definition start (tid : Z) (new_loops : nat -> LoopId) (w : W) : outcome W :=
  let! s := deref_server w in
  if started_ s then Ok w else
  let w := put_server (Some (set_started true s)) w in
  let! w := run_in_loop_at tid (loop_ s) (ServerWork Listen) (run_server_task tid Listen) w in
  let! s := deref_server w in
  Ok (put_server (Some (set_pool (EventLoopThreadPool.start new_loops (thread_pool_ s)) s)) w).

(** The body, then the members: the workers are joined (EventLoopThread.v), the
    map lets go of its connections, the acceptor goes. *)
Definition destroy_TcpServer (w : W) : outcome W :=
  let! s := deref_server w in
  let w := Acceptor.destroy_Acceptor (LW := reactor (Acceptor.loop_ (acceptor_ s)))
             (acceptor_ s) w in
  Ok (put_server None w).

(** ** Who keeps a connection alive

    The server's map, the closures that wait in the loops, and the callbacks of
    connections that are alive themselves. *)
Inductive owner (conn : ConnId) (w : W) : Prop :=
| owned_by_map s name :
    get_server w = Some s -> connections_ s !! name = Some conn -> owner conn w
| owned_by_task l t :
    ConnWork t ∈ task_queue_ (loop_at l w) -> captured t = Some conn -> owner conn w
| owned_by_removal l :
    ServerWork (RemoveConnectionInLoop conn) ∈ task_queue_ (loop_at l w) -> owner conn w
| owned_by_callback conn' c :
    get_conn conn' w = Some c -> close_callback_ c = Some (CloseCallback conn) -> owner conn w.
End TcpServer.
