(* ===== verification/LifeSpec.v ===== *)
(** * LifeSpec: the life of a server's connections, as a specification

    A machine of five stages per connection, and the closures that wait in the
    loops in each of them.  ServerLife.v shows that the server refines it. *)
From Stdlib Require Import ZArith Lia List.
From stdpp Require Import base option list numbers gmap relations tactics.
From S2P Require Import Prelude.
From S2P Require Import Buffer.
From S2P Require Import Channel.
From S2P Require Import TcpConnection.
From S2P Require Import TcpServer.
Open Scope Z_scope.

(** ** The specification *)

(** Handed to its loop, with [ConnectionEstablished] to come; up; closed by the
    peer, with the removal from the map to come; removed, with
    [ConnectionDestroyed] to come; gone from its loop. *)
Inductive Stage : Type := Handed | Open | Closing | Removed | Dead.

#[global] Instance Stage_eq_dec : EqDecision Stage.
Proof. solve_decision. Defined.

(** The loop and the stage of every connection accepted so far. *)
Abbreviation Life := (gmap ConnId (LoopId * Stage)).

Inductive life_step : Life -> Life -> Prop :=
| life_accept st conn l : st !! conn = None -> life_step st (<[conn := (l, Handed)]> st)
| life_establish st conn l :
    st !! conn = Some (l, Handed) -> life_step st (<[conn := (l, Open)]> st)
| life_close st conn l :
    st !! conn = Some (l, Open) -> life_step st (<[conn := (l, Closing)]> st)
| life_remove st conn l :
    st !! conn = Some (l, Closing) -> life_step st (<[conn := (l, Removed)]> st)
| life_destroy st conn l :
    st !! conn = Some (l, Removed) -> life_step st (<[conn := (l, Dead)]> st).

(** A connection stays in its loop. *)
Lemma life_step_home st st' conn l g : life_step st st' -> st !! conn = Some (l, g) ->
  exists g', st' !! conn = Some (l, g').
Proof.
  intros Hs Hst. destruct Hs as [st x k H|st x k H|st x k H|st x k H|st x k H];
    destruct (decide (x = conn)) as [->|Hx];
    rewrite ?lookup_insert_eq, ?lookup_insert_ne by done; rewrite ?Hst in H; eauto;
    simplify_eq; eauto.
Qed.

Lemma life_home st st' conn l g : rtc life_step st st' -> st !! conn = Some (l, g) ->
  exists g', st' !! conn = Some (l, g').
Proof.
  intros Hs. revert g. induction Hs as [|st1 st2 st3 H _ IH]; intros g Hst; [by exists g|].
  destruct (life_step_home _ _ _ _ _ H Hst) as [g' Hg']. by eapply IH.
Qed.

(** How far a connection has come; it never goes back. *)
Definition rank (g : Stage) : nat :=
  match g with Handed => 1 | Open => 2 | Closing => 3 | Removed => 4 | Dead => 5 end.
Definition rank_of (st : Life) (conn : ConnId) : nat :=
  match st !! conn with Some (_, g) => rank g | None => 0 end.

Lemma rank_of_insert st conn l g : rank_of (<[conn := (l, g)]> st) conn = rank g.
Proof. unfold rank_of. by rewrite lookup_insert_eq. Qed.

Lemma rank_of_lookup st conn l g : st !! conn = Some (l, g) -> rank_of st conn = rank g.
Proof. unfold rank_of. by intros ->. Qed.

Lemma rank_step st st' conn : life_step st st' -> (rank_of st conn <= rank_of st' conn)%nat.
Proof.
  intros Hs. unfold rank_of. destruct Hs as [st x k H|st x k H|st x k H|st x k H|st x k H];
    (destruct (decide (x = conn)) as [->|Hx];
      [rewrite lookup_insert_eq, H; cbn; lia|by rewrite lookup_insert_ne]).
Qed.

Lemma rank_grows st st' conn : rtc life_step st st' -> (rank_of st conn <= rank_of st' conn)%nat.
Proof.
  induction 1 as [|st1 st2 st3 H _ IH]; [done|]. pose proof (rank_step _ _ conn H). lia.
Qed.

(** The task that waits for a connection in a stage, and the loop it waits in. *)
Inductive LifeTask : Type :=
| Establish (conn : ConnId)
| Remove (conn : ConnId)
| Destroy (conn : ConnId).

Definition life_conn (t : LifeTask) : ConnId :=
  match t with Establish conn | Remove conn | Destroy conn => conn end.

Definition slot (base : LoopId) (conn : ConnId) (li : LoopId * Stage)
    : option (LoopId * LifeTask) :=
  match li.2 with
  | Handed => Some (li.1, Establish conn)
  | Closing => Some (base, Remove conn)
  | Removed => Some (li.1, Destroy conn)
  | Open | Dead => None
  end.

Definition life_of {T} (c : Work T) : option LifeTask :=
  match c with
  | ConnWork (ConnectionEstablished conn) => Some (Establish conn)
  | ConnWork (ConnectionDestroyed conn) => Some (Destroy conn)
  | ServerWork (RemoveConnectionInLoop conn) => Some (Remove conn)
  | _ => None
  end.

(** The buffers a program gives to [send]: a property of theirs that appending and
    retrieving keep. *)
Class SendDiscipline := {
  sendable : Buffer -> bool;
  sendable_new : sendable (make INITIALIZE_SIZE) = true;
  sendable_append : forall b data b', wf b -> append b data = Ok b' ->
    sendable b = true -> sendable b' = true;
  sendable_retrieve : forall b n, wf b -> 0 <= n -> sendable b = true ->
    sendable (retrieve b n) = true;
}.

(** Any buffer; and buffers whose spare room in front is unused, to which [append]
    is always safe. *)
#[program] Definition any_buffer : SendDiscipline := {| sendable _ := true |}.
Solve Obligations with done.

#[program] Definition unprepended : SendDiscipline :=
  {| sendable b := CHEAP_PREPEND <=? read_index_ b |}.
Next Obligation. done. Qed.
Next Obligation.
  intros b data b' Hwf E. rewrite !Z.leb_le. apply (append_Ok_inv _ _ _ Hwf E).
Qed.
Next Obligation.
  intros b n Hwf Hn. rewrite !Z.leb_le. apply (retrieve_storage b n Hwf Hn).
Qed.

(** What the queues hold: never the channels' own callbacks, and buffers that are
    well formed. *)
Definition queueable `{SendDiscipline} {T} (c : Work T) : bool :=
  match c with
  | ConnWork (HandleReadable _) | ServerWork HandleAccept => false
  | ConnWork (SendBuffer _ b) => bool_decide (wf b) && sendable b
  | _ => true
  end.

(** The queued closures that do not move a connection's life. *)
Definition benign `{SendDiscipline} {T} (c : Work T) : bool :=
  queueable c && match life_of c with Some _ => false | None => true end.

Lemma benign_spec `{SendDiscipline} {T} (c : Work T) : benign c = true -> life_of c = None /\ queueable c = true.
Proof. unfold benign. intros [? Hl]%andb_true_iff. by destruct (life_of c). Qed.

(** In the server's map; reading; in its loop's poller. *)
Definition listed (g : Stage) : bool :=
  match g with Handed | Open | Closing => true | _ => false end.
Definition registered (g : Stage) : bool :=
  match g with Open | Closing | Removed => true | _ => false end.
Definition state_in (g : Stage) (s : State) : Prop :=
  match g with
  | Handed => s = Connecting
  | Open => s = Connected \/ s = Disconnecting
  | _ => s = Disconnected
  end.

(** ** Tasks and stages *)
Section Queues.
Variable pending : LoopId -> list LifeTask.

(** The task a loop is running counts as waiting there. *)
Definition running_at (run : option (LoopId * LifeTask)) (l : LoopId) : list LifeTask :=
  match run with Some (l', t) => if decide (l' = l) then [t] else [] | None => [] end.

Record queues (base : LoopId) (run : option (LoopId * LifeTask)) (st : Life) : Prop := {
  q_once : forall l, NoDup (running_at run l ++ pending l);
  q_slot : forall l t, t ∈ running_at run l ++ pending l <->
    exists li, st !! life_conn t = Some li /\ slot base (life_conn t) li = Some (l, t);
}.
End Queues.

Lemma slot_conn base conn li l t : slot base conn li = Some (l, t) -> life_conn t = conn.
Proof. destruct li as [? []]; cbn; intros [= <- <-]; done. Qed.

(** A connection changes its stage while its task runs, or without one. *)
Lemma queues_move pending base st conn old new :
  old = st !! conn ->
  queues pending base (old ≫= slot base conn) st ->
  queues pending base (slot base conn new) (<[conn := new]> st).
Proof.
  intros -> [Hn Hs].
  assert (Hfresh : forall l t, life_conn t = conn -> t ∈ pending l -> False).
  { intros l t Ht Hin. destruct (proj1 (Hs l t)) as (li & Hli & Hsl).
    { apply elem_of_app. by right. }
    rewrite Ht in Hli. rewrite Ht in Hsl. specialize (Hn l). rewrite Hli in Hn. cbn in Hn.
    rewrite Hsl in Hn. cbn in Hn. rewrite decide_True in Hn by done. cbn in Hn.
    by apply list.NoDup_cons in Hn as [Hn _]. }
  assert (Hpend : forall l, NoDup (pending l)).
  { intros l. specialize (Hn l). by apply list.NoDup_app in Hn as (_ & _ & Hn). }
  split.
  - intros l. destruct (slot base conn new) as [[l' t]|] eqn:E; cbn; [|apply Hpend].
    case_decide as Hl; cbn; [|apply Hpend]. subst l'. apply list.NoDup_cons.
    split; [|apply Hpend]. intros Hin. by apply (Hfresh l t (slot_conn _ _ _ _ _ E)).
  - intros l t. rewrite elem_of_app. destruct (decide (life_conn t = conn)) as [Ht|Ht].
    + split.
      * intros [Hin|Hin]; [|by apply Hfresh in Hin].
        destruct (slot base conn new) as [[l' t']|] eqn:E; cbn in Hin; [|by apply elem_of_nil in Hin].
        case_decide; [|by apply elem_of_nil in Hin]. apply list_elem_of_singleton in Hin as ->.
        subst. exists new. by rewrite lookup_insert_eq.
      * intros (li & Hli & Hsl). rewrite Ht, lookup_insert_eq in Hli. injection Hli as <-.
        rewrite Ht in Hsl. rewrite Hsl. cbn. rewrite decide_True by done. left. by left.
    + specialize (Hs l t). rewrite elem_of_app in Hs. rewrite lookup_insert_ne by done.
      rewrite <- Hs.
      assert (Hr : forall o, (o = None \/ exists li, o = Some li) ->
        t ∈ running_at (o ≫= slot base conn) l -> False).
      { intros o _ Hin. destruct o as [li|]; cbn in Hin; [|by apply elem_of_nil in Hin].
        destruct (slot base conn li) as [[l' t']|] eqn:E; cbn in Hin; [|by apply elem_of_nil in Hin].
        case_decide; [|by apply elem_of_nil in Hin]. apply list_elem_of_singleton in Hin as ->.
        by apply Ht, (slot_conn _ _ _ _ _ E). }
      split; (intros [Hin|Hin]; [|by right]).
      * destruct (Hr (Some new)); [right; eauto|done].
      * destruct (Hr (st !! conn)); [destruct (st !! conn); eauto|done].
Qed.

(** What runs, or what is queued, is the same tasks. *)
Lemma queues_perm pending pending' base run run' st :
  queues pending base run st ->
  (forall l, running_at run' l ++ pending' l ≡ₚ running_at run l ++ pending l) ->
  queues pending' base run' st.
Proof.
  intros [Hn Hs] Hp. split; intros l.
  - rewrite Hp. apply Hn.
  - intros t. rewrite Hp. apply Hs.
Qed.
