(* ===== verification/ServerWorld.v ===== *)
(** * ServerWorld: the world of a server over all its loops

    What the server's proofs rely on ([ServerLaws]), how the world reads after a
    write, and what an operation on one channel of one loop leaves alone
    ([touches], [same_rest]). *)
From Stdlib Require Import ZArith Lia List String.
From stdpp Require Import base option list numbers gmap relations strings pretty tactics.
From S2P Require Import Prelude.
From S2P Require Import Buffer.
From S2P Require Import Channel.
From S2P Require Import PollerBase.
From S2P Require Import EventLoop.
From S2P Require Import InetAddress.
From S2P Require Socket.
From S2P Require Import TcpConnection.
From S2P Require EventLoopThreadPool.
From S2P Require Acceptor.
From S2P Require Import TcpServer.
From S2P Require Import LifeSpec.
Open Scope Z_scope.
Open Scope outcome_scope.

(** A system call leaves the program's objects alone. *)
Definition same_objects `{EFD : EventFd} {W P T V : Type}
    (reactor : LoopId -> LoopWorld W P (Work T)) `{CW : !ConnWorld W (Callback V)}
    `{SW : !ServerWorld W V} (w w' : W) : Prop :=
  get_server w' = get_server w /\ (forall conn, get_conn conn w' = get_conn conn w) /\
  forall l, loop_at reactor l w' = loop_at reactor l w /\
            channels_at reactor l w' = channels_at reactor l w.

(** [wire] has what the kernel took for each descriptor. *)
Definition same_wires {W : Type} (wire : Z -> W -> list byte) (w w' : W) : Prop :=
  forall fd, wire fd w' = wire fd w.

(** What the model relies on: loops and connections are separate objects, the
    kernel's calls leave the program's objects alone, and only write(2) on a
    descriptor adds to what the kernel took for it. *)
Class ServerLaws `{EFD : EventFd} {W P T V : Type} `{PB : !PollerBase P (Closure (Work T))}
    (reactor : LoopId -> LoopWorld W P (Work T))
    `{CW : !ConnWorld W (Callback V)} `{SK : !SocketKernel W}
    `{SC : !Socket.SocketCalls W} `{SW : !ServerWorld W V} := {
  reactor_laws :: forall l, LoopWorldLaws (LoopWorld0 := reactor l) W P (Work T);
  reactor_conn :: forall l, ConnLaws (LoopWorld0 := reactor l) W P (Work T) (Callback V);
  loop_put_loop_ne : forall l l' lp (w : W), l <> l' ->
    loop_at reactor l (put_loop (LoopWorld := reactor l') lp w) = loop_at reactor l w;
  loop_put_channels_ne : forall l l' st (w : W), l <> l' ->
    loop_at reactor l (put_channels (LoopWorld := reactor l') st w) = loop_at reactor l w;
  channels_put_loop_ne : forall l l' lp (w : W), l <> l' ->
    channels_at reactor l (put_loop (LoopWorld := reactor l') lp w) = channels_at reactor l w;
  channels_put_channels_ne : forall l l' st (w : W), l <> l' ->
    channels_at reactor l (put_channels (LoopWorld := reactor l') st w) = channels_at reactor l w;
  get_put_server : forall s (w : W), get_server (put_server s w) = s;
  server_put_loop : forall l lp (w : W),
    get_server (put_loop (LoopWorld := reactor l) lp w) = get_server w;
  server_put_channels : forall l st (w : W),
    get_server (put_channels (LoopWorld := reactor l) st w) = get_server w;
  server_put_conn : forall conn c (w : W), get_server (put_conn conn c w) = get_server w;
  loop_put_server : forall l s (w : W), loop_at reactor l (put_server s w) = loop_at reactor l w;
  channels_put_server : forall l s (w : W),
    channels_at reactor l (put_server s w) = channels_at reactor l w;
  conn_put_server : forall conn s (w : W), get_conn conn (put_server s w) = get_conn conn w;
  server_write : forall fd data (w : W), get_server (sys_write fd data w).2 = get_server w;
  server_read : forall fd cap (w : W), get_server (sys_read fd cap w).2 = get_server w;
  server_so_error : forall fd (w : W),
    get_server (Socket.sys_getsockopt_error fd w).2 = get_server w;
  quiet_accept : forall fd (w : W), same_objects reactor w (Socket.sys_accept4 fd w).2;
  quiet_shutdown : forall fd how (w : W), same_objects reactor w (Socket.sys_shutdown fd how w).2;
  quiet_setsockopt : forall fd level name value (w : W),
    same_objects reactor w (Socket.sys_setsockopt fd level name value w).2;
  quiet_bind : forall fd addr (w : W), same_objects reactor w (Socket.sys_bind fd addr w).2;
  quiet_listen : forall fd n (w : W), same_objects reactor w (Socket.sys_listen fd n w).2;
  one_wire : forall l fd (w : W),
    wire (ConnLaws := reactor_conn l) fd w = wire (ConnLaws := reactor_conn 0) fd w;
  wires_write : forall fd fd' data (w : W), fd' <> fd ->
    wire (ConnLaws := reactor_conn 0) fd' (sys_write fd data w).2
    = wire (ConnLaws := reactor_conn 0) fd' w;
  wires_put_server : forall s (w : W),
    same_wires (wire (ConnLaws := reactor_conn 0)) w (put_server s w);
  wires_read : forall fd cap (w : W),
    same_wires (wire (ConnLaws := reactor_conn 0)) w (sys_read fd cap w).2;
  wires_so_error : forall fd (w : W),
    same_wires (wire (ConnLaws := reactor_conn 0)) w (Socket.sys_getsockopt_error fd w).2;
  wires_accept : forall fd (w : W),
    same_wires (wire (ConnLaws := reactor_conn 0)) w (Socket.sys_accept4 fd w).2;
  wires_shutdown : forall fd how (w : W),
    same_wires (wire (ConnLaws := reactor_conn 0)) w (Socket.sys_shutdown fd how w).2;
  wires_listen : forall fd n (w : W),
    same_wires (wire (ConnLaws := reactor_conn 0)) w (Socket.sys_listen fd n w).2;
}.

Create Rewrite HintDb world.

Section ServerWorld.
Context `{EFD : EventFd} {W P T V : Type}.
Abbreviation C := (Work T).
Context `{PB : !PollerBase P (Closure C)} {PL : PollerLaws P (Closure C)}.
Context {reactor : LoopId -> LoopWorld W P C}.
Context `{CW : !ConnWorld W (Callback V)} `{SK : !SocketKernel W}.
Context `{SC : !Socket.SocketCalls W} `{SW : !ServerWorld W V}.
Context {SL : ServerLaws reactor}.

Abbreviation loop_at := (loop_at reactor).
Abbreviation channels_at := (channels_at reactor).
Abbreviation queue_at := (queue_at reactor).
Abbreviation poller_at l w := (poller_ (loop_at l w)).

Definition pending (w : W) (l : LoopId) : list LifeTask := omap life_of (task_queue_ (loop_at l w)).

(** ** Reading the world after a write *)
Lemma loop_at_put_loop l l' lp w :
  loop_at l (put_loop (LoopWorld := reactor l') lp w) = if decide (l = l') then lp else loop_at l w.
Proof.
  case_decide as E; [subst; apply get_put_loop|by apply loop_put_loop_ne].
Qed.

Lemma loop_at_put_channels l l' st w :
  loop_at l (put_channels (LoopWorld := reactor l') st w) = loop_at l w.
Proof.
  destruct (decide (l = l')) as [->|E]; [apply loop_put_channels|by apply loop_put_channels_ne].
Qed.

Lemma channels_at_put_loop l l' lp w :
  channels_at l (put_loop (LoopWorld := reactor l') lp w) = channels_at l w.
Proof.
  destruct (decide (l = l')) as [->|E]; [apply channels_put_loop|by apply channels_put_loop_ne].
Qed.

Lemma channels_at_put_channels l l' st w :
  channels_at l (put_channels (LoopWorld := reactor l') st w)
  = if decide (l = l') then st else channels_at l w.
Proof.
  case_decide as E; [subst; apply get_put_channels|by apply channels_put_channels_ne].
Qed.

Lemma loop_at_put_conn l conn c w : loop_at l (put_conn conn c w) = loop_at l w.
Proof. apply (loop_put_conn (ConnLaws := reactor_conn l)). Qed.

Lemma channels_at_put_conn l conn c w : channels_at l (put_conn conn c w) = channels_at l w.
Proof. apply (channels_put_conn (ConnLaws := reactor_conn l)). Qed.

Lemma conn_at_put_loop conn l lp w :
  get_conn conn (put_loop (LoopWorld := reactor l) lp w) = get_conn conn w.
Proof. apply (conn_put_loop (ConnLaws := reactor_conn l)). Qed.

Lemma conn_at_put_channels conn l st w :
  get_conn conn (put_channels (LoopWorld := reactor l) st w) = get_conn conn w.
Proof. apply (conn_put_channels (ConnLaws := reactor_conn l)). Qed.

Lemma conn_at_put_conn conn conn' c w :
  get_conn conn (put_conn conn' c w) = if decide (conn = conn') then Some c else get_conn conn w.
Proof. apply (get_put_conn (ConnLaws := reactor_conn 0)). Qed.

Lemma loop_at_put_server l s w : loop_at l (put_server s w) = loop_at l w.
Proof. apply loop_put_server. Qed.
Lemma channels_at_put_server l s w : channels_at l (put_server s w) = channels_at l w.
Proof. apply channels_put_server. Qed.
Lemma conn_at_put_server conn s w : get_conn conn (put_server s w) = get_conn conn w.
Proof. apply (conn_put_server (ServerLaws := SL)). Qed.
Lemma server_at_put_server s w : get_server (put_server s w) = s.
Proof. apply (get_put_server (ServerLaws := SL)). Qed.
Lemma server_at_put_loop l lp w :
  get_server (put_loop (LoopWorld := reactor l) lp w) = get_server w.
Proof. apply server_put_loop. Qed.
Lemma server_at_put_channels l st w :
  get_server (put_channels (LoopWorld := reactor l) st w) = get_server w.
Proof. apply server_put_channels. Qed.
Lemma server_at_put_conn conn c w : get_server (put_conn conn c w) = get_server w.
Proof. apply (server_put_conn (ServerLaws := SL)). Qed.

Definition wire_at (fd : Z) (w : W) : list byte := wire (ConnLaws := reactor_conn 0) fd w.

Lemma wire_at_put_loop fd l lp w :
  wire_at fd (put_loop (LoopWorld := reactor l) lp w) = wire_at fd w.
Proof. unfold wire_at. rewrite <- !(one_wire l). apply (wire_put_loop (ConnLaws := reactor_conn l)). Qed.
Lemma wire_at_put_channels fd l st w :
  wire_at fd (put_channels (LoopWorld := reactor l) st w) = wire_at fd w.
Proof.
  unfold wire_at. rewrite <- !(one_wire l). apply (wire_put_channels (ConnLaws := reactor_conn l)).
Qed.
Lemma wire_at_put_conn fd conn c w : wire_at fd (put_conn conn c w) = wire_at fd w.
Proof. apply (wire_put_conn (ConnLaws := reactor_conn 0)). Qed.
Lemma wire_at_put_server fd s w : wire_at fd (put_server s w) = wire_at fd w.
Proof. apply wires_put_server. Qed.

#[local] Hint Rewrite loop_at_put_loop loop_at_put_channels channels_at_put_loop channels_at_put_channels
  loop_at_put_conn channels_at_put_conn conn_at_put_loop conn_at_put_channels conn_at_put_conn
  loop_at_put_server channels_at_put_server conn_at_put_server server_at_put_server
  server_at_put_loop server_at_put_channels server_at_put_conn
  wire_at_put_loop wire_at_put_channels wire_at_put_conn wire_at_put_server : world.

(** ** What an operation on a channel of one loop leaves alone *)
Definition chan_upto (o o' : option (Channel (Closure C))) : Prop :=
  match o, o' with
  | Some c, Some c' => same_but_index c c'
  | None, None => True
  | _, _ => False
  end.

Record touches (l : LoopId) (cid : ChanId) (fd : Z) (w w' : W) : Prop := {
  t_self : forall x, self (loop_at x w') = self (loop_at x w) /\
    thread_id_ (loop_at x w') = thread_id_ (loop_at x w);
  t_other : forall x, x <> l ->
    poller_at x w' = poller_at x w /\ channels_at x w' = channels_at x w;
  t_inv : poller_inv (poller_at l w) (channels_at l w) ->
    poller_inv (poller_at l w') (channels_at l w');
  t_channels : forall x, x <> cid -> chan_upto (channels_at l w !! x) (channels_at l w' !! x);
  t_watched : forall x, x <> fd ->
    watched (F := Closure C) (poller_at l w') x = watched (poller_at l w) x;
}.

Lemma chan_upto_refl o : chan_upto o o.
Proof. destruct o; [apply same_but_index_refl|done]. Qed.

Lemma chan_upto_trans o1 o2 o3 : chan_upto o1 o2 -> chan_upto o2 o3 -> chan_upto o1 o3.
Proof.
  destruct o1, o2, o3; cbn; try done. unfold same_but_index.
  intros H1 H2. rewrite H1 in H2. by rewrite H2 at 1.
Qed.

#[global] Instance touches_preorder l cid fd : PreOrder (touches l cid fd).
Proof.
  split.
  - intros w. split; try done. intros x _. apply chan_upto_refl.
  - intros w1 w2 w3 [S12 O12 I12 C12 X12] [S23 O23 I23 C23 X23]. split.
    + intros x. destruct (S12 x), (S23 x). split; congruence.
    + intros x Hx. destruct (O12 x Hx), (O23 x Hx). split; congruence.
    + auto.
    + intros x Hx. eapply chan_upto_trans; eauto.
    + intros x Hx. by rewrite X23, X12.
Qed.

(** The loops up to their task queues, and the channels. *)
Lemma touches_frame l cid fd w w' :
  (forall x, self (loop_at x w') = self (loop_at x w) /\
     thread_id_ (loop_at x w') = thread_id_ (loop_at x w) /\
     poller_at x w' = poller_at x w /\ channels_at x w' = channels_at x w) ->
  touches l cid fd w w'.
Proof.
  intros H. split.
  - intros x. by destruct (H x) as (? & ? & _).
  - intros x _. by destruct (H x) as (_ & _ & ? & ?).
  - destruct (H l) as (_ & _ & -> & ->). done.
  - intros x _. destruct (H l) as (_ & _ & _ & ->). apply chan_upto_refl.
  - intros x _. by destruct (H l) as (_ & _ & -> & _).
Qed.

Lemma touches_put_conn l cid fd conn c w : touches l cid fd w (put_conn conn c w).
Proof. apply touches_frame. intros x. by autorewrite with world. Qed.

Lemma touches_put_server l cid fd s w : touches l cid fd w (put_server s w).
Proof. apply touches_frame. intros x. by autorewrite with world. Qed.

Lemma queueInLoop_fields tid c (lp : EventLoop P C) :
  self (queueInLoop tid c lp) = self lp /\ thread_id_ (queueInLoop tid c lp) = thread_id_ lp /\
  poller_ (queueInLoop tid c lp) = poller_ lp /\
  task_queue_ (queueInLoop tid c lp) = task_queue_ lp ++ [c].
Proof. unfold queueInLoop, queue_wakeup. by destruct (_ || _). Qed.

Lemma touches_queue l cid fd tid l' c w : touches l cid fd w (queue_at tid l' c w).
Proof.
  apply touches_frame. intros x. unfold TcpServer.queue_at, on_loop_at, on_loop.
  autorewrite with world.
  destruct (queueInLoop_fields tid c (loop_at l' w)) as (H1 & H2 & H3 & _).
  case_decide as E; [subst x|done]. unfold TcpServer.loop_at in *. by rewrite H1, H2, H3.
Qed.

Lemma touches_pop l cid fd l' q w : touches l cid fd w (on_loop_at reactor l' (set_tasks q) w).
Proof.
  apply touches_frame. intros x. unfold on_loop_at, on_loop. autorewrite with world.
  case_decide as E; [by subst x|done].
Qed.

(** Members of the channel no poller reads. *)
Lemma touches_member l cid fd ch ch' w :
  channels_at l w !! cid = Some ch -> fd_ ch' = fd_ ch -> index_ ch' = index_ ch ->
  touches l cid fd w
    (put_channels (LoopWorld := reactor l) (<[cid := ch']> (channels_at l w)) w).
Proof.
  intros Hch Hfd Hi. split; intros; autorewrite with world; rewrite ?decide_True by done; try done.
  - by rewrite decide_False.
  - by eapply member_law.
  - rewrite lookup_insert_ne by done. apply chan_upto_refl.
Qed.

(** What an operation on channels leaves of the rest. *)
Definition same_rest (w w' : W) : Prop :=
  get_server w' = get_server w /\ (forall conn, get_conn conn w' = get_conn conn w) /\
  (forall l, task_queue_ (loop_at l w') = task_queue_ (loop_at l w)) /\ same_wires wire_at w w'.

(** A channel [cid] for [fd] in the loop [l]. *)
Record chan_fine (l : LoopId) (cid : ChanId) (fd : Z) (w : W) (ch : Channel (Closure C))
    : Prop := {
  cf_channel : channels_at l w !! cid = Some ch;
  cf_fd : fd_ ch = fd;
  cf_pos : 0 <= fd;
  cf_loop : Channel.loop_ ch = l;
  cf_mask : client_mask (events_ ch);
  cf_unique : forall x m, watched (F := Closure C) (poller_at l w) fd = Some (x, m) -> x = cid;
}.

Record loop_fine (l : LoopId) (w : W) : Prop := {
  lf_self : self (loop_at l w) = l;
  lf_inv : poller_inv (poller_at l w) (channels_at l w);
}.

Lemma touches_loop_fine l cid fd w w' x : touches l cid fd w w' -> loop_fine x w -> loop_fine x w'.
Proof.
  intros [S O I _ _] [Hs Hi]. destruct (S x) as [E _]. split; [congruence|].
  destruct (decide (x = l)) as [->|Hx]; [auto|]. by destruct (O x Hx) as [-> ->].
Qed.

(** The other channels stay fine, their masks and callbacks with them. *)
Lemma touches_chan_fine l cid fd w w' l' cid' fd' ch :
  touches l cid fd w w' -> (l' = l -> cid' <> cid /\ fd' <> fd) -> chan_fine l' cid' fd' w ch ->
  exists i, chan_fine l' cid' fd' w' (setIndex i ch) /\
    watched (F := Closure C) (poller_at l' w') fd' = watched (poller_at l' w) fd'.
Proof.
  intros [_ O _ Ch X] Hne [Hch Hfd Hpos Hl Hm Hu].
  destruct (decide (l' = l)) as [->|Hl'].
  - destruct (Hne eq_refl) as [Hcid Hfd']. specialize (Ch cid' Hcid). rewrite Hch in Ch.
    destruct (channels_at l w' !! cid') as [ch'|] eqn:E; [|done]. cbn in Ch.
    exists (index_ ch'). rewrite (X fd' Hfd'). split; [|done]. rewrite <- Ch.
    split; rewrite ?(X fd' Hfd'); try done; by rewrite Ch.
  - destruct (O l' Hl') as [Ep Ec]. exists (index_ ch). rewrite Ep. split; [|done].
    assert (Es : setIndex (index_ ch) ch = ch) by (by destruct ch).
    split; rewrite ?Ep, ?Ec, ?Es; done.
Qed.

Lemma change_events_touches f tid l cid fd w ch :
  loop_fine l w -> thread_id_ (loop_at l w) = tid -> chan_fine l cid fd w ch ->
  client_mask (f ch) ->
  exists w' i, on_channels (LW := reactor l) (change_events f tid cid) w = Ok w' /\
    touches l cid fd w w' /\ chan_fine l cid fd w' (setIndex i (setEvents (f ch) ch)) /\
    watched (F := Closure C) (poller_at l w') fd = Some (cid, f ch) /\ same_rest w w'.
Proof.
  intros [Hself Hp] Ht [Hch Hfd Hpos Hl Hm Hu] Hmask.
  destruct (change_events_ok (LW := reactor l) f tid cid w ch)
    as (p' & st' & i & E & Hinv' & Hi & Hst & Hw'); try done.
  { by rewrite Hl. }
  { lia. }
  { by rewrite Hfd. }
  rewrite Hfd in Hw'. eexists _, i. split_and!; [exact E| | | |].
  - split; intros; autorewrite with world.
    + by case_decide; [subst x|].
    + by rewrite !decide_False.
    + by rewrite !decide_True.
    + rewrite decide_True by done. specialize (Hst x). by rewrite lookup_insert_ne in Hst.
    + rewrite decide_True by done. cbn [poller_ set_poller]. by rewrite Hw', decide_False.
  - split; autorewrite with world; rewrite ?decide_True by done; try done.
    cbn [poller_ set_poller]. intros x m. rewrite Hw', decide_True by done. congruence.
  - autorewrite with world. rewrite decide_True by done. cbn [poller_ set_poller].
    by rewrite Hw', decide_True.
  - unfold same_rest, same_wires. split_and!; intros; autorewrite with world; try done.
    by case_decide; [subst l0|].
Qed.

Lemma removeChannel_touches tid l cid fd w ch m :
  loop_fine l w -> thread_id_ (loop_at l w) = tid -> chan_fine l cid fd w ch ->
  watched (F := Closure C) (poller_at l w) fd = Some (cid, m) ->
  exists w' i, on_channels (LW := reactor l) (removeChannel tid cid) w = Ok w' /\
    touches l cid fd w w' /\ chan_fine l cid fd w' (setIndex i ch) /\
    watched (F := Closure C) (poller_at l w') fd = None /\ same_rest w w'.
Proof.
  intros [Hself Hp] Ht [Hch Hfd Hpos Hl Hm Hu] Hwat.
  destruct (remove_law (poller_at l w) (channels_at l w) cid ch m)
    as (p' & st' & E & Hinv' & Hst & Hw'); [done|done|by rewrite Hfd|].
  rewrite Hfd in Hw'. destruct (store_upto_lookup _ _ _ _ Hst Hch) as [i Hi].
  exists (put_channels (LoopWorld := reactor l) st'
    (put_loop (LoopWorld := reactor l) (set_poller p' (loop_at l w)) w)), i.
  split_and!.
  - unfold TcpServer.loop_at, TcpServer.channels_at in *. unfold on_channels, removeChannel, deref_channel. rewrite Hch.
    cbn [mbind outcome_bind]. rewrite Hl, Hself, Z.eqb_refl.
    unfold assertInLoopThread, isInLoopThread. rewrite Ht, Z.eqb_refl.
    cbn [negb mbind outcome_bind]. by rewrite E.
  - split; intros; autorewrite with world.
    + by case_decide; [subst x|].
    + by rewrite !decide_False.
    + by rewrite !decide_True.
    + rewrite decide_True by done. apply Hst.
    + rewrite decide_True by done. cbn [poller_ set_poller]. by rewrite Hw', decide_False.
  - split; autorewrite with world; rewrite ?decide_True by done; try done.
    cbn [poller_ set_poller]. intros x m'. rewrite Hw', decide_True by done. done.
  - autorewrite with world. rewrite decide_True by done. cbn [poller_ set_poller].
    by rewrite Hw', decide_True.
  - unfold same_rest, same_wires. split_and!; intros; autorewrite with world; try done.
    by case_decide; [subst l0|].
Qed.
End ServerWorld.
