(* ===== verification/ServerInv.v ===== *)
(** * ServerInv: the invariant of a server, and what users' calls keep of it

    [inv] ties the objects of a server to the stages of LifeSpec.v; [steady] says
    what no step takes back.  The calls that code outside the library makes
    ([public_call]) keep both ([UserLaws], [inv_call_user]). *)
From Stdlib Require Import ZArith Lia List String.
From stdpp Require Import base option list numbers gmap relations strings pretty tactics.
From S2P Require Import Prelude.
From S2P Require Import Buffer.
From S2P Require Import Channel.
From S2P Require Import PollerBase.
From S2P Require Import EventLoop.
From S2P Require Import InetAddress.
From S2P Require Socket.
From S2P Require Import TcpConnection.
From S2P Require EventLoopThreadPool.
From S2P Require Acceptor.
From S2P Require Import TcpServer.
From S2P Require Import LifeSpec.
From S2P Require Import ServerWorld.
From S2P Require Poller.
Open Scope Z_scope.
Open Scope outcome_scope.

Section ServerInv.
Context `{EFD : EventFd} {W P T V : Type}.
Abbreviation C := (Work T).
Context `{PB : !PollerBase P (Closure C)} {PL : PollerLaws P (Closure C)}.
Context {reactor : LoopId -> LoopWorld W P C}.
Context `{CW : !ConnWorld W (Callback V)} `{SK : !SocketKernel W}.
Context `{SC : !Socket.SocketCalls W} `{SW : !ServerWorld W V}.
Context {SL : ServerLaws reactor}.
Context {user : Z -> V -> ConnId -> W -> outcome W}.
Context {user_task : Z -> T -> W -> outcome W}.
Context `{SD : !SendDiscipline}.

Abbreviation loop_at := (loop_at reactor).
Abbreviation channels_at := (channels_at reactor).
Abbreviation queue_at := (queue_at reactor).
Abbreviation poller_at l w := (poller_ (loop_at l w)).
Abbreviation client := (client reactor user user_task).
Abbreviation call_callback := (call_callback reactor user).
Abbreviation pending := (pending (reactor := reactor)).
Abbreviation wire_at := (wire_at (reactor := reactor)).
Abbreviation touches := (touches (reactor := reactor)).
Abbreviation same_rest := (same_rest (reactor := reactor)).
Abbreviation chan_fine := (chan_fine (reactor := reactor)).
Abbreviation loop_fine := (loop_fine (reactor := reactor)).

#[local] Hint Rewrite loop_at_put_loop loop_at_put_channels channels_at_put_loop channels_at_put_channels
  loop_at_put_conn channels_at_put_conn conn_at_put_loop conn_at_put_channels conn_at_put_conn
  loop_at_put_server channels_at_put_server conn_at_put_server server_at_put_server
  server_at_put_loop server_at_put_channels server_at_put_conn
  wire_at_put_loop wire_at_put_channels wire_at_put_conn wire_at_put_server : world.

(** ** The invariant *)
Definition server_loops (s : TcpServer V) : list LoopId :=
  loop_ s :: EventLoopThreadPool.loops_ (thread_pool_ s).

Definition user_only (cb : option (Callback V)) : Prop :=
  match cb with Some (CloseCallback _) => False | _ => True end.

(** The channel of a connection in the stage [g]: it reads only while the
    connection is open, and only a read callback is ever set. *)
Record reader (w : W) (conn : ConnId) (l : LoopId) (cid : ChanId) (fd : Z) (g : Stage)
    (ch : Channel (Closure C)) : Prop := {
  rd_fine : chan_fine l cid fd w ch;
  rd_read : read_callback_ ch = Some (Client (ConnWork (HandleReadable conn)));
  rd_others : write_callback_ ch = None /\ error_callback_ ch = None;
  rd_reading : has (events_ ch) kReadEvent = true -> g = Open;
  rd_watched : registered g = true -> is_Some (watched (F := Closure C) (poller_at l w) fd);
}.

Definition buffers_ok (c : TcpConnection (Callback V)) : Prop :=
  wf (receive_buffer_ c) /\ CHEAP_PREPEND <= read_index_ (receive_buffer_ c) /\
  wf (send_buffer_ c) /\ sendable (send_buffer_ c) = true.

Record conn_fine (s : TcpServer V) (w : W) (conn : ConnId)
    (c : TcpConnection (Callback V)) (l : LoopId) (g : Stage) : Prop := {
  fine_home : home_ c = l;
  fine_member : l ∈ server_loops s;
  fine_close : close_callback_ c = Some (CloseCallback conn);
  fine_users : user_only (TcpConnection.message_callback_ c) /\
    user_only (TcpConnection.connection_callback_ c) /\
    user_only (TcpConnection.write_complete_callback_ c) /\
    user_only (high_water_callback_ c);
  fine_buffers : buffers_ok c;
  fine_state : state_in g (state_ c);
  fine_channel : exists ch, reader w conn l (channel_ c) (socket_ c) g ch;
}.

Definition conn_name (s : TcpServer V) (k : Z) : string := (server_name_ s ++ id_suffix k)%string.

Record acceptor_fine (s : TcpServer V) (w : W) : Prop := {
  af_loop : Acceptor.loop_ (acceptor_ s) = loop_ s;
  af_callback : Acceptor.new_connection_callback_ (acceptor_ s) = true;
  af_channel : exists ch, chan_fine (loop_ s) (Acceptor.accept_channel_ (acceptor_ s))
      (Acceptor.accept_socket_ (acceptor_ s)) w ch /\
    read_callback_ ch = Some (Client (ServerWork HandleAccept)) /\
    write_callback_ ch = None /\ error_callback_ ch = None;
  af_apart : forall conn c, get_conn conn w = Some c ->
    socket_ c <> Acceptor.accept_socket_ (acceptor_ s) /\
    (home_ c = loop_ s -> channel_ c <> Acceptor.accept_channel_ (acceptor_ s));
}.

Record core (st : Life) (s : TcpServer V) (w : W) : Prop := {
  core_server : get_server w = Some s;
  core_pool : EventLoopThreadPool.base_loop_ (thread_pool_ s) = loop_ s /\
    EventLoopThreadPool.next_ok (thread_pool_ s) /\
    Zlen (EventLoopThreadPool.loops_ (thread_pool_ s)) < 2 ^ 31;
  core_loops : forall l, l ∈ server_loops s -> loop_fine l w;
  core_dom : forall conn, is_Some (get_conn conn w) <-> is_Some (st !! conn);
  core_conn : forall conn c l g, get_conn conn w = Some c -> st !! conn = Some (l, g) ->
    conn_fine s w conn c l g;
  core_distinct : forall conn conn' c c', get_conn conn w = Some c ->
    get_conn conn' w = Some c' -> conn <> conn' ->
    name_ c <> name_ c' /\ socket_ c <> socket_ c' /\
    (home_ c = home_ c' -> channel_ c <> channel_ c');
  core_names : forall conn c, get_conn conn w = Some c ->
    exists k, 1 <= k < next_conn_id_ s /\ name_ c = conn_name s k;
  core_next : 1 <= next_conn_id_ s <= INT_MAX;
  core_table : forall name conn, connections_ s !! name = Some conn <->
    exists c l g, get_conn conn w = Some c /\ st !! conn = Some (l, g) /\
      name_ c = name /\ listed g = true;
  core_acceptor : acceptor_fine s w;
}.

Definition inv (run : option (LoopId * LifeTask)) (st : Life) (s : TcpServer V) (w : W) : Prop :=
  core st s w /\ queues (pending w) (loop_ s) run st /\
  forall l, Forall (fun c => queueable c = true) (task_queue_ (loop_at l w)).

Lemma touches_reader l cid fd w w' conn l' cid' fd' g ch :
  touches l cid fd w w' -> (l' = l -> cid' <> cid /\ fd' <> fd) ->
  reader w conn l' cid' fd' g ch -> exists ch', reader w' conn l' cid' fd' g ch'.
Proof.
  intros Ht Hne [Hf Hr [Hw He] Hg Hreg].
  destruct (touches_chan_fine _ _ _ _ _ _ _ _ _ Ht Hne Hf) as (i & Hf' & E).
  exists (setIndex i ch). split; [exact Hf'|done|done|exact Hg|by rewrite E].
Qed.

Lemma touches_conn_fine l cid fd w w' s conn c l' g :
  touches l cid fd w w' -> (l' = l -> channel_ c <> cid /\ socket_ c <> fd) ->
  conn_fine s w conn c l' g -> conn_fine s w' conn c l' g.
Proof.
  intros Ht Hne [Hh Hm Hc Hu Hb Hs [ch Hch]]. split; try done.
  by eapply touches_reader.
Qed.

Lemma touches_acceptor l cid fd w w' s :
  touches l cid fd w w' ->
  (loop_ s = l -> Acceptor.accept_channel_ (acceptor_ s) <> cid /\
     Acceptor.accept_socket_ (acceptor_ s) <> fd) ->
  (forall conn c', get_conn conn w' = Some c' -> exists c, get_conn conn w = Some c /\
     home_ c' = home_ c /\ socket_ c' = socket_ c /\ channel_ c' = channel_ c) ->
  acceptor_fine s w -> acceptor_fine s w'.
Proof.
  intros Ht Hne Hconn [Hl Hcb (ch & Hf & Hr & Hw & He) Ha]. split; try done.
  - destruct (touches_chan_fine _ _ _ _ _ _ _ _ _ Ht Hne Hf) as (i & Hf' & _).
    by exists (setIndex i ch).
  - intros conn c' Hc'. destruct (Hconn conn c' Hc') as (c & Hc & -> & -> & ->). by apply (Ha conn).
Qed.

(** A connection moves from stage to stage, or stays in one, by an operation on
    its own channel. *)
Lemma core_update st s w w' conn c c' l g g' :
  core st s w -> get_conn conn w = Some c -> st !! conn = Some (l, g) ->
  touches l (channel_ c) (socket_ c) w w' -> get_server w' = get_server w ->
  (forall x, get_conn x w' = if decide (x = conn) then Some c' else get_conn x w) ->
  conn_fine s w' conn c' l g' ->
  name_ c' = name_ c -> socket_ c' = socket_ c -> channel_ c' = channel_ c ->
  listed g' = listed g -> core (<[conn := (l, g')]> st) s w'.
Proof.
  intros [Hs Hp Hlo Hd Hc Hdi Hn Hnx Ht Ha] Hconn Hst Hto Hsv Hget Hfine En Es Ech El.
  pose proof (Hc conn c l g Hconn Hst) as Hf.
  assert (Eh : home_ c' = home_ c) by (by rewrite (fine_home _ _ _ _ _ _ Hfine), (fine_home _ _ _ _ _ _ Hf)).
  assert (Hback : forall x y, get_conn x w' = Some y -> exists y0, get_conn x w = Some y0 /\
    home_ y = home_ y0 /\ socket_ y = socket_ y0 /\ channel_ y = channel_ y0 /\ name_ y = name_ y0).
  { intros x y. rewrite Hget. case_decide as Hx; [|by eauto 10]. subst x. intros [= <-]. by exists c. }
  split.
  - congruence.
  - done.
  - intros x Hx. eapply touches_loop_fine; [exact Hto|by apply Hlo].
  - intros x. rewrite Hget, lookup_insert. case_decide; [subst x; rewrite decide_True by done; by split|].
    rewrite decide_False by congruence. apply Hd.
  - intros x y l' gx. rewrite Hget, lookup_insert. case_decide as Hx.
    { subst x. rewrite decide_True by done. intros [= <-] [= <- <-]. done. }
    rewrite decide_False by congruence. intros Hy Hstx.
    pose proof (Hc x y l' gx Hy Hstx) as Hfx. eapply touches_conn_fine; [exact Hto| |exact Hfx].
    intros ->. destruct (Hdi x conn y c Hy Hconn Hx) as (_ & Hso & Hch).
    split; [|done]. apply Hch. by rewrite (fine_home _ _ _ _ _ _ Hfx), (fine_home _ _ _ _ _ _ Hf).
  - intros x x' y y' (y0 & Hy & Hh0 & Hs0 & Hc0 & Hn0)%Hback (y1 & Hy1 & Hh1 & Hs1 & Hc1 & Hn1)%Hback Hne.
    rewrite Hh0, Hs0, Hc0, Hn0, Hh1, Hs1, Hc1, Hn1. by apply (Hdi x x').
  - intros x y (y0 & Hy & _ & _ & _ & ->)%Hback. by apply (Hn x).
  - done.
  - intros name x. rewrite Ht, Hget, lookup_insert. case_decide as Hx.
    + subst x. rewrite decide_True by done. split.
      * intros (y & ly & gy & Hy & Hsy & Hny & Hly). exists c', l, g'.
        rewrite Hconn in Hy. injection Hy as <-. rewrite Hst in Hsy. injection Hsy as <- <-.
        split_and!; [done|done|congruence|congruence].
      * intros (y & ly & gy & [= <-] & [= <- <-] & Hny & Hly). exists c, l, g.
        split_and!; [done|done|congruence|congruence].
    + rewrite decide_False by congruence. done.
  - eapply touches_acceptor; [exact Hto| | |exact Ha].
    + intros E. destruct (af_apart _ _ Ha conn c Hconn) as [H1 H2].
      split; [|congruence]. intros E2. apply H2; [|done]. by rewrite (fine_home _ _ _ _ _ _ Hf).
    + intros x y (y0 & ? & ? & ? & ? & ?)%Hback. eauto.
Qed.

(** ** Steps that leave every stage as it is *)
Definition quiet (w w' : W) : Prop :=
  get_server w' = get_server w /\ (forall conn, get_conn conn w' = get_conn conn w) /\
  forall l, self (loop_at l w') = self (loop_at l w) /\
    thread_id_ (loop_at l w') = thread_id_ (loop_at l w) /\
    poller_at l w' = poller_at l w /\ channels_at l w' = channels_at l w.

Lemma core_quiet st s w w' : core st s w -> quiet w w' -> core st s w'.
Proof.
  intros [Hs Hp Hlo Hd Hc Hdi Hn Hnx Ht Ha] (Qs & Qc & Ql).
  assert (Hto : forall l cid fd, touches l cid fd w w') by (intros; by apply touches_frame).
  split; try done.
  - congruence.
  - intros l Hl. eapply touches_loop_fine; [apply (Hto l 0 0)|by apply Hlo].
  - intros conn. by rewrite Qc.
  - intros conn c l g. rewrite Qc. intros H1 H2.
    eapply (touches_conn_fine l (channel_ c + 1) (socket_ c + 1)); [apply Hto|lia|by apply Hc].
  - intros conn conn' c c'. rewrite !Qc. apply Hdi.
  - intros conn c. rewrite Qc. apply Hn.
  - intros name conn. rewrite Qc. apply Ht.
  - eapply (touches_acceptor (loop_ s) (Acceptor.accept_channel_ (acceptor_ s) + 1)
      (Acceptor.accept_socket_ (acceptor_ s) + 1)); [apply Hto|lia| |done].
    intros conn c. rewrite Qc. eauto.
Qed.

(** What the kernel took of a connection's bytes, then what waits. *)
Definition stream (c : TcpConnection (Callback V)) (w : W) : list byte :=
  wire_at (socket_ c) w ++ content (send_buffer_ c).

(** The message callback that new connections get. *)
Definition handler (w : W) : option V :=
  match get_server w with Some s => TcpServer.message_callback_ s | None => None end.

(** Nor does any loop change its thread, any queue lose or reorder its closures, any
    connection go or change its channel, its stream lose a byte, or a message
    callback change, since the world [w0]. *)
Record steady (w w' : W) : Prop := {
  sd_threads : forall l, thread_id_ (loop_at l w') = thread_id_ (loop_at l w);
  sd_queues : forall l, task_queue_ (loop_at l w) `prefix_of` task_queue_ (loop_at l w');
  sd_conns : forall conn c, get_conn conn w = Some c -> exists c', get_conn conn w' = Some c' /\
    channel_ c' = channel_ c /\ socket_ c' = socket_ c /\ stream c w `prefix_of` stream c' w';
  sd_handler : handler w' = handler w;
  sd_messages : forall conn c', get_conn conn w' = Some c' ->
    TcpConnection.message_callback_ c'
    = from_option TcpConnection.message_callback_ (UserCallback <$> handler w) (get_conn conn w);
}.

#[global] Instance steady_preorder : PreOrder steady.
Proof.
  split.
  - intros w. split; try done; [intros conn c Hc; by exists c|]. by intros conn c ->.
  - intros w1 w2 w3 [T1 Q1 C1 H1 M1] [T2 Q2 C2 H2 M2]. split; [| | |congruence|].
    + intros l. by rewrite T2.
    + intros l. etrans; [apply Q1|apply Q2].
    + intros conn c (c2 & Hc2 & E2 & S2 & P2)%C1.
      destruct (C2 conn c2 Hc2) as (c3 & Hc3 & E3 & S3 & P3). exists c3.
      split_and!; [done|congruence|congruence|by eapply (transitivity P2)].
    + intros conn c3 Hc3. rewrite (M2 conn c3 Hc3).
      destruct (get_conn conn w2) as [c2|] eqn:Hc2; [by apply M1|].
      destruct (get_conn conn w1) as [c1|] eqn:Hc1; [|by cbn; rewrite H1].
      destruct (C1 conn c1 Hc1) as (c2 & E & _). by rewrite Hc2 in E.
Qed.

Definition from (w0 : W) (run : option (LoopId * LifeTask)) (st : Life) (s : TcpServer V)
    (w : W) : Prop := inv run st s w /\ steady w0 w.

Definition keep (w w' : W) : Prop := forall w0 run st s, from w0 run st s w -> from w0 run st s w'.

#[global] Instance keep_preorder : PreOrder keep.
Proof. split; [by intros w w0 run st s|]. intros w1 w2 w3 H1 H2 w0 run st s H. by apply H2, H1. Qed.

(** Nothing but benign tasks is added. *)
Definition grown (q q' : list C) : Prop :=
  exists more, q' = q ++ more /\ Forall (fun c => benign c = true) more.

Lemma grown_refl q : grown q q.
Proof. exists []. by rewrite app_nil_r. Qed.

Lemma benign_no_life (more : list C) : Forall (fun c => benign c = true) more ->
  omap life_of more = [].
Proof.
  induction 1 as [|c more Hc _ IH]; [done|]. cbn. by rewrite (proj1 (benign_spec c Hc)).
Qed.

Lemma grown_queues base run st w w' :
  (forall l, grown (task_queue_ (loop_at l w)) (task_queue_ (loop_at l w'))) ->
  queues (pending w) base run st /\
    (forall l, Forall (fun c => queueable c = true) (task_queue_ (loop_at l w))) ->
  queues (pending w') base run st /\
    forall l, Forall (fun c => queueable c = true) (task_queue_ (loop_at l w')).
Proof.
  intros Hg [Hq Ht]. split.
  - eapply queues_perm; [exact Hq|]. intros l. unfold pending.
    destruct (Hg l) as (more & -> & Hm). by rewrite omap_app, (benign_no_life _ Hm), app_nil_r.
  - intros l. destruct (Hg l) as (more & -> & Hm). apply Forall_app. split; [apply Ht|].
    eapply list.Forall_impl; [exact Hm|]. intros c Hc. by apply benign_spec.
Qed.

Lemma grown_prefix q q' : grown q q' -> q `prefix_of` q'.
Proof. intros (more & -> & _). by exists more. Qed.

(** The connections are as they were, and so is what the kernel took. *)
Lemma steady_same w w' :
  (forall l, thread_id_ (loop_at l w') = thread_id_ (loop_at l w)) ->
  (forall l, task_queue_ (loop_at l w) `prefix_of` task_queue_ (loop_at l w')) ->
  (forall conn, get_conn conn w' = get_conn conn w) -> same_wires wire_at w w' ->
  handler w' = handler w -> steady w w'.
Proof.
  intros Ht Hq Hc Hw Hh. split; [done|done| |done|].
  - intros conn c Hconn. exists c. rewrite Hc. split_and!; try done. unfold stream. by rewrite Hw.
  - intros conn c. rewrite Hc. by intros ->.
Qed.

Lemma same_handler w w' : get_server w' = get_server w -> handler w' = handler w.
Proof. unfold handler. by intros ->. Qed.

Lemma keep_quiet w w' : quiet w w' -> same_wires wire_at w w' ->
  (forall l, grown (task_queue_ (loop_at l w)) (task_queue_ (loop_at l w'))) -> keep w w'.
Proof.
  intros Hq Hw Hg w0 run st s [[Hc Hqs] Hst]. split; [split|].
  - by eapply core_quiet.
  - by eapply grown_queues.
  - etrans; [exact Hst|]. apply steady_same; [intros l; apply Hq| |apply Hq|done|apply same_handler, Hq].
    intros l. apply grown_prefix, Hg.
Qed.

Lemma quiet_queue tid l c w : quiet w (queue_at tid l c w).
Proof.
  unfold TcpServer.queue_at, on_loop_at, on_loop. split_and!.
  - by autorewrite with world.
  - intros conn. by autorewrite with world.
  - intros x. autorewrite with world.
    destruct (queueInLoop_fields tid c (loop_at l w)) as (H1 & H2 & H3 & _).
    case_decide as E; [subst x|done]. unfold TcpServer.loop_at in *. by rewrite H1, H2, H3.
Qed.

Lemma wires_queue tid l c w : same_wires wire_at w (queue_at tid l c w).
Proof. intros fd. unfold TcpServer.queue_at, on_loop_at, on_loop. by autorewrite with world. Qed.

Lemma pending_queue tid l c w x :
  pending (queue_at tid l c w) x
  = if decide (x = l) then pending w l ++ option_list (life_of c) else pending w x.
Proof.
  unfold pending, TcpServer.queue_at, on_loop_at, on_loop. autorewrite with world.
  case_decide as E; [|done].
  destruct (queueInLoop_fields tid c (loop_at l w)) as (_ & _ & _ & H4).
  unfold TcpServer.loop_at in *. rewrite H4, omap_app. cbn. by destruct (life_of c).
Qed.

Lemma queue_at_tasks tid l c w x :
  task_queue_ (loop_at x (queue_at tid l c w))
  = if decide (x = l) then task_queue_ (loop_at l w) ++ [c] else task_queue_ (loop_at x w).
Proof.
  unfold TcpServer.queue_at, on_loop_at, on_loop. autorewrite with world.
  case_decide as E; [|done].
  destruct (queueInLoop_fields tid c (loop_at l w)) as (_ & _ & _ & H4).
  by unfold TcpServer.loop_at in *.
Qed.

Lemma keep_queue tid l c w : benign c = true -> keep w (queue_at tid l c w).
Proof.
  intros E. apply keep_quiet; [apply quiet_queue|apply wires_queue|].
  intros x. rewrite queue_at_tasks. case_decide; [subst x|apply grown_refl]. exists [c]. split; [done|by constructor].
Qed.

Lemma quiet_pop l q w : quiet w (on_loop_at reactor l (set_tasks q) w).
Proof.
  unfold on_loop_at, on_loop. split_and!.
  - by autorewrite with world.
  - intros conn. by autorewrite with world.
  - intros x. autorewrite with world. by case_decide; [subst x|].
Qed.

Lemma pending_pop l q w x : pending (on_loop_at reactor l (set_tasks q) w) x
  = if decide (x = l) then omap life_of q else pending w x.
Proof. unfold pending, on_loop_at, on_loop. autorewrite with world. by case_decide. Qed.

(** Changes of a connection that any code may make. *)
Record gentle (c c' : TcpConnection (Callback V)) : Prop := {
  ge_home : home_ c' = home_ c;
  ge_name : name_ c' = name_ c;
  ge_socket : socket_ c' = socket_ c;
  ge_channel : channel_ c' = channel_ c;
  ge_close : close_callback_ c' = close_callback_ c;
  ge_users : TcpConnection.message_callback_ c' = TcpConnection.message_callback_ c /\
    TcpConnection.connection_callback_ c' = TcpConnection.connection_callback_ c /\
    TcpConnection.write_complete_callback_ c' = TcpConnection.write_complete_callback_ c /\
    high_water_callback_ c' = high_water_callback_ c;
  ge_buffers : buffers_ok c -> buffers_ok c';
  ge_sent : content (send_buffer_ c) `prefix_of` content (send_buffer_ c');
  ge_state : state_ c' = state_ c \/ state_ c = Connected /\ state_ c' = Disconnecting;
}.

Lemma gentle_fine s w conn c c' l g :
  gentle c c' -> conn_fine s w conn c l g -> conn_fine s w conn c' l g.
Proof.
  intros [Gh Gn Gs Gc Gcl (G1 & G2 & G3 & G4) Gb _ Gst] [Hh Hm Hc Hu Hb Hs Hch].
  split; rewrite ?Gh, ?Gs, ?Gc, ?Gcl, ?G1, ?G2, ?G3, ?G4; try done; [by apply Gb|].
  destruct Gst as [->|[E ->]]; [done|]. rewrite E in Hs. destruct g; cbn in *; try done. by right.
Qed.

(** The core after an operation on a connection's channel and members that keeps
    its stage. *)
Lemma core_stay st s w w' conn c c' l g :
  core st s w -> get_conn conn w = Some c -> st !! conn = Some (l, g) ->
  touches l (channel_ c) (socket_ c) w w' -> get_server w' = get_server w ->
  (forall x, get_conn x w' = if decide (x = conn) then Some c' else get_conn x w) ->
  gentle c c' -> (conn_fine s w conn c l g -> conn_fine s w' conn c l g) -> core st s w'.
Proof.
  intros H Hc Hst Hto Hs Hg Hge Hf.
  rewrite <- (insert_id st conn (l, g) Hst).
  eapply (core_update st s w w' conn c c' l g g); try done; try by apply Hge.
  eapply gentle_fine; [exact Hge|]. apply Hf. by eapply core_conn.
Qed.

Lemma conn_staged st s w conn c : core st s w -> get_conn conn w = Some c ->
  exists g, st !! conn = Some (home_ c, g).
Proof.
  intros H Hc. destruct (proj1 (core_dom _ _ _ H conn)) as [[l g] Hst]; [by eexists|].
  exists g. rewrite Hst. by rewrite (fine_home _ _ _ _ _ _ (core_conn _ _ _ H _ _ _ _ Hc Hst)).
Qed.

Lemma put_conn_view conn c' w x :
  get_conn x (put_conn conn c' w) = if decide (x = conn) then Some c' else get_conn x w.
Proof. by autorewrite with world. Qed.

Lemma same_tasks_queues base run st w w' :
  (forall l, task_queue_ (loop_at l w') = task_queue_ (loop_at l w)) ->
  queues (pending w) base run st /\
    (forall l, Forall (fun c => queueable c = true) (task_queue_ (loop_at l w))) ->
  queues (pending w') base run st /\
    forall l, Forall (fun c => queueable c = true) (task_queue_ (loop_at l w')).
Proof. intros E. apply grown_queues. intros l. rewrite E. apply grown_refl. Qed.

Lemma pending_put_conn conn c w l : pending (put_conn conn c w) l = pending w l.
Proof. unfold pending. by autorewrite with world. Qed.

Lemma steady_put_conn w conn c c' : get_conn conn w = Some c -> gentle c c' ->
  steady w (put_conn conn c' w).
Proof.
  intros Hc Hg. split; [intros l; by autorewrite with world..| | |].
  - intros x y Hx. rewrite put_conn_view. case_decide; [subst x|].
    + rewrite Hc in Hx. injection Hx as <-. exists c'.
      split_and!; [done|apply Hg|apply Hg|]. unfold stream. autorewrite with world.
      rewrite (ge_socket _ _ Hg). apply prefix_app, Hg.
    + exists y. split_and!; try done. unfold stream. by autorewrite with world.
  - apply same_handler. by autorewrite with world.
  - intros x y. rewrite put_conn_view. case_decide; [subst x|by intros ->].
    rewrite Hc. intros [= <-]. apply Hg.
Qed.

Lemma keep_put_conn w conn c c' : get_conn conn w = Some c -> gentle c c' ->
  keep w (put_conn conn c' w).
Proof.
  intros Hc Hg w0 run st s [[Hco Hq] Hsd]. destruct (conn_staged _ _ _ _ _ Hco Hc) as [g Hst].
  split; [split|].
  3: { etrans; [exact Hsd|]. by apply steady_put_conn with (c := c). }
  - eapply (core_stay st s w _ conn c c'); try done.
    + apply touches_put_conn.
    + by autorewrite with world.
    + intros x. apply put_conn_view.
    + eapply (touches_conn_fine (home_ c) (channel_ c + 1) (socket_ c + 1));
        [apply touches_put_conn|lia].
  - eapply same_tasks_queues; [|exact Hq]. intros l. by autorewrite with world.
Qed.

Lemma steady_rest l cid fd w w' : touches l cid fd w w' -> same_rest w w' -> steady w w'.
Proof.
  intros Hto (Hs & Hc & Hq & Hw).
  apply steady_same; [|intros x; by rewrite Hq|done|done|by apply same_handler].
  intros x. apply (t_self _ _ _ _ _ Hto x).
Qed.

(** Asking for POLLOUT, or no longer, on a connection's channel. *)
Lemma inv_change_events f tid w w' conn c w0 run st s :
  (forall ch, client_mask (events_ ch) -> client_mask (f ch) /\
     has (f ch) kReadEvent = has (events_ ch) kReadEvent) ->
  from w0 run st s w -> get_conn conn w = Some c -> thread_id_ (loop_at (home_ c) w) = tid ->
  on_channels (LW := reactor (home_ c)) (change_events f tid (channel_ c)) w = Ok w' ->
  from w0 run st s w' /\ same_rest w w' /\ thread_id_ (loop_at (home_ c) w') = tid.
Proof.
  intros Hf [[Hco Hq] Hsd] Hc Ht E. destruct (conn_staged _ _ _ _ _ Hco Hc) as [g Hst].
  pose proof (core_conn _ _ _ Hco _ _ _ _ Hc Hst) as Hfine.
  destruct (fine_channel _ _ _ _ _ _ Hfine) as [ch [Rf Rr Ro Rg Rw]].
  destruct (Hf ch (cf_mask _ _ _ _ _ Rf)) as [Hm Hread].
  destruct (change_events_touches f tid (home_ c) (channel_ c) (socket_ c) w ch)
    as (w'' & i & E' & Hto & Hcf & Hwat & Hsr); try done.
  { by apply (core_loops _ _ _ Hco), (fine_member _ _ _ _ _ _ Hfine). }
  rewrite E in E'. injection E' as <-. split_and!; [split; [split|]|done|].
  3: { etrans; [exact Hsd|]. by eapply steady_rest. }
  - eapply (core_stay st s w _ conn c c); try done; try apply Hsr.
    + intros x. rewrite (proj1 (proj2 Hsr)). by case_decide; [subst x|].
    + by split; try done; left.
    + intros [? ? ? ? ? ? _]. split; try done. exists (setIndex i (setEvents (f ch) ch)).
      split; try done; cbn; (by rewrite Hread) || (intros _; by eexists).
  - eapply same_tasks_queues; [apply Hsr|exact Hq].
  - by destruct (t_self _ _ _ _ _ Hto (home_ c)) as [_ ->].
Qed.

(** ** The public calls keep the stages *)

(** On the thread [tid] of the loop of the connection [c]. *)
Definition at_conn conn c tid w0 run st s w : Prop :=
  from w0 run st s w /\ get_conn conn w = Some c /\ thread_id_ (loop_at (home_ c) w) = tid.

Lemma at_conn_keep conn c tid w0 run st s w w' :
  at_conn conn c tid w0 run st s w -> keep w w' -> get_conn conn w' = get_conn conn w ->
  (forall l, thread_id_ (loop_at l w') = thread_id_ (loop_at l w)) ->
  at_conn conn c tid w0 run st s w'.
Proof.
  intros (Hi & Hc & Ht) Hk Hg Hth. split_and!; [by apply Hk|congruence|]. by rewrite Hth.
Qed.

Lemma at_conn_queue conn c tid w0 run st s w tid' l k :
  at_conn conn c tid w0 run st s w -> benign k = true ->
  at_conn conn c tid w0 run st s (queue_at tid' l k w).
Proof.
  intros H Hk. destruct (quiet_queue tid' l k w) as (_ & Qc & Ql).
  eapply at_conn_keep; [exact H|by apply keep_queue|apply Qc|]. intros x. apply Ql.
Qed.

Lemma quiet_write fd data w : quiet w (sys_write fd data w).2 /\
  forall l, task_queue_ (loop_at l (sys_write fd data w).2) = task_queue_ (loop_at l w).
Proof.
  pose proof (server_write fd data w) as Hs. destruct (sys_write fd data w) as [r w'] eqn:E. cbn in *.
  assert (Hl : forall l, loop_at l w' = loop_at l w /\ channels_at l w' = channels_at l w).
  { intros l. by destruct (write_law (ConnLaws := reactor_conn l) _ _ _ _ _ E) as (_ & _ & ? & ? & _). }
  split.
  - split_and!; [done| |].
    + by destruct (write_law (ConnLaws := reactor_conn 0) _ _ _ _ _ E) as (_ & _ & _ & _ & ?).
    + intros l. by destruct (Hl l) as [-> ->].
  - intros l. by destruct (Hl l) as [-> _].
Qed.

Lemma at_conn_put conn c c' tid w0 run st s w : at_conn conn c tid w0 run st s w -> gentle c c' ->
  at_conn conn c' tid w0 run st s (put_conn conn c' w).
Proof.
  intros (Hi & Hc & Ht) Hg. split_and!.
  - by eapply keep_put_conn.
  - autorewrite with world. by rewrite decide_True.
  - autorewrite with world. by rewrite (ge_home _ _ Hg).
Qed.

Lemma at_conn_change_events f conn c tid w0 run st s w w' :
  (forall ch, client_mask (events_ ch) -> client_mask (f ch) /\
     has (f ch) kReadEvent = has (events_ ch) kReadEvent) ->
  at_conn conn c tid w0 run st s w ->
  on_channels (LW := reactor (home_ c)) (change_events f tid (channel_ c)) w = Ok w' ->
  at_conn conn c tid w0 run st s w'.
Proof.
  intros Hf (Hi & Hc & Ht) E.
  destruct (inv_change_events f tid w w' conn c w0 run st s Hf Hi Hc Ht E) as (Hi' & Hs & Ht').
  split_and!; [done| |done]. destruct Hs as (_ & -> & _). done.
Qed.

Lemma writable_mask (ch : Channel (Closure C)) : client_mask (events_ ch) ->
  client_mask (listenTillWritable_events ch) /\
  has (listenTillWritable_events ch) kReadEvent = has (events_ ch) kReadEvent.
Proof.
  intros Hm. split; [by apply (mask_writable (events_ ch) Hm)|].
  unfold listenTillWritable_events, has. rewrite Z.land_lor_distr_l.
  change (Z.land kWriteEvent kReadEvent) with 0. by rewrite Z.lor_0_r.
Qed.

(** The end of both sends: POLLOUT is asked for once. *)
Lemma at_conn_arm conn c tid w0 run st s w w' ch :
  at_conn conn c tid w0 run st s w ->
  (if negb (isWriting (F := Closure C) ch)
   then on_channels (LW := reactor (home_ c)) (listenTillWritable tid (channel_ c)) w else Ok w)
  = Ok w' -> at_conn conn c tid w0 run st s w'.
Proof.
  intros H E. destruct (negb _); [|by injection E as <-].
  by eapply at_conn_change_events; [exact writable_mask|exact H|].
Qed.

Lemma at_conn_warn conn c tid w0 run st s w (b : bool) (cb : option (Callback V)) :
  at_conn conn c tid w0 run st s w ->
  at_conn conn c tid w0 run st s (match cb with
    | Some _ => if b then queue (LW := reactor (home_ c)) ConnWork tid (HighWater conn) w else w
    | None => w end).
Proof.
  intros H. destruct cb; [|done]. destruct b; [|done]. by apply at_conn_queue.
Qed.

(** The bytes that wait stay at the front of the send buffer. *)
Lemma set_send_buffer_gentle b (c : TcpConnection (Callback V)) :
  wf b -> sendable b = true -> content (send_buffer_ c) `prefix_of` content b ->
  gentle c (set_send_buffer b c).
Proof. intros Hb Hsb Hp. split; try done; [|by left]. intros (? & ? & _). by split_and!. Qed.

Lemma set_receive_buffer_gentle b (c : TcpConnection (Callback V)) :
  wf b /\ CHEAP_PREPEND <= read_index_ b -> gentle c (set_receive_buffer b c).
Proof. intros []. split; try done; [|by left]. intros (_ & _ & ? & ?). by split_and!. Qed.

Lemma append_gentle (c : TcpConnection (Callback V)) data b :
  buffers_ok c -> append (send_buffer_ c) data = Ok b -> gentle c (set_send_buffer b c).
Proof.
  intros (_ & _ & Hwf & Hsb) E. destruct (append_Ok_inv _ _ _ Hwf E) as (Hb & Hc & _).
  apply set_send_buffer_gentle; [done|by apply (sendable_append _ _ _ Hwf E)|]. rewrite Hc. by exists data.
Qed.

Lemma idle_empty b : wf b -> (readableBytes b =? 0) = true -> content b = [].
Proof. intros Hwf H%Z.eqb_eq. apply Zlen_0_nil. by rewrite content_length. Qed.

(** What is known of the connection and its channel. *)
Lemma at_conn_parts conn c tid w0 run st s w : at_conn conn c tid w0 run st s w ->
  buffers_ok c /\ forall ch, conn_channel (LW := reactor (home_ c)) c w = Ok ch ->
    fd_ ch = socket_ c.
Proof.
  intros ([[Hco _] _] & Hc & _). destruct (conn_staged _ _ _ _ _ Hco Hc) as [g Hst].
  pose proof (core_conn _ _ _ Hco _ _ _ _ Hc Hst) as Hf. split; [apply Hf|].
  destruct (fine_channel _ _ _ _ _ _ Hf) as [ch [[Rc Rfd _ _ _ _] _ _ _ _]].
  intros ch' E. unfold conn_channel, deref_channel in E.
  change (get_channels (LoopWorld := reactor (home_ c)) w) with (channels_at (home_ c) w) in E.
  rewrite Rc in E. by injection E as <-.
Qed.

(** A write on the connection's descriptor, while nothing waits. *)
Lemma steady_write st s w conn c data r w1 :
  core st s w -> get_conn conn w = Some c -> content (send_buffer_ c) = [] ->
  sys_write (socket_ c) data w = (r, w1) -> steady w w1.
Proof.
  intros Hco Hc Hnil E. destruct (quiet_write (socket_ c) data w) as [(Qs & Qc & Ql) Hp].
  pose proof (fun fd' => wires_write (ServerLaws := SL) (socket_ c) fd' data w) as Hother.
  rewrite E in Qs, Qc, Ql, Hp, Hother. cbn [snd] in *.
  split; [| | |by apply same_handler|intros x y; rewrite Qc; by intros ->].
  - intros l. apply Ql.
  - intros l. by rewrite Hp.
  - intros x y Hy. exists y. rewrite Qc. split_and!; try done. unfold stream.
    destruct (decide (x = conn)) as [->|Hx].
    + assert (y = c) as -> by congruence. rewrite Hnil, !app_nil_r.
      destruct (write_law (ConnLaws := reactor_conn 0) _ _ _ _ _ E) as (_ & Hw & _).
      unfold wire_at. rewrite Hw. by exists (taken r data).
    + destruct (core_distinct _ _ _ Hco x conn y c Hy Hc Hx) as (_ & Hs & _).
      unfold wire_at. by rewrite Hother.
Qed.

Lemma at_conn_write conn c tid w0 run st s w data r w1 :
  at_conn conn c tid w0 run st s w -> content (send_buffer_ c) = [] ->
  sys_write (socket_ c) data w = (r, w1) -> at_conn conn c tid w0 run st s w1.
Proof.
  intros ([[Hco Hqs] Hsd] & Hc & Ht) Hnil E.
  destruct (quiet_write (socket_ c) data w) as [Hq Hp]. rewrite E in Hq, Hp. cbn [snd] in *.
  split_and!.
  - split; [split|].
    + by eapply core_quiet.
    + by eapply same_tasks_queues.
    + etrans; [exact Hsd|]. by eapply steady_write.
  - rewrite <- Hc. apply Hq.
  - rewrite <- Ht. apply Hq.
Qed.

(** The direct write of [sendInLoop]. *)
Lemma at_conn_direct conn c tid w0 run st s w (idle : bool) data (n : Z) w1 :
  at_conn conn c tid w0 run st s w -> (idle = true -> content (send_buffer_ c) = []) ->
  (if idle then
     match sys_write (socket_ c) data w with
     | (WriteOk n, w) =>
         (n, if n <? Zlen data then w else
             match TcpConnection.write_complete_callback_ c with
             | Some _ => queue (LW := reactor (home_ c)) ConnWork tid (WriteComplete conn) w
             | None => w
             end)
     | (WriteErr _, w) => (0, w)
     end
   else (0, w)) = (n, w1) -> at_conn conn c tid w0 run st s w1.
Proof.
  intros H Hidle E. destruct idle; [|by injection E as _ <-].
  destruct (sys_write (socket_ c) data w) as [r w2] eqn:Ew.
  pose proof (at_conn_write _ _ _ _ _ _ _ _ _ _ _ H (Hidle eq_refl) Ew) as H0.
  destruct r as [m|e]; injection E as _ <-; [|done].
  destruct (m <? _); [done|]. destruct (TcpConnection.write_complete_callback_ c); [|done].
  by apply at_conn_queue.
Qed.

Lemma inv_sendInLoop conn c tid w0 run st s w w' data :
  at_conn conn c tid w0 run st s w ->
  sendInLoop (LW := reactor (home_ c)) ConnWork tid conn data w = Ok w' -> from w0 run st s w'.
Proof.
  intros H E. unfold sendInLoop, deref_conn in E. rewrite (proj1 (proj2 H)) in E.
  cbn [mbind outcome_bind] in E. inv_ok. rename a0 into ch.
  destruct (at_conn_parts _ _ _ _ _ _ _ _ H) as [Hbuf Hfd]. rewrite (Hfd ch Ha0) in E.
  match type of E with context [let '(_, _) := ?p in _] => destruct p as [n w1] eqn:E1 end.
  apply (at_conn_direct _ _ _ _ _ _ _ _ _ _ _ _ H) in E1 as H1.
  2: { intros [_ Hr]%andb_true_iff. apply idle_empty; [apply Hbuf|done]. }
  destruct (n <? Zlen data); [|injection E as <-; apply H1]. inv_ok.
  assert (H2 : at_conn conn (set_send_buffer a0 c) tid w0 run st s a1).
  { eapply (at_conn_arm conn (set_send_buffer a0 c)); [|exact Ha2].
    eapply at_conn_put; [exact H1|by eapply append_gentle]. }
  destruct (high_water_callback_ c); [|injection E as <-; apply H2].
  destruct (_ <=? _); injection E as <-; [|apply H2].
  by apply (at_conn_queue conn (set_send_buffer a0 c) tid).
Qed.

Lemma inv_sendBufferInLoop conn c tid w0 run st s w w' buffer buffer' :
  at_conn conn c tid w0 run st s w -> wf buffer -> sendable buffer = true ->
  sendBufferInLoop (LW := reactor (home_ c)) ConnWork tid conn buffer w = Ok (buffer', w') ->
  from w0 run st s w'.
Proof.
  intros H Hwf Hsb E. unfold sendBufferInLoop, deref_conn in E. rewrite (proj1 (proj2 H)) in E.
  cbn [mbind outcome_bind] in E. inv_ok. rename a0 into ch, a1 into bw.
  destruct (at_conn_parts _ _ _ _ _ _ _ _ H) as [Hbuf _].
  assert (H1 : at_conn conn c tid w0 run st s bw.2 /\ wf bw.1 /\ sendable bw.1 = true).
  { destruct (_ && _) eqn:Hidle; [|by injection Ha1 as <-]. inv_ok.
    apply andb_true_iff in Hidle as [_ Hr]. apply idle_empty in Hr; [|apply Hbuf].
    destruct (sys_write _ _ w) as [r w1] eqn:Ew.
    pose proof (at_conn_write _ _ _ _ _ _ _ _ _ _ _ H Hr Ew) as H1.
    destruct (write_law (ConnLaws := reactor_conn 0) _ _ _ _ _ Ew) as (Hn & _).
    destruct r; injection Ha1 as <-; split_and!; try done.
    - apply retrieve_spec; [done|apply Hn].
    - apply sendable_retrieve; [done|apply Hn|done]. }
  destruct bw as [buffer1 w1]. cbn [fst snd] in H1. destruct H1 as (H1 & Hwf1 & Hsb1).
  destruct (0 <? readableBytes buffer1); [|injection E as _ <-; apply H1].
  inv_ok. rename a0 into bb. destruct bb as [b buffer2]. inv_ok.
  eapply (at_conn_arm conn (set_send_buffer b c)); [|eassumption].
  apply (at_conn_warn conn (set_send_buffer b c)).
  eapply at_conn_put; [exact H1|]. destruct (_ =? 0) eqn:Hr.
  - injection Ha2 as <- <-. apply set_send_buffer_gentle; [done|done|].
    rewrite (idle_empty (send_buffer_ c)) by (apply Hbuf || done). apply prefix_nil.
  - inv_ok. by eapply append_gentle.
Qed.

(** The calls that code outside the library makes. *)
Inductive public_call (tid : Z) (w : W) : W -> Prop :=
| call_send conn c msg w' : get_conn conn w = Some c ->
    TcpConnection.send (LW := reactor (home_ c)) ConnWork (call_callback tid) tid conn msg w
    = Ok w' -> public_call tid w w'
| call_send_ptr conn c msg len w' : get_conn conn w = Some c ->
    send_ptr (LW := reactor (home_ c)) ConnWork (call_callback tid) tid conn msg len w
    = Ok w' -> public_call tid w w'
| call_send_buffer conn c buffer buffer' w' : get_conn conn w = Some c ->
    wf buffer -> sendable buffer = true ->
    send_buffer (LW := reactor (home_ c)) ConnWork (call_callback tid) tid conn buffer w
    = Ok (buffer', w') -> public_call tid w w'
| call_shutdown conn c w' : get_conn conn w = Some c ->
    shutdown (LW := reactor (home_ c)) ConnWork (call_callback tid) tid conn w = Ok w' ->
    public_call tid w w'
| call_set_context conn c x : get_conn conn w = Some c ->
    public_call tid w (put_conn conn (setContext x c) w)
| call_receive_buffer conn c b : get_conn conn w = Some c ->
    wf b /\ CHEAP_PREPEND <= read_index_ b ->
    public_call tid w (put_conn conn (set_receive_buffer b c) w)
| call_queue l t : public_call tid w (queue_at tid l (UserWork t) w)
| call_own w' : quiet w w' -> same_wires wire_at w w' ->
    (forall l, task_queue_ (loop_at l w') = task_queue_ (loop_at l w)) -> public_call tid w w'.

Lemma in_loop_thread tid l w : isInLoopThread tid (get_loop (LoopWorld := reactor l) w) = true ->
  thread_id_ (loop_at l w) = tid.
Proof. by intros H%Z.eqb_eq. Qed.

(** Off the loop's thread the closure is queued. *)
Lemma inv_run_in_loop w0 run st s w w' l tid t :
  isInLoopThread tid (get_loop (LoopWorld := reactor l) w) = false ->
  benign (ConnWork (T := T) t) = true ->
  run_in_loop (LW := reactor l) ConnWork (call_callback tid) tid t w = Ok w' ->
  from w0 run st s w -> from w0 run st s w'.
Proof.
  intros Hin Hb E. unfold run_in_loop in E. rewrite Hin in E. injection E as <-.
  by apply (keep_queue tid l).
Qed.

Lemma inv_quiet w0 run st s w w' : quiet w w' -> same_wires wire_at w w' ->
  (forall l, task_queue_ (loop_at l w') = task_queue_ (loop_at l w)) ->
  from w0 run st s w -> from w0 run st s w'.
Proof. intros Hq Hw Ht. apply keep_quiet; [done|done|]. intros l. rewrite Ht. apply grown_refl. Qed.

Lemma inv_shutdownInLoop conn c tid w0 run st s w w' :
  at_conn conn c tid w0 run st s w ->
  shutdownInLoop (LW := reactor (home_ c)) tid conn w = Ok w' -> from w0 run st s w'.
Proof.
  intros H E. unfold shutdownInLoop, deref_conn in E. rewrite (proj1 (proj2 H)) in E.
  cbn [mbind outcome_bind] in E. inv_ok. destruct (decide _) as [Hs|]; [|injection E as <-; apply H].
  inv_ok. assert (H1 : from w0 run st s (put_conn conn (setState Disconnecting c) w)).
  { eapply keep_put_conn; [apply H| |apply H]. split; try done. by right. }
  destruct (negb _); [|by injection E as <-]. injection E as <-.
  destruct (quiet_shutdown (reactor := reactor) (socket_ c) Socket.SHUT_RDWR
    (put_conn conn (setState Disconnecting c) w)) as (Q1 & Q2 & Q3).
  unfold Socket.shutdownWrite. eapply inv_quiet; [|apply wires_shutdown| |exact H1].
  - split_and!; [done|done|]. intros l. by destruct (Q3 l) as [-> ->].
  - intros l. by destruct (Q3 l) as [-> _].
Qed.

Lemma inv_when_connected conn c w0 run st s w w' k :
  get_conn conn w = Some c -> when_connected conn w k = Ok w' ->
  from w0 run st s w -> (state_ c = Connected -> k = Ok w' -> from w0 run st s w') -> from w0 run st s w'.
Proof.
  intros Hc E Hi Hk. unfold when_connected, deref_conn in E. rewrite Hc in E.
  cbn [mbind outcome_bind] in E. destruct (decide _); [auto|by injection E as <-].
Qed.

Lemma inv_shutdown conn c tid w0 run st s w w' : get_conn conn w = Some c ->
  shutdown (LW := reactor (home_ c)) ConnWork (call_callback tid) tid conn w = Ok w' ->
  from w0 run st s w -> from w0 run st s w'.
Proof.
  intros Hc E Hi. eapply inv_when_connected; [exact Hc|exact E|done|]. clear E. intros Hs E. inv_ok.
  unfold setState_of, deref_conn in Ha. rewrite Hc in Ha. cbn [mbind outcome_bind] in Ha.
  injection Ha as <-.
  assert (Hg : gentle c (setState Disconnecting c)) by (split; try done; by right).
  pose proof (keep_put_conn _ _ _ _ Hc Hg _ _ _ _ Hi) as H1.
  destruct (isInLoopThread tid (get_loop (LoopWorld := reactor (home_ c))
    (put_conn conn (setState Disconnecting c) w))) eqn:Hin.
  2: { eapply inv_run_in_loop; [exact Hin| |exact E|exact H1]. done. }
  unfold run_in_loop in E. rewrite Hin in E.
  eapply (inv_shutdownInLoop conn (setState Disconnecting c) tid); [|exact E].
  split_and!; [done| |by apply (in_loop_thread _ (home_ c))].
  autorewrite with world. by rewrite decide_True.
Qed.

Lemma inv_send_buffer conn c tid w0 run st s w w' buffer buffer' : get_conn conn w = Some c ->
  wf buffer -> sendable buffer = true ->
  send_buffer (LW := reactor (home_ c)) ConnWork (call_callback tid) tid conn buffer w
  = Ok (buffer', w') -> from w0 run st s w -> from w0 run st s w'.
Proof.
  intros Hc Hwf Hsb E Hi. unfold send_buffer, deref_conn in E. rewrite Hc in E.
  cbn [mbind outcome_bind] in E.
  destruct (decide _); [|by injection E as _ <-]. destruct (isInLoopThread _ _) eqn:Hin.
  - eapply inv_sendBufferInLoop; [|exact Hwf|exact Hsb|exact E].
    split_and!; [done|done|by apply in_loop_thread].
  - cbn [swap] in E. inv_ok. eapply inv_run_in_loop; [exact Hin| |exact Ha|exact Hi].
    unfold benign. cbn. by rewrite bool_decide_true, Hsb.
Qed.

Lemma public_call_keep tid w w' : public_call tid w w' -> keep w w'.
Proof.
  intros Hcall w0 run st s Hi. destruct Hcall as [conn c msg w' Hc E|conn c msg len w' Hc E
    |conn c buffer buffer' w' Hc Hwf Hsb E|conn c w' Hc E|conn c x Hc|conn c b Hc Hb|l t|w' Hq Hw Ht].
  - eapply inv_when_connected; [exact Hc|exact E|done|]. intros _ E'.
    destruct (isInLoopThread _ _) eqn:Hin;
      [|eapply inv_run_in_loop; [exact Hin| |exact E'|exact Hi]; done].
    eapply inv_sendInLoop; [|exact E']. split_and!; [done|done|by apply in_loop_thread].
  - eapply inv_when_connected; [exact Hc|exact E|done|]. intros _ E'.
    destruct (isInLoopThread _ _) eqn:Hin;
      [|eapply inv_run_in_loop; [exact Hin| |exact E'|exact Hi]; done].
    unfold send_raw in E'. destruct (load_bytes _ _ _); [|done].
    eapply inv_sendInLoop; [|exact E']. split_and!; [done|done|by apply in_loop_thread].
  - by eapply inv_send_buffer.
  - by eapply inv_shutdown.
  - eapply keep_put_conn; [exact Hc| |done]. split; try done. by left.
  - eapply keep_put_conn; [exact Hc|by apply set_receive_buffer_gentle|done].
  - by apply keep_queue.
  - by eapply inv_quiet.
Qed.

Definition public_calls (tid : Z) : W -> W -> Prop := rtc (public_call tid).

Lemma public_calls_keep tid w w' : public_calls tid w w' -> keep w w'.
Proof.
  induction 1 as [|w1 w2 w3 H _ IH]; [reflexivity|]. etrans; [by eapply public_call_keep|exact IH].
Qed.

(** ** The user's code

    It reaches the library by the public calls only.  A callback returns when it
    is called as the library calls it, on the thread of the connection's loop, and
    the buffers are not so large that appending to them overflows. *)
Definition room (bound : Z) (c : TcpConnection (Callback V)) : Prop :=
  Zlen (buffer_ (receive_buffer_ c)) < bound /\ Zlen (buffer_ (send_buffer_ c)) < bound.

Lemma room_weaken b b' c : room b c -> b <= b' -> room b' c.
Proof. intros [? ?] ?. split; lia. Qed.

Class UserLaws : Prop := {
  user_calls : forall tid f conn run st s w w', inv run st s w ->
    user tid f conn w = Ok w' -> public_calls tid w w';
  user_task_calls : forall tid t run st s w w', inv run st s w ->
    user_task tid t w = Ok w' -> public_calls tid w w';
  user_returns : forall tid f conn c run st s w, inv run st s w -> get_conn conn w = Some c ->
    thread_id_ (loop_at (home_ c) w) = tid -> room (2 ^ 62) c ->
    exists w', user tid f conn w = Ok w';
}.
Context {UL : UserLaws}.

Lemma inv_user tid f conn run st s w w' : inv run st s w -> user tid f conn w = Ok w' ->
  inv run st s w' /\ steady w w'.
Proof.
  intros Hi E. by apply (public_calls_keep tid w w' (user_calls _ _ _ _ _ _ _ _ Hi E) w run st s).
Qed.

Lemma inv_call_user tid cb conn c run st s w : user_only cb -> inv run st s w ->
  get_conn conn w = Some c -> thread_id_ (loop_at (home_ c) w) = tid -> room (2 ^ 62) c ->
  exists w', call_user (call_callback tid) cb conn w = Ok w' /\ inv run st s w' /\ steady w w'.
Proof.
  intros Hu Hi Hc Ht Hr. destruct cb as [[f|]|]; cbn in *; [| |by exists w].
  - destruct (user_returns tid f conn c _ _ _ _ Hi Hc Ht Hr) as [w' E]. exists w'.
    split; [done|by eapply inv_user].
  - done.
Qed.

(** Every connection's buffers are within a bound. *)
Definition roomy (bound : Z) (w : W) : Prop :=
  forall conn c, get_conn conn w = Some c -> room bound c.
End ServerInv.
