(* ===== verification/ServerSteps.v ===== *)
(** * ServerSteps: what each closure and event does to a server

    The five steps of a connection's life, a new connection, the acceptor's
    [listen] and the readable events, each against the invariant of
    ServerInv.v. *)
From Stdlib Require Import ZArith Lia List String.
From stdpp Require Import base option list numbers gmap relations strings pretty tactics.
From S2P Require Import Prelude.
From S2P Require Import Buffer.
From S2P Require Import Channel.
From S2P Require Import PollerBase.
From S2P Require Import EventLoop.
From S2P Require Import InetAddress.
From S2P Require Socket.
From S2P Require Import TcpConnection.
From S2P Require EventLoopThreadPool.
From S2P Require Acceptor.
From S2P Require Import TcpServer.
From S2P Require Import LifeSpec.
From S2P Require Import ServerWorld.
From S2P Require Import ServerInv.
From S2P Require Poller.
Open Scope Z_scope.
Open Scope outcome_scope.

Section ServerSteps.
Context `{EFD : EventFd} {W P T V : Type}.
Abbreviation C := (Work T).
Context `{PB : !PollerBase P (Closure C)} {PL : PollerLaws P (Closure C)}.
Context {reactor : LoopId -> LoopWorld W P C}.
Context `{CW : !ConnWorld W (Callback V)} `{SK : !SocketKernel W}.
Context `{SC : !Socket.SocketCalls W} `{SW : !ServerWorld W V}.
Context {SL : ServerLaws reactor}.
Context {user : Z -> V -> ConnId -> W -> outcome W}.
Context {user_task : Z -> T -> W -> outcome W}.
Context `{SD : !SendDiscipline}.
Context {UL : UserLaws (reactor := reactor) (user := user) (user_task := user_task)}.

Abbreviation loop_at := (loop_at reactor).
Abbreviation channels_at := (channels_at reactor).
Abbreviation queue_at := (queue_at reactor).
Abbreviation poller_at l w := (poller_ (loop_at l w)).
Abbreviation client := (client reactor user user_task).
Abbreviation call_callback := (call_callback reactor user).
Abbreviation pending := (pending (reactor := reactor)).
Abbreviation wire_at := (wire_at (reactor := reactor)).
Abbreviation touches := (touches (reactor := reactor)).
Abbreviation same_rest := (same_rest (reactor := reactor)).
Abbreviation chan_fine := (chan_fine (reactor := reactor)).
Abbreviation loop_fine := (loop_fine (reactor := reactor)).
Abbreviation reader := (reader (reactor := reactor)).
Abbreviation conn_fine := (conn_fine (reactor := reactor)).
Abbreviation acceptor_fine := (acceptor_fine (reactor := reactor)).
Abbreviation core := (core (reactor := reactor)).
Abbreviation inv := (inv (reactor := reactor)).
Abbreviation quiet := (quiet (reactor := reactor)).
Abbreviation stream := (stream (reactor := reactor)).
Abbreviation steady := (steady (reactor := reactor)).
Abbreviation from := (from (reactor := reactor)).
Abbreviation keep := (keep (reactor := reactor)).
Abbreviation at_conn := (at_conn (reactor := reactor)).
Abbreviation public_call := (public_call (reactor := reactor) (user := user)).
Abbreviation public_calls := (public_calls (reactor := reactor) (user := user)).

#[local] Hint Rewrite loop_at_put_loop loop_at_put_channels channels_at_put_loop channels_at_put_channels
  loop_at_put_conn channels_at_put_conn conn_at_put_loop conn_at_put_channels conn_at_put_conn
  loop_at_put_server channels_at_put_server conn_at_put_server server_at_put_server
  server_at_put_loop server_at_put_channels server_at_put_conn
  wire_at_put_loop wire_at_put_channels wire_at_put_conn wire_at_put_server : world.

(** ** The five steps *)

(** A connection with its channel and its loop. *)
Lemma conn_parts st s w conn c l g : core st s w -> get_conn conn w = Some c ->
  st !! conn = Some (l, g) ->
  conn_fine s w conn c l g /\ loop_fine l w /\
  exists ch, reader w conn l (channel_ c) (socket_ c) g ch.
Proof.
  intros H Hc Hst. pose proof (core_conn _ _ _ H _ _ _ _ Hc Hst) as Hf. split_and!.
  - done.
  - by apply (core_loops _ _ _ H), (fine_member _ _ _ _ _ _ Hf).
  - apply Hf.
Qed.

Lemma chan_fine_put_conn l cid fd w ch conn c :
  chan_fine l cid fd w ch -> chan_fine l cid fd (put_conn conn c w) ch.
Proof. intros []. split; autorewrite with world; done. Qed.

Lemma touches_thread l cid fd w w' x : touches l cid fd w w' ->
  thread_id_ (loop_at x w') = thread_id_ (loop_at x w).
Proof. intros H. apply (t_self _ _ _ _ _ H). Qed.

(** From [w] to [wm] only the connection [conn] and its channel have changed. *)
Record only_conn (conn : ConnId) (l : LoopId) (c c' : TcpConnection (Callback V)) (w wm : W)
    : Prop := {
  oc_touches : touches l (channel_ c) (socket_ c) w wm;
  oc_conn : forall x, get_conn x wm = if decide (x = conn) then Some c' else get_conn x w;
  oc_server : get_server wm = get_server w;
  oc_tasks : forall x, task_queue_ (loop_at x wm) = task_queue_ (loop_at x w);
  oc_wires : same_wires wire_at w wm;
}.

Lemma only_conn_steady conn l c c' w wm : only_conn conn l c c' w wm ->
  get_conn conn w = Some c -> channel_ c' = channel_ c -> socket_ c' = socket_ c ->
  TcpConnection.message_callback_ c' = TcpConnection.message_callback_ c ->
  content (send_buffer_ c) `prefix_of` content (send_buffer_ c') -> steady w wm.
Proof.
  intros [Ot Oc Osv Oq Ow] Hc Ech Es Em Hp. split.
  - intros x. apply (t_self _ _ _ _ _ Ot x).
  - intros x. by rewrite Oq.
  - intros x y Hx. rewrite Oc. case_decide.
    + subst x. rewrite Hc in Hx. injection Hx as <-. exists c'. split_and!; try done.
      unfold stream. rewrite Es, Ow. by apply prefix_app.
    + exists y. split_and!; try done. unfold stream. by rewrite Ow.
  - by apply same_handler.
  - intros x y. rewrite Oc. case_decide; [subst x|by intros ->]. rewrite Hc. by intros [= <-].
Qed.

Lemma only_conn_put conn l c c' w : only_conn conn l c c' w (put_conn conn c' w).
Proof.
  split.
  - apply touches_put_conn.
  - intros x. apply put_conn_view.
  - by autorewrite with world.
  - intros x. by autorewrite with world.
  - intros fd. by autorewrite with world.
Qed.

(** A change of the mask of the connection's channel. *)
Lemma only_conn_change f tid conn l c c' w wm ch :
  loop_fine l w -> thread_id_ (loop_at l w) = tid -> only_conn conn l c c' w wm ->
  chan_fine l (channel_ c) (socket_ c) wm ch -> client_mask (f ch) ->
  exists w' i, on_channels (LW := reactor l) (change_events f tid (channel_ c)) wm = Ok w' /\
    only_conn conn l c c' w w' /\
    chan_fine l (channel_ c) (socket_ c) w' (setIndex i (setEvents (f ch) ch)) /\
    watched (F := Closure C) (poller_at l w') (socket_ c) = Some (channel_ c, f ch).
Proof.
  intros Hl Ht [Oto Oc Os Oq Ow] Hcf Hm.
  destruct (change_events_touches f tid l (channel_ c) (socket_ c) wm ch)
    as (w' & i & E & Hto & Hcf' & Hwat & Hs1 & Hs2 & Hs3 & Hs4); try done.
  { by eapply touches_loop_fine. }
  { by rewrite (touches_thread _ _ _ _ _ _ Oto). }
  exists w', i. split_and!; try done. split.
  - by etrans.
  - intros x. by rewrite Hs2.
  - by rewrite Hs1.
  - intros x. by rewrite Hs3.
  - intros y. by rewrite Hs4.
Qed.

Lemma only_conn_core conn l c c' g g' st s w w' :
  core st s w -> get_conn conn w = Some c -> st !! conn = Some (l, g) ->
  only_conn conn l c c' w w' -> conn_fine s w' conn c' l g' ->
  name_ c' = name_ c -> socket_ c' = socket_ c -> channel_ c' = channel_ c ->
  listed g' = listed g -> core (<[conn := (l, g')]> st) s w'.
Proof. intros H Hc Hst [Oto Oc Os _ _]. by apply (core_update st s w w' conn c c' l g g'). Qed.

Lemma assert_at_ok tid l w : thread_id_ (loop_at l w) = tid ->
  assert_loop (LW := reactor l) tid w = Ok tt.
Proof. apply assert_loop_ok. Qed.

(** [connectionEstablished] runs on the connection's loop. *)
Lemma inv_establish tid conn c l st s w :
  inv (Some (l, Establish conn)) st s w -> get_conn conn w = Some c ->
  st !! conn = Some (l, Handed) -> thread_id_ (loop_at l w) = tid -> room (2 ^ 62) c ->
  exists w', connectionEstablished (LW := reactor l) (call_callback tid) tid conn w = Ok w' /\
    inv None (<[conn := (l, Open)]> st) s w' /\ steady w w'.
Proof.
  intros [Hco Hq] Hc Hst Ht Hroom.
  destruct (conn_parts _ _ _ _ _ _ _ Hco Hc Hst) as (Hf & Hl & ch & [Rf Rr Ro Rg Rw]).
  set (c' := setState Connected c). set (w1 := put_conn conn c' w).
  set (w2 := put_channels (LoopWorld := reactor l)
    (<[channel_ c := tie conn ch]> (channels_at l w1)) w1).
  assert (Hch1 : channels_at l w1 !! channel_ c = Some ch).
  { unfold w1. autorewrite with world. apply Rf. }
  assert (Ho2 : only_conn conn l c c' w w2).
  { destruct (only_conn_put conn l c c' w) as [O1 O2 O3 O4 O5]. unfold w2. split.
    - etrans; [exact O1|]. by eapply touches_member.
    - intros x. autorewrite with world. by rewrite O2.
    - autorewrite with world. done.
    - intros x. autorewrite with world. done.
    - intros x. autorewrite with world. apply O5. }
  destruct (only_conn_change listenTillReadable_events tid conn l c c' w w2 (tie conn ch))
    as (w3 & i & E & Ho3 & Hcf & Hwat); try done.
  { destruct Rf as [R1 R2 R3 R4 R5 R6]. unfold w2, w1. split; autorewrite with world; try done.
    rewrite decide_True by done. apply lookup_insert_eq. }
  { by apply (mask_readable (events_ ch)), Rf. }
  assert (Hi : inv None (<[conn := (l, Open)]> st) s w3).
  { split.
    - eapply (only_conn_core conn l c c' Handed Open); try done.
      destruct Hf as [Fh Fm Fc Fu Fb Fs _]. split; try done; [by left|].
      eexists. split; [exact Hcf|exact Rr|exact Ro|done|]. intros _. by eexists.
    - eapply same_tasks_queues; [apply Ho3|]. split; [|apply Hq].
      apply (queues_move (pending w) (loop_ s) st conn (Some (l, Handed)) (l, Open)); [done|].
      apply Hq. }
  assert (Hh : home_ c = l) by apply Hf.
  destruct (inv_call_user tid (TcpConnection.connection_callback_ c) conn c' _ _ _ _
    ltac:(apply Hf) Hi) as (w4 & E4 & Hi4 & Hsd4).
  { by rewrite (oc_conn _ _ _ _ _ _ Ho3), decide_True. }
  { unfold c'. cbn [home_ setState]. rewrite Hh, <- Ht. eapply touches_thread, Ho3. }
  { done. }
  exists w4. split; [|split; [done|]].
  2: { etrans; [|exact Hsd4]. by eapply (only_conn_steady conn l c c'). }
  unfold connectionEstablished, deref_conn. rewrite assert_at_ok by done. rewrite Hc.
  cbn [mbind outcome_bind]. rewrite bool_decide_true by apply (fine_state _ _ _ _ _ _ Hf).
  cbn [negb]. unfold conn_channel, deref_channel.
  change (get_channels (LoopWorld := reactor l) (put_conn conn (setState Connected c) w))
    with (channels_at l w1).
  rewrite Hch1. cbn [mbind outcome_bind]. unfold listenTillReadable.
  change (put_conn conn (setState Connected c) w) with w1. fold w2. rewrite E. exact E4.
Qed.

(** [ConnectionDestroyed] and [handleClose] begin alike: the connection goes to
    [Disconnected] and its channel deaf. *)
Lemma inv_mute tid run run' conn c l g g' st s w :
  inv run st s w -> get_conn conn w = Some c -> st !! conn = Some (l, g) ->
  thread_id_ (loop_at l w) = tid -> state_in g' Disconnected -> listed g' = listed g ->
  queues (pending w) (loop_ s) run' (<[conn := (l, g')]> st) ->
  exists w', on_channels (LW := reactor l) (ignoreAll tid (channel_ c))
      (put_conn conn (setState Disconnected c) w) = Ok w' /\
    inv run' (<[conn := (l, g')]> st) s w' /\
    get_conn conn w' = Some (setState Disconnected c) /\ steady w w'.
Proof.
  intros [Hco Hq] Hc Hst Ht Hg' Hlg Hq'.
  destruct (conn_parts _ _ _ _ _ _ _ Hco Hc Hst) as (Hf & Hl & ch & [Rf Rr Ro Rg Rw]).
  set (c' := setState Disconnected c).
  destruct (only_conn_change ignoreAll_events tid conn l c c' w (put_conn conn c' w) ch)
    as (w' & i & E & Ho & Hcf & Hwat); try done.
  { apply only_conn_put. }
  { by apply chan_fine_put_conn. }
  exists w'. split_and!.
  - exact E.
  - split.
    + eapply (only_conn_core conn l c c' g g'); try done.
      destruct Hf as [Fh Fm Fc Fu Fb Fs _]. split; try done.
      eexists. split; [exact Hcf|exact Rr|exact Ro|done|]. intros _. by eexists.
    + eapply same_tasks_queues; [apply Ho|]. split; [done|apply Hq].
  - rewrite (oc_conn _ _ _ _ _ _ Ho). by rewrite decide_True.
  - by eapply (only_conn_steady conn l c c').
Qed.

(** The server changes members that concern no loop. *)
Lemma touches_fine_server s s' w conn c l g :
  server_loops s' = server_loops s -> conn_fine s w conn c l g ->
  conn_fine s' (put_server (Some s') w) conn c l g.
Proof.
  intros Hsl H. destruct (touches_conn_fine l (channel_ c + 1) (socket_ c + 1) w
    (put_server (Some s') w) s conn c l g) as [F1 F2 F3 F4 F5 F6 F7];
    [apply touches_put_server|lia|done|].
  split; try done. by rewrite Hsl.
Qed.

Lemma acceptor_fine_server s s' w : acceptor_ s' = acceptor_ s -> loop_ s' = loop_ s ->
  acceptor_fine s w -> acceptor_fine s' (put_server (Some s') w).
Proof.
  intros Ea El H. destruct (touches_acceptor (loop_ s) (Acceptor.accept_channel_ (acceptor_ s) + 1)
    (Acceptor.accept_socket_ (acceptor_ s) + 1) w (put_server (Some s') w) s)
    as [A1 A2 A3 A4]; [apply touches_put_server|lia| |done|].
  - intros x y. autorewrite with world. eauto.
  - split; by rewrite ?Ea, ?El.
Qed.

(** The connection leaves the map. *)
Lemma core_unlist st s w conn c l :
  core st s w -> get_conn conn w = Some c -> st !! conn = Some (l, Closing) ->
  let s' := set_connections (delete (name_ c) (connections_ s)) s in
  core (<[conn := (l, Removed)]> st) s' (put_server (Some s') w).
Proof.
  intros Hco Hc Hst s'.
  destruct (conn_parts _ _ _ _ _ _ _ Hco Hc Hst) as (Hf & Hl & ch & [Rf Rr Ro Rg Rw]).
  destruct Hco as [Cs Cp Cl Cd Cc Cdi Cn Cnx Ct Ca].
  split; intros; autorewrite with world in *; try done.
  - eapply touches_loop_fine; [apply (touches_put_server l0 0 0)|by apply Cl].
  - rewrite Cd, lookup_insert. case_decide; [subst conn0; rewrite Hst; by split|done].
  - apply (touches_fine_server s); [done|].
    match goal with H : <[_ := _]> _ !! _ = _ |- _ => rewrite lookup_insert in H; rename H into Hs end.
    case_decide as Hx; [subst conn0|by apply Cc].
    injection Hs as <- <-. assert (c0 = c) as -> by congruence.
    destruct Hf as [F1 F2 F3 F4 F5 F6 F7]. split; try done.
    exists ch. split; try done. intros Hrd. by apply Rg in Hrd.
  - by apply (Cdi conn0 conn').
  - by apply (Cn conn0).
  - change (connections_ s') with (delete (name_ c) (connections_ s)).
    rewrite lookup_delete, lookup_insert. case_decide as Hname.
    + split; [done|]. intros (y & ly & gy & Hy & Hsy & Hny & Hgy).
      case_decide as Hx; [by injection Hsy as <- <-|].
      destruct (Cdi conn conn0 c y Hc Hy ltac:(congruence)) as [Hd _]. congruence.
    + case_decide as Hx; [subst conn0|apply Ct]. split.
      * rewrite Ct. intros (y & ly & gy & Hy & Hsy & Hny & Hgy). congruence.
      * intros (y & ly & gy & Hy & [= <- <-] & Hny & Hgy). done.
  - by apply (acceptor_fine_server s).
Qed.

(** A task that was about to run is queued instead. *)
Lemma inv_queue_running tid l c t st s w :
  life_of c = Some t -> inv (Some (l, t)) st s w -> inv None st s (queue_at tid l c w).
Proof.
  intros Hlf [Hco [Hq Htf]]. split; [eapply core_quiet; [exact Hco|apply quiet_queue]|]. split.
  - eapply queues_perm; [exact Hq|]. intros x. rewrite pending_queue, Hlf. cbn [running_at app option_list].
    case_decide as E; [subst x|by rewrite decide_False by congruence].
    rewrite decide_True by done. symmetry. apply Permutation_cons_append.
  - intros x. rewrite queue_at_tasks. case_decide; [|done].
    apply Forall_app. split; [done|]. constructor; [|done]. by destruct c as [[]|[]|].
Qed.

Lemma pending_put_server s w l : pending (put_server s w) l = pending w l.
Proof. unfold pending. by autorewrite with world. Qed.

Lemma steady_put_server s s' w : get_server w = Some s ->
  TcpServer.message_callback_ s' = TcpServer.message_callback_ s ->
  steady w (put_server (Some s') w).
Proof.
  intros Hs Hm. apply steady_same; [intros l|intros l|intros x|intros fd|];
    autorewrite with world; try done.
  unfold handler. autorewrite with world. by rewrite Hs.
Qed.

Lemma steady_queue tid l c w : steady w (queue_at tid l c w).
Proof.
  apply steady_same; [|intros x|apply quiet_queue|apply wires_queue|apply same_handler, quiet_queue].
  - intros x. apply quiet_queue.
  - rewrite queue_at_tasks. case_decide; [subst x|done]. by exists [c].
Qed.

(** [removeConnectionInLoop] runs on the base loop. *)
Lemma inv_remove tid conn c l st s w :
  inv (Some (loop_ s, Remove conn)) st s w -> get_conn conn w = Some c ->
  st !! conn = Some (l, Closing) -> thread_id_ (loop_at (loop_ s) w) = tid ->
  exists w', removeConnectionInLoop reactor tid conn w = Ok w' /\
    inv None (<[conn := (l, Removed)]> st)
      (set_connections (delete (name_ c) (connections_ s)) s) w' /\ steady w w'.
Proof.
  intros [Hco [Hq Htf]] Hc Hst Ht.
  pose proof (core_conn _ _ _ Hco _ _ _ _ Hc Hst) as Hf.
  set (s' := set_connections (delete (name_ c) (connections_ s)) s).
  exists (queue_at tid l (ConnWork (ConnectionDestroyed conn)) (put_server (Some s') w)).
  split_and!.
  - unfold removeConnectionInLoop, deref_server, deref_conn. rewrite (core_server _ _ _ Hco).
    cbn [mbind outcome_bind]. unfold assert_at, assertInLoopThread, isInLoopThread.
    rewrite Ht, Z.eqb_refl. cbn [negb mbind outcome_bind]. rewrite Hc. cbn [mbind outcome_bind].
    by rewrite (fine_home _ _ _ _ _ _ Hf).
  - apply (inv_queue_running _ _ _ (Destroy conn)); [done|]. split; [by apply core_unlist|]. split.
    + eapply queues_perm; [|intros x; by rewrite pending_put_server].
      by apply (queues_move (pending w) (loop_ s) st conn (Some (l, Closing)) (l, Removed)).
    + intros x. by autorewrite with world.
  - etrans; [apply (steady_put_server s s' w); [apply Hco|done]|apply steady_queue].
Qed.

(** [removeConnection] runs on any loop's thread. *)
Lemma inv_removeConnection tid conn c l st s w :
  inv (Some (loop_ s, Remove conn)) st s w -> get_conn conn w = Some c ->
  st !! conn = Some (l, Closing) ->
  exists w' st' s', removeConnection reactor tid conn w = Ok w' /\ inv None st' s' w' /\
    rtc life_step st st' /\ steady w w'.
Proof.
  intros Hi Hc Hst. unfold removeConnection, deref_server.
  rewrite (core_server _ _ _ (proj1 Hi)). cbn [mbind outcome_bind]. unfold run_in_loop_at.
  destruct (isInLoopThread _ _) eqn:Hin.
  - destruct (inv_remove tid conn c l st s w) as (w' & E & Hi' & Hg); [done|done|done|by apply in_loop_thread|].
    eexists _, _, _. split_and!; [exact E|exact Hi'| |exact Hg]. apply rtc_once. by apply life_remove.
  - eexists _, _, _. split_and!; [done| |reflexivity|apply steady_queue].
    by eapply inv_queue_running.
Qed.

(** [handleClose], at the end of file of an open connection. *)
Lemma inv_close tid conn c l st s w :
  inv None st s w -> get_conn conn w = Some c -> st !! conn = Some (l, Open) ->
  thread_id_ (loop_at l w) = tid ->
  exists w' st' s', handleClose (LW := reactor l) (call_callback tid) tid conn w = Ok w' /\
    inv None st' s' w' /\ rtc life_step st st' /\ steady w w'.
Proof.
  intros Hi Hc Hst Ht. pose proof (core_conn _ _ _ (proj1 Hi) _ _ _ _ Hc Hst) as Hf.
  destruct (inv_mute tid None (Some (loop_ s, Remove conn)) conn c l Open Closing st s w)
    as (w1 & E & Hi1 & Hc1 & Hsd1); try done.
  { by apply (queues_move (pending w) (loop_ s) st conn (Some (l, Open)) (l, Closing)), Hi. }
  destruct (inv_removeConnection tid conn _ l _ _ _ Hi1 Hc1) as (w2 & st2 & s2 & E2 & Hi2 & Hst2 & Hsd2).
  { apply lookup_insert_eq. }
  exists w2, st2, s2. split_and!; [|done| |by etrans].
  - unfold handleClose, deref_conn. rewrite assert_at_ok by done. rewrite Hc.
    cbn [mbind outcome_bind].
    assert (Es : negb (bool_decide (state_ c = Connected))
                 && negb (bool_decide (state_ c = Disconnecting)) = false).
    { by destruct (fine_state _ _ _ _ _ _ Hf) as [-> | ->]. }
    rewrite Es. rewrite E. cbn [mbind outcome_bind].
    by rewrite (fine_close _ _ _ _ _ _ Hf).
  - eapply rtc_l; [by eapply life_close|exact Hst2].
Qed.

(** The channel leaves its poller. *)
Lemma inv_unregister tid conn c l st s w :
  inv (Some (l, Destroy conn)) st s w -> get_conn conn w = Some c ->
  st !! conn = Some (l, Removed) -> thread_id_ (loop_at l w) = tid ->
  exists w', on_channels (LW := reactor l) (removeChannel tid (channel_ c)) w = Ok w' /\
    inv None (<[conn := (l, Dead)]> st) s w' /\ steady w w'.
Proof.
  intros [Hco Hq] Hc Hst Ht.
  destruct (conn_parts _ _ _ _ _ _ _ Hco Hc Hst) as (Hf & Hl & ch & [Rf Rr Ro Rg Rw]).
  destruct (Rw eq_refl) as [[x m] Hwat]. pose proof (cf_unique _ _ _ _ _ Rf _ _ Hwat) as ->.
  destruct (removeChannel_touches tid l (channel_ c) (socket_ c) w ch m)
    as (w' & i & E & Hto & Hcf & Hnone & Hsr); try done. pose proof Hsr as (Hs1 & Hs2 & Hs3 & _).
  exists w'. split; [exact E|]. split; [split|by eapply steady_rest].
  - eapply (core_update st s w w' conn c c l Removed Dead); try done.
    + intros y. rewrite Hs2. by case_decide; [subst y|].
    + destruct Hf as [F1 F2 F3 F4 F5 F6 _]. split; try done.
      exists (setIndex i ch). split; try done. intros Hrd. by apply Rg in Hrd.
  - eapply same_tasks_queues; [exact Hs3|]. split; [|apply Hq].
    by apply (queues_move (pending w) (loop_ s) st conn (Some (l, Removed)) (l, Dead)), Hq.
Qed.

(** [connectionDestroyed] runs on the connection's loop. *)
Lemma inv_destroy tid conn c l st s w :
  inv (Some (l, Destroy conn)) st s w -> get_conn conn w = Some c ->
  st !! conn = Some (l, Removed) -> thread_id_ (loop_at l w) = tid -> room (2 ^ 62) c ->
  exists w', connectionDestroyed (LW := reactor l) (call_callback tid) tid conn w = Ok w' /\
    inv None (<[conn := (l, Dead)]> st) s w' /\ steady w w'.
Proof.
  intros Hi Hc Hst Ht Hroom. pose proof (core_conn _ _ _ (proj1 Hi) _ _ _ _ Hc Hst) as Hf.
  assert (Hh : home_ c = l) by apply Hf.
  destruct (inv_mute tid (Some (l, Destroy conn)) (Some (l, Destroy conn)) conn c l Removed Removed
    st s w) as (w1 & E & Hi1 & Hc1 & Hsd1); try done.
  { rewrite insert_id by done. apply Hi. }
  rewrite insert_id in Hi1 by done.
  destruct (inv_call_user tid (TcpConnection.connection_callback_ c) conn _ _ _ _ _
    ltac:(apply Hf) Hi1 Hc1) as (w2 & E2 & Hi2 & Hsd2); [|done|].
  { cbn [home_ setState]. by rewrite Hh, (sd_threads _ _ Hsd1). }
  destruct (sd_conns _ _ Hsd2 _ _ Hc1) as (c2 & Hc2 & Ech & _).
  destruct (inv_unregister tid conn c2 l st s w2) as (w3 & E3 & Hi3 & Hsd3); try done.
  { by rewrite (sd_threads _ _ Hsd2), (sd_threads _ _ Hsd1). }
  exists w3. split; [|split; [done|by etrans; [|etrans]]].
  unfold connectionDestroyed, deref_conn. rewrite assert_at_ok by done. rewrite Hc.
  cbn [mbind outcome_bind]. rewrite E. cbn [mbind outcome_bind].
  rewrite E2. cbn [mbind outcome_bind]. by rewrite <- E3, Ech.
Qed.

(** A system call that writes nothing. *)
Lemma inv_syscall run st s w w' : same_objects reactor w w' -> same_wires wire_at w w' ->
  inv run st s w -> inv run st s w' /\ steady w w'.
Proof.
  intros (Hs & Hc & Hl) Hw Hi. apply (inv_quiet w run st s w w'); [|done| |done].
  - split_and!; [done|done|]. intros l. by destruct (Hl l) as [-> ->].
  - intros l. by destruct (Hl l) as [-> _].
Qed.

Lemma inv_handleError conn c run st s w : inv run st s w -> get_conn conn w = Some c ->
  exists w', handleError conn w = Ok w' /\ inv run st s w' /\ steady w w'.
Proof.
  intros Hi Hc. unfold handleError, deref_conn. rewrite Hc. cbn [mbind outcome_bind].
  eexists. split; [done|]. unfold Socket.getSocketError.
  pose proof (server_so_error (ServerLaws := SL) (socket_ c) w) as Hs.
  pose proof (wires_so_error (ServerLaws := SL) (socket_ c) w) as Hw.
  assert (Hl := fun l => so_error_law (ConnLaws := reactor_conn l) (socket_ c) w).
  destruct (Socket.sys_getsockopt_error (socket_ c) w) as [r w']. cbn in *.
  eapply inv_syscall; [|done|done]. split_and!; [done|apply (Hl 0)|]. intros l. split; apply (Hl l).
Qed.

(** A readable event of an open connection, in its three branches. *)
Lemma inv_readable tid conn c l st s w :
  inv None st s w -> get_conn conn w = Some c -> st !! conn = Some (l, Open) ->
  thread_id_ (loop_at l w) = tid -> room (2 ^ 60) c ->
  exists w' st' s', handleReadable (LW := reactor l) (call_callback tid) tid conn w = Ok w' /\
    inv None st' s' w' /\ rtc life_step st st' /\ steady w w'.
Proof.
  intros Hi Hc Hst Ht [Hsize Hsize']. pose proof (core_conn _ _ _ (proj1 Hi) _ _ _ _ Hc Hst) as Hf.
  destruct (fine_buffers _ _ _ _ _ _ Hf) as (Hwf & Hri & _). pose proof Hwf as (? & ? & ?).
  unfold handleReadable, deref_conn. rewrite assert_at_ok by done. rewrite Hc.
  cbn [mbind outcome_bind].
  set (cap := writableBytes (receive_buffer_ c) + EXTRA_SIZE).
  assert (Hz0 : 0 <= cap) by (unfold cap, EXTRA_SIZE; rewrite writable_eq by done; lia).
  pose proof (server_read (ServerLaws := SL) (socket_ c) cap w) as Hsv.
  pose proof (wires_read (ServerLaws := SL) (socket_ c) cap w) as Hwr.
  destruct (sys_read (socket_ c) cap w) as [r w1] eqn:Er. cbn [snd] in Hsv, Hwr.
  assert (Hrd := fun x => read_law (ConnLaws := reactor_conn x) _ _ _ _ _ Hz0 Er).
  assert (Hi1 : inv None st s w1 /\ steady w w1).
  { eapply inv_syscall; [|exact Hwr|done].
    split_and!; [exact Hsv|apply (Hrd 0)|intros x; split; apply (Hrd x)]. }
  assert (Hc1 : get_conn conn w1 = Some c) by (rewrite <- Hc; apply (Hrd 0)).
  assert (Hput : forall b, wf b /\ CHEAP_PREPEND <= read_index_ b ->
    from w None st s (put_conn conn (set_receive_buffer b c) w1)).
  { intros b Hb. by apply (keep_put_conn w1 conn c), Hi1; [|apply set_receive_buffer_gentle]. }
  destruct r as [data|e].
  2: { cbn [readFd mbind outcome_bind]. cbn [Z.ltb Z.compare Z.eqb].
       destruct (Hput _ (conj Hwf Hri)) as [Hi2 Hsd2].
       destruct (inv_handleError conn (set_receive_buffer (receive_buffer_ c) c) None st s _ Hi2)
         as (w2 & E & Hi3 & Hsd3).
       { rewrite put_conn_view. by rewrite decide_True. }
       exists w2, st, s. split_and!; [done|done|done|by etrans]. }
  destruct (Hrd 0) as (Hcap & _). unfold cap in Hcap. rewrite writable_eq in Hcap by done.
  destruct (readFd_spec (receive_buffer_ c) data) as (b & E & Hb & _ & Hlb & Hb');
    [done|done|by rewrite writable_eq|unfold EXTRA_SIZE in Hcap; lia|].
  rewrite E. cbn [mbind outcome_bind]. destruct (Hput b (conj Hb (Hb' Hri))) as [Hi2 Hsd2].
  destruct (Z.ltb_spec 0 (Zlen data)) as [Hpos|Hz].
  - destruct (inv_call_user tid (TcpConnection.message_callback_ c) conn
      (set_receive_buffer b c) _ _ _ _ ltac:(apply Hf) Hi2) as (w3 & E3 & Hi3 & Hsd3).
    { rewrite put_conn_view. by rewrite decide_True. }
    { cbn [home_ set_receive_buffer]. by rewrite (fine_home _ _ _ _ _ _ Hf), (sd_threads _ _ Hsd2). }
    { split; cbn [receive_buffer_ send_buffer_ set_receive_buffer]; unfold EXTRA_SIZE in Hcap; lia. }
    exists w3, st, s. split_and!; [done|done|done|by etrans].
  - pose proof (Zlen_nonneg data). rewrite (proj2 (Z.eqb_eq _ _)) by lia.
    destruct (inv_close tid conn (set_receive_buffer b c) l st s _ Hi2)
      as (w3 & st3 & s3 & E3 & Hi3 & Hst3 & Hsd3); [|done| |].
    + rewrite put_conn_view. by rewrite decide_True.
    + by rewrite (sd_threads _ _ Hsd2).
    + exists w3, st3, s3. split_and!; [exact E3|done|done|by etrans].
Qed.

(** ** A new connection *)

(** What the kernel and the allocator give is not in use: the descriptor [fd], the
    object [conn] and its channel [cid]. *)
Record unused (s : TcpServer V) (w : W) (fd : Z) (conn : ConnId) (cid : ChanId) : Prop := {
  un_conn : get_conn conn w = None;
  un_channel : forall l, l ∈ server_loops s -> channels_at l w !! cid = None;
  un_fd : forall x c, get_conn x w = Some c -> socket_ c <> fd;
  un_listen : Acceptor.accept_socket_ (acceptor_ s) <> fd;
  un_watched : forall l, l ∈ server_loops s -> watched (F := Closure C) (poller_at l w) fd = None;
}.

Lemma touches_fresh l cid fd ch w :
  channels_at l w !! cid = None -> index_ ch = NOT_FILL ->
  touches l cid fd w
    (put_channels (LoopWorld := reactor l) (<[cid := ch]> (channels_at l w)) w).
Proof.
  intros Hch Hi. split; intros; autorewrite with world; rewrite ?decide_True by done; try done.
  - by rewrite decide_False.
  - by eapply fresh_law.
  - rewrite lookup_insert_ne by done. apply chan_upto_refl.
Qed.

(** How the server's members change. *)
Record listed_new (s s' : TcpServer V) (conn : ConnId) : Prop := {
  ln_loop : loop_ s' = loop_ s;
  ln_name : server_name_ s' = server_name_ s;
  ln_acceptor : acceptor_ s' = acceptor_ s;
  ln_next : next_conn_id_ s' = next_conn_id_ s + 1;
  ln_table : connections_ s' = <[conn_name s (next_conn_id_ s) := conn]> (connections_ s);
  ln_loops : EventLoopThreadPool.loops_ (thread_pool_ s')
    = EventLoopThreadPool.loops_ (thread_pool_ s);
  ln_base : EventLoopThreadPool.base_loop_ (thread_pool_ s')
    = EventLoopThreadPool.base_loop_ (thread_pool_ s);
  ln_ok : EventLoopThreadPool.next_ok (thread_pool_ s');
  ln_message : TcpServer.message_callback_ s' = TcpServer.message_callback_ s;
}.

Lemma conn_name_inj (s : TcpServer V) j k : 1 <= j <= INT_MAX -> 1 <= k <= INT_MAX ->
  conn_name s j = conn_name s k -> j = k.
Proof.
  intros Hj Hk H%(inj (String.append (server_name_ s))). by apply id_suffix_inj; [lia|lia|].
Qed.

Lemma listed_new_loops (s s' : TcpServer V) conn : listed_new s s' conn -> server_loops s' = server_loops s.
Proof. intros H. unfold server_loops. by rewrite (ln_loop _ _ _ H), (ln_loops _ _ _ H). Qed.

(** The names in use are those of smaller numbers. *)
Lemma name_unused st s w x c : core st s w -> get_conn x w = Some c ->
  next_conn_id_ s < INT_MAX -> name_ c <> conn_name s (next_conn_id_ s).
Proof.
  intros H Hc Hmax E. destruct (core_names _ _ _ H x c Hc) as (k & Hk & En).
  pose proof (core_next _ _ _ H). rewrite En in E. apply (conn_name_inj s) in E; lia.
Qed.

(** What is in use is apart from what is new. *)
Lemma older_apart st s w fd conn cid x y lx gx :
  core st s w -> next_conn_id_ s < INT_MAX -> unused s w fd conn cid ->
  get_conn x w = Some y -> st !! x = Some (lx, gx) ->
  x <> conn /\ name_ y <> conn_name s (next_conn_id_ s) /\ socket_ y <> fd /\ channel_ y <> cid.
Proof.
  intros Hco Hmax Hun Hy Hx. split_and!.
  - intros ->. by rewrite (un_conn _ _ _ _ _ Hun) in Hy.
  - by eapply name_unused.
  - by eapply un_fd.
  - intros E. destruct (conn_parts _ _ _ _ _ _ _ Hco Hy Hx) as (Hf & _ & ch & [Rf _ _ _ _]).
    pose proof (cf_channel _ _ _ _ _ Rf) as Hch. rewrite E in Hch.
    rewrite (un_channel _ _ _ _ _ Hun) in Hch by apply Hf. done.
Qed.

Lemma acceptor_apart s w fd conn cid :
  acceptor_fine s w -> unused s w fd conn cid ->
  Acceptor.accept_channel_ (acceptor_ s) <> cid /\ Acceptor.accept_socket_ (acceptor_ s) <> fd.
Proof.
  intros [_ _ (ch & A3 & _) _] Hun. split; [|apply Hun]. intros E.
  pose proof (cf_channel _ _ _ _ _ A3) as Hch. rewrite E in Hch.
  rewrite (un_channel _ _ _ _ _ Hun) in Hch by (by left). done.
Qed.

Lemma acceptor_add s s' w w' conn c l cid fd :
  acceptor_fine s w -> unused s w fd conn cid -> listed_new s s' conn -> touches l cid fd w w' ->
  (forall x, get_conn x w' = if decide (x = conn) then Some c else get_conn x w) ->
  socket_ c = fd -> channel_ c = cid -> acceptor_fine s' w'.
Proof.
  intros Ha Hun Hln Hto Hget Hfd Hcid. destruct (acceptor_apart _ _ _ _ _ Ha Hun) as [N1 N2].
  destruct Ha as [A1 A2 (ch & A3 & A4 & A5 & A6) A7].
  split; rewrite ?(ln_acceptor _ _ _ Hln), ?(ln_loop _ _ _ Hln); try done.
  - destruct (touches_chan_fine l cid fd w w' _ _ _ ch Hto (fun _ => conj N1 N2) A3)
      as (i & Hcf & _).
    by exists (setIndex i ch).
  - intros x y. rewrite Hget. case_decide as Hx; [|apply A7]. intros [= <-].
    split; congruence.
Qed.

Lemma table_add st s s' w w' conn c l fd cid :
  core st s w -> next_conn_id_ s < INT_MAX -> unused s w fd conn cid -> listed_new s s' conn ->
  (forall x, get_conn x w' = if decide (x = conn) then Some c else get_conn x w) ->
  name_ c = conn_name s (next_conn_id_ s) ->
  forall name x, connections_ s' !! name = Some x <->
    exists y lx gx, get_conn x w' = Some y /\ <[conn := (l, Handed)]> st !! x = Some (lx, gx) /\
      name_ y = name /\ listed gx = true.
Proof.
  intros Hco Hmax Hun Hln Hget Hname name x. pose proof (core_table _ _ _ Hco) as Ct.
  rewrite (ln_table _ _ _ Hln), Hget, (lookup_insert st), lookup_insert. rewrite <- Hname.
  destruct (decide (x = conn)) as [->|Hx]; [rewrite (decide_True (P := conn = conn)) by done
    |rewrite (decide_False (P := conn = x)) by congruence]; case_decide as Hn.
  - split; [|done]. intros _. by exists c, l, Handed.
  - rewrite Ct. split; intros (y & lx & gx & Hy & Hs & Hny & _).
    + by rewrite (un_conn _ _ _ _ _ Hun) in Hy.
    + injection Hy as <-. congruence.
  - split; [congruence|]. intros (y & lx & gx & Hy & Hs & Hny & _).
    destruct (older_apart _ _ _ _ _ _ _ _ _ _ Hco Hmax Hun Hy Hs) as (_ & ? & _). congruence.
  - apply Ct.
Qed.

Lemma core_add st s s' w w' conn c l cid fd :
  core st s w -> next_conn_id_ s < INT_MAX -> unused s w fd conn cid -> listed_new s s' conn ->
  touches l cid fd w w' -> get_server w' = Some s' ->
  (forall x, get_conn x w' = if decide (x = conn) then Some c else get_conn x w) ->
  conn_fine s' w' conn c l Handed -> name_ c = conn_name s (next_conn_id_ s) ->
  socket_ c = fd -> channel_ c = cid ->
  core (<[conn := (l, Handed)]> st) s' w'.
Proof.
  intros Hco Hmax Hun Hln Hto Hsv Hget Hfine Hname Hfd Hcid.
  pose proof (table_add st s s' w w' conn c l fd cid Hco Hmax Hun Hln Hget Hname) as Htable.
  assert (Hold : forall x y, get_conn x w = Some y -> name_ y <> name_ c /\ socket_ y <> socket_ c /\
    channel_ y <> channel_ c).
  { intros x y Hy. destruct (conn_staged _ _ _ _ _ Hco Hy) as [g Hg].
    rewrite Hname, Hfd, Hcid. apply (older_apart _ _ _ _ _ _ _ _ _ _ Hco Hmax Hun Hy Hg). }
  destruct Hco as [Cs Cp Cl Cd Cc Cdi Cn Cnx Ct Ca].
  split.
  - done.
  - rewrite (ln_base _ _ _ Hln), (ln_loop _ _ _ Hln), (ln_loops _ _ _ Hln).
    split_and!; [apply Cp|apply Hln|apply Cp].
  - rewrite (listed_new_loops _ _ _ Hln). intros x Hx. eapply touches_loop_fine; [exact Hto|by apply Cl].
  - intros x. rewrite Hget, lookup_insert.
    case_decide; [subst x; rewrite decide_True by done; by split|].
    rewrite decide_False by congruence. apply Cd.
  - intros x y lx gx. rewrite Hget, lookup_insert. case_decide as Hx.
    { subst x. rewrite decide_True by done. intros [= <-] [= <- <-]. done. }
    rewrite decide_False by congruence. intros Hy Hs. destruct (Hold x y Hy) as (_ & Hf & Hc).
    destruct (touches_conn_fine l cid fd w w' s x y lx gx Hto) as [F1 F2 F3 F4 F5 F6 F7];
      [intros _; split; congruence|by apply Cc|].
    split; try done. by rewrite (listed_new_loops _ _ _ Hln).
  - intros x x' y y'. rewrite !Hget.
    case_decide as Hx; case_decide as Hx'; intros Hy Hy' Hne.
    + congruence.
    + injection Hy as <-. destruct (Hold x' y' Hy') as (? & ? & ?). split_and!; congruence.
    + injection Hy' as <-. destruct (Hold x y Hy) as (? & ? & ?). split_and!; congruence.
    + by apply (Cdi x x').
  - intros x y. rewrite Hget, (ln_next _ _ _ Hln). unfold conn_name. rewrite (ln_name _ _ _ Hln).
    case_decide as Hx.
    + intros [= <-]. exists (next_conn_id_ s). split; [lia|exact Hname].
    + intros Hy. destruct (Cn x y Hy) as (k & Hk & En). exists k. split; [lia|exact En].
  - rewrite (ln_next _ _ _ Hln). lia.
  - exact Htable.
  - by eapply acceptor_add.
Qed.

(** The object [newConnection] makes, before its callbacks are set. *)
Definition new_object (io : LoopId) (cid : ChanId) (name : string) (fd : Z)
    (local_addr peer_addr : sockaddr_in) : TcpConnection (Callback V) :=
  mkTcpConnection io name Connecting fd cid local_addr peer_addr (make INITIALIZE_SIZE)
    (make INITIALIZE_SIZE) None None 0 None None None None.

Lemma set_callbacks_members s conn (c : TcpConnection (Callback V)) :
  user_only (TcpConnection.message_callback_ c) /\
    user_only (TcpConnection.connection_callback_ c) /\
    user_only (TcpConnection.write_complete_callback_ c) /\
    user_only (high_water_callback_ c) ->
  let c' := set_callbacks s conn c in
  home_ c' = home_ c /\ name_ c' = name_ c /\ socket_ c' = socket_ c /\ channel_ c' = channel_ c /\
  state_ c' = state_ c /\
  (receive_buffer_ c' = receive_buffer_ c /\ send_buffer_ c' = send_buffer_ c) /\
  close_callback_ c' = Some (CloseCallback conn) /\
  user_only (TcpConnection.message_callback_ c') /\
    user_only (TcpConnection.connection_callback_ c') /\
    user_only (TcpConnection.write_complete_callback_ c') /\
    user_only (high_water_callback_ c').
Proof.
  unfold set_callbacks. intros (? & ? & ? & ?).
  destruct (message_callback_ s), (connection_callback_ s), (write_complete_callback_ s),
    (high_watermark_callback_ s); by split_and!.
Qed.

(** It gets the server's message callback. *)
Lemma set_callbacks_message s conn (c : TcpConnection (Callback V)) :
  TcpConnection.message_callback_ c = None ->
  TcpConnection.message_callback_ (set_callbacks s conn c)
  = UserCallback <$> TcpServer.message_callback_ s.
Proof.
  unfold set_callbacks. intros E.
  by destruct (message_callback_ s), (connection_callback_ s), (write_complete_callback_ s),
    (high_watermark_callback_ s).
Qed.

(** The world in which the new connection is about to be established. *)
Lemma inv_added st s s' w io conn cid fd local_addr peer_addr :
  inv None st s w -> next_conn_id_ s < INT_MAX -> 0 <= fd -> unused s w fd conn cid ->
  listed_new s s' conn -> io ∈ server_loops s ->
  let c := set_callbacks s' conn
    (new_object io cid (conn_name s (next_conn_id_ s)) fd local_addr peer_addr) in
  let w' := put_server (Some s') (put_conn conn c
    (make_TcpConnection (LW := reactor io) ConnWork io conn cid (conn_name s (next_conn_id_ s)) fd
       local_addr peer_addr w)) in
  inv (Some (io, Establish conn)) (<[conn := (io, Handed)]> st) s' w' /\
  get_conn conn w' = Some c /\ steady w w'.
Proof.
  intros [Hco [Hq Htf]] Hmax Hfd Hun Hln Hio c w'.
  set (ch := setReadCallback (Client (ConnWork (T := T) (HandleReadable conn))) (make_Channel io fd)).
  destruct (set_callbacks_members s' conn
    (new_object io cid (conn_name s (next_conn_id_ s)) fd local_addr peer_addr))
    as (C1 & C2 & C3 & C4 & C5 & C6 & C7 & C8); [done|].
  pose proof (set_callbacks_message s' conn (new_object io cid (conn_name s (next_conn_id_ s)) fd
    local_addr peer_addr) eq_refl) as Hmsg.
  fold c in C1, C2, C3, C4, C5, C6, C7, C8, Hmsg. clearbody c. rewrite (ln_message _ _ _ Hln) in Hmsg.
  cbn [home_ name_ socket_ channel_ state_ receive_buffer_ new_object] in C1, C2, C3, C4, C5, C6.
  assert (Hfresh : channels_at io w !! cid = None) by (by apply Hun).
  assert (Hto : touches io cid fd w w').
  { unfold w', make_TcpConnection.
    eapply (transitivity (R := touches io cid fd));
      [by apply (touches_fresh io cid fd ch)|].
    eapply (transitivity (R := touches io cid fd)); [apply touches_put_conn|].
    eapply (transitivity (R := touches io cid fd)); [apply touches_put_conn|].
    apply touches_put_server. }
  assert (Hget : forall x, get_conn x w' = if decide (x = conn) then Some c else get_conn x w).
  { intros x. unfold w', make_TcpConnection. autorewrite with world. by case_decide. }
  assert (Hcf : chan_fine io cid fd w' ch).
  { unfold w', make_TcpConnection. split; autorewrite with world; try done.
    - rewrite decide_True by done. apply lookup_insert_eq.
    - intros x m. by rewrite (un_watched _ _ _ _ _ Hun). }
  assert (Hst : st !! conn = None).
  { apply eq_None_not_Some. intros H. apply (core_dom _ _ _ Hco) in H as [? H].
    by rewrite (un_conn _ _ _ _ _ Hun) in H. }
  split_and!; [split; [|split]|by rewrite Hget, decide_True|].
  - eapply (core_add st s s' w w' conn c io cid fd); try done.
    + unfold w'. by autorewrite with world.
    + split; try done.
      * by rewrite (listed_new_loops _ _ _ Hln).
      * destruct C6 as [C6 C6']. unfold buffers_ok. rewrite C6, C6'.
        destruct demo_refines as (? & _ & ? & _). pose proof sendable_new. by split_and!.
      * exists ch. rewrite C3, C4. by split.
  - rewrite (ln_loop _ _ _ Hln). eapply queues_perm.
    + apply (queues_move (pending w) (loop_ s) st conn None (io, Handed)); [done|exact Hq].
    + intros x. unfold w', make_TcpConnection, pending. by autorewrite with world.
  - intros x. unfold w', make_TcpConnection. by autorewrite with world.
  - assert (Hh : handler w = TcpServer.message_callback_ s)
      by (unfold handler; by rewrite (core_server _ _ _ Hco)).
    split; [intros x; by eapply touches_thread| | | |].
    + intros x. unfold w', make_TcpConnection. by autorewrite with world.
    + intros x y Hy. exists y. rewrite Hget, decide_False.
      * split_and!; try done. unfold stream, w', make_TcpConnection. by autorewrite with world.
      * intros ->. by rewrite (un_conn _ _ _ _ _ Hun) in Hy.
    + rewrite Hh. unfold handler, w'. autorewrite with world. apply Hln.
    + intros x y. rewrite Hget, Hh. case_decide; [|by intros ->].
      subst x. intros [= <-]. by rewrite (un_conn _ _ _ _ _ Hun).
Qed.

(** The buffers of a new connection are small. *)
Lemma new_room s conn io cid name fd local_addr peer_addr :
  room (2 ^ 62) (set_callbacks s conn (new_object io cid name fd local_addr peer_addr)).
Proof.
  destruct (set_callbacks_members s conn (new_object io cid name fd local_addr peer_addr))
    as (_ & _ & _ & _ & _ & [E1 E2] & _); [done|]. unfold room. by rewrite E1, E2.
Qed.

Lemma make_conn_view io conn cid name fd local_addr peer_addr w :
  get_conn conn (make_TcpConnection (LW := reactor io) ConnWork io conn cid name fd
    local_addr peer_addr w) = Some (new_object io cid name fd local_addr peer_addr).
Proof. unfold make_TcpConnection. rewrite put_conn_view. by rewrite decide_True. Qed.

(** [newConnection], which runs on the base loop. *)
Lemma inv_newConnection tid fd peer_addr st s w :
  inv None st s w -> thread_id_ (loop_at (loop_ s) w) = tid -> next_conn_id_ s < INT_MAX ->
  0 <= fd -> (let '(conn, cid) := allocate w in unused s w fd conn cid) ->
  exists w' st' s', newConnection reactor user tid fd peer_addr w = Ok w' /\
    inv None st' s' w' /\ rtc life_step st st' /\ acceptor_ s' = acceptor_ s /\
    loop_ s' = loop_ s /\ steady w w'.
Proof.
  intros Hi Ht Hmax Hfd Hun. pose proof (proj1 Hi) as Hco.
  destruct (allocate w) as [conn cid] eqn:Ea.
  destruct (core_pool _ _ _ Hco) as (Hbase & Hnext & Hlen).
  destruct (EventLoopThreadPool.getNextLoop_member _ Hnext Hlen)
    as (io & pool & Eg & Hnext' & Hls & Hb & Hmem).
  set (s' := set_connections (<[conn_name s (next_conn_id_ s) := conn]> (connections_ s))
    (set_pool pool (set_next_conn_id (next_conn_id_ s + 1) s))).
  assert (Hln : listed_new s s' conn) by (by split).
  assert (Hio : io ∈ server_loops s).
  { unfold server_loops. rewrite <- Hbase. destruct Hmem as [-> |Hm]; [by left|by right]. }
  destruct (inv_added st s s' w io conn cid fd (Socket.getLocalAddress fd w) peer_addr Hi Hmax
    Hfd Hun Hln Hio) as (Hi' & Hc' & Hsd').
  assert (Hst : st !! conn = None).
  { apply eq_None_not_Some. intros H. apply (core_dom _ _ _ Hco) in H as [? H].
    by rewrite (un_conn _ _ _ _ _ Hun) in H. }
  assert (Hlife : life_step st (<[conn := (io, Handed)]> st)) by (by apply life_accept).
  unfold newConnection, deref_server. rewrite (core_server _ _ _ Hco). cbn [mbind outcome_bind].
  unfold assert_at, assertInLoopThread, isInLoopThread. rewrite Ht, Z.eqb_refl.
  cbn [negb mbind outcome_bind]. rewrite (proj2 (Z.eqb_neq _ _)) by lia.
  cbn [thread_pool_ set_next_conn_id]. rewrite Eg. cbn [mbind outcome_bind]. rewrite Ea.
  unfold deref_conn at 1. rewrite make_conn_view. cbn [mbind outcome_bind].
  match goal with |- context [run_in_loop_at reactor tid io _ _ ?x] => set (w1 := x) end.
  assert (Hi1 : inv (Some (io, Establish conn)) (<[conn := (io, Handed)]> st) s' w1) by exact Hi'.
  assert (Hsd1 : steady w w1) by exact Hsd'.
  unfold run_in_loop_at. destruct (isInLoopThread tid (loop_at io w1)) eqn:Hin.
  - destruct (inv_establish tid conn _ io _ _ w1 Hi1 Hc') as (w2 & E2 & Hi2 & Hsd2).
    + apply lookup_insert_eq.
    + by apply in_loop_thread.
    + by apply new_room.
    + eexists w2, _, s'. split_and!; [exact E2|exact Hi2| |done|done|by etrans].
      eapply rtc_l; [exact Hlife|]. apply rtc_once, life_establish, lookup_insert_eq.
  - eexists _, _, s'. split_and!; [done| |by apply rtc_once|done|done|].
    + by apply (inv_queue_running _ _ _ (Establish conn)).
    + etrans; [exact Hsd1|apply steady_queue].
Qed.

(** ** The acceptor's channel *)
Lemma core_accept_channel st s a w w' :
  core st s w ->
  touches (loop_ s) (Acceptor.accept_channel_ (acceptor_ s)) (Acceptor.accept_socket_ (acceptor_ s))
    w w' ->
  get_server w' = Some (set_acceptor a s) -> (forall conn, get_conn conn w' = get_conn conn w) ->
  acceptor_fine (set_acceptor a s) w' -> core st (set_acceptor a s) w'.
Proof.
  intros [Cs Cp Cl Cd Cc Cdi Cn Cnx Ct Ca] Hto Hs Hc Ha'.
  split; try done; [intros l Hl|intros conn|intros conn c l g|intros conn conn' c c'
    |intros conn c|intros name conn]; rewrite ?Hc.
  - eapply touches_loop_fine; [exact Hto|by apply Cl].
  - apply Cd.
  - intros Hconn Hst. pose proof (Cc _ _ _ _ Hconn Hst) as Hf.
    destruct (af_apart _ _ Ca conn c Hconn) as [N1 N2].
    destruct (touches_conn_fine _ _ _ _ _ s conn c l g Hto) as [F1 F2 F3 F4 F5 F6 F7];
      [|done|by split].
    intros ->. split; [|done]. apply N2. apply (fine_home _ _ _ _ _ _ Hf).
  - apply Cdi.
  - apply Cn.
  - apply Ct.
Qed.

Lemma set_same_acceptor (s : TcpServer V) : set_acceptor (acceptor_ s) s = s.
Proof. by destruct s. Qed.

Lemma acceptor_fine_chan s w w' a ch :
  acceptor_fine s w -> (forall conn, get_conn conn w' = get_conn conn w) ->
  Acceptor.loop_ a = Acceptor.loop_ (acceptor_ s) ->
  Acceptor.accept_socket_ a = Acceptor.accept_socket_ (acceptor_ s) ->
  Acceptor.accept_channel_ a = Acceptor.accept_channel_ (acceptor_ s) ->
  Acceptor.new_connection_callback_ a = Acceptor.new_connection_callback_ (acceptor_ s) ->
  chan_fine (loop_ s) (Acceptor.accept_channel_ a) (Acceptor.accept_socket_ a) w' ch ->
  read_callback_ ch = Some (Client (ServerWork HandleAccept)) ->
  write_callback_ ch = None -> error_callback_ ch = None -> acceptor_fine (set_acceptor a s) w'.
Proof.
  intros [A1 A2 _ A7] Hc E1 E2 E3 E4 Hcf Hr Hw He. split; cbn [acceptor_ loop_ set_acceptor].
  - congruence.
  - congruence.
  - by exists ch.
  - intros conn c. rewrite Hc, E2, E3. apply A7.
Qed.

(** [Listen] runs on the base loop: when listen(2) succeeds, the acceptor's
    channel is registered for reading. *)
Lemma inv_listen_channel tid st s w a : inv None st s w -> thread_id_ (loop_at (loop_ s) w) = tid ->
  a = Acceptor.set_listening true (acceptor_ s) ->
  exists w', on_channels (LW := reactor (loop_ s))
      (listenTillReadable tid (Acceptor.accept_channel_ a)) w = Ok w' /\
    inv None st (set_acceptor a s) (put_server (Some (set_acceptor a s)) w') /\
    (forall l, loop_fine l w -> loop_fine l (put_server (Some (set_acceptor a s)) w')) /\
    steady w (put_server (Some (set_acceptor a s)) w').
Proof.
  intros [Hco Hq] Ht ->.
  pose proof (core_acceptor _ _ _ Hco) as Ha. pose proof Ha as [_ _ (ch & Hcf & A4 & A5 & A6) _].
  destruct (change_events_touches listenTillReadable_events tid (loop_ s)
    (Acceptor.accept_channel_ (acceptor_ s)) (Acceptor.accept_socket_ (acceptor_ s)) w ch)
    as (w' & i & E & Hto & Hcf' & _ & Hsr); try done.
  { apply (core_loops _ _ _ Hco). by left. }
  { by apply (mask_readable (events_ ch)), Hcf. }
  exists w'. split; [exact E|]. set (a := Acceptor.set_listening true (acceptor_ s)).
  pose proof (proj1 (proj2 Hsr)) as Hconns.
  assert (Hfine : acceptor_fine (set_acceptor a s) w') by (by eapply (acceptor_fine_chan s w)).
  assert (Hto' := transitivity Hto (touches_put_server _ _ _ (Some (set_acceptor a s)) w')).
  split; [split|split; [intros l; by eapply touches_loop_fine|]].
  - eapply (core_accept_channel st s a w); [done| | | |].
    + exact Hto'.
    + by autorewrite with world.
    + intros conn. autorewrite with world. apply Hsr.
    + by apply (acceptor_fine_server (set_acceptor a s)).
  - eapply same_tasks_queues; [|exact Hq]. intros l. autorewrite with world. apply Hsr.
  - etrans; [exact (steady_rest _ _ _ w w' Hto Hsr)|]. apply (steady_put_server s (set_acceptor a s) w'); [|done].
    rewrite <- (core_server _ _ _ Hco). apply Hsr.
Qed.

Lemma run_listen tid st s w : core st s w -> thread_id_ (loop_at (loop_ s) w) = tid ->
  let a := Acceptor.set_listening true (acceptor_ s) in
  run_server_task reactor user tid Listen w
  = let! w := Socket.listen (Acceptor.accept_socket_ (acceptor_ s)) w in
    let! w := on_channels (LW := reactor (loop_ s))
                (listenTillReadable tid (Acceptor.accept_channel_ a)) w in
    Ok (put_server (Some (set_acceptor a s)) w).
Proof.
  intros Hco Ht a. pose proof (af_loop _ _ (core_acceptor _ _ _ Hco)) as El.
  unfold run_server_task, deref_server. rewrite (core_server _ _ _ Hco).
  cbn [mbind outcome_bind]. unfold Acceptor.listen, assertInLoopThread, isInLoopThread.
  rewrite El. change (get_loop (LoopWorld := reactor (loop_ s)) w) with (loop_at (loop_ s) w).
  rewrite Ht, Z.eqb_refl. cbn [negb mbind outcome_bind].
  cbn [Acceptor.accept_socket_ Acceptor.set_listening].
  destruct (Socket.listen _ w) as [w1| |]; cbn [mbind outcome_bind]; try done.
  by destruct (on_channels _ w1) as [w2| |].
Qed.

Lemma inv_listen tid st s w : inv None st s w -> thread_id_ (loop_at (loop_ s) w) = tid ->
  (Socket.sys_listen (Acceptor.accept_socket_ (acceptor_ s)) Socket.SOMAXCONN w).1 = None ->
  exists w' a, run_server_task reactor user tid Listen w = Ok w' /\
    inv None st (set_acceptor a s) w' /\ (forall l, loop_fine l w -> loop_fine l w') /\
    steady w w'.
Proof.
  intros Hi Ht Hok. rewrite (run_listen tid st s) by (done || apply Hi). unfold Socket.listen.
  pose proof (quiet_listen (reactor := reactor) (Acceptor.accept_socket_ (acceptor_ s))
    Socket.SOMAXCONN w) as Hsame.
  pose proof (wires_listen (ServerLaws := SL) (Acceptor.accept_socket_ (acceptor_ s))
    Socket.SOMAXCONN w) as Hwl.
  destruct (Socket.sys_listen _ _ w) as [r w1] eqn:Es. cbn in *. subst r.
  destruct (inv_syscall None st s w w1 Hsame Hwl Hi) as [Hi1 Hsd1].
  destruct (inv_listen_channel tid st s w1 (Acceptor.set_listening true (acceptor_ s)) Hi1)
    as (w' & E & Hi' & Hl & Hsd'); [|done|].
  { by rewrite (sd_threads _ _ Hsd1). }
  eexists _, _. split_and!; [|exact Hi'| |by etrans].
  - cbn in E |- *. by rewrite E.
  - intros l [F1 F2]. apply Hl. destruct (proj2 (proj2 Hsame) l) as [E1 E2].
    by split; rewrite ?E1, ?E2.
Qed.

(** A listen(2) that fails stops the program. *)
Lemma listen_fails tid st s w e : inv None st s w -> thread_id_ (loop_at (loop_ s) w) = tid ->
  (Socket.sys_listen (Acceptor.accept_socket_ (acceptor_ s)) Socket.SOMAXCONN w).1 = Some e ->
  run_server_task reactor user tid Listen w = Abort.
Proof.
  intros Hi Ht Hok. rewrite (run_listen tid st s) by (done || apply Hi). unfold Socket.listen.
  destruct (Socket.sys_listen _ _ w) as [r w1]. cbn in *. by subst r.
Qed.

(** ** The events of the channels *)

(** The poller's report is stored in a channel of a connection. *)
Lemma inv_report_conn conn c l g re st s w ch :
  inv None st s w -> get_conn conn w = Some c -> st !! conn = Some (l, g) ->
  channels_at l w !! channel_ c = Some ch ->
  inv None st s (put_channels (LoopWorld := reactor l)
    (<[channel_ c := setReturnEvents re ch]> (channels_at l w)) w).
Proof.
  intros [Hco Hq] Hc Hst Hch.
  destruct (conn_parts _ _ _ _ _ _ _ Hco Hc Hst) as (Hf & Hl & ch' & [Rf Rr Ro Rg Rw]).
  assert (ch' = ch) as -> by (pose proof (cf_channel _ _ _ _ _ Rf); congruence).
  split.
  - eapply (core_stay st s w _ conn c c); try done.
    + by eapply touches_member.
    + by autorewrite with world.
    + intros x. autorewrite with world. by case_decide; [subst x|].
    + by split; try done; left.
    + intros [? ? ? ? ? ? _]. split; try done. exists (setReturnEvents re ch).
      destruct Rf as [R1 R2 R3 R4 R5 R6]. split; try done; autorewrite with world; try done.
      split; autorewrite with world; try done. rewrite decide_True by done. apply lookup_insert_eq.
  - eapply same_tasks_queues; [|exact Hq]. intros x. by autorewrite with world.
Qed.

(** The same for the acceptor's channel. *)
Lemma inv_report_acceptor re st s w ch :
  inv None st s w ->
  let cid := Acceptor.accept_channel_ (acceptor_ s) in
  channels_at (loop_ s) w !! cid = Some ch ->
  inv None st s (put_channels (LoopWorld := reactor (loop_ s))
    (<[cid := setReturnEvents re ch]> (channels_at (loop_ s) w)) w).
Proof.
  intros [Hco Hq] cid Hch. pose proof (core_acceptor _ _ _ Hco) as Ha.
  pose proof Ha as [_ _ (ch' & Hcf & A4 & A5 & A6) _].
  assert (ch' = ch) as -> by (pose proof (cf_channel _ _ _ _ _ Hcf); unfold cid in Hch; congruence).
  split.
  - match goal with |- core _ _ ?x => set (w' := x) end.
    assert (H : core st (set_acceptor (acceptor_ s) s) w'); [|by rewrite set_same_acceptor in H].
    apply (core_accept_channel st s (acceptor_ s) w w'); [done| | | |].
    + by eapply touches_member.
    + rewrite set_same_acceptor. unfold w'. autorewrite with world. apply Hco.
    + intros conn. unfold w'. by autorewrite with world.
    + eapply (acceptor_fine_chan s w _ _ (setReturnEvents re ch)); try done; unfold w'.
      * intros conn. by autorewrite with world.
      * destruct Hcf as [R1 R2 R3 R4 R5 R6]. split; autorewrite with world; try done.
        rewrite decide_True by done. apply lookup_insert_eq.
  - eapply same_tasks_queues; [|exact Hq]. intros x. by autorewrite with world.
Qed.

Lemma steady_put_channels l st w : steady w (put_channels (LoopWorld := reactor l) st w).
Proof.
  apply steady_same; [intros x|intros x|intros x|intros fd|apply same_handler]; by autorewrite with world.
Qed.

(** A channel that only reads: its callback is called for the read bits. *)
Definition read_bits : Z := Z.lor (Z.lor POLLIN POLLPRI) POLLRDHUP.

Lemma handleEvent_reads (this : W -> option (Channel (Closure C))) go w ch :
  this w = Some ch -> error_callback_ ch = None ->
  (has (return_events_ ch) read_bits = false -> write_callback_ ch = None ->
     handleEvent this go w = Ok w) /\
  (forall f w' ch', has (return_events_ ch) read_bits = true -> read_callback_ ch = Some f ->
     go f w = Ok w' -> this w' = Some ch' -> write_callback_ ch' = None ->
     handleEvent this go w = Ok w').
Proof.
  intros Hch He.
  assert (Hquiet : forall bits cb x cx, this x = Some cx -> cb cx = None ->
    on_events this go bits cb x = Ok x).
  { intros bits cb x cx Hx Hcb. unfold on_events, Channel.deref. rewrite Hx.
    cbn [mbind outcome_bind]. destruct (has _ _); [|done]. by rewrite Hcb. }
  unfold handleEvent. rewrite (Hquiet _ _ w ch) by done. cbn [mbind outcome_bind].
  split.
  - intros Hno Hw.
    assert (E : on_events this go read_bits read_callback_ w = Ok w).
    { unfold on_events, Channel.deref. rewrite Hch. cbn [mbind outcome_bind]. by rewrite Hno. }
    fold read_bits. rewrite E. cbn [mbind outcome_bind]. by apply (Hquiet _ _ w ch).
  - intros f w' ch' Hyes Hf Hgo Hch' Hw.
    assert (E : on_events this go read_bits read_callback_ w = Ok w').
    { unfold on_events, Channel.deref. rewrite Hch. cbn [mbind outcome_bind]. by rewrite Hyes, Hf. }
    fold read_bits. rewrite E. cbn [mbind outcome_bind]. by apply (Hquiet _ _ w' ch').
Qed.
End ServerSteps.
