(* ===== verification/ServerLife.v ===== *)
(** * ServerLife: the life of a server's connections, over all loops

    The composition of net/TcpServer.cpp, net/TcpConnection.cpp,
    net/EventLoop.cpp and net/Acceptor.cpp against the specification of
    LifeSpec.v: the system takes one closure at a time in any of its loops, in
    any interleaving of the loops ([act]).  The loops' threads share only the
    task queues, which LoopThreads.v shows to be FIFO; so a closure is one
    step. *)
From Stdlib Require Import ZArith Lia List String.
From stdpp Require Import base option list numbers gmap relations strings pretty tactics.
From S2P Require Import Prelude.
From S2P Require Import Buffer.
From S2P Require Import Channel.
From S2P Require Import PollerBase.
From S2P Require Import EventLoop.
From S2P Require Import InetAddress.
From S2P Require Socket.
From S2P Require Import TcpConnection.
From S2P Require EventLoopThreadPool.
From S2P Require Acceptor.
From S2P Require Import TcpServer.
From S2P Require Import LifeSpec.
From S2P Require Import ServerWorld.
From S2P Require Import ServerInv.
From S2P Require Import ServerSteps.
From S2P Require Poller.
Open Scope Z_scope.
Open Scope outcome_scope.

Section ServerLife.
Context `{EFD : EventFd} {W P T V : Type}.
Abbreviation C := (Work T).
Context `{PB : !PollerBase P (Closure C)} {PL : PollerLaws P (Closure C)}.
Context {reactor : LoopId -> LoopWorld W P C}.
Context `{CW : !ConnWorld W (Callback V)} `{SK : !SocketKernel W}.
Context `{SC : !Socket.SocketCalls W} `{SW : !ServerWorld W V}.
Context {SL : ServerLaws reactor}.
Context {user : Z -> V -> ConnId -> W -> outcome W}.
Context {user_task : Z -> T -> W -> outcome W}.
Context `{SD : !SendDiscipline}.
Context {UL : UserLaws (reactor := reactor) (user := user) (user_task := user_task)}.

Abbreviation loop_at := (loop_at reactor).
Abbreviation channels_at := (channels_at reactor).
Abbreviation queue_at := (queue_at reactor).
Abbreviation poller_at l w := (poller_ (loop_at l w)).
Abbreviation client := (client reactor user user_task).
Abbreviation call_callback := (call_callback reactor user).
Abbreviation pending := (pending (reactor := reactor)).
Abbreviation wire_at := (wire_at (reactor := reactor)).
Abbreviation touches := (touches (reactor := reactor)).
Abbreviation same_rest := (same_rest (reactor := reactor)).
Abbreviation chan_fine := (chan_fine (reactor := reactor)).
Abbreviation loop_fine := (loop_fine (reactor := reactor)).
Abbreviation reader := (reader (reactor := reactor)).
Abbreviation conn_fine := (conn_fine (reactor := reactor)).
Abbreviation acceptor_fine := (acceptor_fine (reactor := reactor)).
Abbreviation core := (core (reactor := reactor)).
Abbreviation inv := (inv (reactor := reactor)).
Abbreviation quiet := (quiet (reactor := reactor)).
Abbreviation stream := (stream (reactor := reactor)).
Abbreviation steady := (steady (reactor := reactor)).
Abbreviation from := (from (reactor := reactor)).
Abbreviation keep := (keep (reactor := reactor)).
Abbreviation at_conn := (at_conn (reactor := reactor)).
Abbreviation only_conn := (only_conn (reactor := reactor)).
Abbreviation unused := (unused (reactor := reactor)).
Abbreviation public_call := (public_call (reactor := reactor) (user := user)).
Abbreviation public_calls := (public_calls (reactor := reactor) (user := user)).

#[local] Hint Rewrite loop_at_put_loop loop_at_put_channels channels_at_put_loop channels_at_put_channels
  loop_at_put_conn channels_at_put_conn conn_at_put_loop conn_at_put_channels conn_at_put_conn
  loop_at_put_server channels_at_put_server conn_at_put_server server_at_put_server
  server_at_put_loop server_at_put_channels server_at_put_conn
  wire_at_put_loop wire_at_put_channels wire_at_put_conn wire_at_put_server : world.

(** ** The steps of the system *)
Inductive action : Type :=
| RunTask (l : LoopId)                           (** the oldest closure in a queue *)
| Ready (l : LoopId) (cid : ChanId) (return_events : Z)   (** a channel the poller reports *)
| Foreign (tid : Z) (t : T)                      (** a user's task on any thread *)
| Release (conn : ConnId).                       (** the last [shared_ptr] goes *)

Definition pop (l : LoopId) (rest : list C) (w : W) : W := on_loop_at reactor l (set_tasks rest) w.

Definition reported (l : LoopId) (cid : ChanId) (re : Z) (ch : Channel (Closure C)) (w : W) : W :=
  put_channels (LoopWorld := reactor l) (<[cid := setReturnEvents re ch]> (channels_at l w)) w.

Definition act (a : action) (w : W) : outcome W :=
  match a with
  | RunTask l =>
      match task_queue_ (loop_at l w) with
      | [] => Ok w
      | c :: rest => client (thread_id_ (loop_at l w)) c (pop l rest w)
      end
  | Ready l cid re =>
      let! ch := deref_channel cid (channels_at l w) in
      handleEvent (fun w => channels_at l w !! cid)
        (run (LW := reactor l) (client (thread_id_ (loop_at l w)))) (reported l cid re ch w)
  | Foreign tid t => user_task tid t w
  | Release conn =>
      let! c := deref_conn conn w in destroy_TcpConnection (LW := reactor (home_ c)) conn w
  end.

(** What accept(2) and the allocator give is unused. *)
Definition accept_fresh (s : TcpServer V) (w : W) : Prop :=
  let '(fd, _, w) := Socket.sys_accept4 (Acceptor.accept_socket_ (acceptor_ s)) w in
  0 <= fd -> let '(conn, cid) := allocate w in unused s w fd conn cid.

(** A poller reports the read bits of a channel that reads. *)
Definition report_ok (re : Z) (ch : Channel (Closure C)) : Prop :=
  has re read_bits = true -> has (events_ ch) kReadEvent = true.

Inductive enabled (w : W) : action -> Prop :=
| enabled_task l c rest :
    task_queue_ (loop_at l w) = c :: rest -> roomy (2 ^ 60) w -> enabled w (RunTask l)
| enabled_conn conn c ch re :
    get_conn conn w = Some c -> channels_at (home_ c) w !! channel_ c = Some ch ->
    report_ok re ch -> roomy (2 ^ 60) w ->
    enabled w (Ready (home_ c) (channel_ c) re)
| enabled_accept s ch re :
    get_server w = Some s ->
    channels_at (loop_ s) w !! Acceptor.accept_channel_ (acceptor_ s) = Some ch ->
    report_ok re ch -> next_conn_id_ s < INT_MAX ->
    accept_fresh s (reported (loop_ s) (Acceptor.accept_channel_ (acceptor_ s)) re ch w) ->
    enabled w (Ready (loop_ s) (Acceptor.accept_channel_ (acceptor_ s)) re)
| enabled_foreign tid t : enabled w (Foreign tid t)
| enabled_release conn c :
    get_conn conn w = Some c -> ~ owner reactor conn w -> enabled w (Release conn).

(** The steps that are the library's own: not the user's tasks, nor the closures
    of the user's calls; and a [Listen] whose listen(2) succeeds. *)
Inductive own (w : W) : action -> Prop :=
| own_life l c rest t :
    task_queue_ (loop_at l w) = c :: rest -> life_of c = Some t -> own w (RunTask l)
| own_listen s rest :
    get_server w = Some s -> task_queue_ (loop_at (loop_ s) w) = ServerWork Listen :: rest ->
    (Socket.sys_listen (Acceptor.accept_socket_ (acceptor_ s)) Socket.SOMAXCONN
       (pop (loop_ s) rest w)).1 = None -> own w (RunTask (loop_ s))
| own_ready l cid re : own w (Ready l cid re)
| own_release conn : own w (Release conn).

(** ** Every step keeps the invariant *)
Lemma pop_queueable l c rest w :
  (forall x, Forall (fun k => queueable k = true) (task_queue_ (loop_at x w))) ->
  task_queue_ (loop_at l w) = c :: rest ->
  forall x, Forall (fun k => queueable k = true) (task_queue_ (loop_at x (pop l rest w))).
Proof.
  intros Hall Hq x. unfold pop, on_loop_at, on_loop. autorewrite with world.
  case_decide as E; [subst x; cbn|apply Hall].
  specialize (Hall l). rewrite Hq in Hall. by apply list.Forall_cons in Hall as [_ ?].
Qed.

Lemma inv_pop l c rest st s w :
  inv None st s w -> task_queue_ (loop_at l w) = c :: rest ->
  inv (match life_of c with Some t => Some (l, t) | None => None end) st s (pop l rest w).
Proof.
  intros [Hco [Hq Hall]] Htq. split; [eapply core_quiet; [exact Hco|apply quiet_pop]|].
  split; [|by eapply pop_queueable]. eapply queues_perm; [exact Hq|]. intros x.
  unfold pop. rewrite pending_pop. unfold pending at 2. cbn [running_at app].
  destruct (life_of c) as [t|] eqn:E; cbn [running_at app].
  - case_decide as Hx; case_decide as Hx'; try congruence; [|done].
    subst x. rewrite Htq. cbn. by rewrite E.
  - case_decide as Hx; [|done]. subst x. rewrite Htq. cbn. by rewrite E.
Qed.

Lemma pop_thread l rest w x : thread_id_ (loop_at x (pop l rest w)) = thread_id_ (loop_at x w).
Proof. apply (quiet_pop l rest w). Qed.

Lemma pop_conn l rest w conn : get_conn conn (pop l rest w) = get_conn conn w.
Proof. apply (quiet_pop l rest w). Qed.

(** The closures of the five stages. *)
Lemma inv_run_life l c rest t st s w :
  inv None st s w -> task_queue_ (loop_at l w) = c :: rest -> life_of c = Some t ->
  roomy (2 ^ 60) w ->
  exists w' st' s', client (thread_id_ (loop_at l w)) c (pop l rest w) = Ok w' /\
    inv None st' s' w' /\ rtc life_step st st' /\ steady (pop l rest w) w' /\
    (rank_of st (life_conn t) < rank_of st' (life_conn t))%nat.
Proof.
  intros Hi Htq Hlf Hroom. pose proof (inv_pop _ _ _ _ _ _ Hi Htq) as Hp. rewrite Hlf in Hp.
  destruct (proj1 (q_slot _ _ _ _ (proj1 (proj2 Hp)) l t)) as ([lc g] & Hst & Hsl).
  { cbn. rewrite decide_True by done. by left. }
  destruct (proj2 (core_dom _ _ _ (proj1 Hp) (life_conn t))) as [cn Hc]; [by eexists|].
  pose proof (fine_home _ _ _ _ _ _ (core_conn _ _ _ (proj1 Hp) _ _ _ _ Hc Hst)) as Hh.
  set (tid := thread_id_ (loop_at l w)).
  assert (Ht : thread_id_ (loop_at l (pop l rest w)) = tid) by apply pop_thread.
  assert (Hr : room (2 ^ 62) cn) by (eapply room_weaken; [eapply Hroom; by rewrite <- (pop_conn l rest)|done]).
  unfold TcpServer.client. destruct c as [[]|[]|]; try done; injection Hlf as <-;
    cbn [life_conn task_conn run_conn_task run_server_task] in *.
  - destruct g; try done. injection Hsl as ->. unfold deref_conn. rewrite Hc.
    cbn [mbind outcome_bind]. rewrite Hh.
    destruct (inv_establish (user := user) tid conn cn l st s _ Hp Hc Hst Ht Hr) as (w' & E & Hi' & Hsd).
    exists w', (<[conn := (l, Open)]> st), s. split_and!; [done|done| |done|].
    + by apply rtc_once, life_establish.
    + rewrite rank_of_insert, (rank_of_lookup _ _ _ _ Hst). cbn. lia.
  - destruct g; try done. injection Hsl as ->. unfold deref_conn. rewrite Hc.
    cbn [mbind outcome_bind]. rewrite Hh.
    destruct (inv_destroy (user := user) tid conn cn l st s _ Hp Hc Hst Ht Hr) as (w' & E & Hi' & Hsd).
    exists w', (<[conn := (l, Dead)]> st), s. split_and!; [done|done| |done|].
    + by apply rtc_once, life_destroy.
    + rewrite rank_of_insert, (rank_of_lookup _ _ _ _ Hst). cbn. lia.
  - destruct g; try done. injection Hsl as <-.
    destruct (inv_remove tid conn cn lc st s _ Hp Hc Hst Ht) as (w' & E & Hi' & Hsd).
    eexists w', _, _. split_and!; [done|done| |done|].
    + by eapply rtc_once, life_remove.
    + rewrite rank_of_insert, (rank_of_lookup _ _ _ _ Hst). cbn. lia.
Qed.

Lemma from_refl run st s w : inv run st s w -> from w run st s w.
Proof. done. Qed.

Lemma in_loop_conn tid conn c st s w x :
  assert_loop (LW := reactor (home_ c)) tid w = Ok x -> inv None st s w ->
  get_conn conn w = Some c -> at_conn conn c tid w None st s w.
Proof.
  intros E Hi Hc. split_and!; [by apply from_refl|done|].
  unfold assert_loop, assertInLoopThread in E.
  destruct (isInLoopThread _ _) eqn:Hin; [by apply in_loop_thread|done].
Qed.

(** The closures of the public calls. *)
Lemma inv_conn_task tid t st s w w' :
  inv None st s w -> benign (ConnWork (T := T) t) = true ->
  client tid (ConnWork t) w = Ok w' -> inv None st s w' /\ steady w w'.
Proof.
  intros Hi Hb E. unfold TcpServer.client, deref_conn in E.
  destruct (get_conn (task_conn t) w) as [c|] eqn:Hc; [|done]. cbn [mbind outcome_bind] in E.
  assert (Hco := core_conn _ _ _ (proj1 Hi)).
  assert (Hu : user_only (TcpConnection.write_complete_callback_ c) /\
    user_only (high_water_callback_ c)).
  { destruct (conn_staged _ _ _ _ _ (proj1 Hi) Hc) as [g Hst]. split; apply (Hco _ _ _ _ Hc Hst). }
  assert (Hcall : forall cb, user_only (Some cb) -> call_callback tid cb (task_conn t) w = Ok w' ->
    inv None st s w' /\ steady w w').
  { intros [f|] Hcb E'; [|done]. by eapply inv_user. }
  destruct t; try done; cbn [task_conn run_conn_task] in *.
  - assert (E' := E). unfold sendInLoop in E'. inv_ok.
    eapply inv_sendInLoop; [by eapply in_loop_conn|exact E].
  - unfold send_raw in E. destruct (load_bytes _ _ _); [|done].
    assert (E' := E). unfold sendInLoop in E'. inv_ok.
    eapply inv_sendInLoop; [by eapply in_loop_conn|exact E].
  - inv_ok. destruct a as [b w1]. injection E as <-.
    assert (E' := Ha). unfold sendBufferInLoop in E'. inv_ok.
    eapply inv_sendBufferInLoop; [by eapply in_loop_conn| | |exact Ha].
    + apply benign_spec, proj2, andb_true_iff, proj1 in Hb. by apply bool_decide_eq_true in Hb.
    + by apply benign_spec, proj2, andb_true_iff, proj2 in Hb.
  - assert (E' := E). unfold shutdownInLoop in E'. inv_ok.
    eapply inv_shutdownInLoop; [by eapply in_loop_conn|exact E].
  - unfold deref_conn in E. rewrite Hc in E. cbn [mbind outcome_bind] in E.
    destruct (TcpConnection.write_complete_callback_ c); [|done]. by eapply Hcall; [apply Hu|].
  - unfold deref_conn in E. rewrite Hc in E. cbn [mbind outcome_bind] in E.
    destruct (high_water_callback_ c); [|done]. by eapply Hcall; [apply Hu|].
Qed.

Lemma inv_user_task tid t st s w w' : inv None st s w -> user_task tid t w = Ok w' ->
  inv None st s w' /\ steady w w'.
Proof.
  intros Hi E. by apply (public_calls_keep tid w w' (user_task_calls _ _ _ _ _ _ _ Hi E) w).
Qed.

(** [Listen], wherever it runs: the acceptor asserts its loop. *)
Lemma inv_run_listen tid st s w w' : inv None st s w ->
  run_server_task reactor user tid Listen w = Ok w' ->
  exists s', inv None st s' w' /\ steady w w'.
Proof.
  intros Hi E. assert (Ht : thread_id_ (loop_at (loop_ s) w) = tid).
  { unfold run_server_task, deref_server in E. rewrite (core_server _ _ _ (proj1 Hi)) in E.
    cbn [mbind outcome_bind] in E. unfold Acceptor.listen in E.
    rewrite (af_loop _ _ (core_acceptor _ _ _ (proj1 Hi))) in E.
    unfold assertInLoopThread in E. destruct (isInLoopThread _ _) eqn:Hin; [|done].
    by apply in_loop_thread. }
  destruct (Socket.sys_listen (Acceptor.accept_socket_ (acceptor_ s)) Socket.SOMAXCONN w).1
    as [e|] eqn:El.
  - rewrite (listen_fails tid st s w e) in E by done. done.
  - destruct (inv_listen (user := user) tid st s w Hi Ht El) as (w2 & a & E2 & Hi2 & _ & Hsd).
    rewrite E in E2. injection E2 as <-. by eexists.
Qed.

Lemma inv_run_other l c rest st s w w' :
  inv None st s w -> task_queue_ (loop_at l w) = c :: rest -> life_of c = None ->
  client (thread_id_ (loop_at l w)) c (pop l rest w) = Ok w' ->
  exists s', inv None st s' w' /\ steady (pop l rest w) w'.
Proof.
  intros Hi Htq Hlf E. pose proof (inv_pop _ _ _ _ _ _ Hi Htq) as Hp. rewrite Hlf in Hp.
  assert (Hqb : queueable c = true).
  { destruct Hi as (_ & _ & Hall). specialize (Hall l). rewrite Htq in Hall.
    by apply list.Forall_cons in Hall as [? _]. }
  destruct c as [t|[]|t]; try done.
  - exists s. eapply inv_conn_task; [exact Hp| |exact E].
    unfold benign. by rewrite Hqb, Hlf.
  - by eapply inv_run_listen.
  - exists s. by eapply inv_user_task.
Qed.

(** The acceptor's read callback. *)
Lemma inv_accept tid st s w : inv None st s w -> thread_id_ (loop_at (loop_ s) w) = tid ->
  next_conn_id_ s < INT_MAX -> accept_fresh s w ->
  exists w' st' s', client tid (ServerWork HandleAccept) w = Ok w' /\ inv None st' s' w' /\
    rtc life_step st st' /\ acceptor_ s' = acceptor_ s /\ loop_ s' = loop_ s /\ steady w w'.
Proof.
  intros Hi Ht Hmax Hfr. pose proof (core_acceptor _ _ _ (proj1 Hi)) as [El Ecb _ _].
  unfold TcpServer.client, run_server_task, deref_server. rewrite (core_server _ _ _ (proj1 Hi)).
  cbn [mbind outcome_bind]. unfold Acceptor.handleRead, assertInLoopThread, isInLoopThread.
  rewrite El. change (get_loop (LoopWorld := reactor (loop_ s)) w) with (loop_at (loop_ s) w).
  rewrite Ht, Z.eqb_refl. cbn [negb mbind outcome_bind]. unfold Socket.accept_fd.
  pose proof (quiet_accept (reactor := reactor) (Acceptor.accept_socket_ (acceptor_ s)) w) as Hsame.
  pose proof (wires_accept (ServerLaws := SL) (Acceptor.accept_socket_ (acceptor_ s)) w) as Hwa.
  unfold accept_fresh in Hfr.
  destruct (Socket.sys_accept4 _ w) as [[fd peer] w1] eqn:Ea. cbn in Hsame, Hwa.
  destruct (inv_syscall None st s w w1 Hsame Hwa Hi) as [Hi1 Hsd1].
  destruct (Z.leb_spec 0 fd) as [Hfd|Hfd].
  - assert (Hv : Socket.valid fd = true) by (unfold Socket.valid, Socket.INVALID_FD; destruct (Z.eqb_spec fd (-1)); [lia|done]).
    rewrite Hv, Ecb. destruct (inv_newConnection (user := user) tid fd peer st s w1)
      as (w2 & st2 & s2 & E2 & Hi2 & Hst2 & Ea2 & El2 & Hsd2); try done; [|by apply Hfr|].
    + by rewrite (sd_threads _ _ Hsd1).
    + exists w2, st2, s2. split_and!; try done. by etrans.
  - assert (Hv : Socket.valid Socket.INVALID_FD = false) by done. rewrite Hv.
    exists w1, st, s. by split_and!.
Qed.

(** ** The channels' steps *)
Lemma reported_view l cid re ch w : let w' := reported l cid re ch w in
  channels_at l w' !! cid = Some (setReturnEvents re ch) /\
  (forall x, get_conn x w' = get_conn x w) /\
  (forall x, thread_id_ (loop_at x w') = thread_id_ (loop_at x w)) /\ steady w w'.
Proof.
  unfold reported. split_and!; intros; autorewrite with world; try done.
  - rewrite decide_True by done. apply lookup_insert_eq.
  - apply steady_put_channels.
Qed.

Lemma inv_ready_conn conn c ch re st s w :
  inv None st s w -> get_conn conn w = Some c ->
  channels_at (home_ c) w !! channel_ c = Some ch -> report_ok re ch -> room (2 ^ 60) c ->
  exists w' st' s', act (Ready (home_ c) (channel_ c) re) w = Ok w' /\ inv None st' s' w' /\
    rtc life_step st st' /\ steady w w'.
Proof.
  intros Hi Hc Hch Hre Hsize. destruct (conn_staged _ _ _ _ _ (proj1 Hi) Hc) as [g Hst].
  destruct (conn_parts _ _ _ _ _ _ _ (proj1 Hi) Hc Hst) as (Hf & Hl & ch' & [Rf Rr [Rw Re] Rg _]).
  assert (ch' = ch) as -> by (pose proof (cf_channel _ _ _ _ _ Rf); congruence).
  cbn [act]. unfold deref_channel. rewrite Hch. cbn [mbind outcome_bind].
  pose proof (inv_report_conn conn c _ _ re _ _ _ ch Hi Hc Hst Hch) as Hi0.
  fold (reported (home_ c) (channel_ c) re ch w) in Hi0.
  destruct (reported_view (home_ c) (channel_ c) re ch w) as (V1 & V2 & V3 & V4).
  set (w0 := reported (home_ c) (channel_ c) re ch w) in *. clearbody w0.
  set (tid := thread_id_ (loop_at (home_ c) w)) in *.
  destruct (handleEvent_reads (fun w => channels_at (home_ c) w !! channel_ c)
    (run (LW := reactor (home_ c)) (client tid)) w0 _ V1 Re) as [Hno Hyes].
  destruct (has re read_bits) eqn:Ebits.
  2: { exists w0, st, s. split_and!; [by apply Hno|done|done|done]. }
  pose proof (Rg (Hre Ebits)) as ->.
  assert (Hc0 : get_conn conn w0 = Some c) by (by rewrite V2).
  destruct (inv_readable (user := user) tid conn c _ _ _ _ Hi0 Hc0 Hst (V3 _) Hsize)
    as (w1 & st1 & s1 & E & Hi1 & Hs1 & Hsd1).
  exists w1, st1, s1. split_and!; [|done|done|by etrans].
  destruct (sd_conns _ _ Hsd1 _ _ Hc0) as (c1 & Hc1 & Hch1 & _).
  assert (exists ch1, channels_at (home_ c) w1 !! channel_ c = Some ch1 /\ write_callback_ ch1 = None)
    as (ch1 & Hlk & Hw1).
  { destruct (conn_staged _ _ _ _ _ (proj1 Hi1) Hc1) as [g1 Hst1].
    destruct (life_home _ _ _ _ _ Hs1 Hst) as [g2 Hg2]. rewrite Hst1 in Hg2. injection Hg2 as Eh _.
    destruct (conn_parts _ _ _ _ _ _ _ (proj1 Hi1) Hc1 Hst1) as (_ & _ & ch1 & [Sf _ [Sw _] _ _]).
    exists ch1. split; [|done]. rewrite <- Eh, <- Hch1. apply Sf. }
  eapply Hyes; [done|exact Rr| |exact Hlk|exact Hw1].
  cbn [run]. unfold TcpServer.client, deref_conn. cbn [task_conn]. rewrite Hc0. exact E.
Qed.

Lemma inv_ready_accept ch re st s w :
  inv None st s w -> let cid := Acceptor.accept_channel_ (acceptor_ s) in
  channels_at (loop_ s) w !! cid = Some ch -> next_conn_id_ s < INT_MAX ->
  accept_fresh s (reported (loop_ s) cid re ch w) ->
  exists w' st' s', act (Ready (loop_ s) cid re) w = Ok w' /\ inv None st' s' w' /\
    rtc life_step st st' /\ steady w w'.
Proof.
  intros Hi cid Hch Hmax Hfr. pose proof (core_acceptor _ _ _ (proj1 Hi)) as [_ _ (ch' & Hcf & A4 & A5 & A6) _].
  assert (ch' = ch) as -> by (pose proof (cf_channel _ _ _ _ _ Hcf); unfold cid in Hch; congruence).
  cbn [act]. unfold deref_channel. rewrite Hch. cbn [mbind outcome_bind].
  pose proof (inv_report_acceptor re _ _ _ ch Hi Hch) as Hi0.
  fold cid in Hi0. fold (reported (loop_ s) cid re ch w) in Hi0.
  destruct (reported_view (loop_ s) cid re ch w) as (V1 & V2 & V3 & V4).
  set (w0 := reported (loop_ s) cid re ch w) in *. clearbody w0.
  set (tid := thread_id_ (loop_at (loop_ s) w)) in *.
  destruct (handleEvent_reads (fun w => channels_at (loop_ s) w !! cid)
    (run (LW := reactor (loop_ s)) (client tid)) w0 _ V1 A6) as [Hno Hyes].
  destruct (has re read_bits) eqn:Ebits.
  2: { exists w0, st, s. split_and!; [by apply Hno|done|done|done]. }
  destruct (inv_accept tid st s w0 Hi0 (V3 _) Hmax Hfr) as (w1 & st1 & s1 & E & Hi1 & Hs1 & Ea & El & Hsd1).
  exists w1, st1, s1. split_and!; [|done|done|by etrans].
  pose proof (core_acceptor _ _ _ (proj1 Hi1)) as [_ _ (ch1 & Hcf1 & _ & B5 & _) _].
  eapply (Hyes _ w1 ch1); [done|exact A4|exact E| |exact B5].
  unfold cid. rewrite <- Ea, <- El. apply Hcf1.
Qed.

(** The close callback, which captures its own connection. *)
Lemma inv_owner conn c run st s w : inv run st s w -> get_conn conn w = Some c ->
  owner reactor conn w.
Proof.
  intros Hi Hc. destruct (conn_staged _ _ _ _ _ (proj1 Hi) Hc) as [g Hst].
  eapply owned_by_callback; [exact Hc|].
  apply (fine_close _ _ _ _ _ _ (core_conn _ _ _ (proj1 Hi) _ _ _ _ Hc Hst)).
Qed.

(** The world whose stored state a step starts from: a task has left its queue. *)
Definition taken_off (a : action) (w : W) : W :=
  match a with RunTask l => pop l (tail (task_queue_ (loop_at l w))) w | _ => w end.

Lemma inv_step a st s w : inv None st s w -> enabled w a ->
  (forall w', act a w = Ok w' -> exists st' s', inv None st' s' w' /\ rtc life_step st st' /\
     steady (taken_off a w) w') /\
  (own w a -> exists w', act a w = Ok w').
Proof.
  intros Hi Hen.
  assert (Hgood : (exists w' st' s', act a w = Ok w' /\ inv None st' s' w' /\ rtc life_step st st' /\
      steady (taken_off a w) w') ->
    (forall w', act a w = Ok w' -> exists st' s', inv None st' s' w' /\ rtc life_step st st' /\
      steady (taken_off a w) w') /\
    (own w a -> exists w', act a w = Ok w')).
  { intros (w' & st' & s' & E & Hi' & Hs' & Hsd'). split; [|by eexists].
    intros w'' E'. rewrite E in E'. injection E' as <-. eauto. }
  destruct Hen as [l c rest Htq Hroom|conn c ch re Hc Hch Hre Hsize|s1 ch re Hs Hch Hre Hmax Hfr|tid t
    |conn c Hc Hno].
  - destruct (life_of c) as [t|] eqn:Hlf.
    { apply Hgood. cbn [act taken_off]. rewrite Htq.
      destruct (inv_run_life _ _ _ _ _ _ _ Hi Htq Hlf Hroom) as (w' & st' & s' & ? & ? & ? & ? & _).
      by exists w', st', s'. }
    cbn [act taken_off]. rewrite Htq. split.
    + intros w' E. destruct (inv_run_other _ _ _ _ _ _ _ Hi Htq Hlf E) as (s' & Hi' & Hsd').
      by exists st, s'.
    + intros Hown. inversion Hown as [l' c' rest' t' Htq' Hlf'|s' rest' Hs' Htq' Hok| |]; subst.
      * rewrite Htq in Htq'. injection Htq' as -> ->. congruence.
      * rewrite (core_server _ _ _ (proj1 Hi)) in Hs'. injection Hs' as <-.
        rewrite Htq in Htq'. injection Htq' as -> ->.
        pose proof (inv_pop _ _ _ _ _ _ Hi Htq) as Hp. cbn in Hp.
        destruct (inv_listen (user := user) _ st s _ Hp (pop_thread _ _ _ _) Hok) as (w' & _ & E & _).
        by exists w'.
  - apply Hgood. eapply inv_ready_conn; [done..|by eapply Hsize].
  - rewrite (core_server _ _ _ (proj1 Hi)) in Hs. injection Hs as <-.
    apply Hgood. by eapply inv_ready_accept.
  - split; [|by inversion 1].
    intros w' E. exists st, s. destruct (inv_user_task _ _ _ _ _ _ Hi E). by split_and!.
  - destruct Hno. by eapply inv_owner.
Qed.

(** One step of the system. *)
Inductive system_step (w w' : W) : Prop :=
| system_act a : enabled w a -> act a w = Ok w' -> system_step w w'.
Definition system_run : W -> W -> Prop := rtc system_step.

Lemma inv_run st s w w' : inv None st s w -> system_run w w' ->
  exists st' s', inv None st' s' w' /\ rtc life_step st st'.
Proof.
  intros Hi Hr. revert st s Hi. induction Hr as [w|w1 w2 w3 [a Hen E] _ IH]; intros st s Hi.
  - by exists st, s.
  - destruct (proj1 (inv_step a st s w1 Hi Hen) w2 E) as (st2 & s2 & Hi2 & Hs2 & _).
    destruct (IH st2 s2 Hi2) as (st3 & s3 & Hi3 & Hs3). exists st3, s3. split; [done|]. by etrans.
Qed.

(** ** Construction and start *)

(** The server is made in a world without connections, its loop idle. *)
Record blank (base : LoopId) (fd : Z) (cid : ChanId) (w : W) : Prop := {
  bl_conns : forall conn, get_conn conn w = None;
  bl_tasks : forall l, task_queue_ (loop_at l w) = [];
  bl_loop : loop_fine base w;
  bl_fd : 0 <= fd;
  bl_channel : channels_at base w !! cid = None;
  bl_watched : watched (F := Closure C) (poller_at base w) fd = None;
}.

Lemma no_tasks_queues base w : (forall l, task_queue_ (loop_at l w) = []) ->
  queues (pending w) base None ∅ /\
  forall l, Forall (fun c => queueable c = true) (task_queue_ (loop_at l w)).
Proof.
  intros Ht. split; [|intros l; by rewrite Ht]. unfold pending. split; intros l.
  - rewrite Ht. constructor.
  - intros t. rewrite Ht. split; [by intros []%elem_of_nil|]. intros (li & Hli & _). done.
Qed.

Lemma blank_same base fd cid w w' : same_objects reactor w w' -> blank base fd cid w ->
  blank base fd cid w'.
Proof.
  intros (_ & Hc & Hl) [B1 B2 [B3 B3'] B4 B5 B6]. destruct (Hl base) as [Hb Hch].
  split; rewrite ?Hb, ?Hch; try done.
  - intros conn. by rewrite Hc.
  - intros l. by rewrite (proj1 (Hl l)).
  - by split; rewrite ?Hb, ?Hch.
Qed.

Definition new_server (base : LoopId) (name : string) (fd : Z) (cid : ChanId) : TcpServer V :=
  mkTcpServer base name (Acceptor.mkAcceptor base fd cid true false) None None None None
    (64 * 1024 * 1024) false 1 ∅ (EventLoopThreadPool.make_Pool base).

Lemma inv_made base name fd cid w : blank base fd cid w ->
  let ch := setReadCallback (Client (ServerWork (T := T) HandleAccept)) (make_Channel base fd) in
  inv None ∅ (new_server base name fd cid)
    (put_server (Some (new_server base name fd cid))
       (put_channels (LoopWorld := reactor base) (<[cid := ch]> (channels_at base w)) w)).
Proof.
  intros [B1 B2 B3 B4 B5 B6] ch.
  assert (Hto : touches base cid fd w (put_server (Some (new_server base name fd cid))
       (put_channels (LoopWorld := reactor base) (<[cid := ch]> (channels_at base w)) w))).
  { etrans; [by apply (touches_fresh base cid fd ch)|apply touches_put_server]. }
  split; [split|].
  - by autorewrite with world.
  - done.
  - intros l Hl. apply list_elem_of_singleton in Hl as ->. by eapply touches_loop_fine.
  - intros conn. autorewrite with world. rewrite B1, lookup_empty.
    split; intros H; by apply is_Some_None in H.
  - intros conn c l g. autorewrite with world. by rewrite B1.
  - intros conn conn' c c'. autorewrite with world. by rewrite B1.
  - intros conn c. autorewrite with world. by rewrite B1.
  - cbn. unfold INT_MAX. lia.
  - intros n conn. autorewrite with world. cbn. rewrite lookup_empty, B1.
    split; [done|]. by intros (c & l & g & ? & _).
  - split; try done; [|intros conn c; autorewrite with world; by rewrite B1].
    exists ch. split; [|done]. split; autorewrite with world; try done.
    + rewrite decide_True by done. apply lookup_insert_eq.
    + intros x m. cbn [acceptor_ new_server Acceptor.accept_socket_ TcpServer.loop_]. by rewrite B6.
  - apply no_tasks_queues. intros l. by autorewrite with world.
Qed.

Lemma inv_make base addr name fd cid w w1 : blank base fd cid w ->
  Socket.sys_bind fd addr (Socket.setReuseAddr fd w) = (None, w1) ->
  exists w', make_TcpServer reactor base addr name fd cid w = Ok w' /\
    inv None ∅ (new_server base name fd cid) w' /\
    forall l, loop_at l w' = loop_at l w /\
      (l <> base -> channels_at l w' = channels_at l w).
Proof.
  intros Hb Hbind.
  pose proof (quiet_setsockopt (reactor := reactor) fd Socket.SOL_SOCKET Socket.SO_REUSEADDR 1 w) as Q1.
  pose proof (quiet_bind (reactor := reactor) fd addr (Socket.setReuseAddr fd w)) as Q2.
  rewrite Hbind in Q2. cbn [snd] in Q2.
  eexists. split_and!.
  - unfold make_TcpServer, Acceptor.make_Acceptor.
    rewrite (proj2 (Z.eqb_neq fd (-1))) by (pose proof (bl_fd _ _ _ _ Hb); lia).
    unfold Socket.bindAddress. rewrite Hbind. cbn [mbind outcome_bind]. reflexivity.
  - apply inv_made. eapply blank_same; [exact Q2|]. by eapply blank_same.
  - intros l. destruct Q1 as (_ & _ & Q1), Q2 as (_ & _ & Q2).
    destruct (Q1 l) as [E1 E1'], (Q2 l) as [E2 E2'].
    unfold Socket.setReuseAddr in *. autorewrite with world. split; [congruence|].
    intros Hne. rewrite decide_False by done. congruence.
Qed.

(** Members that no connection depends on, and loops the pool adds. *)
Record same_books (s s' : TcpServer V) : Prop := {
  sb_loop : loop_ s' = loop_ s;
  sb_name : server_name_ s' = server_name_ s;
  sb_acceptor : acceptor_ s' = acceptor_ s;
  sb_next : next_conn_id_ s' = next_conn_id_ s;
  sb_table : connections_ s' = connections_ s;
  sb_base : EventLoopThreadPool.base_loop_ (thread_pool_ s')
    = EventLoopThreadPool.base_loop_ (thread_pool_ s);
  sb_ok : EventLoopThreadPool.next_ok (thread_pool_ s');
  sb_few : Zlen (EventLoopThreadPool.loops_ (thread_pool_ s')) < 2 ^ 31;
  sb_more : forall l, l ∈ server_loops s -> l ∈ server_loops s';
}.

Lemma inv_books run st s s' w : inv run st s w -> same_books s s' ->
  (forall l, l ∈ EventLoopThreadPool.loops_ (thread_pool_ s') -> loop_fine l w) ->
  inv run st s' (put_server (Some s') w).
Proof.
  intros [[Cs Cp Cl Cd Cc Cdi Cn Cnx Ct Ca] Hq] [El En Ea Ex Et Eb Hok Hfew Hmore] Hfine.
  split; [|rewrite El; eapply same_tasks_queues; [|exact Hq]; intros l; by autorewrite with world].
  split; intros; autorewrite with world in *; rewrite ?El, ?Ex, ?Et, ?Eb in *; try done.
  - by split_and!; [apply Cp|..].
  - eapply touches_loop_fine; [apply (touches_put_server l 0 0)|].
    match goal with H : l ∈ server_loops _ |- _ =>
      unfold server_loops in H; apply list.elem_of_cons in H as [->|H] end.
    + rewrite El. apply Cl. by left.
    + by apply Hfine.
  - destruct (touches_conn_fine l (channel_ c + 1) (socket_ c + 1) w (put_server (Some s') w)
      s conn c l g) as [F1 F2 F3 F4 F5 F6 F7]; [apply touches_put_server|lia|by apply Cc|].
    split; try done. by apply Hmore.
  - by apply (Cdi conn conn').
  - unfold conn_name. rewrite En. by apply (Cn conn).
  - by apply (acceptor_fine_server s).
Qed.

(** [start] on the base loop's thread. *)
Lemma inv_start tid new_loops st s w :
  inv None st s w -> TcpServer.started_ s = false -> thread_id_ (loop_at (loop_ s) w) = tid ->
  let pool := EventLoopThreadPool.start new_loops (thread_pool_ s) in
  Zlen (EventLoopThreadPool.loops_ pool) < 2 ^ 31 ->
  (forall l, l ∈ EventLoopThreadPool.loops_ pool -> loop_fine l w) ->
  (Socket.sys_listen (Acceptor.accept_socket_ (acceptor_ s)) Socket.SOMAXCONN
     (put_server (Some (set_started true s)) w)).1 = None ->
  exists w' s', start reactor user tid new_loops w = Ok w' /\ inv None st s' w' /\
    server_loops s' = loop_ s :: EventLoopThreadPool.loops_ pool /\
    TcpServer.message_callback_ s' = TcpServer.message_callback_ s.
Proof.
  intros Hi Hns Ht pool Hfew Hfine Hok.
  assert (Hi1 : inv None st (set_started true s) (put_server (Some (set_started true s)) w)).
  { apply inv_books with (s := s); [done| |].
    - split; try done; apply (core_pool _ _ _ (proj1 Hi)).
    - intros l Hl. apply (core_loops _ _ _ (proj1 Hi)). by right. }
  destruct (inv_listen (user := user) tid st (set_started true s) _ Hi1) as (w2 & a & E2 & Hi2 & Hl2 & _).
  { cbn. by rewrite loop_at_put_server. }
  { exact Hok. }
  set (s2 := set_acceptor a (set_started true s)).
  exists (put_server (Some (set_pool pool s2)) w2), (set_pool pool s2). split_and!; [| |done|done].
  - unfold start, deref_server. rewrite (core_server _ _ _ (proj1 Hi)).
    cbn [mbind outcome_bind]. rewrite Hns. unfold run_in_loop_at, isInLoopThread.
    rewrite loop_at_put_server, Ht, Z.eqb_refl, E2. cbn [mbind outcome_bind].
    by rewrite (core_server _ _ _ (proj1 Hi2)).
  - apply inv_books with (s := s2); [exact Hi2| |].
    + destruct (core_pool _ _ _ (proj1 Hi)) as (P1 & P2 & P3).
      unfold pool, EventLoopThreadPool.start in *.
      destruct (EventLoopThreadPool.started_ (thread_pool_ s)); split; try done.
      intros l Hl. unfold server_loops in *. apply list.elem_of_cons in Hl as [->|Hl]; [by left|].
      right. apply elem_of_app. by left.
    + intros l Hl. apply Hl2. destruct (Hfine l Hl) as [F1 F2]. split; by autorewrite with world.
Qed.

(** What the program does with a server: constructor, setters, [start]. *)
Inductive server_option : Type :=
| OnConnection (f : V)
| OnMessage (f : V)
| OnWriteComplete (f : V)
| OnHighWater (f : V) (high_water_mark : Z)
| Threads (n : Z).

Definition set_option (s : TcpServer V) (o : server_option) : TcpServer V :=
  match o with
  | OnConnection f => TcpServer.setConnectionCallback f s
  | OnMessage f => TcpServer.setMessageCallback f s
  | OnWriteComplete f => TcpServer.setWriteCompleteCallback f s
  | OnHighWater f n => setHighWaterMarkCallback f n s
  | Threads n => setThreadNum n s
  end.

Definition configure (os : list server_option) (s : TcpServer V) : TcpServer V :=
  foldl set_option s os.

Definition serve (tid : Z) (base : LoopId) (addr : sockaddr_in) (name : string) (fd : Z)
    (cid : ChanId) (os : list server_option) (new_loops : nat -> LoopId) (w : W) : outcome W :=
  let! w := make_TcpServer reactor base addr name fd cid w in
  let! s := deref_server w in
  start reactor user tid new_loops (put_server (Some (configure os s)) w).

Lemma configure_books os s : same_books s s -> TcpServer.started_ s = false ->
  EventLoopThreadPool.started_ (thread_pool_ s) = false ->
  let s' := configure os s in
  same_books s s' /\ TcpServer.started_ s' = false /\
  EventLoopThreadPool.loops_ (thread_pool_ s') = EventLoopThreadPool.loops_ (thread_pool_ s) /\
  EventLoopThreadPool.started_ (thread_pool_ s') = false.
Proof.
  intros Hb H0 Hp. unfold configure. cbn zeta. revert Hb H0 Hp.
  assert (Hstep : forall o s0 s1, same_books s0 s1 -> TcpServer.started_ s1 = false ->
    EventLoopThreadPool.started_ (thread_pool_ s1) = false ->
    same_books s0 (set_option s1 o) /\ TcpServer.started_ (set_option s1 o) = false /\
    EventLoopThreadPool.loops_ (thread_pool_ (set_option s1 o))
      = EventLoopThreadPool.loops_ (thread_pool_ s1) /\
    EventLoopThreadPool.started_ (thread_pool_ (set_option s1 o)) = false).
  { intros [] s0 s1 [] ? ?; split_and!; done || by split. }
  assert (Hgen : forall os s0 s1, same_books s0 s1 -> TcpServer.started_ s1 = false ->
    EventLoopThreadPool.started_ (thread_pool_ s1) = false ->
    same_books s0 (foldl set_option s1 os) /\
    TcpServer.started_ (foldl set_option s1 os) = false /\
    EventLoopThreadPool.loops_ (thread_pool_ (foldl set_option s1 os))
      = EventLoopThreadPool.loops_ (thread_pool_ s1) /\
    EventLoopThreadPool.started_ (thread_pool_ (foldl set_option s1 os)) = false).
  { clear os s. intros os. induction os as [|o os IH]; intros s0 s1 Hb H0 Hp; [done|].
    destruct (Hstep o s0 s1 Hb H0 Hp) as (H1 & H2 & H3 & H4).
    destruct (IH s0 (set_option s1 o) H1 H2 H4) as (G1 & G2 & G3 & G4).
    cbn [foldl]. split_and!; try done. by rewrite G3. }
  apply Hgen.
Qed.

(** What a program finds before it makes its server: the base loop and the
    workers' are idle and well-formed, bind(2) and listen(2) succeed. *)
Record ready_to_serve (tid : Z) (base : LoopId) (addr : sockaddr_in) (name : string) (fd : Z)
    (cid : ChanId) (os : list server_option) (new_loops : nat -> LoopId) (w : W) : Prop := {
  rs_blank : blank base fd cid w;
  rs_thread : thread_id_ (loop_at base w) = tid;
  rs_bind : (Socket.sys_bind fd addr (Socket.setReuseAddr fd w)).1 = None;
  rs_listen : forall w', (Socket.sys_listen fd Socket.SOMAXCONN w').1 = None;
  rs_few : EventLoopThreadPool.threads_num_ (thread_pool_ (configure os (new_server base name fd cid)))
    < 2 ^ 31;
  rs_workers : forall i, new_loops i <> base /\ loop_fine (new_loops i) w;
}.

Lemma inv_serve tid base addr name fd cid os new_loops w :
  ready_to_serve tid base addr name fd cid os new_loops w ->
  exists w' s', serve tid base addr name fd cid os new_loops w = Ok w' /\ inv None ∅ s' w' /\
    TcpServer.message_callback_ s'
    = TcpServer.message_callback_ (configure os (new_server base name fd cid)).
Proof.
  intros [Hb Ht Hbind Hlisten Hfew Hw].
  destruct (Socket.sys_bind fd addr (Socket.setReuseAddr fd w)) as [r w1] eqn:Eb. cbn in Hbind. subst r.
  destruct (inv_make base addr name fd cid w w1 Hb Eb) as (w2 & E2 & Hi2 & Hl2).
  set (s0 := new_server base name fd cid) in *. set (s1 := configure os s0) in *.
  destruct (configure_books os s0) as (Hbk & Hns & Hls & Hps); [by split|done|done|].
  fold s1 in Hbk, Hns, Hls, Hps.
  assert (Hi3 : inv None ∅ s1 (put_server (Some s1) w2)).
  { eapply inv_books; [exact Hi2|done|]. rewrite Hls. intros l []%elem_of_nil. }
  assert (Ha : acceptor_ s1 = acceptor_ s0) by apply Hbk.
  assert (Hl : loop_ s1 = base) by apply (sb_loop _ _ Hbk).
  destruct (inv_start tid new_loops ∅ s1 (put_server (Some s1) w2) Hi3 Hns)
    as (w4 & s4 & E4 & Hi4 & _ & Hm4).
  - rewrite Hl, loop_at_put_server. by rewrite (proj1 (Hl2 base)).
  - unfold EventLoopThreadPool.start. rewrite Hps. cbn [EventLoopThreadPool.loops_].
    rewrite Hls. unfold Zlen. cbn [app EventLoopThreadPool.loops_ thread_pool_ s0 new_server
      EventLoopThreadPool.make_Pool]. rewrite length_map, length_seq. fold s1 in Hfew. lia.
  - unfold EventLoopThreadPool.start. rewrite Hps. cbn [EventLoopThreadPool.loops_]. rewrite Hls.
    intros l Hin. apply list_elem_of_fmap in Hin as (i & -> & _). destruct (Hw i) as [Hne [F1 F2]].
    destruct (Hl2 (new_loops i)) as [G1 G2]. split; autorewrite with world; by rewrite G1, ?G2.
  - rewrite Ha. apply Hlisten.
  - exists w4, s4. split; [|done]. unfold serve. rewrite E2. cbn [mbind outcome_bind].
    unfold deref_server. rewrite (core_server _ _ _ (proj1 Hi2)). exact E4.
Qed.

(** ** The theorems

    [served w]: the world of a server that has been made, configured and started,
    after any number of steps of its loops, in any interleaving. *)
Definition served (w0 w : W) : Prop :=
  exists tid base addr name fd cid os new_loops w1,
    ready_to_serve tid base addr name fd cid os new_loops w0 /\
    serve tid base addr name fd cid os new_loops w0 = Ok w1 /\ system_run w1 w.

Lemma served_inv w0 w : served w0 w -> exists st s, inv None st s w /\ rtc life_step ∅ st.
Proof.
  intros (tid & base & addr & name & fd & cid & os & new_loops & w1 & Hr & E & Hrun).
  destruct (inv_serve _ _ _ _ _ _ _ _ _ Hr) as (w1' & s1 & E1 & Hi1 & _).
  rewrite E in E1. injection E1 as <-.
  destruct (inv_run _ _ _ _ Hi1 Hrun) as (st & s & Hi & Hst). by exists st, s.
Qed.

(** The stage that the world shows for a connection: its state, the server's map
    and the closures that wait. *)
Definition shows (s : TcpServer V) (w : W) (conn : ConnId) (c : TcpConnection (Callback V))
    (g : Stage) : Prop :=
  match g with
  | Handed => state_ c = Connecting /\ Establish conn ∈ pending w (home_ c)
  | Open => (state_ c = Connected \/ state_ c = Disconnecting) /\
      is_Some (watched (F := Closure C) (poller_at (home_ c) w) (socket_ c))
  | Closing => state_ c = Disconnected /\ Remove conn ∈ pending w (loop_ s)
  | Removed => state_ c = Disconnected /\ Destroy conn ∈ pending w (home_ c)
  | Dead => state_ c = Disconnected /\
      forall l t, t ∈ pending w l -> life_conn t <> conn
  end /\
  (listed g = true <-> connections_ s !! name_ c = Some conn).

Lemma inv_shows st s w conn c l g : inv None st s w -> get_conn conn w = Some c ->
  st !! conn = Some (l, g) -> shows s w conn c g.
Proof.
  intros [Hco [Hq _]] Hc Hst. pose proof (core_conn _ _ _ Hco _ _ _ _ Hc Hst) as Hf.
  pose proof (fine_home _ _ _ _ _ _ Hf) as Hh. pose proof (fine_state _ _ _ _ _ _ Hf) as Hs.
  destruct (fine_channel _ _ _ _ _ _ Hf) as [ch [_ _ _ _ Rw]].
  assert (Hin : forall l' t, slot (loop_ s) (life_conn t) (l, g) = Some (l', t) ->
    life_conn t = conn -> t ∈ pending w l').
  { intros l' t Hsl <-. apply (q_slot _ _ _ _ Hq l' t). by exists (l, g). }
  split.
  - destruct g; cbn in Hs; (split; [done|]); rewrite ?Hh.
    + by apply Hin.
    + by apply Rw.
    + by apply Hin.
    + by apply Hin.
    + intros l' t Ht E. destruct (proj1 (q_slot _ _ _ _ Hq l' t) Ht) as (li & Hli & Hsl).
      rewrite E, Hst in Hli. by injection Hli as <-.
  - rewrite (core_table _ _ _ Hco). split.
    + intros Hg. by exists c, l, g.
    + intros (c' & l' & g' & _ & Hst' & _ & Hg'). rewrite Hst in Hst'. by injection Hst' as <- <-.
Qed.

(** [st] is what the world shows of all connections. *)
Definition represents (st : Life) (w : W) : Prop :=
  exists s, get_server w = Some s /\
    (forall conn, is_Some (get_conn conn w) <-> is_Some (st !! conn)) /\
    forall conn c l g, get_conn conn w = Some c -> st !! conn = Some (l, g) ->
      home_ c = l /\ shows s w conn c g.

Lemma inv_represents st s w : inv None st s w -> represents st w.
Proof.
  intros Hi. exists s. split_and!; [apply Hi|apply (proj1 Hi)|].
  intros conn c l g Hc Hst. split; [|by eapply inv_shows].
  apply (fine_home _ _ _ _ _ _ (core_conn _ _ _ (proj1 Hi) _ _ _ _ Hc Hst)).
Qed.

(** C1: refinement.  Whatever the interleaving of the loops, the user's
    tasks and the kernel's reports, every connection of a server goes through
    the five stages of [life_step] and no others, in order: each step of the
    system is no step or some steps of that machine. *)
Theorem server_refines_life w0 w : served w0 w ->
  exists st, rtc life_step ∅ st /\ represents st w /\
    forall w', system_run w w' -> exists st', rtc life_step st st' /\ represents st' w'.
Proof.
  intros (st & s & Hi & Hst)%served_inv. exists st.
  split_and!; [done|by eapply inv_represents|]. intros w' Hr.
  destruct (inv_run _ _ _ _ Hi Hr) as (st' & s' & Hi' & Hst'). exists st'.
  split; [done|by eapply inv_represents].
Qed.

(** C2: the library's own steps never fail.  In every reachable state, the
    closures of a connection's life and the events of the channels run to the
    end: no assertion on threads or states fires, nothing that is gone is
    touched, on whatever loops the connections are. *)
Theorem server_steps_succeed w0 w a : served w0 w -> enabled w a -> own w a ->
  exists w', act a w = Ok w'.
Proof.
  intros (st & s & Hi & _)%served_inv Hen Hown. by apply (inv_step a st s w Hi Hen).
Qed.

(** A program that has idle loops, a free descriptor and a bindable
    address gets a running server: construction, setters and [start] succeed,
    and no connection exists yet. *)
Theorem server_starts tid base addr name fd cid os new_loops w :
  ready_to_serve tid base addr name fd cid os new_loops w ->
  exists w', serve tid base addr name fd cid os new_loops w = Ok w' /\ served w w' /\
    represents ∅ w'.
Proof.
  intros Hr. destruct (inv_serve _ _ _ _ _ _ _ _ _ Hr) as (w' & s' & E & Hi' & _).
  exists w'. split_and!; [done| |by eapply inv_represents].
  by exists tid, base, addr, name, fd, cid, os, new_loops, w'.
Qed.

(** The objects of a server and how they are tied together. *)
Record well_formed (s : TcpServer V) (w : W) : Prop := {
  wf_loops : forall l, l ∈ server_loops s ->
    self (loop_at l w) = l /\ poller_inv (poller_at l w) (channels_at l w);
  wf_home : forall conn c, get_conn conn w = Some c -> home_ c ∈ server_loops s;
  wf_channel : forall conn c, get_conn conn w = Some c -> exists ch,
    channels_at (home_ c) w !! channel_ c = Some ch /\ fd_ ch = socket_ c /\
    Channel.loop_ ch = home_ c /\
    (has (events_ ch) kReadEvent = true -> state_ c = Connected \/ state_ c = Disconnecting);
  wf_distinct : forall conn conn' c c', get_conn conn w = Some c -> get_conn conn' w = Some c' ->
    conn <> conn' -> name_ c <> name_ c' /\ socket_ c <> socket_ c' /\
      (home_ c = home_ c' -> channel_ c <> channel_ c');
  wf_names : forall conn c, get_conn conn w = Some c -> exists k,
    1 <= k < next_conn_id_ s /\ name_ c = (server_name_ s ++ "#" ++ pretty k)%string;
  wf_table : forall name conn, connections_ s !! name = Some conn ->
    exists c, get_conn conn w = Some c /\ name_ c = name;
  wf_buffers : forall conn c, get_conn conn w = Some c -> wf (receive_buffer_ c);
}.

Lemma inv_well_formed st s w : inv None st s w -> well_formed s w.
Proof.
  intros [Hco _].
  assert (Hf : forall conn c, get_conn conn w = Some c -> exists l g, conn_fine s w conn c l g).
  { intros conn c Hc. destruct (conn_staged _ _ _ _ _ Hco Hc) as [g Hst].
    eexists _, _. by eapply core_conn. }
  split.
  - intros l Hl. by destruct (core_loops _ _ _ Hco l Hl).
  - intros conn c Hc. destruct (Hf conn c Hc) as (l & g & F). rewrite (fine_home _ _ _ _ _ _ F). apply F.
  - intros conn c Hc. destruct (Hf conn c Hc) as (l & g & F). rewrite (fine_home _ _ _ _ _ _ F).
    destruct (fine_channel _ _ _ _ _ _ F) as [ch [[R1 R2 R3 R4 R5 R6] _ _ Rg _]].
    exists ch. split_and!; try done. intros Hr. apply Rg in Hr as ->. apply F.
  - intros conn conn' c c' Hc Hc' Hne. by apply (core_distinct _ _ _ Hco conn conn').
  - intros conn c Hc. destruct (core_names _ _ _ Hco conn c Hc) as (k & Hk & ->).
    exists k. split; [done|]. unfold conn_name. rewrite id_suffix_eq; [done|].
    pose proof (core_next _ _ _ Hco). lia.
  - intros name conn Hn. apply (core_table _ _ _ Hco) in Hn as (c & l & g & Hc & _ & En & _).
    by exists c.
  - intros conn c Hc. destruct (Hf conn c Hc) as (l & g & F). apply F.
Qed.

(** C10: well-formedness.  In every reachable state each connection lives
    in a loop of the server, has a channel of its own there and a descriptor
    and a name of its own; the map holds each under its name; a channel reads
    only while its connection is up; the pollers agree with their channels. *)
Theorem server_well_formed w0 w : served w0 w -> exists s, get_server w = Some s /\ well_formed s w.
Proof.
  intros (st & s & Hi & _)%served_inv. exists s. split; [apply Hi|by eapply inv_well_formed].
Qed.

(** What a waiting closure of a connection's life says of it. *)
Definition life_task_ok (s : TcpServer V) (w : W) (l : LoopId) (t : LifeTask) : Prop :=
  exists c, get_conn (life_conn t) w = Some c /\
    match t with
    | Establish _ => l = home_ c /\ state_ c = Connecting
    | Remove conn => l = loop_ s /\ state_ c = Disconnected /\
        connections_ s !! name_ c = Some conn
    | Destroy conn => l = home_ c /\ state_ c = Disconnected /\
        connections_ s !! name_ c <> Some conn
    end.

Lemma inv_life_task st s w l t : inv None st s w -> t ∈ pending w l -> life_task_ok s w l t.
Proof.
  intros Hi Ht. destruct (proj1 (q_slot _ _ _ _ (proj1 (proj2 Hi)) l t) Ht) as ([lc g] & Hst & Hsl).
  destruct (proj2 (core_dom _ _ _ (proj1 Hi) (life_conn t))) as [c Hc]; [by eexists|].
  exists c. split; [done|].
  pose proof (fine_home _ _ _ _ _ _ (core_conn _ _ _ (proj1 Hi) _ _ _ _ Hc Hst)) as Hh.
  destruct (inv_shows _ _ _ _ _ _ _ Hi Hc Hst) as [Hs Hl].
  destruct g; cbn in Hsl; try done; injection Hsl as <- Ht';
    destruct t; try done; cbn [life_conn listed] in *; (split; [done|]).
  - apply Hs.
  - split; [apply Hs|by apply Hl].
  - split; [apply Hs|]. intros H. by apply Hl in H.
Qed.

(** No step of a connection's life is queued twice or in the wrong
    loop.  A connection has at most one such closure waiting over all loops:
    [connectionEstablished] in its own loop while it is connecting, the removal
    in the base loop once it is disconnected and still in the map,
    [connectionDestroyed] in its own loop once it is not. *)
Theorem life_closures_once w0 w : served w0 w ->
  exists s, get_server w = Some s /\ (forall l, NoDup (pending w l)) /\
    (forall l t, t ∈ pending w l -> life_task_ok s w l t) /\
    forall l l' t t', t ∈ pending w l -> t' ∈ pending w l' -> life_conn t = life_conn t' ->
      l = l' /\ t = t'.
Proof.
  intros (st & s & Hi & _)%served_inv. exists s. pose proof (proj1 (proj2 Hi)) as [Hn Hs].
  split_and!; [apply Hi|exact Hn|by intros; eapply inv_life_task|].
  intros l l' t t' Ht Ht' E. apply Hs in Ht as (li & Hli & Hsl), Ht' as (li' & Hli' & Hsl').
  rewrite E in Hli, Hsl. rewrite Hli' in Hli. injection Hli as ->. rewrite Hsl' in Hsl.
  by injection Hsl as -> ->.
Qed.

(** C11: no connection of a server is ever destroyed, so that none of its
    descriptors is ever closed.  The close callback that the server stores in
    a connection captures the connection itself: in every reachable state
    every connection has an owner, also after [connectionDestroyed], and the
    step that would release one is never enabled. *)
Theorem connections_never_released w0 w conn : served w0 w ->
  (is_Some (get_conn conn w) -> owner reactor conn w) /\ ~ enabled w (Release conn) /\
  forall w', system_run w w' -> is_Some (get_conn conn w) -> is_Some (get_conn conn w').
Proof.
  intros (st & s & Hi & _)%served_inv. split_and!.
  - intros [c Hc]. by eapply inv_owner.
  - intros Hen. inversion Hen as [| | | |? c Hc Hno]; subst. destruct Hno. by eapply inv_owner.
  - intros w' Hr Hc. destruct (inv_run _ _ _ _ Hi Hr) as (st' & s' & Hi' & Hst').
    apply (core_dom _ _ _ (proj1 Hi)) in Hc as [[l g] Hc].
    destruct (life_home _ _ _ _ _ Hst' Hc) as [g' Hg'].
    apply (core_dom _ _ _ (proj1 Hi')). by exists (l, g').
Qed.
End ServerLife.
