(* ===== verification/ServerRuns.v ===== *)
(** * ServerRuns: what a server's runs lead to

    Runs of the system of ServerLife.v with their actions.  The queues are FIFO:
    once a loop has run as many closures as it had, those that were waiting have
    run, so that no connection stays between two stages; and the bytes of a
    connection, taken or waiting, are never lost or reordered. *)
From Stdlib Require Import ZArith Lia List String.
From stdpp Require Import base option list numbers gmap relations strings pretty tactics.
From S2P Require Import Prelude.
From S2P Require Import Buffer.
From S2P Require Import Channel.
From S2P Require Import PollerBase.
From S2P Require Import EventLoop.
From S2P Require Import InetAddress.
From S2P Require Socket.
From S2P Require Import TcpConnection.
From S2P Require EventLoopThreadPool.
From S2P Require Acceptor.
From S2P Require Import TcpServer.
From S2P Require Import LifeSpec.
From S2P Require Import ServerWorld.
From S2P Require Import ServerInv.
From S2P Require Import ServerSteps.
From S2P Require Import ServerLife.
From S2P Require Poller.
Open Scope Z_scope.
Open Scope outcome_scope.

Section ServerRuns.
Context `{EFD : EventFd} {W P T V : Type}.
Abbreviation C := (Work T).
Context `{PB : !PollerBase P (Closure C)} {PL : PollerLaws P (Closure C)}.
Context {reactor : LoopId -> LoopWorld W P C}.
Context `{CW : !ConnWorld W (Callback V)} `{SK : !SocketKernel W}.
Context `{SC : !Socket.SocketCalls W} `{SW : !ServerWorld W V}.
Context {SL : ServerLaws reactor}.
Context {user : Z -> V -> ConnId -> W -> outcome W}.
Context {user_task : Z -> T -> W -> outcome W}.
Context `{SD : !SendDiscipline}.
Context {UL : UserLaws (reactor := reactor) (user := user) (user_task := user_task)}.

Abbreviation loop_at := (loop_at reactor).
Abbreviation channels_at := (channels_at reactor).
Abbreviation queue_at := (queue_at reactor).
Abbreviation poller_at l w := (poller_ (loop_at l w)).
Abbreviation client := (client reactor user user_task).
Abbreviation call_callback := (call_callback reactor user).
Abbreviation pending := (pending (reactor := reactor)).
Abbreviation wire_at := (wire_at (reactor := reactor)).
Abbreviation touches := (touches (reactor := reactor)).
Abbreviation same_rest := (same_rest (reactor := reactor)).
Abbreviation chan_fine := (chan_fine (reactor := reactor)).
Abbreviation loop_fine := (loop_fine (reactor := reactor)).
Abbreviation reader := (reader (reactor := reactor)).
Abbreviation conn_fine := (conn_fine (reactor := reactor)).
Abbreviation acceptor_fine := (acceptor_fine (reactor := reactor)).
Abbreviation core := (core (reactor := reactor)).
Abbreviation inv := (inv (reactor := reactor)).
Abbreviation quiet := (quiet (reactor := reactor)).
Abbreviation stream := (stream (reactor := reactor)).
Abbreviation steady := (steady (reactor := reactor)).
Abbreviation from := (from (reactor := reactor)).
Abbreviation keep := (keep (reactor := reactor)).
Abbreviation at_conn := (at_conn (reactor := reactor)).
Abbreviation only_conn := (only_conn (reactor := reactor)).
Abbreviation unused := (unused (reactor := reactor)).
Abbreviation public_call := (public_call (reactor := reactor) (user := user)).
Abbreviation public_calls := (public_calls (reactor := reactor) (user := user)).
Abbreviation act := (act (reactor := reactor) (user := user) (user_task := user_task)).
Abbreviation enabled := (enabled (T := T) (V := V) (reactor := reactor)).
Abbreviation represents := (represents (reactor := reactor)).
Abbreviation shows := (shows (reactor := reactor)).
Abbreviation system_run := (system_run (reactor := reactor) (user := user) (user_task := user_task)).
Abbreviation served := (served (reactor := reactor) (user := user) (user_task := user_task)).
Abbreviation taken_off := (taken_off (reactor := reactor)).

#[local] Hint Rewrite loop_at_put_loop loop_at_put_channels channels_at_put_loop channels_at_put_channels
  loop_at_put_conn channels_at_put_conn conn_at_put_loop conn_at_put_channels conn_at_put_conn
  loop_at_put_server channels_at_put_server conn_at_put_server server_at_put_server
  server_at_put_loop server_at_put_channels server_at_put_conn
  wire_at_put_loop wire_at_put_channels wire_at_put_conn wire_at_put_server : world.

(** ** Runs with their actions *)
Inductive runs : list (action (T := T)) -> W -> W -> Prop :=
| runs_nil w : runs [] w w
| runs_cons a acts w1 w2 w3 :
    enabled w1 a -> act a w1 = Ok w2 -> runs acts w2 w3 -> runs (a :: acts) w1 w3.

Lemma runs_system acts w w' : runs acts w w' -> system_run w w'.
Proof.
  induction 1 as [|a acts w1 w2 w3 Hen E _ IH]; [constructor|].
  eapply rtc_l; [by eapply system_act|exact IH].
Qed.

Lemma system_runs w w' : system_run w w' -> exists acts, runs acts w w'.
Proof.
  induction 1 as [w|w1 w2 w3 [a Hen E] _ [acts IH]]; [exists []; constructor|].
  exists (a :: acts). by econstructor.
Qed.

(** How many closures the loop [l] has run. *)
Fixpoint turns (l : LoopId) (acts : list (action (T := T))) : nat :=
  match acts with
  | [] => 0
  | RunTask l' :: acts => (if decide (l' = l) then S (turns l acts) else turns l acts)
  | _ :: acts => turns l acts
  end.

Lemma served_runs w0 w acts w' : served w0 w -> runs acts w w' -> served w0 w'.
Proof.
  intros (tid & base & addr & name & fd & cid & os & nl & w1 & H1 & H2 & H3) Hr.
  exists tid, base, addr, name, fd, cid, os, nl, w1. split_and!; try done.
  etrans; [exact H3|by eapply runs_system].
Qed.

(** ** The queues are FIFO *)
Lemma pop_tasks l rest w x : task_queue_ (loop_at x (pop l rest w))
  = if decide (x = l) then rest else task_queue_ (loop_at x w).
Proof. unfold pop, on_loop_at, on_loop. autorewrite with world. by case_decide. Qed.

(** One step: the closure that ran has left the front, the others have moved up. *)
Lemma step_queue a w w' l : steady (taken_off a w) w' ->
  drop (turns l [a]) (task_queue_ (loop_at l w)) `prefix_of` task_queue_ (loop_at l w').
Proof.
  intros Hsd. pose proof (sd_queues _ _ Hsd l) as Hp.
  destruct a as [l'| | |]; cbn [taken_off turns] in *; rewrite ?drop_0; try done.
  rewrite pop_tasks in Hp. case_decide as E; case_decide as E'; try congruence; [|done].
  by subst l'; destruct (task_queue_ (loop_at l w)).
Qed.

Lemma turns_cons l a acts : turns l (a :: acts) = (turns l [a] + turns l acts)%nat.
Proof. destruct a; cbn; [|done..]. by case_decide. Qed.

Lemma turns_single l a : (turns l [a] <= 1)%nat.
Proof. destruct a; cbn; try lia. case_decide; lia. Qed.

(** A closure waits in its queue, [k] others in front of it, until the loop has
    run these; then it runs, and its connection leaves its stage. *)
Lemma runs_waiting st s w acts w' l k c t :
  inv None st s w -> runs acts w w' ->
  task_queue_ (loop_at l w) !! k = Some c -> life_of c = Some t ->
  exists st' s', inv None st' s' w' /\ rtc life_step st st' /\
    ((turns l acts <= k)%nat -> task_queue_ (loop_at l w') !! (k - turns l acts)%nat = Some c) /\
    ((k < turns l acts)%nat -> (rank_of st (life_conn t) < rank_of st' (life_conn t))%nat).
Proof.
  intros Hi Hr. revert st s k Hi. induction Hr as [w|a acts w1 w2 w3 Hen E Hr IH]; intros st s k Hi Hk Hlf.
  { exists st, s. split_and!; [done|done| |cbn; lia]. intros _. by rewrite Nat.sub_0_r. }
  destruct (decide (turns l [a] = S k)) as [Hrun|Hwait].
  - pose proof (turns_single l a). assert (k = 0%nat) as -> by lia.
    destruct a as [l'| | |]; try done. cbn in Hrun. case_decide as El; [subst l'|done].
    destruct (task_queue_ (loop_at l w1)) as [|c' rest] eqn:Hq; [done|]. injection Hk as ->.
    cbn [act] in E. rewrite Hq in E.
    assert (Hroom : roomy (2 ^ 60) w1) by (by inversion Hen).
    destruct (inv_run_life _ _ _ _ _ _ _ Hi Hq Hlf Hroom) as (w2' & st2 & s2 & E2 & Hi2 & Hst2 & _ & Hrk).
    rewrite E in E2. injection E2 as <-.
    assert (Hrest : exists st' s', inv None st' s' w3 /\ rtc life_step st2 st').
    { eapply inv_run; [exact Hi2|by eapply runs_system]. }
    destruct Hrest as (st3 & s3 & Hi3 & Hst3). exists st3, s3. split_and!; [done|by etrans| |].
    + rewrite turns_cons. cbn. rewrite decide_True by done. lia.
    + intros _. pose proof (rank_grows _ _ (life_conn t) Hst3). lia.
  - destruct (proj1 (inv_step a st s w1 Hi Hen) w2 E) as (st2 & s2 & Hi2 & Hst2 & Hsd).
    pose proof (turns_single l a) as Hle1.
    destruct (IH st2 s2 (k - turns l [a])%nat Hi2) as (st3 & s3 & Hi3 & Hst3 & H1 & H2); [|done|].
    + eapply prefix_lookup_Some; [|by apply (step_queue a)]. rewrite lookup_drop.
      by replace (turns l [a] + (k - turns l [a]))%nat with k by lia.
    + exists st3, s3. rewrite turns_cons. split_and!; [done|by etrans| |].
      * intros Hle. replace (k - (turns l [a] + turns l acts))%nat
          with (k - turns l [a] - turns l acts)%nat by lia. apply H1. lia.
      * intros Hlt. pose proof (rank_grows _ _ (life_conn t) Hst2).
        assert (rank_of st2 (life_conn t) < rank_of st3 (life_conn t))%nat by (apply H2; lia). lia.
Qed.
(** ** No connection stays between two stages *)
Lemma pending_position w l t : t ∈ pending w l ->
  exists k c, task_queue_ (loop_at l w) !! k = Some c /\ life_of c = Some t /\
    (k < length (task_queue_ (loop_at l w)))%nat.
Proof.
  unfold ServerWorld.pending. intros (c & Hin & Hc)%list_elem_of_omap.
  apply list_elem_of_lookup in Hin as [k Hk]. exists k, c.
  split_and!; [done|done|by eapply lookup_lt_Some].
Qed.

Lemma stage_advances st s w acts w' conn l g lt t :
  inv None st s w -> st !! conn = Some (l, g) -> slot (loop_ s) conn (l, g) = Some (lt, t) ->
  runs acts w w' -> (length (task_queue_ (loop_at lt w)) <= turns lt acts)%nat ->
  exists st' s' g', inv None st' s' w' /\ st' !! conn = Some (l, g') /\ (rank g < rank g')%nat.
Proof.
  intros Hi Hst Hsl Hr Hlen. pose proof (slot_conn _ _ _ _ _ Hsl) as Ht.
  destruct (pending_position w lt t) as (k & c & Hk & Hc & Hlt).
  { apply (q_slot _ _ _ _ (proj1 (proj2 Hi)) lt t). cbn. exists (l, g). by rewrite Ht. }
  destruct (runs_waiting _ _ _ _ _ _ _ _ _ Hi Hr Hk Hc) as (st' & s' & Hi' & Hst' & _ & H).
  destruct (life_home _ _ _ _ _ Hst' Hst) as [g' Hg']. exists st', s', g'.
  split_and!; [done|done|]. rewrite Ht in H.
  rewrite (rank_of_lookup _ _ _ _ Hst), (rank_of_lookup _ _ _ _ Hg') in H. apply H. lia.
Qed.

Lemma runs_stage st s w acts w' conn l g :
  inv None st s w -> st !! conn = Some (l, g) -> runs acts w w' ->
  exists st' s' g', inv None st' s' w' /\ st' !! conn = Some (l, g') /\ (rank g <= rank g')%nat.
Proof.
  intros Hi Hst Hr. destruct (inv_run st s w w' Hi (runs_system _ _ _ Hr)) as (st' & s' & Hi' & Hst').
  destruct (life_home _ _ _ _ _ Hst' Hst) as [g' Hg']. exists st', s', g'.
  split_and!; [done|done|]. pose proof (rank_grows _ _ conn Hst') as H.
  by rewrite (rank_of_lookup _ _ _ _ Hst), (rank_of_lookup _ _ _ _ Hg') in H.
Qed.

Lemma staged_conn st s w conn c : inv None st s w -> get_conn conn w = Some c ->
  exists g, st !! conn = Some (home_ c, g) /\ state_in g (state_ c).
Proof.
  intros [Hco _] Hc. destruct (conn_staged _ _ _ _ _ Hco Hc) as [g Hst]. exists g.
  split; [done|]. apply (fine_state _ _ _ _ _ _ (core_conn _ _ _ Hco _ _ _ _ Hc Hst)).
Qed.

Lemma conn_of_stage st s w conn l g : inv None st s w -> st !! conn = Some (l, g) ->
  exists c, get_conn conn w = Some c /\ home_ c = l /\ state_in g (state_ c).
Proof.
  intros [Hco _] Hst. destruct (proj2 (core_dom _ _ _ Hco conn)) as [c Hc]; [by eexists|].
  exists c. pose proof (core_conn _ _ _ Hco _ _ _ _ Hc Hst) as Hf.
  split_and!; [done|apply Hf|apply Hf].
Qed.

(** C4: No connection stays between two stages: whatever else the loops, the users'
    threads and the kernel do in between, a connection that was handed to its
    loop is established once that loop has run as many closures as were waiting
    there; and one that was closed is out of the map, out of its loop and has no
    closure left once the base loop, and then its own, have done so.  No
    fairness between the loops is needed. *)
Theorem connection_leaves_transit w0 w conn c : served w0 w -> get_conn conn w = Some c ->
  (state_ c = Connecting -> forall acts w', runs acts w w' ->
     (length (task_queue_ (loop_at (home_ c) w)) <= turns (home_ c) acts)%nat ->
     exists c', get_conn conn w' = Some c' /\ state_ c' <> Connecting) /\
  (state_ c = Disconnected -> forall s acts1 w1 acts2 w2, get_server w = Some s ->
     runs acts1 w w1 -> (length (task_queue_ (loop_at (loop_ s) w)) <= turns (loop_ s) acts1)%nat ->
     runs acts2 w1 w2 -> (length (task_queue_ (loop_at (home_ c) w1)) <= turns (home_ c) acts2)%nat ->
     exists s2 c2, get_server w2 = Some s2 /\ get_conn conn w2 = Some c2 /\
       shows s2 w2 conn c2 Dead).
Proof.
  intros (st & s & Hi & _)%served_inv Hc. destruct (staged_conn _ _ _ _ _ Hi Hc) as (g & Hst & Hg).
  split.
  - intros Hs acts w' Hr Hlen. rewrite Hs in Hg.
    assert (g = Handed) as -> by (destruct g as [| | | |]; try done; by destruct Hg).
    destruct (stage_advances _ _ _ _ _ conn _ _ _ _ Hi Hst eq_refl Hr Hlen)
      as (st' & s' & g' & Hi' & Hst' & Hrk).
    destruct (conn_of_stage _ _ _ _ _ _ Hi' Hst') as (c' & Hc' & _ & Hg'). exists c'.
    split; [done|]. intros E. rewrite E in Hg'. destruct g'; try done; [cbn in Hrk; lia|].
    by destruct Hg'.
  - intros Hs s' acts1 w1 acts2 w2 Hs' Hr1 Hlen1 Hr2 Hlen2. rewrite Hs in Hg.
    rewrite (core_server _ _ _ (proj1 Hi)) in Hs'. injection Hs' as <-.
    assert (H1 : exists st1 s1 g1, inv None st1 s1 w1 /\ st1 !! conn = Some (home_ c, g1) /\
      (4 <= rank g1)%nat).
    { destruct g; try done; [by destruct Hg| | |].
      - destruct (stage_advances _ _ _ _ _ conn _ _ _ _ Hi Hst eq_refl Hr1 Hlen1)
          as (st1 & s1 & g1 & ? & ? & ?). by exists st1, s1, g1.
      - destruct (runs_stage _ _ _ _ _ _ _ _ Hi Hst Hr1) as (st1 & s1 & g1 & ? & ? & ?).
        by exists st1, s1, g1.
      - destruct (runs_stage _ _ _ _ _ _ _ _ Hi Hst Hr1) as (st1 & s1 & g1 & ? & ? & H).
        exists st1, s1, g1. split_and!; [done|done|cbn in H; lia]. }
    destruct H1 as (st1 & s1 & g1 & Hi1 & Hst1 & Hrk1).
    assert (H2 : exists st2 s2, inv None st2 s2 w2 /\ st2 !! conn = Some (home_ c, Dead)).
    { destruct g1; cbn in Hrk1; try lia.
      - destruct (stage_advances _ _ _ _ _ conn _ _ _ _ Hi1 Hst1 eq_refl Hr2 Hlen2)
          as (st2 & s2 & g2 & ? & ? & H). exists st2, s2. destruct g2; cbn in H; done || lia.
      - destruct (runs_stage _ _ _ _ _ _ _ _ Hi1 Hst1 Hr2) as (st2 & s2 & g2 & ? & ? & H).
        exists st2, s2. destruct g2; cbn in H; done || lia. }
    destruct H2 as (st2 & s2 & Hi2 & Hst2).
    destruct (conn_of_stage _ _ _ _ _ _ Hi2 Hst2) as (c2 & Hc2 & _). exists s2, c2.
    split_and!; [apply Hi2|done|by eapply inv_shows].
Qed.

(** ** The bytes of the connections *)
Lemma taken_off_stream a w conn c : get_conn conn w = Some c ->
  get_conn conn (taken_off a w) = Some c /\ stream c (taken_off a w) = stream c w.
Proof.
  intros Hc. destruct a as [l| | |]; try done. unfold ServerLife.taken_off. split.
  - by rewrite pop_conn.
  - unfold ServerInv.stream, pop, on_loop_at, on_loop. by autorewrite with world.
Qed.


(** ** The message callback

    Every connection calls the callback that the server was given before it was
    started. *)
Definition calls_back (h : option V) (w : W) : Prop :=
  handler w = h /\ forall conn c, get_conn conn w = Some c ->
    TcpConnection.message_callback_ c = UserCallback <$> h.

Lemma taken_off_handler a w : handler (taken_off a w) = handler w.
Proof.
  destruct a as [l| | |]; try done. unfold ServerLife.taken_off. apply same_handler.
  unfold pop, on_loop_at, on_loop. by autorewrite with world.
Qed.

Lemma steady_calls_back h a w w' : calls_back h w -> steady (taken_off a w) w' -> calls_back h w'.
Proof.
  intros [Hh Hc] Hsd. pose proof (sd_handler _ _ Hsd) as Hh'. rewrite taken_off_handler in Hh'.
  split; [congruence|]. intros conn c' Hc'. rewrite (sd_messages _ _ Hsd _ _ Hc'), taken_off_handler.
  destruct (get_conn conn w) as [c|] eqn:E.
  - rewrite (proj1 (taken_off_stream a w conn c E)). by apply (Hc conn).
  - destruct (get_conn conn (taken_off a w)) as [c|] eqn:E2; [|by rewrite Hh].
    exfalso. destruct a as [l| | |]; cbn [ServerLife.taken_off] in E2; try congruence.
    rewrite pop_conn in E2. congruence.
Qed.

Lemma runs_calls_back h st s w w' : inv None st s w -> system_run w w' -> calls_back h w ->
  calls_back h w'.
Proof.
  intros Hi Hr. revert st s Hi. induction Hr as [w|w1 w2 w3 [a Hen E] _ IH]; intros st s Hi Hc; [done|].
  destruct (proj1 (inv_step a st s w1 Hi Hen) w2 E) as (st2 & s2 & Hi2 & _ & Hsd).
  eapply IH; [exact Hi2|by eapply steady_calls_back].
Qed.

Lemma serve_calls_back tid base addr name fd cid os new_loops w0 w1 w :
  ready_to_serve (reactor := reactor) tid base addr name fd cid os new_loops w0 ->
  serve (reactor := reactor) (user := user) tid base addr name fd cid os new_loops w0 = Ok w1 ->
  system_run w1 w ->
  calls_back (TcpServer.message_callback_ (configure os (new_server base name fd cid))) w.
Proof.
  intros Hr E Hrun. destruct (inv_serve (user := user) _ _ _ _ _ _ _ _ _ Hr) as (w1' & s & E1 & Hi & Hm).
  rewrite E in E1. injection E1 as <-. eapply runs_calls_back; [exact Hi|exact Hrun|]. split.
  - unfold handler. by rewrite (core_server _ _ _ (proj1 Hi)).
  - intros conn c Hc. destruct (proj1 (core_dom _ _ _ (proj1 Hi) conn)) as [li Hli]; [by eexists|].
    by rewrite lookup_empty in Hli.
Qed.
End ServerRuns.
