(* ===== verification/ConnEvents.v ===== *)
(** * ConnEvents: a connection's events, with an application around it

    What the loop does when the poller reports a connection's channel: nothing
    ([event_quiet]), or the message callback on what has arrived
    ([event_delivers]); and runs of such events.  The application's own data are
    [get_app]. *)
From Stdlib Require Import ZArith Lia List String.
From stdpp Require Import base option list numbers gmap strings tactics.
From S2P Require Import Prelude.
From S2P Require Import Buffer.
From S2P Require Import Channel.
From S2P Require Import PollerBase.
From S2P Require Import EventLoop.
From S2P Require Import InetAddress.
From S2P Require Socket.
From S2P Require Import TcpConnection.
Open Scope Z_scope.
Open Scope outcome_scope.

(** The application's data in the world. *)
Class AppWorld (W A : Type) := {
  get_app : W -> A;
  put_app : A -> W -> W;
}.

(** Reading and getsockopt(2) add nothing to what the kernel took, and the
    application's data are its own. *)
Class AppLaws `{EventFd} (W P C U A : Type)
    `{!LoopWorld W P C} `{!ConnWorld W U} `{!SocketKernel W} `{!Socket.SocketCalls W}
    `{!ConnLaws W P C U} `{!AppWorld W A} := {
  wire_read : forall fd fd' cap (w : W), wire fd' (sys_read fd cap w).2 = wire fd' w;
  wire_so_error : forall fd fd' (w : W),
    wire fd' (Socket.sys_getsockopt_error fd w).2 = wire fd' w;
  get_put_app : forall a (w : W), get_app (put_app a w) = a;
  loop_put_app : forall a (w : W), get_loop (put_app a w) = get_loop w;
  channels_put_app : forall a (w : W), get_channels (put_app a w) = get_channels w;
  conn_put_app : forall conn a (w : W), get_conn conn (put_app a w) = get_conn conn w;
  wire_put_app : forall fd a (w : W), wire fd (put_app a w) = wire fd w;
  app_put_conn : forall conn c (w : W), get_app (put_conn conn c w) = get_app w;
  app_put_loop : forall lp (w : W), get_app (put_loop lp w) = get_app w;
  app_put_channels : forall st (w : W), get_app (put_channels st w) = get_app w;
  app_write : forall fd data (w : W), get_app (sys_write fd data w).2 = get_app w;
  app_read : forall fd cap (w : W), get_app (sys_read fd cap w).2 = get_app w;
  app_so_error : forall fd (w : W), get_app (Socket.sys_getsockopt_error fd w).2 = get_app w;
}.

(** A connection's channel reads with [handleReadable]. *)
Definition reads_with {C : Type} (task : ConnTask -> C) (conn : ConnId)
    (ch : Channel (Closure C)) : Prop :=
  read_callback_ ch = Some (Client (task (HandleReadable conn))).

(** The bytes of the read of one event, if it delivers any. *)
Definition event_input (r : option read_result) : list (list byte) :=
  match r with Some (ReadOk data) => [data] | _ => [] end.

Section Sends.
Context `{EFD : EventFd} {W P C U A : Type} `{PB : !PollerBase P (Closure C)}.
Context `{LW : !LoopWorld W P C} `{CW : !ConnWorld W U}.
Context `{SK : !SocketKernel W} `{SC : !Socket.SocketCalls W} `{AW : !AppWorld W A}.
Context {PL : PollerLaws P (Closure C)} {LWok : LoopWorldLaws W P C}.
Context {CLok : ConnLaws W P C U} {AL : AppLaws W P C U A}.
(** [send] runs no callback itself; it may be given this one. *)
Definition no_callback (tid : Z) (f : U) (conn : ConnId) (w : W) : outcome W := Ok w.

Context (task : ConnTask -> C) (user : Z -> U -> ConnId -> W -> outcome W).

Lemma in_own_loop tid (w : W) : thread_id_ (get_loop w) = tid ->
  isInLoopThread tid (get_loop w) = true.
Proof. intros <-. apply Z.eqb_refl. Qed.

(** On the loop's thread a connected [send] is [sendInLoop]. *)
Lemma send_connected tid conn w c ch data : conn_base tid conn w c ch -> state_ c = Connected ->
  send task (user tid) tid conn data w = sendInLoop task tid conn data w.
Proof.
  intros Hb Hs. unfold send, when_connected, deref_conn. rewrite (ok_conn _ _ _ _ _ Hb).
  cbn [mbind outcome_bind]. rewrite decide_True by done.
  by rewrite in_own_loop by apply Hb.
Qed.

(** What [send] itself runs does not depend on the user's callbacks: off the
    loop's thread it queues. *)
Lemma send_callbacks (cb cb' : U -> ConnId -> W -> outcome W) tid conn data w :
  send task cb tid conn data w = send task cb' tid conn data w.
Proof.
  unfold send, when_connected. destruct (deref_conn conn w) as [c| |]; [|done..].
  cbn [mbind outcome_bind]. destruct (decide _); [|done].
  destruct (isInLoopThread _ _) eqn:Hin; [done|]. unfold run_in_loop. by rewrite Hin.
Qed.

(** Replacing the receive buffer. *)
Lemma conn_ok_receive tid conn w c ch q bound b : conn_ok tid conn w c ch q bound ->
  conn_ok tid conn (put_conn conn (set_receive_buffer b c) w) (set_receive_buffer b c) ch q bound.
Proof. intros [Hb Hr Hw]. split; [by eapply conn_base_put|done|done]. Qed.

(** ** A send leaves the application alone *)
Lemma on_channels_app f w w' : on_channels f w = Ok w' -> get_app w' = get_app w.
Proof.
  intros (lp & st & -> & _)%on_channels_shape. by rewrite app_put_channels, app_put_loop.
Qed.

Lemma queue_app tid t w : get_app (queue task tid t w) = get_app w.
Proof. apply app_put_loop. Qed.

Lemma sendInLoop_app tid conn data w w' :
  sendInLoop task tid conn data w = Ok w' -> get_app w' = get_app w.
Proof.
  unfold sendInLoop. intros H. inv_ok.
  match type of H with (let '(_, _) := ?m in _) = _ => destruct m as [n w1] eqn:E end.
  assert (E1 : get_app w1 = get_app w).
  { destruct (_ && _); [|by injection E as _ <-]. pose proof (app_write (fd_ a1) data w) as Hw.
    destruct (sys_write _ _ _) as [[k|e] w2]; cbn [snd] in Hw; injection E as _ <-; [|exact Hw].
    destruct (k <? Zlen data); [exact Hw|]. destruct (write_complete_callback_ a0); [|exact Hw].
    by rewrite queue_app. }
  destruct (_ <? _); [|by injection H as <-]. inv_ok.
  assert (E2 : get_app a3 = get_app w).
  { destruct (negb _); [apply on_channels_app in Ha3; by rewrite Ha3, app_put_conn|].
    injection Ha3 as <-. by rewrite app_put_conn. }
  destruct (high_water_callback_ a0); [|by injection H as <-].
  destruct (_ <=? _); injection H as <-; [by rewrite queue_app|done].
Qed.
End Sends.

(** ** Events *)
Section Events.
Context `{EFD : EventFd} {W P C U A : Type} `{PB : !PollerBase P (Closure C)}.
Context `{LW : !LoopWorld W P C} `{CW : !ConnWorld W U}.
Context `{SK : !SocketKernel W} `{SC : !Socket.SocketCalls W} `{AW : !AppWorld W A}.
Context {PL : PollerLaws P (Closure C)} {LWok : LoopWorldLaws W P C}.
Context {CLok : ConnLaws W P C U} {AL : AppLaws W P C U A}.
Context (task : ConnTask -> C) (user : Z -> U -> ConnId -> W -> outcome W).

(** What the loop runs for a closure; a connection's closures are its own. *)
Context (client : Z -> C -> W -> outcome W).
Hypothesis client_task : forall tid t w,
  client tid (task t) w = run_conn_task task (user tid) tid t w.

(** The poller reports [mask] for the connection's channel ... *)
Definition report (mask : Z) (conn : ConnId) (w : W) : outcome W :=
  let! c := deref_conn conn w in
  let! ch := conn_channel c w in
  Ok (put_channels (<[channel_ c := setReturnEvents mask ch]> (get_channels w)) w).

(** ... and the loop calls [handleEvent] on it. *)
Definition event (tid : Z) (conn : ConnId) (mask : Z) (w : W) : outcome W :=
  let! c := deref_conn conn w in
  let! w := report mask conn w in
  handleEvent (fun w => get_channels w !! channel_ c) (run (client tid)) w.

(** What readv(2) answers in that event, [None] when it does not read. *)
Definition arriving (conn : ConnId) (mask : Z) (w : W) : option read_result :=
  if has mask (Z.lor (Z.lor POLLIN POLLPRI) POLLRDHUP) then
    match report mask conn w, get_conn conn w with
    | Ok w, Some c =>
        Some (sys_read (socket_ c) (writableBytes (receive_buffer_ c) + EXTRA_SIZE) w).1
    | _, _ => None
    end
  else None.

Lemma conn_base_reported tid conn w c ch mask : conn_base tid conn w c ch ->
  conn_base tid conn (put_channels (<[channel_ c := setReturnEvents mask ch]> (get_channels w)) w)
    c (setReturnEvents mask ch).
Proof. intros Hb. by apply (conn_base_member tid conn w c ch). Qed.

Lemma report_ok tid conn w c ch mask : conn_base tid conn w c ch ->
  report mask conn w
  = Ok (put_channels (<[channel_ c := setReturnEvents mask ch]> (get_channels w)) w).
Proof.
  intros Hb. unfold report, deref_conn, conn_channel, deref_channel.
  rewrite (ok_conn _ _ _ _ _ Hb). cbn [mbind outcome_bind]. by rewrite (ok_channel _ _ _ _ _ Hb).
Qed.

(** A report that reads runs [handleReadable], another one nothing. *)
Lemma event_runs tid conn mask w c ch w' c' ch' :
  conn_base tid conn w c ch -> reads_with task conn ch ->
  let wr := put_channels (<[channel_ c := setReturnEvents mask ch]> (get_channels w)) w in
  (if has mask (Z.lor (Z.lor POLLIN POLLPRI) POLLRDHUP)
   then handleReadable (user tid) tid conn wr else Ok wr) = Ok w' ->
  conn_base tid conn w' c' ch' -> channel_ c' = channel_ c ->
  event tid conn mask w = Ok w'.
Proof.
  intros Hb Hrd wr E Hb' Hch. pose proof (conn_base_reported _ _ _ _ _ mask Hb) as Hb0.
  unfold event, deref_conn. rewrite (report_ok _ _ _ _ _ _ Hb), (ok_conn _ _ _ _ _ Hb).
  cbn [mbind outcome_bind]. apply (handleEvent_reader _ _ _ (setReturnEvents mask ch)).
  - apply (ok_channel _ _ _ _ _ Hb0).
  - apply (ok_unwired _ _ _ _ _ Hb0).
  - cbn [return_events_ read_callback_ setReturnEvents]. rewrite Hrd. cbn [call_if_set run].
    rewrite client_task. exact E.
  - exists ch'. rewrite <- Hch. split; [apply Hb'|apply (ok_unwired _ _ _ _ _ Hb')].
Qed.

Lemma handleError_unchanged tid conn w c ch : conn_base tid conn w c ch ->
  exists w', handleError conn w = Ok w' /\ conn_base tid conn w' c ch /\
    (forall fd, wire fd w' = wire fd w) /\ get_app w' = get_app w.
Proof.
  intros Hb. destruct (handleError_keeps tid conn w c ch Hb) as (w' & E & Hb').
  exists w'. split; [done|]. split; [done|]. revert E. unfold handleError, deref_conn.
  rewrite (ok_conn _ _ _ _ _ Hb). cbn [mbind outcome_bind]. intros [= <-].
  pose proof (fun fd => wire_so_error (socket_ c) fd w) as Hw.
  pose proof (app_so_error (socket_ c) w) as Ha. unfold Socket.getSocketError.
  by destruct (Socket.sys_getsockopt_error (socket_ c) w) as [r w1].
Qed.

Lemma read_unchanged fd cap w r w1 : sys_read fd cap w = (r, w1) ->
  (forall fd', wire fd' w1 = wire fd' w) /\ get_app w1 = get_app w.
Proof.
  intros E. pose proof (fun fd' => wire_read fd fd' cap w) as Hw. pose proof (app_read fd cap w) as Ha.
  by rewrite E in Hw, Ha.
Qed.

(** An event that delivers nothing leaves the connection alone. *)
Lemma event_quiet tid conn mask w c ch r rbound :
  conn_base tid conn w c ch -> reads_with task conn ch -> refines (receive_buffer_ c) r rbound ->
  event_input (arriving conn mask w) = [] ->
  exists w', event tid conn mask w = Ok w' /\ conn_base tid conn w' c (setReturnEvents mask ch) /\
    (forall fd, wire fd w' = wire fd w) /\ get_app w' = get_app w.
Proof.
  intros Hb Hrd Hr. pose proof (conn_base_reported _ _ _ _ _ mask Hb) as Hb0.
  set (wr := put_channels _ w) in Hb0.
  assert (Hwr : forall fd, wire fd wr = wire fd w) by (intros; apply wire_put_channels).
  assert (Har : get_app wr = get_app w) by apply app_put_channels.
  unfold arriving. destruct (has _ _) eqn:Hmask.
  2: { intros _. exists wr. split_and!; [|done..].
       eapply event_runs; [exact Hb|exact Hrd|by rewrite Hmask|exact Hb0|done]. }
  rewrite (report_ok _ _ _ _ _ _ Hb), (ok_conn _ _ _ _ _ Hb). fold wr.
  destruct (sys_read _ _ wr) as [[data|e] w1] eqn:Er; [done|]. intros _.
  destruct (handleReadable_failed (user tid) tid conn wr c _ e w1 Hb0 (writable_room _ _ _ Hr) Er)
    as [Hb1 E]. destruct (read_unchanged _ _ _ _ _ Er) as [Hw1 Ha1].
  destruct (handleError_unchanged tid conn _ _ _ Hb1) as (w' & E' & Hb' & Hw' & Ha').
  exists w'. split_and!; [|done| |by rewrite Ha', app_put_conn, Ha1].
  - eapply event_runs; [exact Hb|exact Hrd|by rewrite Hmask; fold wr; rewrite E|exact Hb'|done].
  - intros fd. by rewrite Hw', wire_put_conn, Hw1.
Qed.

(** One that delivers [data] puts them in the receive buffer, behind what is
    there, and calls the message callback. *)
Lemma event_delivers tid conn mask w c ch r rbound data :
  conn_base tid conn w c ch -> reads_with task conn ch -> refines (receive_buffer_ c) r rbound ->
  rbound + (rbound + EXTRA_SIZE) < 2 ^ 63 ->
  arriving conn mask w = Some (ReadOk data) -> data <> [] ->
  exists w1 b, conn_base tid conn w1 (set_receive_buffer b c) (setReturnEvents mask ch) /\
    refines b (r ++ data) (rbound + Zlen data) /\
    (forall fd, wire fd w1 = wire fd w) /\ get_app w1 = get_app w /\
    forall w' c' ch', call_user (user tid) (message_callback_ c) conn w1 = Ok w' ->
      conn_base tid conn w' c' ch' -> channel_ c' = channel_ c -> event tid conn mask w = Ok w'.
Proof.
  intros Hb Hrd Hr Hmax Ha Hne. pose proof (conn_base_reported _ _ _ _ _ mask Hb) as Hb0.
  set (wr := put_channels _ w) in Hb0. revert Ha.
  unfold arriving. destruct (has _ _) eqn:Hmask; [|done].
  rewrite (report_ok _ _ _ _ _ _ Hb), (ok_conn _ _ _ _ _ Hb). fold wr.
  destruct (sys_read _ _ wr) as [r0 w1] eqn:Er. cbn [fst]. intros [= ->].
  destruct (handleReadable_read (user tid) tid conn wr c _ r rbound data w1 Hb0 Hr Hmax Er)
    as (b & Hr1 & Hb1 & E). destruct (read_unchanged _ _ _ _ _ Er) as [Hw1 Ha1].
  assert (Hpos : 0 < Zlen data) by (destruct data; [done|rewrite Zlen_cons;
    pose proof (Zlen_nonneg data); lia]).
  rewrite (proj2 (Z.ltb_lt _ _)) in E by done.
  exists (put_conn conn (set_receive_buffer b c) w1), b. split_and!; [done|done| | |].
  - intros fd. rewrite wire_put_conn, Hw1. apply wire_put_channels.
  - rewrite app_put_conn, Ha1. apply app_put_channels.
  - intros w' c' ch' Ec Hb' Hch.
    eapply event_runs; [exact Hb|exact Hrd| |exact Hb'|exact Hch]. fold wr. by rewrite Hmask, E.
Qed.

(** ** Runs of events up to the end of file, with the reads that delivered *)
Inductive event_run (tid : Z) (conn : ConnId) : list (list byte) -> W -> W -> Prop :=
| run_none w : event_run tid conn [] w w
| run_more mask rest w w1 w2 :
    arriving conn mask w <> Some (ReadOk []) -> event tid conn mask w = Ok w1 ->
    event_run tid conn rest w1 w2 ->
    event_run tid conn (event_input (arriving conn mask w) ++ rest) w w2.

End Events.
