(* ===== verification/DemoApp.v ===== *)
(** * DemoApp: the connection of TcpConnection.v's examples, with an application

    A concrete world for the examples of applications: the connection and kernel
    of [DemoConns], reads that deliver given pieces, and the application's
    data. *)
From Stdlib Require Import ZArith Lia List String.
From stdpp Require Import base option list numbers gmap strings tactics.
From S2P Require Import Prelude.
From S2P Require Import Buffer.
From S2P Require Import Channel.
From S2P Require Import PollerBase.
From S2P Require Import EventLoop.
From S2P Require Import InetAddress.
From S2P Require Socket.
From S2P Require Import TcpConnection.
From S2P Require Import ConnEvents.
From S2P Require Poller.
Open Scope Z_scope.

Record DemoApp (A : Type) := mkDemoApp {
  da_conns : DemoConns;
  da_reads : list (list byte);   (** what the next reads deliver *)
  da_app : A;
}.
Arguments mkDemoApp {A} _ _ _.
Arguments da_conns {A} _.
Arguments da_reads {A} _.
Arguments da_app {A} _.

Section DemoApp.
Context {A : Type}.

Definition with_conns (d : DemoConns) (w : DemoApp A) : DemoApp A :=
  mkDemoApp d (da_reads w) (da_app w).

#[export] Instance demo_app_loop : LoopWorld (DemoApp A) Poller.Poller ConnTask := {
  get_loop w := get_loop (da_conns w);
  put_loop lp w := with_conns (put_loop lp (da_conns w)) w;
  get_channels w := get_channels (da_conns w);
  put_channels st w := with_conns (put_channels st (da_conns w)) w;
}.

#[export] Instance demo_app_conns : ConnWorld (DemoApp A) Z := {
  get_conn conn w := get_conn conn (da_conns w);
  put_conn conn c w := with_conns (put_conn conn c (da_conns w)) w;
  drop_conn conn w := with_conns (drop_conn (U := Z) conn (da_conns w)) w;
}.

#[export] Instance demo_app_kernel : SocketKernel (DemoApp A) := {
  sys_write fd data w := let '(r, d) := sys_write fd data (da_conns w) in (r, with_conns d w);
  sys_read fd cap w :=
    match da_reads w with
    | data :: reads => (ReadOk (take (Z.to_nat cap) data), mkDemoApp (da_conns w) reads (da_app w))
    | [] => let '(r, d) := sys_read fd cap (da_conns w) in (r, with_conns d w)
    end;
  load_bytes _ _ _ := None;
}.

#[export] Instance demo_app_calls : Socket.SocketCalls (DemoApp A) := {
  Socket.sys_setsockopt _ _ _ _ w := (None, w);
  Socket.sys_bind _ _ w := (None, w);
  Socket.sys_listen _ _ w := (None, w);
  Socket.sys_connect _ _ w := (None, w);
  Socket.sys_accept4 _ w := (-1, mkSockaddr 0 0 0, w);
  Socket.sys_getsockname _ _ := None;
  Socket.sys_getpeername _ _ := None;
  Socket.sys_getsockopt_error _ w := (inr 0, w);
  Socket.sys_shutdown _ _ w := (None, w);
  Socket.sys_close _ w := w;
}.

#[export] Instance demo_app_data : AppWorld (DemoApp A) A := {
  get_app w := da_app w;
  put_app a w := mkDemoApp (da_conns w) (da_reads w) a;
}.

#[export] Instance demo_app_loop_laws : LoopWorldLaws (DemoApp A) Poller.Poller ConnTask.
Proof. by split. Qed.

#[export, program] Instance demo_app_conn_laws : ConnLaws (DemoApp A) Poller.Poller ConnTask Z := {
  wire fd w := wire fd (da_conns w);
}.
Next Obligation. intros conn conn' c w. apply (get_put_conn (ConnLaws := demo_conns_laws)). Qed.
Next Obligation. done. Qed.
Next Obligation. done. Qed.
Next Obligation. done. Qed.
Next Obligation. done. Qed.
Next Obligation. done. Qed.
Next Obligation. done. Qed.
Next Obligation. done. Qed.
Next Obligation.
  intros fd data w r w' H. cbn in H. destruct (demo_write fd data (da_conns w)) as [r1 w1] eqn:E.
  injection H as <- <-. apply (write_law (ConnLaws := demo_conns_laws) fd data _ r1 w1 E).
Qed.
Next Obligation.
  intros fd cap w r w' H0 H. cbn in H. destruct (da_reads w) as [|data reads]; injection H as <- <-.
  - by apply (read_law (ConnLaws := demo_conns_laws) fd cap (da_conns w)).
  - split_and!; try done. by apply ztake_take_le.
Qed.
Next Obligation. done. Qed.

#[export] Instance demo_app_laws : AppLaws (DemoApp A) Poller.Poller ConnTask Z A.
Proof.
  split; try done.
  - intros fd fd' cap w. cbn. by destruct (da_reads w).
  - intros fd data w. cbn. by destruct (demo_write fd data (da_conns w)).
  - intros fd cap w. cbn. by destruct (da_reads w).
Qed.

(** Connection [c] on the channel of the examples. *)
Lemma demo_app_base c reads a :
  get_conn 1 (put_conn 1 c demo_fresh) = Some c ->
  channel_ c = 20 -> socket_ c = 9 ->
  conn_base 7 1 (mkDemoApp (put_conn 1 c demo_fresh) reads a) c demo_channel9.
Proof.
  intros Hc H1 H2. destruct (demo_base Connecting). split; rewrite ?H1, ?H2; try done.
Qed.
End DemoApp.
