(* ===== verification/Responder.v ===== *)
(** * Responder: an application that answers what it receives

    A message callback that empties the receive buffer and sends an answer, as
    the echo servers and the benchmark's client do, keeps the promise
    [Responds]; what a connection with such a callback does in a run of events
    is proved from that promise alone. *)
From Stdlib Require Import ZArith Lia List String.
From stdpp Require Import base option list numbers gmap strings tactics.
From S2P Require Import Prelude.
From S2P Require Import Buffer.
From S2P Require Import Channel.
From S2P Require Import PollerBase.
From S2P Require Import EventLoop.
From S2P Require Import InetAddress.
From S2P Require Socket.
From S2P Require Import TcpConnection.
From S2P Require Import ConnEvents.
Open Scope Z_scope.
Open Scope outcome_scope.

Section Interface.
Context `{EFD : EventFd} {W P C U A : Type} `{PB : !PollerBase P (Closure C)}.
Context `{LW : !LoopWorld W P C} `{CW : !ConnWorld W U}.
Context `{SK : !SocketKernel W} `{SC : !Socket.SocketCalls W} `{AW : !AppWorld W A}.
Context {PL : PollerLaws P (Closure C)} {LWok : LoopWorldLaws W P C}.
Context {CLok : ConnLaws W P C U} {AL : AppLaws W P C U A}.
(** ** What an answering callback promises

    With [data] in the receive buffer of a connection that is up, it returns, the
    receive buffer is empty, the outgoing stream has grown by the answer, and the
    application has taken note; when bytes waited before, they still do. *)
Class Responds (reply : A -> list byte -> list byte) (note : list byte -> A -> A)
    (f : Z -> ConnId -> W -> outcome W) : Prop := {
  responds : forall tid conn w c ch q bound data rbound,
    conn_ok tid conn w c ch q bound -> refines (receive_buffer_ c) data rbound ->
    state_ c = Connected -> bound + Zlen (reply (get_app w) data) < 2 ^ 63 ->
    exists w' c' ch' q', f tid conn w = Ok w' /\
      conn_ok tid conn w' c' ch' q' (bound + Zlen (reply (get_app w) data)) /\
      refines (receive_buffer_ c') [] rbound /\
      c' = set_receive_buffer (receive_buffer_ c') (set_send_buffer (send_buffer_ c') c) /\
      same_dispatch ch ch' /\
      wire (socket_ c) w' ++ q' = (wire (socket_ c) w ++ q) ++ reply (get_app w) data /\
      (q <> [] -> wire (socket_ c) w' = wire (socket_ c) w) /\
      get_app w' = note data (get_app w);
}.

Lemma responds_ext reply note f g : (forall tid conn w, f tid conn w = g tid conn w) ->
  Responds reply note g -> Responds reply note f.
Proof.
  intros Hfg [Hg]. split. intros tid conn w c ch q bound data rbound Hok Hr Hs Hmax.
  rewrite Hfg. by apply (Hg tid conn w c ch).
Qed.

End Interface.

(** ** A connection that answers *)
Section Responder.
Context `{EFD : EventFd} {W P C U A : Type} `{PB : !PollerBase P (Closure C)}.
Context `{LW : !LoopWorld W P C} `{CW : !ConnWorld W U}.
Context `{SK : !SocketKernel W} `{SC : !Socket.SocketCalls W} `{AW : !AppWorld W A}.
Context {PL : PollerLaws P (Closure C)} {LWok : LoopWorldLaws W P C}.
Context {CLok : ConnLaws W P C U} {AL : AppLaws W P C U A}.
Context (task : ConnTask -> C) (user : Z -> U -> ConnId -> W -> outcome W) (on_message : U).
Context (reply : A -> list byte -> list byte) (note : list byte -> A -> A).
Context {RL : Responds reply note (fun tid => user tid on_message)}.
Context (client : Z -> C -> W -> outcome W).
Hypothesis client_task : forall tid t w,
  client tid (task t) w = run_conn_task task (user tid) tid t w.

(** What a run of reads is answered, and what it leaves of the application. *)
Fixpoint responses (a : A) (reads : list (list byte)) : list byte :=
  match reads with
  | [] => []
  | data :: reads => reply a data ++ responses (note data a) reads
  end.
Definition notes (reads : list (list byte)) (a : A) : A := foldl (fun a data => note data a) a reads.

Record answering (tid : Z) (conn : ConnId) (w : W) (c : TcpConnection U)
    (ch : Channel (Closure C)) (q : list byte) (bound rbound : Z) : Prop := {
  ans_ok : conn_ok tid conn w c ch q bound;
  ans_receive : refines (receive_buffer_ c) [] rbound;
  ans_up : state_ c = Connected;
  ans_message : message_callback_ c = Some on_message;
  ans_read : reads_with task conn ch;
}.

(** A run of reads has been answered. *)
Definition answered (tid : Z) (conn : ConnId) (w : W) (c : TcpConnection U) (q : list byte)
    (reads : list (list byte)) (bound rbound : Z) (w' : W) : Prop :=
  exists c' ch' q', answering tid conn w' c' ch' q' bound rbound /\
    (socket_ c' = socket_ c /\ channel_ c' = channel_ c) /\
    wire (socket_ c) w' ++ q' = (wire (socket_ c) w ++ q) ++ responses (get_app w) reads /\
    (q <> [] -> wire (socket_ c) w' = wire (socket_ c) w /\
                q' = q ++ responses (get_app w) reads) /\
    get_app w' = notes reads (get_app w).

Lemma waiting_stays (x x' q q' data : list byte) : x' ++ q' = (x ++ q) ++ data ->
  (q <> [] -> x' = x) -> q <> [] -> x' = x /\ q' = q ++ data.
Proof.
  intros Hs Hq Hne. specialize (Hq Hne). subst x'. split; [done|].
  rewrite <- app_assoc in Hs. by apply app_inv_head in Hs.
Qed.

(** One event: whatever it is but the end of file, it returns, and what arrived
    has been answered. *)
Lemma answer_event tid conn mask w c ch q bound rbound :
  answering tid conn w c ch q bound rbound -> 0 <= bound -> 0 <= rbound ->
  let reads := event_input (arriving conn mask w) in
  bound + Zlen (responses (get_app w) reads) < 2 ^ 62 -> rbound < 2 ^ 61 ->
  arriving conn mask w <> Some (ReadOk []) ->
  exists w', event client tid conn mask w = Ok w' /\
    answered tid conn w c q reads (bound + Zlen (responses (get_app w) reads))
      (rbound + Zlen (concat reads)) w'.
Proof.
  intros [[Hb Hq Hw] Hr Hs Hm Hrd] H0 H0' reads. subst reads.
  destruct (arriving conn mask w) as [[data|e]|] eqn:Ea.
  2,3: destruct (event_quiet task user client client_task tid conn mask w c ch _ _ Hb Hrd Hr)
         as (w' & E & Hb' & Hw' & Ha'); [by rewrite Ea|];
       cbn [event_input responses concat]; rewrite !Zlen_nil, !Z.add_0_r; intros _ _ _;
       exists w'; split; [exact E|]; exists c, (setReturnEvents mask ch), q;
       rewrite Hw', Ha', !app_nil_r; split_and!; try done; by split.
  cbn [event_input responses concat]. rewrite !app_nil_r. intros Hd Hrb Hne.
  destruct (event_delivers task user client client_task tid conn mask w c ch [] rbound data Hb Hrd Hr)
    as (w1 & b & Hb1 & Hr1 & Hw1 & Ha1 & Hrun); [unfold EXTRA_SIZE; lia|done|by intros ->|].
  cbn [app] in Hr1.
  assert (Hok1 : conn_ok tid conn w1 (set_receive_buffer b c) (setReturnEvents mask ch) q bound)
    by done.
  destruct (responds tid conn _ _ _ q bound data _ Hok1 Hr1 Hs ltac:(rewrite Ha1; lia))
    as (w' & c' & ch' & q' & E & Hok' & Hr' & Hc' & Hsd & Hstr & Hwait & Hn).
  cbn [socket_ set_receive_buffer] in Hstr, Hwait. rewrite Hw1, Ha1 in *.
  assert (Hf : (socket_ c' = socket_ c /\ channel_ c' = channel_ c) /\ state_ c' = state_ c /\
    message_callback_ c' = message_callback_ c) by by rewrite Hc'.
  destruct Hf as (Hf1 & Hf2 & Hf3), Hsd as (_ & Hrd' & _).
  exists w'. split.
  - apply (Hrun w' c' ch'); [by rewrite Hm|apply Hok'|apply Hf1].
  - exists c', ch', q'. cbn [responses notes foldl]. rewrite !app_nil_r.
    assert (Hrd2 : reads_with task conn ch') by (unfold reads_with; by rewrite Hrd').
    split_and!; [split; congruence || done|apply Hf1|apply Hf1|exact Hstr|by apply waiting_stays|done].
Qed.

Lemma responses_app a reads rest :
  responses a (reads ++ rest) = responses a reads ++ responses (notes reads a) rest.
Proof.
  revert a. induction reads as [|data reads IH]; intros a; cbn; [done|].
  by rewrite IH, <- app_assoc.
Qed.

Lemma answer_run tid conn reads w w' c ch q bound rbound : event_run client tid conn reads w w' ->
  answering tid conn w c ch q bound rbound -> 0 <= bound -> 0 <= rbound ->
  bound + Zlen (responses (get_app w) reads) < 2 ^ 62 -> rbound + Zlen (concat reads) < 2 ^ 61 ->
  answered tid conn w c q reads (bound + Zlen (responses (get_app w) reads))
    (rbound + Zlen (concat reads)) w'.
Proof.
  intros Hrun. revert c ch q bound rbound.
  induction Hrun as [w|mask rest w w1 w2 Hne E _ IH]; intros c ch q bound rbound He H1 H2 H3 H4.
  - cbn [responses concat]. rewrite !Zlen_nil, !Z.add_0_r. exists c, ch, q.
    split_and!; try done; by rewrite app_nil_r.
  - set (reads := event_input (arriving conn mask w)) in *.
    rewrite responses_app, Zlen_app, concat_app, Zlen_app in *.
    pose proof (Zlen_nonneg (responses (get_app w) reads)). pose proof (Zlen_nonneg (concat reads)).
    pose proof (Zlen_nonneg (responses (notes reads (get_app w)) rest)).
    pose proof (Zlen_nonneg (concat rest)).
    destruct (answer_event tid conn mask w c ch q bound rbound He H1 H2) as (w1' & E1 & Hec);
      [fold reads; lia|lia|done|]. fold reads in Hec. rewrite E in E1. injection E1 as <-.
    destruct Hec as (c1 & ch1 & q1 & He1 & [Hs1 Hc1] & Hstr1 & Hwait1 & Hn1). rewrite <- Hn1 in *.
    destruct (IH c1 ch1 q1 _ _ He1) as (c2 & ch2 & q2 & He2 & [Hs2 Hc2] & Hstr2 & Hwait2 & Hn2);
      [lia..|].
    exists c2, ch2, q2. rewrite Hs1 in *. rewrite <- !Z.add_assoc in He2. rewrite Hn1 in *.
    unfold answered. rewrite responses_app.
    split_and!; [done|congruence|congruence|by rewrite Hstr2, Hstr1, <- !app_assoc| |].
    + intros Hq. destruct (Hwait1 Hq) as [Hw1 Hq1]. destruct Hwait2 as [Hw2 Hq2].
      { rewrite Hq1. by destruct q. }
      split; [congruence|]. by rewrite Hq2, Hq1, <- app_assoc.
    + rewrite Hn2. unfold notes. by rewrite foldl_app.
Qed.
End Responder.
