(* ===== verification/EchoServer.v ===== *)
(** * EchoServer: a connection that sends back what it receives

    The message callbacks of the two echo servers of the repository, [run_server]
    of benchmark/echo_bench.cpp ([echo]) and the one of README.md
    ([echo_string]), as responders (Responder.v): both answer with the bytes
    themselves. *)
From Stdlib Require Import ZArith Lia List String.
From stdpp Require Import base option list numbers gmap strings tactics.
From S2P Require Import Prelude.
From S2P Require Import Buffer.
From S2P Require Import Channel.
From S2P Require Import PollerBase.
From S2P Require Import EventLoop.
From S2P Require Import InetAddress.
From S2P Require Socket.
From S2P Require Import TcpConnection.
From S2P Require Import ConnEvents.
From S2P Require Import Responder.
From S2P Require Poller.
Open Scope Z_scope.
Open Scope outcome_scope.

(** An echoing callback sends the data back and leaves the application's data
    alone. *)
Abbreviation Echoes f := (Responds (fun _ data => data) (fun _ a => a) f).

Section Echo.
Context `{EFD : EventFd} {W P C U A : Type} `{PB : !PollerBase P (Closure C)}.
Context `{LW : !LoopWorld W P C} `{CW : !ConnWorld W U}.
Context `{SK : !SocketKernel W} `{SC : !Socket.SocketCalls W} `{AW : !AppWorld W A}.
Context {PL : PollerLaws P (Closure C)} {LWok : LoopWorldLaws W P C}.
Context {CLok : ConnLaws W P C U} {AL : AppLaws W P C U A}.
Context (task : ConnTask -> C) (user : Z -> U -> ConnId -> W -> outcome W).

(** [conn->send(buf.peek(), buf.readableBytes()); buf.retrieveAll();] where [buf]
    is the receive buffer.  A message callback runs on the loop's thread, where
    both overloads of [send] hand the bytes to [sendInLoop] at once. *)
Definition echo (tid : Z) (conn : ConnId) (w : W) : outcome W :=
  let! c := deref_conn conn w in
  let! data := peek_bytes (receive_buffer_ c) (readableBytes (receive_buffer_ c)) in
  let! w := send task (user tid) tid conn data w in
  let! c := deref_conn conn w in
  Ok (put_conn conn (set_receive_buffer (retrieveAll (receive_buffer_ c)) c) w).

(** [std::string msg = buf.retrieveAllAsString(); conn->send(msg);]. *)
Definition echo_string (tid : Z) (conn : ConnId) (w : W) : outcome W :=
  let! c := deref_conn conn w in
  let! (msg, b) := retrieveAllAsString (receive_buffer_ c) in
  send task (user tid) tid conn msg (put_conn conn (set_receive_buffer b c) w).

#[export] Instance echo_laws : Echoes echo.
Proof.
  split. intros tid conn w c ch q bound data rbound Hok Hr Hs Hmax.
  destruct (sendInLoop_stream task tid conn w c ch q bound data Hok Hmax)
    as (w1 & E & (c1 & ch1 & q1 & Hok1 & Hc1 & Hsd & Hstr) & Hidle).
  pose proof (same_conn_fields _ _ Hc1) as (_ & _ & _ & Hrb & _).
  exists (put_conn conn (set_receive_buffer (retrieveAll (receive_buffer_ c1)) c1) w1),
    (set_receive_buffer (retrieveAll (receive_buffer_ c1)) c1), ch1, q1.
  rewrite wire_put_conn, app_put_conn. split_and!; try done.
  - unfold echo, deref_conn. rewrite (ok_conn _ _ _ _ _ (ok_base _ _ _ _ _ _ _ Hok)).
    cbn [mbind outcome_bind]. rewrite (refines_peek _ _ _ Hr). cbn [mbind outcome_bind].
    rewrite (send_connected task user tid conn w c ch data (ok_base _ _ _ _ _ _ _ Hok) Hs), E.
    cbn [mbind outcome_bind]. by rewrite (ok_conn _ _ _ _ _ (ok_base _ _ _ _ _ _ _ Hok1)).
  - by apply conn_ok_receive.
  - cbn. rewrite Hrb. by eapply refines_retrieveAll.
  - cbn. by rewrite <- Hc1.
  - by eapply sendInLoop_app.
Qed.

#[export] Instance echo_string_laws : Echoes echo_string.
Proof.
  split. intros tid conn w c ch q bound data rbound Hok Hr Hs Hmax.
  pose proof (conn_ok_receive _ _ _ _ _ _ _ (retrieveAll (receive_buffer_ c)) Hok) as Hok0.
  destruct (sendInLoop_stream task tid conn _ _ ch q bound data Hok0 Hmax)
    as (w1 & E & (c1 & ch1 & q1 & Hok1 & Hc1 & Hsd & Hstr) & Hidle).
  pose proof (same_conn_fields _ _ Hc1) as (_ & _ & _ & Hrb & _).
  exists w1, c1, ch1, q1. rewrite wire_put_conn in Hstr, Hidle. split_and!; try done.
  - unfold echo_string, deref_conn, retrieveAllAsString.
    rewrite (ok_conn _ _ _ _ _ (ok_base _ _ _ _ _ _ _ Hok)).
    cbn [mbind outcome_bind]. rewrite (refines_peek _ _ _ Hr). cbn [mbind outcome_bind].
    by rewrite (send_connected task user tid conn _ _ ch data (ok_base _ _ _ _ _ _ _ Hok0)).
  - rewrite Hrb. by eapply refines_retrieveAll.
  - etrans; [exact Hc1|]. by rewrite Hrb.
  - by rewrite (sendInLoop_app _ _ _ _ _ _ E), app_put_conn.
Qed.
End Echo.

(** ** An echo server's connection in a run of events *)
Section EchoRuns.
Context `{EFD : EventFd} {W P C U A : Type} `{PB : !PollerBase P (Closure C)}.
Context `{LW : !LoopWorld W P C} `{CW : !ConnWorld W U}.
Context `{SK : !SocketKernel W} `{SC : !Socket.SocketCalls W} `{AW : !AppWorld W A}.
Context {PL : PollerLaws P (Closure C)} {LWok : LoopWorldLaws W P C}.
Context {CLok : ConnLaws W P C U} {AL : AppLaws W P C U A}.
Context (task : ConnTask -> C) (user : Z -> U -> ConnId -> W -> outcome W) (on_message : U).
(** Its message callback is one of the two. *)
Hypothesis on_message_is :
  (forall tid conn w, user tid on_message conn w = echo task no_callback tid conn w) \/
  (forall tid conn w, user tid on_message conn w = echo_string task no_callback tid conn w).
Context (client : Z -> C -> W -> outcome W).
Hypothesis client_task : forall tid t w,
  client tid (task t) w = run_conn_task task (user tid) tid t w.

#[local] Instance on_message_echoes : Echoes (fun tid => user tid on_message).
Proof. by destruct on_message_is as [E|E]; eapply (responds_ext _ _ _ _ E); apply _. Qed.

Abbreviation answering := (answering task on_message).

Lemma echo_responses (a : A) reads :
  responses (fun _ data => data) (fun _ a => a) a reads = concat reads.
Proof. induction reads as [|data reads IH]; cbn; [done|]. by rewrite IH. Qed.

Lemma echo_run tid conn reads w w' c ch q bound rbound : event_run client tid conn reads w w' ->
  answering tid conn w c ch q bound rbound -> 0 <= bound -> 0 <= rbound ->
  bound + Zlen (concat reads) < 2 ^ 60 -> rbound + Zlen (concat reads) < 2 ^ 60 ->
  answered task on_message (fun _ data => data) (fun _ (a : A) => a) tid conn w c q reads
    (bound + Zlen (concat reads)) (rbound + Zlen (concat reads)) w'.
Proof.
  intros Hrun He H1 H2 H3 H4.
  pose proof (answer_run task user on_message (fun _ data => data) (fun _ a => a) client client_task
    _ _ _ _ _ _ _ _ _ _ Hrun He H1 H2) as H. rewrite echo_responses in H. apply H; lia.
Qed.

(** The echo server answers with the bytes it received, all of them, in their
    order and nothing else.  After any run of events on a connection (reads of
    any size, failed reads, reports that read nothing, and whatever the kernel
    takes of each write) what the kernel took followed by what waits in the send
    buffer has grown by exactly what arrived; nothing is left in the receive
    buffer, and the next event, unless it is the end of file, returns too. *)
Theorem echo_returns_every_byte tid conn reads w w' c ch q bound rbound :
  event_run client tid conn reads w w' -> answering tid conn w c ch q bound rbound ->
  0 <= bound -> 0 <= rbound ->
  bound + Zlen (concat reads) < 2 ^ 60 -> rbound + Zlen (concat reads) < 2 ^ 60 ->
  exists c' ch' q', conn_ok tid conn w' c' ch' q' (bound + Zlen (concat reads)) /\
    wire (socket_ c) w' ++ q' = wire (socket_ c) w ++ q ++ concat reads /\
    content (receive_buffer_ c') = [] /\
    forall mask, arriving conn mask w' <> Some (ReadOk []) ->
      Zlen (concat (event_input (arriving conn mask w'))) < 2 ^ 60 ->
      exists w'', event client tid conn mask w' = Ok w''.
Proof.
  intros Hrun He H1 H2 H3 H4. pose proof (Zlen_nonneg (concat reads)).
  destruct (echo_run _ _ _ _ _ _ _ _ _ _ Hrun He H1 H2 H3 H4)
    as (c' & ch' & q' & He' & _ & Hstr & _). rewrite echo_responses in Hstr.
  exists c', ch', q'. split_and!; [apply He'|by rewrite Hstr, <- app_assoc|apply He'|].
  intros mask Hne Hlen.
  destruct (answer_event task user on_message (fun _ data => data) (fun _ a => a) client client_task tid conn mask w' c' ch' q' _ _ He')
    as (w'' & E & _); rewrite ?echo_responses; [lia..|done|eauto].
Qed.

(** C18: once the kernel has left a byte waiting, the echo server never writes to
    that connection again: whatever events follow, POLLOUT among them, what
    arrives is queued behind the waiting bytes and nothing of it goes out. *)
Theorem echo_stalls tid conn reads w w' c ch q bound rbound :
  event_run client tid conn reads w w' -> answering tid conn w c ch q bound rbound -> q <> [] ->
  0 <= bound -> 0 <= rbound ->
  bound + Zlen (concat reads) < 2 ^ 60 -> rbound + Zlen (concat reads) < 2 ^ 60 ->
  wire (socket_ c) w' = wire (socket_ c) w /\
  exists c', get_conn conn w' = Some c' /\ content (send_buffer_ c') = q ++ concat reads.
Proof.
  intros Hrun He Hq H1 H2 H3 H4.
  destruct (echo_run _ _ _ _ _ _ _ _ _ _ Hrun He H1 H2 H3 H4)
    as (c' & ch' & q' & He' & _ & _ & Hw & _). rewrite echo_responses in Hw.
  destruct (Hw Hq) as [Hwire Hq']. split; [done|]. exists c'.
  pose proof (ans_ok _ _ _ _ _ _ _ _ _ _ He') as [Hb Hr _].
  split; [apply Hb|]. rewrite <- Hq'. apply Hr.
Qed.
End EchoRuns.

(** ** The connection of TcpConnection.v as an echo server

    Every read delivers two bytes; the kernel takes the first two, then refuses. *)
#[export] Instance demo_no_app : AppWorld DemoConns unit := {
  get_app _ := tt;
  put_app _ w := w;
}.

#[export] Instance demo_no_app_laws : AppLaws DemoConns Poller.Poller ConnTask Z unit.
Proof.
  split; try done. by intros [].
Qed.

Definition demo_echo_user (tid : Z) (f : Z) (conn : ConnId) (w : DemoConns) : outcome DemoConns :=
  if f =? 1 then echo (fun t => t) no_callback tid conn w else Ok w.

Lemma demo_echo_is :
  (forall tid conn w, demo_echo_user tid 1 conn w = echo (fun t => t) no_callback tid conn w) \/
  (forall tid conn w, demo_echo_user tid 1 conn w = echo_string (fun t => t) no_callback tid conn w).
Proof. by left. Qed.

Definition demo_client (tid : Z) (t : ConnTask) (w : DemoConns) : outcome DemoConns :=
  run_conn_task (fun t => t) (demo_echo_user tid) tid t w.
Abbreviation demo_event := (event demo_client 7 1).

(** The world after [n] readable events. *)
Fixpoint demo_echoed (n : nat) : DemoConns :=
  match n with
  | O => demo_in Connected
  | S n => match demo_event POLLIN (demo_echoed n) with Ok w => w | _ => demo_in Connected end
  end.

Definition demo_got : list byte := [Byte.x68; Byte.x69].

Lemma demo_echo_step n : (n < 3)%nat ->
  demo_event POLLIN (demo_echoed n) = Ok (demo_echoed (S n)) /\
  arriving 1 POLLIN (demo_echoed n) = Some (ReadOk demo_got).
Proof. intros H. do 3 (destruct n as [|n]; [split; by vm_compute|]). lia. Qed.

Lemma demo_echo_run n k : (n + k <= 3)%nat ->
  event_run demo_client 7 1 (replicate k demo_got) (demo_echoed n)
    (demo_echoed (n + k)).
Proof.
  revert n. induction k as [|k IH]; intros n H; cbn [replicate].
  { rewrite Nat.add_0_r. constructor. }
  destruct (demo_echo_step n) as [E Ea]; [lia|].
  change (demo_got :: replicate k demo_got)
    with (event_input (Some (ReadOk demo_got)) ++ replicate k demo_got). rewrite <- Ea.
  eapply run_more; [by rewrite Ea|exact E|]. replace (n + S k)%nat with (S n + k)%nat by lia.
  apply IH. lia.
Qed.

Lemma demo_echoing : answering (fun t => t) 1 7 1 (demo_in Connected) (demo_conn Connected)
  demo_channel9 [] 1032 1032.
Proof. split; [apply demo_ok|apply demo_refines|done..]. Qed.

Lemma echo_returns_every_byte_witness : exists c' ch' q',
  conn_ok 7 1 (demo_echoed 3) c' ch' q' 1038 /\
  wire 9 (demo_echoed 3) ++ q' = demo_got ++ demo_got ++ demo_got /\
  exists w'', demo_event POLLIN (demo_echoed 3) = Ok w''.
Proof.
  destruct (echo_returns_every_byte (fun t => t) demo_echo_user 1 demo_echo_is demo_client (fun _ _ _ => eq_refl)
    7 1 _ _ _ _ _ [] 1032 1032 (demo_echo_run 0 3 ltac:(lia)) demo_echoing)
    as (c' & ch' & q' & Hok & Hs & _ & Hnext); [by vm_compute..|].
  exists c', ch', q'. split; [exact Hok|]. split; [exact Hs|].
  by apply (Hnext POLLIN); vm_compute.
Defined.

(** After the second event two bytes wait; the third adds two more. *)
Definition demo_waiting : TcpConnection Z :=
  default (demo_conn Connected) (get_conn 1 (demo_echoed 2)).
Definition demo_waiting_channel : Channel (Closure ConnTask) :=
  default demo_channel9 (get_channels (demo_echoed 2) !! 20).

Lemma demo_waiting_echoing : answering (fun t => t) 1 7 1 (demo_echoed 2) demo_waiting
  demo_waiting_channel demo_got 1036 1036.
Proof.
  destruct (echo_run (fun t => t) demo_echo_user 1 demo_echo_is demo_client (fun _ _ _ => eq_refl)
    7 1 _ _ _ _ _ [] 1032 1032 (demo_echo_run 0 2 ltac:(lia)) demo_echoing)
    as (c' & ch' & q' & He & [Hs Hc] & Hstr & _); [by vm_compute..|].
  pose proof (ok_base _ _ _ _ _ _ _ (ans_ok _ _ _ _ _ _ _ _ _ _ He)) as Hb.
  pose proof (ok_conn _ _ _ _ _ Hb) as Hconn. pose proof (ok_channel _ _ _ _ _ Hb) as Hch.
  rewrite Hc in Hch.
  assert (demo_waiting = c') as -> by (by change (default (demo_conn Connected)
    (get_conn 1 (demo_echoed (0 + 2))) = c'); rewrite Hconn).
  assert (demo_waiting_channel = ch') as ->.
  { change (default demo_channel9 (get_channels (demo_echoed (0 + 2))
      !! channel_ (demo_conn Connected)) = ch'). by rewrite Hch. }
  assert (q' = demo_got) as <-.
  { apply (app_inv_head demo_got).
    assert (E : wire (socket_ (demo_conn Connected)) (demo_echoed (0 + 2)) = demo_got) by by vm_compute.
    rewrite E in Hstr. rewrite Hstr. by vm_compute. }
  exact He.
Qed.

Lemma demo_waiting_socket : socket_ demo_waiting = 9.
Proof. by vm_compute. Qed.

Lemma demo_wire2 : wire 9 (demo_echoed 2) = demo_got.
Proof. by vm_compute. Qed.

Lemma echo_stalls_witness : wire 9 (demo_echoed 3) = demo_got /\
  exists c', get_conn 1 (demo_echoed 3) = Some c' /\
    content (send_buffer_ c') = demo_got ++ demo_got.
Proof.
  pose proof (echo_stalls (fun t => t) demo_echo_user 1 demo_echo_is demo_client (fun _ _ _ => eq_refl)
    7 1 [demo_got] (demo_echoed 2) (demo_echoed 3) demo_waiting demo_waiting_channel demo_got
    1036 1036 (demo_echo_run 2 1 ltac:(lia)) demo_waiting_echoing
    ltac:(done) ltac:(done) ltac:(done) ltac:(done) ltac:(done)) as H.
  rewrite demo_waiting_socket, demo_wire2 in H. cbn [concat] in H. rewrite app_nil_r in H.
  exact H.
Defined.
