(* ===== verification/RunServer.v ===== *)
(** * RunServer: the echo server of benchmark/echo_bench.cpp, all its loops

    [run_server] is a TcpServer whose message callback is [EchoServer.echo].  The
    callback keeps the promises of ServerInv.v, so what is proved of every server
    holds of this program; and each of its connections answers what it reads. *)
From Stdlib Require Import ZArith Lia List String.
From stdpp Require Import base option list numbers gmap relations strings pretty tactics.
From S2P Require Import Prelude.
From S2P Require Import Buffer.
From S2P Require Import Channel.
From S2P Require Import PollerBase.
From S2P Require Import EventLoop.
From S2P Require Import InetAddress.
From S2P Require Socket.
From S2P Require Import TcpConnection.
From S2P Require EventLoopThreadPool.
From S2P Require Acceptor.
From S2P Require Import TcpServer.
From S2P Require Import LifeSpec.
From S2P Require Import ServerWorld.
From S2P Require Import ServerInv.
From S2P Require Import ServerSteps.
From S2P Require Import ServerLife.
From S2P Require Import ServerRuns.
From S2P Require Import ConnEvents.
From S2P Require Import Responder.
From S2P Require Import EchoServer.
From S2P Require Poller.
Open Scope Z_scope.
Open Scope outcome_scope.

Section RunServer.
Context `{EFD : EventFd} {W P : Type}.
(** One callback, the echo; no tasks of the user's. *)
Abbreviation C := (Work Empty_set).
Context `{PB : !PollerBase P (Closure C)} {PL : PollerLaws P (Closure C)}.
Context {reactor : LoopId -> LoopWorld W P C}.
Context `{CW : !ConnWorld W (Callback unit)} `{SK : !SocketKernel W}.
Context `{SC : !Socket.SocketCalls W} `{SW : !ServerWorld W unit}.
Context {SL : ServerLaws reactor} `{IT : InetText}.

Abbreviation loop_at := (loop_at reactor).
Abbreviation channels_at := (channels_at reactor).
Abbreviation inv := (inv (reactor := reactor)).
Abbreviation wire_at := (wire_at (reactor := reactor)).
Abbreviation stream := (stream (reactor := reactor)).

(** A connection sends in its own loop. *)
Definition echo_callback (tid : Z) (f : unit) (conn : ConnId) (w : W) : outcome W :=
  let! c := deref_conn conn w in
  echo (LW := reactor (home_ c)) ConnWork no_callback tid conn w.

Definition no_task (tid : Z) (t : Empty_set) (w : W) : outcome W := match t with end.

(** [run_server(port, thread_num)]: the server is made, configured and started;
    what [loop.loop()] and the workers do then are the steps of the system. *)
Definition run_server (tid : Z) (base : LoopId) (port thread_num : Z) (fd : Z) (cid : ChanId)
    (new_loops : nat -> LoopId) (w : W) : outcome W :=
  serve (reactor := reactor) (user := echo_callback) tid base (InetAddress_of_port port)
    "EchoServer" fd cid [Threads thread_num; OnMessage tt] new_loops w.

(** No buffer is prepended to. *)
#[local] Existing Instance unprepended.

Lemma refines_length b q bound : refines b q bound -> Zlen q <= bound.
Proof.
  intros (Hwf & <- & _ & Hl). rewrite content_length, readable_eq by done.
  destruct Hwf as (? & ? & ?). lia.
Qed.

(** The server's view of a connection gives the connection's own. *)
Lemma inv_conn_base conn c run st s w : inv run st s w -> get_conn conn w = Some c ->
  let bound := Z.max (Zlen (buffer_ (receive_buffer_ c))) (Zlen (buffer_ (send_buffer_ c))) in
  exists ch, conn_base (LW := reactor (home_ c)) (thread_id_ (loop_at (home_ c) w)) conn w c ch /\
    refines (receive_buffer_ c) (content (receive_buffer_ c)) bound /\
    refines (send_buffer_ c) (content (send_buffer_ c)) bound.
Proof.
  intros [Hco _] Hc. destruct (conn_staged _ _ _ _ _ Hco Hc) as [g Hst].
  destruct (conn_parts _ _ _ _ _ _ _ Hco Hc Hst) as (Hf & Hl & ch & [[R1 R2 R3 R4 R5 R6] Rr Ro _ _]).
  destruct Hl as [L1 L2].
  destruct (fine_buffers _ _ _ _ _ _ Hf) as (B1 & B2 & B3 & B4%Z.leb_le).
  assert (Hb : conn_base (LW := reactor (home_ c)) (thread_id_ (loop_at (home_ c) w)) conn w c ch)
    by (split; try done; by rewrite R4, <- L1 at 1).
  exists ch. split; [exact Hb|]. split; split_and!; done || lia.
Qed.

(** What the callback does to its connection, whatever state this is in. *)
Lemma echo_answers l tid conn w c ch data q bound :
  conn_base (LW := reactor l) tid conn w c ch -> refines (receive_buffer_ c) data bound ->
  refines (send_buffer_ c) q bound -> bound + Zlen data < 2 ^ 63 ->
  exists w' c' ch' q', echo (LW := reactor l) ConnWork no_callback tid conn w = Ok w' /\
    conn_base (LW := reactor l) tid conn w' c' ch' /\
    socket_ c' = socket_ c /\ channel_ c' = channel_ c /\
    content (receive_buffer_ c') = [] /\ content (send_buffer_ c') = q' /\
    (state_ c = Connected -> wire_at (socket_ c) w' ++ q' = (wire_at (socket_ c) w ++ q) ++ data).
Proof.
  intros Hb Hr Hq Hmax.
  assert (Hsend : exists w1 c1 ch1 q1,
    TcpConnection.send (LW := reactor l) ConnWork (no_callback tid) tid conn data w = Ok w1 /\
    conn_base (LW := reactor l) tid conn w1 c1 ch1 /\ same_conn c c1 /\
    content (send_buffer_ c1) = q1 /\
    (state_ c = Connected -> wire_at (socket_ c) w1 ++ q1 = (wire_at (socket_ c) w ++ q) ++ data)).
  { destruct (decide (state_ c = Connected)) as [Hs|Hs].
    - destruct (sendInLoop_grows (LW := reactor l) ConnWork tid conn w c ch q bound data Hb Hq Hmax)
        as (w1 & c1 & ch1 & q1 & E & Hb1 & (_ & Hq1 & _) & Hs1 & Hd).
      exists w1, c1, ch1, q1. rewrite !(one_wire l) in Hd. split_and!; try done.
      by rewrite (send_connected (LW := reactor l) ConnWork no_callback tid conn w c ch data Hb Hs).
    - exists w, c, ch, q. split_and!; try done; [|apply same_conn_refl|apply Hq].
      unfold TcpConnection.send, when_connected, deref_conn. rewrite (ok_conn _ _ _ _ _ Hb).
      cbn [mbind outcome_bind]. by rewrite decide_False. }
  destruct Hsend as (w1 & c1 & ch1 & q1 & E & Hb1 & (Hs1 & Hc1 & _)%same_conn_fields & Hq1 & Hd).
  exists (put_conn conn (set_receive_buffer (retrieveAll (receive_buffer_ c1)) c1) w1),
    (set_receive_buffer (retrieveAll (receive_buffer_ c1)) c1), ch1, q1.
  split_and!; try done.
  - unfold echo, deref_conn. rewrite (ok_conn _ _ _ _ _ Hb). cbn [mbind outcome_bind].
    rewrite (refines_peek _ _ _ Hr). cbn [mbind outcome_bind]. rewrite E.
    cbn [mbind outcome_bind]. by rewrite (ok_conn _ _ _ _ _ Hb1).
  - by eapply (conn_base_put (LW := reactor l)).
  - intros Hs. by rewrite wire_at_put_conn, Hd.
Qed.

#[export] Instance echo_user_laws :
  UserLaws (reactor := reactor) (user := echo_callback) (user_task := no_task).
Proof.
  split.
  - intros tid [] conn run st s w w' Hi E. unfold echo_callback, echo in E. inv_ok.
    rename a into c, a1 into data, a2 into w1, a3 into c1.
    unfold deref_conn in Ha, Ha0, Ha3.
    destruct (get_conn conn w) as [c'|] eqn:Hc; [|done]. injection Ha as ->. injection Ha0 as <-.
    destruct (get_conn conn w1) as [c1'|] eqn:Hc1; [|done]. injection Ha3 as ->.
    assert (H1 : public_calls (reactor := reactor) (user := echo_callback) tid w w1).
    { apply rtc_once. eapply call_send; [exact Hc|]. rewrite <- Ha2. apply send_callbacks. }
    eapply rtc_r; [exact H1|]. apply call_receive_buffer; [exact Hc1|].
    destruct (public_calls_keep tid w w1 H1 w run st s (conj Hi (reflexivity w))) as [Hi1 _].
    destruct (inv_conn_base conn c1 run st s w1 Hi1 Hc1) as (ch1 & _ & Hr & _).
    destruct (refines_retrieveAll _ _ _ Hr) as (? & _ & ? & _). by split.
  - intros tid [].
  - intros tid [] conn c run st s w Hi Hc <- [Hr1 Hr2].
    destruct (inv_conn_base conn c run st s w Hi Hc) as (ch & Hb & Hr & Hq).
    destruct (echo_answers _ _ _ _ _ _ _ _ _ Hb Hr Hq) as (w' & c' & ch' & q' & E & _).
    + pose proof (refines_length _ _ _ Hr). lia.
    + exists w'. unfold echo_callback, deref_conn. by rewrite Hc.
Qed.

Abbreviation act := (act (reactor := reactor) (user := echo_callback) (user_task := no_task)).
Abbreviation enabled := (enabled (T := Empty_set) (V := unit) (reactor := reactor)).
Abbreviation own := (own (T := Empty_set) (V := unit) (reactor := reactor)).
Abbreviation represents := (represents (reactor := reactor)).
Abbreviation system_run :=
  (system_run (reactor := reactor) (user := echo_callback) (user_task := no_task)).
Abbreviation served := (served (reactor := reactor) (user := echo_callback) (user_task := no_task)).

(** C6: the benchmark's server runs.  From idle loops, a free descriptor and a
    port that can be bound, [run_server] starts; after any number of steps of its
    loops and workers, in any interleaving and with whatever the kernel reports,
    its connections are in the stages of [life_step], and every step the library
    takes next - a closure of a connection's life, an event with its echo -
    succeeds. *)
Theorem run_server_safe tid base port thread_num fd cid new_loops w :
  ready_to_serve (reactor := reactor) tid base (InetAddress_of_port port) "EchoServer" fd cid
    [Threads thread_num; OnMessage tt] new_loops w ->
  exists w1, run_server tid base port thread_num fd cid new_loops w = Ok w1 /\
    forall w2, system_run w1 w2 ->
      (exists st, rtc life_step ∅ st /\ represents st w2) /\
      forall a, enabled w2 a -> own w2 a -> exists w3, act a w2 = Ok w3.
Proof.
  intros Hr.
  destruct (inv_serve (user := echo_callback) _ _ _ _ _ _ _ _ _ Hr)
    as (w1 & s1 & E & Hi1 & _).
  exists w1. split; [exact E|]. intros w2 Hrun.
  destruct (inv_run _ _ _ _ Hi1 Hrun) as (st & s & Hi & Hst). split.
  - exists st. split; [done|by eapply inv_represents].
  - intros a Hen Hown. by apply (inv_step a st s w2 Hi Hen).
Qed.

Lemma read_length b q bound fd data (w w1 : W) : refines b q bound ->
  sys_read fd (writableBytes b + EXTRA_SIZE) w = (ReadOk data, w1) -> Zlen data <= bound + EXTRA_SIZE.
Proof.
  intros Hr Er. destruct (read_law (ConnLaws := reactor_conn 0) _ _ _ _ _ (writable_room _ _ _ Hr) Er)
    as [Hcap _]. destruct Hr as (Hwf & _ & _ & Hl). rewrite writable_eq in Hcap by done.
  destruct Hwf as (? & ? & ?). lia.
Qed.

(** A report that reads is a step of the system that runs [handleReadable]. *)
Lemma ready_reads conn c ch re w w' c' ch' :
  let l := home_ c in let tid := thread_id_ (loop_at l w) in
  conn_base (LW := reactor l) tid conn w c ch ->
  read_callback_ ch = Some (Client (ConnWork (HandleReadable conn))) ->
  has re read_bits = true ->
  handleReadable (LW := reactor l) (TcpServer.call_callback reactor echo_callback tid) tid conn
    (reported (reactor := reactor) l (channel_ c) re ch w) = Ok w' ->
  conn_base (LW := reactor l) tid conn w' c' ch' -> channel_ c' = channel_ c ->
  act (Ready l (channel_ c) re) w = Ok w'.
Proof.
  intros l tid Hb Rr Hre E Hb' Hc'. pose proof (ok_channel _ _ _ _ _ Hb) as Hch.
  pose proof (conn_base_reported (LW := reactor l) _ _ _ _ _ re Hb) as Hb0.
  cbn [ServerLife.act]. unfold deref_channel, TcpServer.channels_at. rewrite Hch.
  cbn [mbind outcome_bind].
  destruct (handleEvent_reads (fun w => channels_at l w !! channel_ c)
    (run (LW := reactor l) (TcpServer.client reactor echo_callback no_task tid))
    (reported (reactor := reactor) l (channel_ c) re ch w) (setReturnEvents re ch)) as [_ Hgo].
  - apply (ok_channel _ _ _ _ _ Hb0).
  - apply (ok_unwired _ _ _ _ _ Hb0).
  - eapply (Hgo _ w' ch'); [exact Hre|exact Rr| | |apply (ok_unwired _ _ _ _ _ Hb')].
    + cbn [run]. unfold TcpServer.client, deref_conn. cbn [task_conn].
      pose proof (ok_conn _ _ _ _ _ Hb0) as Hc0.
      change (get_conn conn (reported (reactor := reactor) l (channel_ c) re ch w) = Some c) in Hc0.
      rewrite Hc0. cbn [mbind outcome_bind run_conn_task]. exact E.
    + rewrite <- Hc'. apply (ok_channel _ _ _ _ _ Hb').
Qed.

(** The worlds that [run_server] reaches: started on idle loops, then any number of
    steps of its loops and workers. *)
Definition running (w0 w : W) : Prop :=
  exists tid base port thread_num fd cid new_loops w1,
    ready_to_serve (reactor := reactor) tid base (InetAddress_of_port port) "EchoServer" fd cid
      [Threads thread_num; OnMessage tt] new_loops w0 /\
    run_server tid base port thread_num fd cid new_loops w0 = Ok w1 /\ system_run w1 w.

Lemma running_served w0 w : running w0 w -> served w0 w.
Proof.
  intros (tid & base & port & n & fd & cid & nl & w1 & Hr & E & Hrun).
  by exists tid, base, (InetAddress_of_port port), "EchoServer"%string, fd, cid,
    [Threads n; OnMessage tt], nl, w1.
Qed.

(** All its connections call the echo. *)
Lemma running_echoes w0 w conn c : running w0 w -> get_conn conn w = Some c ->
  TcpConnection.message_callback_ c = Some (UserCallback tt).
Proof.
  intros (tid & base & port & n & fd & cid & nl & w1 & Hr & E & Hrun) Hc.
  by apply (serve_calls_back _ _ _ _ _ _ _ _ _ _ _ Hr E Hrun) in Hc.
Qed.

(** C7: a connection of a running echo server answers what it reads.  In any
    reachable state of the server, when the poller reports a connection that is
    up and readv(2) delivers, the event succeeds, what the kernel has taken of the
    connection's bytes followed by what waits has grown by exactly what was in the
    receive buffer and what arrived, and the receive buffer is empty. *)
Theorem server_answers w0 w conn c re data : running w0 w -> get_conn conn w = Some c ->
  state_ c = Connected -> room (2 ^ 60) c -> arriving (LW := reactor (home_ c)) conn re w = Some (ReadOk data) ->
  data <> [] ->
  exists w' c', act (Ready (home_ c) (channel_ c) re) w = Ok w' /\
    get_conn conn w' = Some c' /\ socket_ c' = socket_ c /\ content (receive_buffer_ c') = [] /\
    wire_at (socket_ c) w' ++ content (send_buffer_ c')
    = (wire_at (socket_ c) w ++ content (send_buffer_ c)) ++ content (receive_buffer_ c) ++ data.
Proof.
  intros Hrun Hc Hs [R1 R2] Ha Hne. pose proof (running_echoes w0 w conn c Hrun Hc) as Hm.
  apply running_served, served_inv in Hrun as (st & s & Hi & _).
  destruct (conn_staged _ _ _ _ _ (proj1 Hi) Hc) as [g Hst].
  destruct (conn_parts _ _ _ _ _ _ _ (proj1 Hi) Hc Hst) as (_ & _ & ch' & [Rf Rr _ _ _]).
  destruct (inv_conn_base conn c None st s w Hi Hc) as (ch & Hb & Hr & Hq).
  assert (ch' = ch) as -> by (pose proof (cf_channel _ _ _ _ _ Rf) as E;
    pose proof (ok_channel _ _ _ _ _ Hb) as E'; unfold TcpServer.channels_at in E; congruence).
  set (l := home_ c) in *. set (tid := thread_id_ (loop_at l w)) in *.
  set (bound := Z.max _ _) in *. assert (Hbd : 0 <= bound < 2 ^ 60).
  { unfold bound. pose proof (Zlen_nonneg (buffer_ (send_buffer_ c))). lia. }
  pose proof (conn_base_reported (LW := reactor l) _ _ _ _ _ re Hb) as Hb0.
  set (wr := reported (reactor := reactor) l (channel_ c) re ch w).
  change (conn_base (LW := reactor l) tid conn wr c (setReturnEvents re ch)) in Hb0.
  revert Ha. unfold arriving. destruct (has re _) eqn:Hre; [|done].
  assert (Erep : report (LW := reactor l) re conn w = Ok wr)
    by apply (report_ok (LW := reactor l) _ _ _ _ _ _ Hb).
  rewrite Erep, Hc.
  destruct (sys_read _ _ wr) as [r w1] eqn:Er. cbn [fst]. intros [= ->].
  destruct (handleReadable_read (LW := reactor l) (TcpServer.call_callback reactor echo_callback tid)
    tid conn wr c _ _ bound data w1 Hb0 Hr ltac:(unfold EXTRA_SIZE; lia) Er) as (b & Hr1 & Hb1 & E).
  pose proof (read_length _ _ _ _ _ _ _ Hr Er) as Hlen.
  assert (Hwr : forall fd, wire_at fd w1 = wire_at fd w).
  { intros x. pose proof (wires_read (ServerLaws := SL) (socket_ c)
      (writableBytes (receive_buffer_ c) + EXTRA_SIZE) wr x) as Hx. rewrite Er in Hx. cbn [snd] in Hx.
    etrans; [exact Hx|]. apply wire_at_put_channels. }
  assert (Hpos : 0 < Zlen data).
  { destruct data; [done|]. rewrite Zlen_cons. pose proof (Zlen_nonneg data). lia. }
  rewrite (proj2 (Z.ltb_lt _ _)), Hm in E by done. cbn [call_user TcpServer.call_callback] in E.
  destruct (echo_answers l tid conn _ _ _ _ (content (send_buffer_ c)) (bound + Zlen data) Hb1 Hr1)
    as (w' & c' & ch' & q' & E' & Hb' & Hs' & Hc' & Hrc & Hq' & Hd).
  { eapply refines_weaken; [exact Hq|lia]. }
  { rewrite Zlen_app. pose proof (refines_length _ _ _ Hr). unfold EXTRA_SIZE in *. lia. }
  cbn [socket_ channel_ set_receive_buffer state_] in *.
  exists w', c'. split_and!; [|apply Hb'|done|done|].
  - apply (ready_reads conn c ch re w w' c' ch' Hb Rr Hre); [|exact Hb'|exact Hc'].
    etrans; [exact E|]. unfold echo_callback, deref_conn. by rewrite (ok_conn _ _ _ _ _ Hb1).
  - rewrite Hq', (Hd Hs), wire_at_put_conn, Hwr. done.
Qed.
End RunServer.
