(* ===== verification/ServerDemo.v ===== *)
(** * ServerDemo: a server with two worker loops, run on concrete input

    An instance of every class the server's theorems assume: loops over the
    poll poller and a kernel that answers from scripts; the program is the echo
    server of RunServer.v.  The witnesses of Acceptor.v, ServerLife.v, ServerRuns.v
    and RunServer.v are here. *)
From Stdlib Require Import ZArith Lia List String.
From stdpp Require Import base option list numbers gmap relations strings pretty tactics.
From S2P Require Import Prelude.
From S2P Require Import Buffer.
From S2P Require Import Channel.
From S2P Require Import PollerBase.
From S2P Require Import EventLoop.
From S2P Require Import InetAddress.
From S2P Require Socket.
From S2P Require Import TcpConnection.
From S2P Require EventLoopThreadPool.
From S2P Require Acceptor.
From S2P Require Import TcpServer.
From S2P Require Import LifeSpec.
From S2P Require Import ServerWorld.
From S2P Require Import ServerInv.
From S2P Require Import ServerSteps.
From S2P Require Import ServerLife.
From S2P Require Import ServerRuns.
From S2P Require Import ConnEvents.
From S2P Require Import EchoServer.
From S2P Require Import RunServer.
From S2P Require Poller.
Open Scope Z_scope.
Open Scope outcome_scope.

Abbreviation DemoWork := (Work Empty_set).

Record DemoServer := mkDemoServer {
  ds_loops : gmap LoopId (EventLoop Poller.Poller DemoWork);
  ds_channels : gmap LoopId (Store (Closure DemoWork));
  ds_conns : gmap ConnId (TcpConnection (Callback unit));
  ds_server : option (TcpServer unit);
  ds_wire : gmap Z (list byte);
  ds_accepts : list Z;             (** what accept4(2) returns *)
  ds_reads : list read_result;     (** what readv(2) returns *)
}.

(** A loop is idle until it is first written. *)
Definition idle_loop (l : LoopId) : EventLoop Poller.Poller DemoWork :=
  mkEventLoop l true false false (10 + l) Poller.make_Poller [] (40 + l) 0%nat (50 + l) [].

Definition demo_reactor (l : LoopId) : LoopWorld DemoServer Poller.Poller DemoWork := {|
  get_loop w := default (idle_loop l) (ds_loops w !! l);
  put_loop lp w := mkDemoServer (<[l := lp]> (ds_loops w)) (ds_channels w) (ds_conns w)
    (ds_server w) (ds_wire w) (ds_accepts w) (ds_reads w);
  get_channels w := default ∅ (ds_channels w !! l);
  put_channels st w := mkDemoServer (ds_loops w) (<[l := st]> (ds_channels w)) (ds_conns w)
    (ds_server w) (ds_wire w) (ds_accepts w) (ds_reads w);
|}.

#[global] Instance demo_server_conns : ConnWorld DemoServer (Callback unit) := {
  get_conn conn w := ds_conns w !! conn;
  put_conn conn c w := mkDemoServer (ds_loops w) (ds_channels w) (<[conn := c]> (ds_conns w))
    (ds_server w) (ds_wire w) (ds_accepts w) (ds_reads w);
  drop_conn conn w := mkDemoServer (ds_loops w) (ds_channels w) (delete conn (ds_conns w))
    (ds_server w) (ds_wire w) (ds_accepts w) (ds_reads w);
}.

Definition demo_put_wire (fd : Z) (data : list byte) (w : DemoServer) : DemoServer :=
  mkDemoServer (ds_loops w) (ds_channels w) (ds_conns w) (ds_server w)
    (<[fd := default [] (ds_wire w !! fd) ++ data]> (ds_wire w)) (ds_accepts w) (ds_reads w).
Definition demo_set_reads (rs : list read_result) (w : DemoServer) : DemoServer :=
  mkDemoServer (ds_loops w) (ds_channels w) (ds_conns w) (ds_server w) (ds_wire w)
    (ds_accepts w) rs.
Definition demo_set_accepts (fds : list Z) (w : DemoServer) : DemoServer :=
  mkDemoServer (ds_loops w) (ds_channels w) (ds_conns w) (ds_server w) (ds_wire w) fds
    (ds_reads w).

#[global] Instance demo_server_kernel : SocketKernel DemoServer := {
  sys_write fd data w := (WriteOk (Zlen data), demo_put_wire fd data w);
  sys_read fd cap w := match ds_reads w with
                       | ReadOk data :: rs => (ReadOk (take (Z.to_nat cap) data), demo_set_reads rs w)
                       | ReadErr e :: rs => (ReadErr e, demo_set_reads rs w)
                       | [] => (ReadErr 11, w)
                       end;
  load_bytes _ _ _ := None;
}.

#[global] Instance demo_server_calls : Socket.SocketCalls DemoServer := {
  Socket.sys_setsockopt _ _ _ _ w := (None, w);
  Socket.sys_bind _ _ w := (None, w);
  Socket.sys_listen _ _ w := (None, w);
  Socket.sys_connect _ _ w := (None, w);
  Socket.sys_accept4 _ w := match ds_accepts w with
                            | fd :: fds => (fd, mkSockaddr 2 0 0, demo_set_accepts fds w)
                            | [] => (-1, mkSockaddr 0 0 0, w)
                            end;
  Socket.sys_getsockname _ _ := None;
  Socket.sys_getpeername _ _ := None;
  Socket.sys_getsockopt_error _ w := (inr 0, w);
  Socket.sys_shutdown _ _ w := (None, w);
  Socket.sys_close _ w := w;
}.

#[global] Instance demo_server_world : ServerWorld DemoServer unit := {
  get_server := ds_server;
  put_server s w := mkDemoServer (ds_loops w) (ds_channels w) (ds_conns w) s (ds_wire w)
    (ds_accepts w) (ds_reads w);
  allocate w := (100 + Z.of_nat (size (ds_conns w)), 200 + Z.of_nat (size (ds_conns w)));
}.

Lemma demo_loop_laws l : LoopWorldLaws (LoopWorld0 := demo_reactor l) DemoServer Poller.Poller DemoWork.
Proof.
  split; try done; intros; cbn; by rewrite ?lookup_insert_eq, ?insert_insert_eq.
Qed.

#[program] Definition demo_conn_laws l : ConnLaws (LoopWorld0 := demo_reactor l)
    DemoServer Poller.Poller DemoWork (Callback unit) := {|
  wire fd w := default [] (ds_wire w !! fd);
|}.
Next Obligation. intros l conn conn' c w. cbn. rewrite lookup_insert. repeat case_decide; congruence. Qed.
Next Obligation. done. Qed.
Next Obligation. done. Qed.
Next Obligation. done. Qed.
Next Obligation. done. Qed.
Next Obligation. done. Qed.
Next Obligation. done. Qed.
Next Obligation. done. Qed.
Next Obligation.
  intros l fd data w r w' H. cbn in H. injection H as <- <-. pose proof (Zlen_nonneg data).
  split_and!; try done. cbn. rewrite lookup_insert_eq. cbn. f_equal. by rewrite ztake_ge by lia.
Qed.
Next Obligation.
  intros l fd cap w r w' H0 H. cbn in H.
  destruct (ds_reads w) as [|[data|e] rs]; injection H as <- <-; split_and!; try done.
  by apply ztake_take_le.
Qed.
Next Obligation. done. Qed.

Definition hi_bytes : list byte := [Byte.x68; Byte.x69].

#[program] Definition demo_server_laws :
    ServerLaws (T := Empty_set) (V := unit) demo_reactor := {|
  reactor_laws := demo_loop_laws;
  reactor_conn := demo_conn_laws;
|}.
Next Obligation. intros l l' lp w Hne. cbn. by rewrite lookup_insert_ne. Qed.
Next Obligation. done. Qed.
Next Obligation. done. Qed.
Next Obligation. intros l l' st w Hne. cbn. by rewrite lookup_insert_ne. Qed.
Next Obligation. done. Qed.
Next Obligation. done. Qed.
Next Obligation. done. Qed.
Next Obligation. done. Qed.
Next Obligation. done. Qed.
Next Obligation. done. Qed.
Next Obligation. done. Qed.
Next Obligation. done. Qed.
Next Obligation. intros fd cap w. cbn. by destruct (ds_reads w) as [|[] ?]. Qed.
Next Obligation. done. Qed.
Next Obligation. intros fd w. cbn. by destruct (ds_accepts w). Qed.
Next Obligation. done. Qed.
Next Obligation. done. Qed.
Next Obligation. done. Qed.
Next Obligation. done. Qed.
Next Obligation. done. Qed.
Next Obligation. intros fd fd' data w Hne. cbn. by rewrite lookup_insert_ne. Qed.
Next Obligation. done. Qed.
Next Obligation. intros fd cap w x. cbn. by destruct (ds_reads w) as [|[] ?]. Qed.
Next Obligation. done. Qed.
Next Obligation. intros fd w x. cbn. by destruct (ds_accepts w). Qed.
Next Obligation. done. Qed.
Next Obligation. done. Qed.
#[global] Existing Instance demo_server_laws.

#[local] Existing Instance unprepended.
#[local] Existing Instance raw_text.
Abbreviation demo_echo := (echo_callback (reactor := demo_reactor)).

(** One connection comes in, sends two bytes and then closes. *)
Definition demo_blank : DemoServer :=
  mkDemoServer ∅ ∅ ∅ None ∅ [21] [ReadOk hi_bytes; ReadOk []].

Definition demo_options : list (server_option (V := unit)) :=
  [Threads 2; OnMessage tt].

Lemma demo_ready : ready_to_serve (reactor := demo_reactor) 10 0 (InetAddress_of_port 80) "EchoServer" 20 5 demo_options
  (fun i => 1 + Z.of_nat i) demo_blank.
Proof.
  assert (Hidle : forall l, loop_fine (reactor := demo_reactor) l demo_blank).
  { intros l. split; [done|]. apply Poller.make_Poller_inv. intros cid c H. cbn in H.
    by rewrite lookup_empty in H. }
  split; try done. intros i. split; [lia|apply Hidle].
Qed.

Definition demo_started : outcome DemoServer :=
  run_server (reactor := demo_reactor) 10 0 80 2 20 5 (fun i => 1 + Z.of_nat i) demo_blank.

(** The steps of a whole life: accepted into loop 1, established there, a message
    that is answered, the end of file, the removal in loop 0, the end in loop 1. *)
Definition demo_actions : list (action (T := Empty_set)) :=
  [Ready 0 5 POLLIN; RunTask 1; Ready 1 200 POLLIN; Ready 1 200 POLLIN; RunTask 0; RunTask 1].

Abbreviation demo_act := (act (reactor := demo_reactor) (user := demo_echo) (user_task := no_task)).
Abbreviation demo_system_run := (system_run (reactor := demo_reactor) (user := demo_echo) (user_task := no_task)).
Abbreviation demo_served := (served (reactor := demo_reactor) (user := demo_echo) (user_task := no_task)).
Abbreviation demo_enabled := (enabled (T := Empty_set) (V := unit) (reactor := demo_reactor)).

Fixpoint run_actions (l : list (action (T := Empty_set))) (w : DemoServer) : outcome DemoServer :=
  match l with
  | [] => Ok w
  | a :: l => let! w := demo_act a w in run_actions l w
  end.

(** The world after [n] of these steps. *)
Definition demo_world (n : nat) : DemoServer :=
  match demo_started with
  | Ok w => match run_actions (take n demo_actions) w with Ok w => w | _ => demo_blank end
  | _ => demo_blank
  end.

Lemma demo_started_ok : demo_started = Ok (demo_world 0).
Proof. by vm_compute. Qed.

Lemma demo_steps n a : demo_actions !! n = Some a ->
  demo_act a (demo_world n) = Ok (demo_world (S n)).
Proof. intros H. do 6 (destruct n as [|n]; [injection H as <-; by vm_compute|]). done. Qed.

(** What the worlds look like along the way. *)
Definition demo_view (w : DemoServer) : option State * list (LoopId * nat) * list byte * bool :=
  (state_ <$> ds_conns w !! 100,
   (fun l => (l, length (task_queue_ (get_loop (LoopWorld := demo_reactor l) w)))) <$> [0; 1; 2],
   default [] (ds_wire w !! 21),
   match ds_server w with
   | Some s => bool_decide (TcpServer.connections_ s !! "EchoServer#1"%string = Some 100)
   | None => false
   end).

Example demo_life : (fun n => demo_view (demo_world n)) <$> [0; 1; 2; 3; 4; 5; 6]%nat =
  [(None, [(0, 0%nat); (1, 0%nat); (2, 0%nat)], [], false);
   (Some Connecting, [(0, 0%nat); (1, 1%nat); (2, 0%nat)], [], true);
   (Some Connected, [(0, 0%nat); (1, 0%nat); (2, 0%nat)], [], true);
   (Some Connected, [(0, 0%nat); (1, 0%nat); (2, 0%nat)], hi_bytes, true);
   (Some Disconnected, [(0, 1%nat); (1, 0%nat); (2, 0%nat)], hi_bytes, true);
   (Some Disconnected, [(0, 0%nat); (1, 1%nat); (2, 0%nat)], hi_bytes, false);
   (Some Disconnected, [(0, 0%nat); (1, 0%nat); (2, 0%nat)], hi_bytes, false)].
Proof. by vm_compute. Qed.

(** ** Each of these steps is enabled *)
Definition demo_server (n : nat) : TcpServer unit :=
  default (new_server 0 "" 0 0) (ds_server (demo_world n)).
Definition demo_conn100 (n : nat) : TcpConnection (Callback unit) :=
  default (new_object 0 0 "" 0 (mkSockaddr 0 0 0) (mkSockaddr 0 0 0)) (ds_conns (demo_world n) !! 100).
Definition demo_channel (n : nat) (l : LoopId) (cid : ChanId) : Channel (Closure DemoWork) :=
  default (make_Channel 0 0) (default ∅ (ds_channels (demo_world n) !! l) !! cid).

Lemma demo_fresh0 : accept_fresh (reactor := demo_reactor) (demo_server 0)
  (reported (reactor := demo_reactor) 0 5 POLLIN (demo_channel 0 0 5) (demo_world 0)).
Proof.
  assert (El : server_loops (demo_server 0) = [0; 1; 2]) by by vm_compute.
  assert (Ec : ds_conns (demo_world 0) = ∅) by by vm_compute.
  assert (Es : Acceptor.accept_socket_ (acceptor_ (demo_server 0)) = 20) by by vm_compute.
  assert (Ea : ds_accepts (demo_world 0) = [21]) by by vm_compute.
  unfold accept_fresh. cbn [Socket.sys_accept4 demo_server_calls].
  replace (ds_accepts _) with [21] by by vm_compute.
  intros _. cbn [allocate demo_server_world]. replace (ds_conns _) with (∅ : gmap ConnId (TcpConnection (Callback unit))) by by vm_compute.
  split.
  - by vm_compute.
  - rewrite El. intros l. rewrite !list.elem_of_cons.
    intros [->|[->|[->|[]%elem_of_nil]]]; by vm_compute.
  - intros x c. replace (get_conn x _) with (None : option (TcpConnection (Callback unit))); [done|].
    symmetry. cbn. unfold reported. cbn. by rewrite Ec.
  - rewrite Es. done.
  - rewrite El. intros l. rewrite !list.elem_of_cons.
    intros [->|[->|[->|[]%elem_of_nil]]]; by vm_compute.
Qed.

Lemma demo_accept_enabled : demo_enabled (demo_world 0) (Ready 0 5 POLLIN).
Proof.
  assert (E : (Ready 0 5 POLLIN : action (T := Empty_set))
    = Ready (TcpServer.loop_ (demo_server 0)) (Acceptor.accept_channel_ (acceptor_ (demo_server 0))) POLLIN)
    by by vm_compute.
  rewrite E. apply enabled_accept with (ch := demo_channel 0 0 5).
  - by vm_compute.
  - by vm_compute.
  - intros _. by vm_compute.
  - by vm_compute.
  - assert (El : TcpServer.loop_ (demo_server 0) = 0) by by vm_compute.
    assert (Ec : Acceptor.accept_channel_ (acceptor_ (demo_server 0)) = 5) by by vm_compute.
    rewrite El, Ec. apply demo_fresh0.
Qed.

(** The buffers stay small. *)
Lemma demo_roomy n : (n < 6)%nat -> roomy (2 ^ 60) (demo_world n).
Proof.
  intros Hn. assert (E : ds_conns (demo_world n) = (match ds_conns (demo_world n) !! 100 with
    | Some c => {[100 := c]} | None => ∅ end)).
  { do 6 (destruct n as [|n]; [by vm_compute|]). lia. }
  assert (H : match ds_conns (demo_world n) !! 100 with
    | Some c => (Zlen (buffer_ (receive_buffer_ c)) <? 2 ^ 60) = true /\
                (Zlen (buffer_ (send_buffer_ c)) <? 2 ^ 60) = true
    | None => True end).
  { clear E. do 6 (destruct n as [|n]; [by vm_compute|]). lia. }
  intros conn c Hc. cbn in Hc. rewrite E in Hc.
  destruct (ds_conns (demo_world n) !! 100) as [c'|]; [|by rewrite lookup_empty in Hc].
  apply lookup_singleton_Some in Hc as [_ <-]. destruct H as [H1%Z.ltb_lt H2%Z.ltb_lt]. by split.
Qed.

Lemma demo_task_enabled n l c rest : (n < 6)%nat ->
  task_queue_ (get_loop (LoopWorld := demo_reactor l) (demo_world n)) = c :: rest ->
  demo_enabled (demo_world n) (RunTask l).
Proof. intros Hn H. eapply enabled_task; [exact H|by apply demo_roomy]. Qed.

Lemma demo_conn_enabled n : (n = 2 \/ n = 3)%nat -> demo_enabled (demo_world n) (Ready 1 200 POLLIN).
Proof.
  intros Hn.
  assert (E : (Ready 1 200 POLLIN : action (T := Empty_set))
    = Ready (home_ (demo_conn100 n)) (channel_ (demo_conn100 n)) POLLIN)
    by (destruct Hn as [-> | ->]; by vm_compute).
  rewrite E. apply enabled_conn with (conn := 100) (ch := demo_channel n 1 200).
  - destruct Hn as [-> | ->]; by vm_compute.
  - destruct Hn as [-> | ->]; by vm_compute.
  - intros _. destruct Hn as [-> | ->]; by vm_compute.
  - apply demo_roomy. lia.
Qed.

Lemma demo_enabled_all n a : demo_actions !! n = Some a -> demo_enabled (demo_world n) a.
Proof.
  intros H. destruct n as [|[|[|[|[|[|n]]]]]]; cbn in H; [injection H as <-..|done].
  - exact demo_accept_enabled.
  - eapply demo_task_enabled; [lia|by vm_compute].
  - apply demo_conn_enabled. by left.
  - apply demo_conn_enabled. by right.
  - eapply demo_task_enabled; [lia|by vm_compute].
  - eapply demo_task_enabled; [lia|by vm_compute].
Qed.

Lemma demo_run n m : (n <= m <= 6)%nat ->
  demo_system_run (demo_world n) (demo_world m).
Proof.
  intros [Hn Hm]. induction Hn as [|m Hn IH]; [constructor|].
  eapply rtc_r; [apply IH; lia|].
  destruct (lookup_lt_is_Some_2 demo_actions m) as [a Ha]; [cbn; lia|].
  eapply system_act; [by apply demo_enabled_all|by apply demo_steps].
Qed.

Lemma demo_is_served n : (n <= 6)%nat -> demo_served demo_blank (demo_world n).
Proof.
  intros Hn. eexists 10, 0, _, _, 20, 5, _, _, (demo_world 0).
  split_and!; [apply demo_ready|apply demo_started_ok|apply demo_run; lia].
Qed.

Lemma demo_is_running n : (n <= 6)%nat -> running (reactor := demo_reactor) demo_blank (demo_world n).
Proof.
  intros Hn. exists 10, 0, 80, 2, 20, 5, (fun i => 1 + Z.of_nat i), (demo_world 0).
  split_and!; [apply demo_ready|apply demo_started_ok|apply demo_run; lia].
Qed.

(** ** The witnesses *)
Lemma server_starts_witness : exists w', demo_started = Ok w' /\
  demo_served demo_blank w' /\ represents (reactor := demo_reactor) ∅ w'.
Proof.
  apply (server_starts (reactor := demo_reactor) (user := demo_echo) (user_task := no_task)). apply demo_ready.
Defined.

Lemma server_refines_life_witness : exists st, rtc life_step ∅ st /\
  represents (reactor := demo_reactor) st (demo_world 1) /\
  forall w', demo_system_run (demo_world 1) w' ->
    exists st', rtc life_step st st' /\ represents (reactor := demo_reactor) st' w'.
Proof.
  apply (server_refines_life (user := demo_echo) (user_task := no_task) demo_blank). by apply demo_is_served; lia.
Defined.

Lemma server_steps_succeed_witness : exists w', demo_act (RunTask 0) (demo_world 4) = Ok w'.
Proof.
  apply (server_steps_succeed (user := demo_echo) (user_task := no_task) demo_blank).
  - by apply demo_is_served; lia.
  - by apply (demo_enabled_all 4).
  - eapply own_life with (c := ServerWork (RemoveConnectionInLoop 100)) (rest := []); by vm_compute.
Defined.

Lemma server_well_formed_witness : exists s, get_server (demo_world 6) = Some s /\
  well_formed (reactor := demo_reactor) s (demo_world 6).
Proof.
  apply (server_well_formed (user := demo_echo) (user_task := no_task) demo_blank). by apply demo_is_served; lia.
Defined.

Lemma life_closures_once_witness : exists s, get_server (demo_world 5) = Some s /\
  (forall l, NoDup (pending (reactor := demo_reactor) (demo_world 5) l)) /\
  (forall l t, t ∈ pending (reactor := demo_reactor) (demo_world 5) l ->
     life_task_ok s (demo_world 5) l t) /\
  forall l l' t t', t ∈ pending (reactor := demo_reactor) (demo_world 5) l ->
    t' ∈ pending (reactor := demo_reactor) (demo_world 5) l' -> life_conn t = life_conn t' -> l = l' /\ t = t'.
Proof.
  apply (life_closures_once (user := demo_echo) (user_task := no_task) demo_blank). by apply demo_is_served; lia.
Defined.

Lemma connections_never_released_witness :
  (is_Some (get_conn 100 (demo_world 6)) -> owner demo_reactor 100 (demo_world 6)) /\
  ~ demo_enabled (demo_world 6) (Release 100) /\
  forall w', demo_system_run (demo_world 6) w' ->
    is_Some (get_conn 100 (demo_world 6)) -> is_Some (get_conn 100 w').
Proof.
  apply (connections_never_released (user := demo_echo) (user_task := no_task) demo_blank). by apply demo_is_served; lia.
Defined.

(** Accepted at step 0, established at step 1; closed at step 3, removed at step 4
    and gone at step 5. *)
Lemma demo_single n a : demo_actions !! n = Some a ->
  runs (reactor := demo_reactor) (user := demo_echo) (user_task := no_task)
    [a] (demo_world n) (demo_world (S n)).
Proof.
  intros H. econstructor; [by apply demo_enabled_all|by apply demo_steps|constructor].
Qed.

Lemma connection_leaves_transit_witness :
  (exists c, get_conn 100 (demo_world 2) = Some c /\ state_ c <> Connecting) /\
  exists s c, get_server (demo_world 6) = Some s /\ get_conn 100 (demo_world 6) = Some c /\
    shows (reactor := demo_reactor) s (demo_world 6) 100 c Dead.
Proof.
  split.
  - apply (proj1 (connection_leaves_transit (reactor := demo_reactor) (user := demo_echo) (user_task := no_task)
      demo_blank (demo_world 1) 100 (demo_conn100 1) (demo_is_served 1 ltac:(lia)) ltac:(by vm_compute))
      ltac:(by vm_compute) [RunTask 1]); [by apply (demo_single 1)|by vm_compute].
  - apply (proj2 (connection_leaves_transit (reactor := demo_reactor) (user := demo_echo) (user_task := no_task)
      demo_blank (demo_world 4) 100 (demo_conn100 4) (demo_is_served 4 ltac:(lia)) ltac:(by vm_compute))
      ltac:(by vm_compute) (demo_server 4) [RunTask 0] (demo_world 5) [RunTask 1]);
      [by vm_compute|by apply (demo_single 4)|by vm_compute|by apply (demo_single 5)|by vm_compute].
Defined.


Lemma run_server_safe_witness : exists w1,
  run_server (reactor := demo_reactor) 10 0 80 2 20 5 (fun i => 1 + Z.of_nat i) demo_blank = Ok w1 /\
  forall w2, demo_system_run w1 w2 ->
    (exists st, rtc life_step ∅ st /\ represents (reactor := demo_reactor) st w2) /\
    forall a, demo_enabled w2 a -> own (reactor := demo_reactor) w2 a -> exists w3, demo_act a w2 = Ok w3.
Proof. exact (run_server_safe 10 0 80 2 20 5 _ demo_blank demo_ready). Defined.

(** The message is answered at step 2. *)
Lemma demo_arriving : get_conn 100 (demo_world 2) = Some (demo_conn100 2) /\
  state_ (demo_conn100 2) = Connected /\
  (home_ (demo_conn100 2) = 1 /\ channel_ (demo_conn100 2) = 200 /\ socket_ (demo_conn100 2) = 21) /\
  (content (receive_buffer_ (demo_conn100 2)) = [] /\ content (send_buffer_ (demo_conn100 2)) = []) /\
  wire_at (reactor := demo_reactor) 21 (demo_world 2) = [] /\
  arriving (LW := demo_reactor 1) 100 POLLIN (demo_world 2) = Some (ReadOk hi_bytes).
Proof. split_and!; by vm_compute. Qed.

Lemma server_answers_witness : exists w' c', demo_act (Ready 1 200 POLLIN) (demo_world 2) = Ok w' /\
  get_conn 100 w' = Some c' /\
  wire_at (reactor := demo_reactor) 21 w' ++ content (send_buffer_ c') = hi_bytes.
Proof.
  destruct demo_arriving as (Hc & Hs & (Eh & Ech & Es) & (Er & Eq) & Hw & Ha).
  rewrite <- Eh in Ha.
  destruct (server_answers (reactor := demo_reactor) demo_blank (demo_world 2) 100 (demo_conn100 2)
    POLLIN hi_bytes (demo_is_running 2 ltac:(lia)) Hc Hs (demo_roomy 2 ltac:(lia) 100 _ Hc) Ha)
    as (w' & c' & E & Hc' & _ & _ & Hd); [done|].
  rewrite Eh, Ech in E. rewrite Es, Er, Eq, Hw in Hd.
  exists w', c'. split; [exact E|]. split; [exact Hc'|exact Hd].
Defined.

(** ** The acceptor of Acceptor.v in the base loop *)
#[global] Instance demo_listen_laws :
  Acceptor.ListenLaws (LoopWorld0 := demo_reactor 0) DemoServer Poller.Poller DemoWork.
Proof. by split. Qed.

Lemma acceptor_listens_witness : exists a w',
  Acceptor.open_acceptor (LW := demo_reactor 0) (ServerWork HandleAccept) 10 0 20 5
    (mkSockaddr 2 80 0) demo_blank = Ok (a, w') /\
  watched (F := Closure DemoWork) (poller_ (get_loop (LoopWorld := demo_reactor 0) w')) 20
    = Some (5, kReadEvent).
Proof.
  pose proof (Acceptor.acceptor_listens (LW := demo_reactor 0) (LWok := demo_loop_laws 0)
    (ServerWork HandleAccept) 10 0 20 5 (mkSockaddr 2 80 0) demo_blank) as H.
  destruct (Acceptor.open_acceptor _ _ _ _ _ _ _) as [[a w']| |] eqn:E.
  - exists a, w'. split; [reflexivity|]. apply H; try reflexivity; try lia.
    apply Poller.make_Poller_inv. intros cid c Hc. cbn in Hc. by rewrite lookup_empty in Hc.
  - vm_compute in E. discriminate E.
  - vm_compute in E. discriminate E.
Defined.

Lemma accept_branches_witness :
  Acceptor.handleRead (LW := demo_reactor 0) 10 (Acceptor.mkAcceptor 0 20 5 true true)
    (fun fd _ w => if fd =? 21 then Ok w else Undef) demo_blank
  = Ok (demo_set_accepts [] demo_blank).
Proof.
  destruct (Acceptor.accept_branches (LW := demo_reactor 0) 10 (Acceptor.mkAcceptor 0 20 5 true true)
    (fun fd _ w => if fd =? 21 then Ok w else Undef) demo_blank) as [_ H].
  rewrite (H eq_refl eq_refl 21 (mkSockaddr 2 0 0) (demo_set_accepts [] demo_blank) eq_refl).
  reflexivity.
Defined.

(** ** A server that is destroyed before its base loop

    Without worker threads the connection lives in the base loop: an end of file
    after [~TcpServer] calls the close callback, which uses the server. *)
Definition demo_alone : outcome DemoServer :=
  let! w := serve (reactor := demo_reactor) (user := demo_echo) 10 0 (InetAddress_of_port 80) "EchoServer" 20 5 [] (fun _ => 0) demo_blank in
  run_actions [Ready 0 5 POLLIN; Ready 0 200 POLLIN] w.

Example demo_destroyed : exists w w1,
  demo_alone = Ok w /\ destroy_TcpServer demo_reactor w = Ok w1 /\
  demo_act (Ready 0 200 POLLIN) w1 = Undef /\
  (exists w2, demo_act (Ready 0 200 POLLIN) w = Ok w2).
Proof.
  set (w := match demo_alone with Ok w => w | _ => demo_blank end).
  set (w1 := match destroy_TcpServer demo_reactor w with Ok w1 => w1 | _ => demo_blank end).
  exists w, w1. split_and!; [by vm_compute..|].
  exists (match demo_act (Ready 0 200 POLLIN) w with Ok w2 => w2 | _ => demo_blank end).
  by vm_compute.
Qed.
