(* ===== verification/EchoBench.v ===== *)
(** * EchoBench: benchmark/echo_bench.cpp

    The client side of the benchmark: the callbacks of a worker's connections
    with the counters they share ([Stats]), as a responder (Responder.v); how
    [run_client] hands a configuration to its threads; and what [main] makes of
    its arguments.  The server side is in EchoServer.v. *)
From Stdlib Require Import ZArith Lia List String Ascii.
From stdpp Require Import base option list numbers gmap strings tactics.
From S2P Require Import Prelude.
From S2P Require Import Buffer.
From S2P Require Import Channel.
From S2P Require Import PollerBase.
From S2P Require Import EventLoop.
From S2P Require Import InetAddress.
From S2P Require Socket.
From S2P Require Import TcpConnection.
From S2P Require Import ConnEvents.
From S2P Require Import Responder.
From S2P Require Import DemoApp.
From S2P Require EchoServer.
From S2P Require Poller.
Open Scope Z_scope.
Open Scope outcome_scope.

(** ** The counters

    [std::atomic] additions wrap around. *)
Record Stats := mkStats {
  bytes_sent : Z;
  bytes_received : Z;
  messages_sent : Z;
  messages_received : Z;
  connections_active : Z;
  test_finished : bool;
}.

Definition count_active (s : Stats) : Stats :=
  mkStats (bytes_sent s) (bytes_received s) (messages_sent s) (messages_received s)
    (to_int32 (connections_active s + 1)) (test_finished s).
Definition count_sent (size : Z) (s : Stats) : Stats :=
  mkStats (to_int64 (bytes_sent s + size)) (bytes_received s) (to_int64 (messages_sent s + 1))
    (messages_received s) (connections_active s) (test_finished s).
Definition count_received (bytes : Z) (s : Stats) : Stats :=
  mkStats (bytes_sent s) (to_int64 (bytes_received s + bytes)) (messages_sent s)
    (to_int64 (messages_received s + 1)) (connections_active s) (test_finished s).

Section Worker.
Context `{EFD : EventFd} {W P C U : Type} `{PB : !PollerBase P (Closure C)}.
Context `{LW : !LoopWorld W P C} `{CW : !ConnWorld W U}.
Context `{SK : !SocketKernel W} `{SC : !Socket.SocketCalls W} `{AW : !AppWorld W Stats}.
Context {PL : PollerLaws P (Closure C)} {LWok : LoopWorldLaws W P C}.
Context {CLok : ConnLaws W P C U} {AL : AppLaws W P C U Stats}.
Context (task : ConnTask -> C) (user : Z -> U -> ConnId -> W -> outcome W).
Context (payload : list byte).

Definition on_stats (f : Stats -> Stats) (w : W) : W := put_app (f (get_app w)) w.

(** The two callbacks [worker_thread] sets on its clients. *)
Definition connection_callback (tid : Z) (conn : ConnId) (w : W) : outcome W :=
  let! c := deref_conn conn w in
  if connected c then
    let w := on_stats count_active w in
    let! w := send task (user tid) tid conn payload w in
    Ok (on_stats (count_sent (Zlen payload)) w)
  else Ok w.

Definition message_callback (tid : Z) (conn : ConnId) (w : W) : outcome W :=
  let! c := deref_conn conn w in
  let bytes := readableBytes (receive_buffer_ c) in
  let w := on_stats (count_received bytes) w in
  let w := put_conn conn (set_receive_buffer (retrieveAll (receive_buffer_ c)) c) w in
  if negb (test_finished (get_app w)) then
    let! w := send task (user tid) tid conn payload w in
    Ok (on_stats (count_sent (Zlen payload)) w)
  else Ok w.

(** The timer's closure, at the end of the test. *)
Definition finish (s : Stats) : Stats :=
  mkStats (bytes_sent s) (bytes_received s) (messages_sent s) (messages_received s)
    (connections_active s) true.
Definition time_up (tid : Z) (w : W) : W := on_loop (EventLoop.quit tid) (on_stats finish w).

(** What a read is answered, and what it counts. *)
Definition next_message (s : Stats) (data : list byte) : list byte :=
  if test_finished s then [] else payload.
Definition count_read (data : list byte) (s : Stats) : Stats :=
  let s := count_received (Zlen data) s in
  if test_finished s then s else count_sent (Zlen payload) s.

Lemma conn_ok_app f tid conn w c ch q bound : conn_ok tid conn w c ch q bound ->
  conn_ok tid conn (on_stats f w) c ch q bound.
Proof.
  intros [Hb Hr Hw]. split; [|done|done]. apply (conn_base_frame _ _ w); [done|..]; unfold on_stats.
  - apply loop_put_app.
  - apply channels_put_app.
  - apply conn_put_app.
Qed.

Lemma wire_on_stats f fd w : wire fd (on_stats f w) = wire fd w.
Proof. apply wire_put_app. Qed.
Lemma app_on_stats f w : get_app (on_stats f w) = f (get_app w).
Proof. apply get_put_app. Qed.

Lemma conn_ok_time_up tid' tid conn w c ch q bound : conn_ok tid conn w c ch q bound ->
  conn_ok tid conn (time_up tid' w) c ch q bound.
Proof.
  intros Hok%(conn_ok_app finish). destruct Hok as [Hb Hr Hw]. split; [|done|done].
  by apply conn_base_flags; [apply quit_flags|].
Qed.

(** Sending the payload and counting it. *)
Lemma send_counted tid conn w c ch q bound : conn_ok tid conn w c ch q bound ->
  state_ c = Connected -> bound + Zlen payload < 2 ^ 63 ->
  exists w', (let! w := send task (user tid) tid conn payload w in
              Ok (on_stats (count_sent (Zlen payload)) w)) = Ok w' /\
    stream_grows tid conn w c ch q (bound + Zlen payload) payload w' /\
    (q <> [] -> wire (socket_ c) w' = wire (socket_ c) w) /\
    get_app w' = count_sent (Zlen payload) (get_app w).
Proof.
  intros Hok Hs Hmax.
  destruct (sendInLoop_stream task tid conn w c ch q bound payload Hok Hmax)
    as (w1 & E & (c1 & ch1 & q1 & Hok1 & Hc1 & Hsd & Hstr) & Hidle).
  exists (on_stats (count_sent (Zlen payload)) w1). rewrite app_on_stats, wire_on_stats.
  split_and!; [| |done|by rewrite (sendInLoop_app _ _ _ _ _ _ E)].
  - by rewrite (send_connected task user tid conn w c ch payload (ok_base _ _ _ _ _ _ _ Hok) Hs), E.
  - exists c1, ch1, q1. rewrite wire_on_stats. split_and!; [by apply conn_ok_app|done..].
Qed.

#[export] Instance message_callback_laws : Responds next_message count_read message_callback.
Proof.
  split. intros tid conn w c ch q bound data rbound Hok Hr Hs Hmax.
  set (w1 := on_stats (count_received (Zlen data)) w).
  set (w2 := put_conn conn (set_receive_buffer (retrieveAll (receive_buffer_ c)) c) w1).
  assert (Hok2 : conn_ok tid conn w2 (set_receive_buffer (retrieveAll (receive_buffer_ c)) c) ch q
    bound) by (apply conn_ok_receive; by apply conn_ok_app).
  assert (Ha2 : get_app w2 = count_received (Zlen data) (get_app w))
    by (unfold w2, w1; by rewrite app_put_conn, app_on_stats).
  assert (Hw2 : wire (socket_ c) w2 = wire (socket_ c) w)
    by (unfold w2, w1; by rewrite wire_put_conn, wire_on_stats).
  assert (Hcall : message_callback tid conn w = if negb (test_finished (get_app w2)) then
      let! w := send task (user tid) tid conn payload w2 in
      Ok (on_stats (count_sent (Zlen payload)) w) else Ok w2).
  { unfold message_callback, deref_conn. rewrite (ok_conn _ _ _ _ _ (ok_base _ _ _ _ _ _ _ Hok)).
    cbn [mbind outcome_bind]. by rewrite (refines_readable _ _ _ Hr). }
  rewrite Hcall, Ha2. unfold next_message, count_read in *. cbn [test_finished count_received] in *.
  destruct (test_finished (get_app w)); cbn [negb].
  - exists w2, (set_receive_buffer (retrieveAll (receive_buffer_ c)) c), ch, q.
    rewrite Zlen_nil, Z.add_0_r, app_nil_r, Hw2, Ha2.
    split_and!; try done. by eapply refines_retrieveAll.
  - destruct (send_counted tid conn w2 _ ch q bound Hok2 Hs Hmax)
      as (w3 & E & (c3 & ch3 & q3 & Hok3 & Hc3 & Hsd & Hstr) & Hidle & Ha3).
    pose proof (same_conn_fields _ _ Hc3) as (_ & _ & _ & Hrb & _).
    cbn [socket_ set_receive_buffer] in Hstr, Hidle. rewrite Hw2 in Hstr, Hidle.
    exists w3, c3, ch3, q3. rewrite Ha2 in Ha3. split_and!; try done.
    + rewrite Hrb. by eapply refines_retrieveAll.
    + etrans; [exact Hc3|]. by rewrite Hrb.
Qed.
End Worker.

(** ** A worker's connection *)
Section WorkerRuns.
Context `{EFD : EventFd} {W P C U : Type} `{PB : !PollerBase P (Closure C)}.
Context `{LW : !LoopWorld W P C} `{CW : !ConnWorld W U}.
Context `{SK : !SocketKernel W} `{SC : !Socket.SocketCalls W} `{AW : !AppWorld W Stats}.
Context {PL : PollerLaws P (Closure C)} {LWok : LoopWorldLaws W P C}.
Context {CLok : ConnLaws W P C U} {AL : AppLaws W P C U Stats}.
Context (task : ConnTask -> C) (payload : list byte).

(** The callbacks of its clients are those of [worker_thread]. *)
Context (user : Z -> U -> ConnId -> W -> outcome W) (on_connection on_message : U).
Hypothesis on_connection_is : forall tid conn w,
  user tid on_connection conn w = connection_callback task no_callback payload tid conn w.
Hypothesis on_message_is : forall tid conn w,
  user tid on_message conn w = message_callback task no_callback payload tid conn w.

#[local] Instance on_message_responds :
  Responds (next_message payload) (count_read payload) (fun tid => user tid on_message).
Proof. eapply (responds_ext _ _ _ _ on_message_is). apply _. Qed.

Context (client : Z -> C -> W -> outcome W).
Hypothesis client_task : forall tid t w,
  client tid (task t) w = run_conn_task task (user tid) tid t w.

(** [n] messages of the payload. *)
Definition messages (n : nat) : list byte := concat (replicate n payload).

Lemma messages_length n : Zlen (messages n) = Z.of_nat n * Zlen payload.
Proof.
  unfold messages. induction n as [|n IH]; cbn [replicate concat]; [done|]. rewrite Zlen_app, IH. lia.
Qed.

Lemma unfinished_responses s reads : test_finished s = false ->
  responses (next_message payload) (count_read payload) s reads = messages (length reads).
Proof.
  unfold messages. revert s. induction reads as [|data reads IH]; intros s Hs; cbn; [done|].
  rewrite IH; unfold next_message, count_read; cbn; by rewrite ?Hs.
Qed.

Lemma unfinished_notes s reads : test_finished s = false ->
  notes (count_read payload) reads s
  = match reads with [] => s | _ =>
      let n := Z.of_nat (length reads) in
      mkStats (to_int64 (bytes_sent s + n * Zlen payload))
        (to_int64 (bytes_received s + Zlen (concat reads)))
        (to_int64 (messages_sent s + n)) (to_int64 (messages_received s + n))
        (connections_active s) false
    end.
Proof.
  destruct reads as [|data reads]; [done|]. revert s data.
  induction reads as [|data' reads IH]; intros s data Hs.
  - unfold notes, count_read. cbn -[Z.mul]. rewrite Hs, app_nil_r. unfold count_sent. cbn -[Z.mul].
    f_equal; done || (f_equal; lia).
  - change (notes _ (data :: data' :: reads) s)
      with (notes (count_read payload) (data' :: reads) (count_read payload data s)).
    unfold count_read at 2. cbn [test_finished count_received]. rewrite Hs.
    rewrite IH by done. cbn [bytes_sent bytes_received messages_sent messages_received
      connections_active count_sent count_received].
    rewrite !to_int64_add. cbn [concat length]. rewrite !Zlen_app.
    f_equal; f_equal; lia.
Qed.

(** Once the test is finished a read is counted but not answered. *)
Lemma finished_notes s reads : test_finished s = true ->
  responses (next_message payload) (count_read payload) s reads = [] /\
  messages_sent (notes (count_read payload) reads s) = messages_sent s.
Proof.
  revert s. induction reads as [|data reads IH]; intros s Hs; [done|].
  cbn [responses notes foldl]. unfold next_message at 1. rewrite Hs. cbn [app].
  assert (E : count_read payload data s = count_received (Zlen data) s)
    by (unfold count_read; cbn [test_finished count_received]; by rewrite Hs).
  rewrite E. exact (IH (count_received (Zlen data) s) Hs).
Qed.

(** A connection the client has just made for the worker, before it is
    established. *)
Record worker_fresh (tid : Z) (conn : ConnId) (w : W) (c : TcpConnection U)
    (ch : Channel (Closure C)) (bound rbound : Z) : Prop := {
  fresh_base : conn_base tid conn w c ch;
  fresh_idle : isWriting ch = false;
  fresh_state : state_ c = Connecting;
  fresh_send : refines (send_buffer_ c) [] bound;
  fresh_receive : refines (receive_buffer_ c) [] rbound;
  fresh_connection : connection_callback_ c = Some on_connection;
  fresh_message : message_callback_ c = Some on_message;
  fresh_read : read_callback_ ch = Some (Client (task (HandleReadable conn)));
  fresh_running : test_finished (get_app w) = false;
}.

(** The start of the connection sends the first message. *)
Lemma worker_starts tid conn w c ch bound rbound :
  worker_fresh tid conn w c ch bound rbound -> bound + Zlen payload < 2 ^ 63 ->
  exists w' c' ch' q', connectionEstablished (user tid) tid conn w = Ok w' /\
    answering task on_message tid conn w' c' ch' q' (bound + Zlen payload) rbound /\
    socket_ c' = socket_ c /\ wire (socket_ c) w' ++ q' = wire (socket_ c) w ++ payload /\
    get_app w' = count_sent (Zlen payload) (count_active (get_app w)).
Proof.
  intros [Hb Hw Hs Hr Hrr Hcb Hmb Hrd _] Hmax.
  destruct (connectionEstablished_spec (user tid) tid conn w c ch bound Hb Hr Hw) as [_ Hup].
  destruct (Hup Hs) as (w1 & ch1 & E & Hok & _ & _ & _ & _ & Hrd1 & lp & st & st0 & Ew).
  rewrite Hcb in E. cbn [call_user] in E. rewrite on_connection_is in E.
  assert (Hw1 : forall fd, wire fd w1 = wire fd w).
  { intros fd. by rewrite Ew, wire_put_channels, wire_put_loop, wire_put_channels, wire_put_conn. }
  assert (Ha1 : get_app w1 = get_app w).
  { by rewrite Ew, app_put_channels, app_put_loop, app_put_channels, app_put_conn. }
  destruct (send_counted task no_callback payload tid conn _ _ ch1 [] bound
    (conn_ok_app count_active _ _ _ _ _ _ _ Hok) eq_refl Hmax)
    as (w2 & E2 & (c2 & ch2 & q2 & Hok2 & Hc2 & Hsd & Hstr) & _ & Ha2).
  destruct (same_conn_fields _ _ Hc2) as (Hf1 & _ & Hf2 & Hf3 & Hf4 & _).
  destruct Hsd as (_ & Hrd2 & _). cbn [socket_ setState] in Hstr.
  exists w2, c2, ch2, q2. split_and!.
  - rewrite E. unfold connection_callback, deref_conn.
    rewrite (ok_conn _ _ _ _ _ (ok_base _ _ _ _ _ _ _ Hok)). cbn [mbind outcome_bind].
    unfold connected. by rewrite bool_decide_true.
  - split; [done|by rewrite Hf3|done|by rewrite Hf4|congruence].
  - done.
  - by rewrite Hstr, wire_on_stats, Hw1, app_nil_r.
  - by rewrite Ha2, app_on_stats, Ha1.
Qed.

(** After it has come up and any run of events: one message and one for every
    read have been sent, and the counters have followed. *)
Lemma worker_run tid conn w c ch bound rbound :
  worker_fresh tid conn w c ch bound rbound ->
  0 <= bound -> 0 <= rbound -> bound + Zlen payload < 2 ^ 60 ->
  exists w1, connectionEstablished (user tid) tid conn w = Ok w1 /\
    forall reads w2, event_run client tid conn reads w1 w2 ->
      bound + (Z.of_nat (length reads) + 1) * Zlen payload < 2 ^ 60 ->
      rbound + Zlen (concat reads) < 2 ^ 60 ->
      exists c' ch' q', answering task on_message tid conn w2 c' ch' q'
          (bound + (Z.of_nat (length reads) + 1) * Zlen payload) (rbound + Zlen (concat reads)) /\
        socket_ c' = socket_ c /\
        wire (socket_ c) w2 ++ q' = wire (socket_ c) w ++ messages (S (length reads)) /\
        get_app w2 = notes (count_read payload) reads
          (count_sent (Zlen payload) (count_active (get_app w))).
Proof.
  intros Hf H1 H2 H3. pose proof (Zlen_nonneg payload).
  destruct (worker_starts tid conn w c ch bound rbound Hf)
    as (w1 & c1 & ch1 & q1 & E & Han & Hs1 & Hstr & Ha); [lia|].
  exists w1. split; [exact E|]. intros reads w2 Hrun H4 H5.
  assert (Hf1 : test_finished (get_app w1) = false) by (rewrite Ha; apply Hf).
  pose proof (answer_run task user on_message _ _ client client_task
    _ _ _ _ _ _ _ _ _ _ Hrun Han ltac:(lia) H2) as Hans.
  rewrite (unfinished_responses _ _ Hf1), messages_length in Hans.
  destruct Hans as (c2 & ch2 & q2 & Han2 & [Hs2 _] & Hstr2 & _ & Hn2); [lia..|].
  rewrite (unfinished_responses _ _ Hf1), Hs1, Hstr in Hstr2.
  exists c2, ch2, q2. split_and!; [|congruence|by rewrite Hstr2, <- app_assoc|by rewrite Hn2, Ha].
  by replace (bound + (_ + 1) * _) with (bound + Zlen payload + Z.of_nat (length reads) * Zlen payload) by ring.
Qed.

(** After the timer of the test's end nothing is sent: what the loop still
    handles leaves the outgoing stream and the counters of what was sent. *)
Lemma worker_ends tid conn w c ch q bound rbound reads w' :
  answering task on_message tid conn w c ch q bound rbound -> 0 <= bound -> 0 <= rbound ->
  event_run client tid conn reads (time_up tid w) w' ->
  bound < 2 ^ 62 -> rbound + Zlen (concat reads) < 2 ^ 61 ->
  (exists c', get_conn conn w' = Some c' /\
    wire (socket_ c) w' ++ content (send_buffer_ c') = wire (socket_ c) w ++ q) /\
  messages_sent (get_app w') = messages_sent (get_app w).
Proof.
  intros [A1 A2 A3 A4 A5] H0 H0' Hrun H1 H2.
  assert (Ha : get_app (time_up tid w) = finish (get_app w))
    by (unfold time_up, on_loop; by rewrite app_put_loop, app_on_stats).
  assert (Hw : wire (socket_ c) (time_up tid w) = wire (socket_ c) w)
    by (unfold time_up, on_loop; by rewrite wire_put_loop, wire_on_stats).
  destruct (finished_notes (finish (get_app w)) reads eq_refl) as [Er Em]. rewrite <- Ha in Er, Em.
  destruct (answer_run task user on_message _ _ client client_task tid conn reads _ w' c ch q bound rbound
    Hrun) as (c' & ch' & q' & Hans & [Hs _] & Hstr & _ & Hn); try done.
  - split; try done. by apply conn_ok_time_up.
  - by rewrite Er, Zlen_nil, Z.add_0_r.
  - rewrite Er, app_nil_r, Hw in Hstr. rewrite Hn, Em, Ha. split; [|done].
    pose proof (ans_ok _ _ _ _ _ _ _ _ _ _ Hans) as [Hb' Hr' _].
    assert (Eq : content (send_buffer_ c') = q') by apply Hr'.
    exists c'. rewrite Eq. split; [apply Hb'|done].
Qed.

(** C27: a worker's connection sends one message when it comes up and one for every
    read, whatever the read holds: after [n] reads the outgoing stream is [n + 1]
    payloads, [n + 1] messages are counted as sent and [n] as received, and the
    bytes are counted exactly.  An echo that arrives in several pieces, or several
    that arrive in one, count as that many reads, so the number of messages on
    their way is not kept at one.  Once the timer has ended the test nothing more
    is sent, whatever the loop still reads. *)
Theorem worker_sends_per_read tid conn w c ch bound rbound :
  worker_fresh tid conn w c ch bound rbound ->
  0 <= bound -> 0 <= rbound -> bound + Zlen payload < 2 ^ 60 ->
  exists w1, connectionEstablished (user tid) tid conn w = Ok w1 /\
    forall reads w2, event_run client tid conn reads w1 w2 ->
      let n := Z.of_nat (length reads) in
      bound + (n + 1) * Zlen payload < 2 ^ 60 -> rbound + Zlen (concat reads) < 2 ^ 60 ->
      exists c', get_conn conn w2 = Some c' /\
        wire (socket_ c) w2 ++ content (send_buffer_ c')
          = wire (socket_ c) w ++ messages (S (length reads)) /\
        messages_sent (get_app w2) = to_int64 (messages_sent (get_app w) + (n + 1)) /\
        bytes_sent (get_app w2) = to_int64 (bytes_sent (get_app w) + (n + 1) * Zlen payload) /\
        (reads <> [] ->
          messages_received (get_app w2) = to_int64 (messages_received (get_app w) + n) /\
          bytes_received (get_app w2)
            = to_int64 (bytes_received (get_app w) + Zlen (concat reads))) /\
        forall more w3, event_run client tid conn more (time_up tid w2) w3 ->
          rbound + Zlen (concat reads) + Zlen (concat more) < 2 ^ 61 ->
          (exists c'', get_conn conn w3 = Some c'' /\
            wire (socket_ c) w3 ++ content (send_buffer_ c'')
              = wire (socket_ c) w2 ++ content (send_buffer_ c')) /\
          messages_sent (get_app w3) = messages_sent (get_app w2).
Proof.
  intros Hf H1 H2 H3. destruct (worker_run tid conn w c ch bound rbound Hf H1 H2 H3) as (w1 & E & Hrun).
  exists w1. split; [exact E|]. intros reads w2 Hr n H4 H5.
  destruct (Hrun reads w2 Hr H4 H5) as (c' & ch' & q' & Hans & Hs & Hstr & Ha).
  pose proof (ans_ok _ _ _ _ _ _ _ _ _ _ Hans) as [Hb' Hr' _].
  assert (Eq : content (send_buffer_ c') = q') by apply Hr'.
  pose proof (Zlen_nonneg payload). pose proof (Zlen_nonneg (concat reads)).
  exists c'. rewrite Eq. split; [apply Hb'|]. split; [done|].
  assert (Hend : forall more w3, event_run client tid conn more (time_up tid w2) w3 ->
    rbound + Zlen (concat reads) + Zlen (concat more) < 2 ^ 61 ->
    (exists c'', get_conn conn w3 = Some c'' /\
      wire (socket_ c) w3 ++ content (send_buffer_ c'') = wire (socket_ c) w2 ++ q') /\
    messages_sent (get_app w3) = messages_sent (get_app w2)).
  { intros more w3 Hm H6. rewrite <- Hs.
    apply (worker_ends tid conn w2 c' ch' q' _ _ more w3 Hans); [nia|lia|done|fold n; lia|done]. }
  split_and!; [..|exact Hend]; rewrite Ha, unfinished_notes by apply Hf; subst n; clear;
    destruct reads as [|data reads]; cbn -[Z.of_nat Z.mul]; rewrite ?to_int64_add; try done;
    try (intros _; split); f_equal; lia.
Qed.
End WorkerRuns.

(** ** [run_client]: the configuration of the threads *)
Record ClientConfig := mkClientConfig {
  server_ip : string;
  port : Z;
  connections_per_thread : Z;
  message_size : Z;
  duration_seconds : Z;
  thread_idx : nat;
}.

Definition thread_count (nprocs : Z) : Z := Z.max 2 (Z.quot nprocs 2).
Definition share (total_connections nprocs : Z) : Z := Z.quot total_connections (thread_count nprocs).
Definition actual_connections (total_connections nprocs : Z) : Z :=
  share total_connections nprocs * thread_count nprocs.

(** [clients.reserve] takes a [size_t]; a negative count becomes more than a
    vector can hold, and the [length_error] ends the program. *)
Definition reserve_clients (config : ClientConfig) : outcome Z :=
  let n := to_size (connections_per_thread config) in
  if 2 ^ 60 <=? n then Abort else Ok n.

Section RunClient.
Context (ip : string) (p total size duration nprocs : Z).

(** The object [cfg] of the iteration [i]. *)
Definition config (i : nat) : ClientConfig :=
  mkClientConfig ip p (share total nprocs) size duration i.

(** The connections are shared out evenly, the remainder is dropped; a worker
    whose share is negative ends the program. *)
Theorem connections_shared i : 0 <= nprocs < 2 ^ 31 -> - 2 ^ 31 <= total < 2 ^ 31 ->
  (0 <= total -> 0 <= total - actual_connections total nprocs < thread_count nprocs) /\
  (reserve_clients (config i) = Abort <-> total <= - thread_count nprocs).
Proof.
  intros Hn Ht. unfold actual_connections, reserve_clients. cbn [connections_per_thread config].
  unfold share. set (t := thread_count nprocs). assert (Hp : 2 <= t) by (unfold t, thread_count; lia).
  pose proof (Z.quot_rem' total t) as E.
  destruct (Z.le_gt_cases 0 total) as [H0|H0].
  - pose proof (Z.rem_bound_pos total t H0 ltac:(lia)). pose proof (Z.quot_pos total t H0 ltac:(lia)).
    split; [lia|]. rewrite to_size_small by nia. decide_bools. split; [done|lia].
  - pose proof (Z.rem_bound_pos_neg total t ltac:(lia) ltac:(lia)). split; [lia|].
    destruct (Z.le_gt_cases total (- t)) as [H1|H1].
    + assert (Hq : - 2 ^ 31 <= Z.quot total t < 0) by nia. unfold to_size.
      rewrite <- (Z.mod_add _ 1), Z.mod_small by lia. decide_bools. done.
    + assert (Z.quot total t = 0) as -> by nia. split; [done|lia].
Qed.

(** The loop that starts the threads: each gets a reference to the [cfg] of its
    iteration, and reads it while the main thread goes on. *)
Record Handover := mkHandover {
  iteration : nat;                        (** [i] *)
  cfg : option ClientConfig;              (** alive in the body of the loop *)
  workers : nat;                          (** the threads started *)
  seen : list (nat * ClientConfig);       (** what the threads have read *)
}.

Inductive hand_action : Type :=
| Construct | Spawn | EndOfBody | Reads (worker : nat).

(** [None]: the action is not possible now. *)
Definition hand_step (a : hand_action) (h : Handover) : option (outcome Handover) :=
  match a, cfg h with
  | Construct, None =>
      if Z.of_nat (iteration h) <? thread_count nprocs
      then Some (Ok (mkHandover (iteration h) (Some (config (iteration h))) (workers h) (seen h)))
      else None
  | Spawn, Some c =>
      if (workers h =? iteration h)%nat
      then Some (Ok (mkHandover (iteration h) (Some c) (S (workers h)) (seen h))) else None
  | EndOfBody, Some c =>
      if (workers h =? S (iteration h))%nat
      then Some (Ok (mkHandover (S (iteration h)) None (workers h) (seen h))) else None
  | Reads k, o =>
      if (k <? workers h)%nat then
        match o with
        | Some c => if (k =? iteration h)%nat
                    then Some (Ok (mkHandover (iteration h) (Some c) (workers h) (seen h ++ [(k, c)])))
                    else Some Undef
        | None => Some Undef
        end
      else None
  | _, _ => None
  end.

Inductive hands : Handover -> outcome Handover -> Prop :=
| hands_now h : hands h (Ok h)
| hands_step a h h' o : hand_step a h = Some (Ok h') -> hands h' o -> hands h o
| hands_fault a h : hand_step a h = Some Undef -> hands h Undef.

Definition hand_start : Handover := mkHandover 0 None 0 [].

Lemma hands_trans h h' o : hands h (Ok h') -> hands h' o -> hands h o.
Proof.
  intros H. remember (Ok h') as r eqn:E. revert E.
  induction H as [h|a h h1 o' Ha _ IH|]; intros E Ho; [by injection E as ->| |done].
  eapply hands_step; [exact Ha|by apply IH].
Qed.

(** One iteration in which the thread reads at once. *)
Lemma prompt_iteration h : cfg h = None -> workers h = iteration h ->
  Z.of_nat (iteration h) < thread_count nprocs ->
  hands h (Ok (mkHandover (S (iteration h)) None (S (iteration h))
    (seen h ++ [(iteration h, config (iteration h))]))).
Proof.
  destruct h as [i o w l]; cbn. intros -> -> Hlt.
  eapply (hands_step Construct); [cbn; by rewrite (proj2 (Z.ltb_lt _ _) Hlt)|].
  eapply (hands_step Spawn); [cbn; by rewrite Nat.eqb_refl|].
  eapply (hands_step (Reads i)).
  { cbn -[Nat.ltb]. rewrite (proj2 (Nat.ltb_lt i (S i))) by lia. by rewrite Nat.eqb_refl. }
  eapply (hands_step EndOfBody); [cbn; by rewrite Nat.eqb_refl|]. constructor.
Qed.

Lemma prompt_iterations n : Z.of_nat n <= thread_count nprocs ->
  hands hand_start (Ok (mkHandover n None n ((fun i => (i, config i)) <$> seq 0 n))).
Proof.
  induction n as [|n IH]; intros H; [constructor|].
  eapply hands_trans; [apply IH; lia|]. rewrite seq_S, fmap_app.
  apply (prompt_iteration (mkHandover n None n _)); cbn; [done..|lia].
Qed.

Definition hand_inv (h : Handover) : Prop :=
  (forall c, cfg h = Some c -> c = config (iteration h)) /\
  forall k c, (k, c) ∈ seen h -> c = config k.

Lemma hand_step_inv a h h' : hand_step a h = Some (Ok h') -> hand_inv h -> hand_inv h'.
Proof.
  intros E [Hc Hs]. destruct h as [i o w l]; cbn [cfg iteration seen] in *.
  destruct a as [| | |k], o as [c|]; cbn in E; try done;
    repeat match type of E with (if ?b then _ else _) = _ => destruct b eqn:?; try done end;
    injection E as <-; split; cbn [cfg iteration seen]; try done.
  - by intros ? [= <-].
  - intros k' c' [H|H%list_elem_of_singleton]%elem_of_app; [by apply Hs|].
    injection H as -> ->. rewrite (Hc c eq_refl). f_equal. symmetry. by apply Nat.eqb_eq.
Qed.

Lemma hands_inv h o : hands h o -> hand_inv h -> forall h', o = Ok h' -> hand_inv h'.
Proof.
  induction 1 as [h|a h h1 o E _ IH|]; intros Hi h' Eo; [by injection Eo as <-| |done].
  apply IH; [by eapply hand_step_inv|done].
Qed.

(** The configuration handed to a thread by [std::cref] may be gone when the
    thread reads it.  Every value a thread reads is its own, and if all threads
    read within their iteration the hand-over works; but nothing waits for that:
    for every thread there is an order of the same steps in which it reads after
    the body of the loop has ended, which is undefined. *)
Theorem config_may_dangle :
  (forall h, hands hand_start (Ok h) -> forall k c, (k, c) ∈ seen h -> c = config k) /\
  (forall n, Z.of_nat n = thread_count nprocs -> exists h, hands hand_start (Ok h) /\
     iteration h = n /\ forall k, (k < n)%nat -> (k, config k) ∈ seen h) /\
  (forall k, Z.of_nat k < thread_count nprocs -> exists h h',
     hands hand_start (Ok h) /\ hand_step EndOfBody h = Some (Ok h') /\
     iteration h = k /\ hand_step (Reads k) h' = Some Undef).
Proof.
  split_and!.
  - intros h Hr. apply (hands_inv hand_start (Ok h) Hr); [|done].
    split; [done|]. by intros k c H%elem_of_nil.
  - intros n Hn. eexists. split; [apply (prompt_iterations n); lia|]. split; [done|].
    intros k Hk. cbn. apply list_elem_of_fmap. exists k. split; [done|]. apply elem_of_seq. lia.
  - intros k Hk.
    exists (mkHandover k (Some (config k)) (S k) ((fun i => (i, config i)) <$> seq 0 k)), (mkHandover (S k) None (S k)
      ((fun i => (i, config i)) <$> seq 0 k)).
    split_and!; [|cbn; by rewrite Nat.eqb_refl|done|].
    + eapply hands_trans; [apply (prompt_iterations k); lia|].
      eapply (hands_step Construct); [cbn; by rewrite (proj2 (Z.ltb_lt _ _) Hk)|].
      eapply (hands_step Spawn); [cbn; by rewrite Nat.eqb_refl|]. constructor.
    + cbn -[Nat.ltb]. by rewrite (proj2 (Nat.ltb_lt k (S k))) by lia.
Qed.
End RunClient.

(** ** [main]

    The number at the front of a string, as strtol(3) reads it: blanks, a sign,
    decimal digits. *)
Definition is_blank (a : ascii) : bool :=
  let n := nat_of_ascii a in (n =? 32)%nat || ((9 <=? n)%nat && (n <=? 13)%nat).
Definition digit (a : ascii) : option Z :=
  let n := Z.of_nat (nat_of_ascii a) in
  if (48 <=? n) && (n <=? 57) then Some (n - 48) else None.

Fixpoint digits (acc : Z) (l : list ascii) : Z :=
  match l with
  | a :: l => match digit a with Some d => digits (10 * acc + d) l | None => acc end
  | [] => acc
  end.
Fixpoint skip_blanks (l : list ascii) : list ascii :=
  match l with a :: l' => if is_blank a then skip_blanks l' else l | [] => [] end.

Definition unsigned_number (l : list ascii) : option Z :=
  match l with
  | a :: l => match digit a with Some d => Some (digits d l) | None => None end
  | [] => None
  end.
Definition number (s : string) : option Z :=
  match skip_blanks (list_ascii_of_string s) with
  | "-"%char :: l => Z.opp <$> unsigned_number l
  | "+"%char :: l => unsigned_number l
  | l => unsigned_number l
  end.

(** [std::atoi], undefined when the number is not an [int]; [std::stoul], which
    throws when there is no number or it is too large, and wraps a negative one. *)
Definition atoi (s : string) : outcome Z :=
  match number s with
  | None => Ok 0
  | Some z => if (- 2 ^ 31 <=? z) && (z <? 2 ^ 31) then Ok z else Undef
  end.
Definition stoul (s : string) : outcome Z :=
  match number s with
  | None => Abort
  | Some z => if Z.abs z <? 2 ^ 64 then Ok (to_size z) else Abort
  end.

(** What [main] goes on to do. *)
Inductive command : Type :=
| Usage                              (** a message, and the exit code 1 *)
| RunServer (port thread_num : Z)
| RunClient (ip : string) (port total_connections message_size duration : Z).

Definition main (nprocs : Z) (argv : list string) : outcome command :=
  let argc := Zlen argv in
  let arg i := nth i argv ""%string in
  if argc <? 2 then Ok Usage else
  let mode := arg 1%nat in
  if String.eqb mode "server" then
    if argc <? 3 then Ok Usage else
    let! port := atoi (arg 2%nat) in
    let! threads := if 3 <? argc then atoi (arg 3%nat) else Ok nprocs in
    let threads := if threads <? 1 then 1 else threads in
    Ok (RunServer port threads)
  else if String.eqb mode "client" then
    if argc <? 6 then Ok Usage else
    let ip := arg 2%nat in
    let! port := atoi (arg 3%nat) in
    let! connections := atoi (arg 4%nat) in
    let! message_size := if 5 <? argc then stoul (arg 5%nat) else Ok 1024 in
    let! duration := if 6 <? argc then atoi (arg 6%nat) else Ok 30 in
    Ok (RunClient ip port connections message_size duration)
  else Ok Usage.

Lemma atoi_range s z : atoi s = Ok z -> - 2 ^ 31 <= z < 2 ^ 31.
Proof.
  unfold atoi. destruct (number s) as [n|]; [|intros [= <-]; lia].
  destruct (_ && _) eqn:E; [|done]. intros [= <-]. apply andb_true_iff in E. lia.
Qed.

(** What [main] makes of its arguments.  A server always gets at least one
    thread and an [int] port; a client is started only when the message size is
    given too, although the usage text brackets it: the invocation with an
    address, a port and a number of connections is refused, and the default of
    1024 bytes is never used. *)
Theorem main_arguments nprocs argv :
  (forall port threads, 0 <= nprocs < 2 ^ 31 -> main nprocs argv = Ok (RunServer port threads) ->
     1 <= threads < 2 ^ 31 /\ - 2 ^ 31 <= port < 2 ^ 31 /\ 3 <= Zlen argv) /\
  (forall ip port total size duration,
     main nprocs argv = Ok (RunClient ip port total size duration) ->
     6 <= Zlen argv /\ stoul (nth 5 argv ""%string) = Ok size /\
     (Zlen argv = 6 -> duration = 30)) /\
  (forall prog ip port connections,
     argv = [prog; "client"%string; ip; port; connections] -> main nprocs argv = Ok Usage).
Proof.
  split_and!.
  - intros port threads Hn. unfold main. cbv zeta.
    destruct (Z.ltb_spec (Zlen argv) 2); [done|]. destruct (String.eqb _ _).
    + destruct (Z.ltb_spec (Zlen argv) 3); [done|]. intros H'. inv_ok.
      apply atoi_range in Ha.
      assert (Ht : - 2 ^ 31 <= a0 < 2 ^ 31).
      { destruct (_ <? _); [by apply atoi_range in Ha0|]. injection Ha0 as <-. lia. }
      split; [|lia]. destruct (Z.ltb_spec a0 1); lia.
    + destruct (String.eqb _ _); [|done]. destruct (_ <? _); [done|]. intros H'. by inv_ok.
  - intros ip port total size duration. unfold main. cbv zeta.
    destruct (Z.ltb_spec (Zlen argv) 2); [done|]. destruct (String.eqb _ _).
    { destruct (_ <? _); [done|]. intros H'. by inv_ok. }
    destruct (String.eqb _ _); [|done]. destruct (Z.ltb_spec (Zlen argv) 6); [done|].
    intros H'. inv_ok.
    rewrite (proj2 (Z.ltb_lt 5 (Zlen argv))) in Ha1 by lia. split_and!; [lia|done|].
    intros E. rewrite E in Ha2. by injection Ha2 as <-.
  - intros prog ip port connections ->. by destruct prog.
Qed.

Lemma main_arguments_witness :
  main 8 ["echo_bench"; "client"; "127.0.0.1"; "8888"; "800"]%string = Ok Usage /\
  main 8 ["echo_bench"; "client"; "127.0.0.1"; "8888"; "800"; "1024"]%string
    = Ok (RunClient "127.0.0.1" 8888 800 1024 30) /\
  main 8 ["echo_bench"; "server"; "8888"; "0"]%string = Ok (RunServer 8888 1) /\
  main 8 ["echo_bench"; "client"; "127.0.0.1"; "8888"; "800"; "lots"]%string = Abort.
Proof.
  split_and!; [|by vm_compute..].
  by apply (main_arguments 8 ["echo_bench"; "client"; "127.0.0.1"; "8888"; "800"]%string)
    with (prog := "echo_bench"%string) (ip := "127.0.0.1"%string) (port := "8888"%string) (connections := "800"%string).
Defined.

Lemma config_may_dangle_witness :
  exists h h', hands "127.0.0.1" 8888 800 1024 30 8 hand_start (Ok h) /\
    hand_step "127.0.0.1" 8888 800 1024 30 8 EndOfBody h = Some (Ok h') /\
    iteration h = 0%nat /\ hand_step "127.0.0.1" 8888 800 1024 30 8 (Reads 0) h' = Some Undef.
Proof. apply (config_may_dangle "127.0.0.1" 8888 800 1024 30 8). by vm_compute. Defined.

(** ** The connection of DemoApp.v with the counters beside it *)
Abbreviation BenchWorld := (DemoApp Stats).

(** Callback 1 is the connection callback, 2 the message callback. *)
Definition bench_user (payload : list byte) (tid : Z) (f : Z) (conn : ConnId) (w : BenchWorld)
    : outcome BenchWorld :=
  if f =? 1 then connection_callback (fun t => t) no_callback payload tid conn w
  else message_callback (fun t => t) no_callback payload tid conn w.

Definition bench_client (payload : list byte) (tid : Z) (t : ConnTask) (w : BenchWorld)
    : outcome BenchWorld :=
  run_conn_task (fun t => t) (bench_user payload tid) tid t w.

Definition bench_conn : TcpConnection Z :=
  setConnectionCallback 1 (setMessageCallback 2 (mkTcpConnection 0 "W0-C0" Connecting 9 20
    (mkSockaddr 2 0 0) (mkSockaddr 2 0 0) (make INITIALIZE_SIZE) (make INITIALIZE_SIZE)
    None None 0 None None None None)).
Definition bench_fresh : BenchWorld :=
  mkDemoApp (put_conn 1 bench_conn demo_fresh) [] (mkStats 0 0 0 0 0 false).

Lemma bench_base : conn_base 7 1 bench_fresh bench_conn demo_channel9.
Proof. by apply demo_app_base. Qed.

Lemma bench_is_fresh : worker_fresh (fun t => t) 1 2 7 1 bench_fresh bench_conn demo_channel9 1032 1032.
Proof. split; done || exact bench_base || exact demo_refines. Qed.

Definition bench_started (payload : list byte) : BenchWorld :=
  match connectionEstablished (bench_user payload 7) 7 1 bench_fresh with
  | Ok w => w | _ => bench_fresh
  end.
Definition bench_read (payload : list byte) : BenchWorld :=
  match event (bench_client payload) 7 1 POLLIN (bench_started payload) with
  | Ok w => w | _ => bench_fresh
  end.

(** A message of five bytes comes back two bytes at a time: the first piece is
    already answered by a whole message. *)
Lemma worker_sends_per_read_witness : let w := bench_read hello_bytes in
  messages_sent (da_app w) = 2 /\ bytes_sent (da_app w) = 10 /\ bytes_received (da_app w) = 2.
Proof.
  destruct (worker_sends_per_read (fun t => t) hello_bytes (bench_user hello_bytes) 1 2
    (fun _ _ _ => eq_refl) (fun _ _ _ => eq_refl) (bench_client hello_bytes) (fun _ _ _ => eq_refl)
    7 1 bench_fresh bench_conn demo_channel9 1032 1032 bench_is_fresh)
    as (w1 & E & Hrun); [by vm_compute..|].
  assert (w1 = bench_started hello_bytes) as -> by (unfold bench_started; by rewrite E).
  destruct (Hrun [EchoServer.demo_got] (bench_read hello_bytes)) as (c' & _ & _ & H1 & H2 & H3 & _).
  - change [EchoServer.demo_got] with (event_input (Some (ReadOk EchoServer.demo_got)) ++ []).
    assert (Ea : arriving 1 POLLIN (bench_started hello_bytes) = Some (ReadOk EchoServer.demo_got))
      by by vm_compute.
    rewrite <- Ea. apply (run_more _ _ _ _ _ _ (bench_read hello_bytes));
      [by rewrite Ea|by vm_compute|constructor].
  - by vm_compute.
  - by vm_compute.
  - destruct H3 as [_ H3]; [done|]. split_and!; [exact H1|exact H2|exact H3].
Defined.
