(* ===== verification/EchoSystem.v ===== *)
(** * EchoSystem: the benchmark's client and the echo server, joined by TCP

    Two programs with a world each: a worker's connection (EchoBench.v) and the
    connection of the echo server it has reached (EchoServer.v).  The network
    between them is a hypothesis: what one side has read is the beginning of what
    the other side's kernel has taken. *)
From Stdlib Require Import ZArith Lia List String.
From stdpp Require Import base option list numbers gmap strings tactics.
From S2P Require Import Prelude.
From S2P Require Import Buffer.
From S2P Require Import Channel.
From S2P Require Import PollerBase.
From S2P Require Import EventLoop.
From S2P Require Socket.
From S2P Require Import TcpConnection.
From S2P Require Import ConnEvents.
From S2P Require Import Responder.
From S2P Require Import DemoApp.
From S2P Require Import EchoServer.
From S2P Require Import EchoBench.
From S2P Require Poller.
Open Scope Z_scope.
Open Scope outcome_scope.

Section EchoSystem.
Context `{EFD : EventFd}.

(** The server's program. *)
Context {W1 P1 C1 U1 A1 : Type} `{PB1 : !PollerBase P1 (Closure C1)}.
Context `{LW1 : !LoopWorld W1 P1 C1} `{CW1 : !ConnWorld W1 U1}.
Context `{SK1 : !SocketKernel W1} `{SC1 : !Socket.SocketCalls W1} `{AW1 : !AppWorld W1 A1}.
Context {PL1 : PollerLaws P1 (Closure C1)} {LL1 : LoopWorldLaws W1 P1 C1}.
Context {CL1 : ConnLaws W1 P1 C1 U1} {AL1 : AppLaws W1 P1 C1 U1 A1}.
Context (task1 : ConnTask -> C1) (user1 : Z -> U1 -> ConnId -> W1 -> outcome W1) (on_echo : U1).
Hypothesis on_echo_is :
  (forall tid conn w, user1 tid on_echo conn w = echo task1 no_callback tid conn w) \/
  (forall tid conn w, user1 tid on_echo conn w = echo_string task1 no_callback tid conn w).
Context (client1 : Z -> C1 -> W1 -> outcome W1).
Hypothesis client1_task : forall tid t w,
  client1 tid (task1 t) w = run_conn_task task1 (user1 tid) tid t w.

(** The client's. *)
Context {W2 P2 C2 U2 : Type} `{PB2 : !PollerBase P2 (Closure C2)}.
Context `{LW2 : !LoopWorld W2 P2 C2} `{CW2 : !ConnWorld W2 U2}.
Context `{SK2 : !SocketKernel W2} `{SC2 : !Socket.SocketCalls W2} `{AW2 : !AppWorld W2 Stats}.
Context {PL2 : PollerLaws P2 (Closure C2)} {LL2 : LoopWorldLaws W2 P2 C2}.
Context {CL2 : ConnLaws W2 P2 C2 U2} {AL2 : AppLaws W2 P2 C2 U2 Stats}.
Context (task2 : ConnTask -> C2) (payload : list byte).
Context (user2 : Z -> U2 -> ConnId -> W2 -> outcome W2) (on_connection on_message : U2).
Hypothesis on_connection_is : forall tid conn w,
  user2 tid on_connection conn w = connection_callback task2 no_callback payload tid conn w.
Hypothesis on_message_is : forall tid conn w,
  user2 tid on_message conn w = message_callback task2 no_callback payload tid conn w.
Context (client2 : Z -> C2 -> W2 -> outcome W2).
Hypothesis client2_task : forall tid t w,
  client2 tid (task2 t) w = run_conn_task task2 (user2 tid) tid t w.

Lemma prefix_of_app_eq (x y z : list byte) : x ++ y = z -> x `prefix_of` z.
Proof. intros <-. by apply prefix_app_r. Qed.

(** C17: what the benchmark's client receives is what it sent.  Over a network
    that neither loses nor reorders bytes, however it and both kernels cut the
    streams, and however often reads and writes fail on either side, the bytes a
    worker's connection has read from the echo server are the beginning of the
    messages it has sent; in particular it never receives more than it sent. *)
Theorem echo_end_to_end tid1 conn1 w1 w1' c1 ch1 bound1 rbound1 reads1
    tid2 conn2 w2 w2' w2'' c2 ch2 bound2 rbound2 reads2 :
  (** the server's connection: nothing sent yet *)
  answering task1 on_echo tid1 conn1 w1 c1 ch1 [] bound1 rbound1 ->
  wire (socket_ c1) w1 = [] -> event_run client1 tid1 conn1 reads1 w1 w1' ->
  (** the client's, from its start *)
  worker_fresh task2 on_connection on_message tid2 conn2 w2 c2 ch2 bound2 rbound2 ->
  wire (socket_ c2) w2 = [] -> connectionEstablished (user2 tid2) tid2 conn2 w2 = Ok w2' ->
  event_run client2 tid2 conn2 reads2 w2' w2'' ->
  (** sizes *)
  0 <= bound1 -> 0 <= rbound1 -> 0 <= bound2 -> 0 <= rbound2 ->
  bound1 + Zlen (concat reads1) < 2 ^ 60 -> rbound1 + Zlen (concat reads1) < 2 ^ 60 ->
  bound2 + (Z.of_nat (length reads2) + 1) * Zlen payload < 2 ^ 60 ->
  rbound2 + Zlen (concat reads2) < 2 ^ 60 ->
  (** the network *)
  concat reads1 `prefix_of` wire (socket_ c2) w2'' ->
  concat reads2 `prefix_of` wire (socket_ c1) w1' ->
  concat reads2 `prefix_of` wire (socket_ c2) w2'' /\
  concat reads2 `prefix_of` messages payload (S (length reads2)) /\
  Zlen (concat reads2) <= (Z.of_nat (length reads2) + 1) * Zlen payload.
Proof.
  intros Hs Hs0 Hrun1 Hf Hc0 E Hrun2 B1 R1 B2 R2 L1 L1' L2 L2' N1 N2.
  pose proof (Zlen_nonneg payload).
  destruct (echo_run task1 user1 on_echo on_echo_is client1 client1_task _ _ _ _ _ _ _ _ _ _ Hrun1 Hs)
    as (c1' & ch1' & q1' & _ & _ & Hstr1 & _); [done..|].
  rewrite echo_responses, Hs0 in Hstr1. cbn [app] in Hstr1.
  destruct (worker_run task2 payload user2 on_connection on_message on_connection_is on_message_is
    client2 client2_task tid2 conn2 w2 c2 ch2 bound2 rbound2 Hf) as (w & E' & Hw); [done|done|nia|].
  rewrite E in E'. injection E' as <-.
  destruct (Hw reads2 w2'' Hrun2 L2 L2') as (c2' & ch2' & q2' & _ & _ & Hstr2 & _).
  rewrite Hc0 in Hstr2. cbn [app] in Hstr2.
  assert (Hp : concat reads2 `prefix_of` wire (socket_ c2) w2'').
  { etrans; [exact N2|]. etrans; [by eapply prefix_of_app_eq|exact N1]. }
  assert (Hm : concat reads2 `prefix_of` messages payload (S (length reads2))).
  { etrans; [exact Hp|]. by eapply prefix_of_app_eq. }
  split_and!; [done|done|]. apply prefix_length in Hm.
  pose proof (messages_length payload (S (length reads2))) as Hl. unfold Zlen in *. lia.
Qed.
End EchoSystem.

(** The client of EchoBench.v sends the two bytes the server of EchoServer.v
    reads, and reads the two it answers. *)
Lemma bench_reads_once : event_run (bench_client demo_got) 7 1 [demo_got]
  (bench_started demo_got) (bench_read demo_got).
Proof.
  change [demo_got] with (event_input (Some (ReadOk demo_got)) ++ []).
  assert (Ea : arriving 1 POLLIN (bench_started demo_got) = Some (ReadOk demo_got)) by by vm_compute.
  rewrite <- Ea. apply (run_more _ _ _ _ _ _ (bench_read demo_got)); [by rewrite Ea|by vm_compute|constructor].
Qed.

Lemma bench_wire : wire 9 (bench_read demo_got) = demo_got.
Proof. by vm_compute. Qed.
Lemma demo_wire1 : wire 9 (demo_echoed 1) = demo_got.
Proof. by vm_compute. Qed.

Lemma bench_starts : connectionEstablished (bench_user demo_got 7) 7 1 bench_fresh
  = Ok (bench_started demo_got).
Proof. by vm_compute. Qed.

Lemma echo_end_to_end_witness :
  demo_got `prefix_of` wire 9 (bench_read demo_got) /\
  demo_got `prefix_of` messages demo_got 2 /\ 2 <= 2 * 2.
Proof.
  pose proof (echo_end_to_end (fun t => t) demo_echo_user 1 demo_echo_is demo_client
    (fun _ _ _ => eq_refl) (fun t => t) demo_got (bench_user demo_got) 1 2 (fun _ _ _ => eq_refl)
    (fun _ _ _ => eq_refl) (bench_client demo_got) (fun _ _ _ => eq_refl)
    7 1 (demo_echoed 0) (demo_echoed 1) (demo_conn Connected) demo_channel9 1032 1032 [demo_got]
    7 1 bench_fresh (bench_started demo_got) (bench_read demo_got) bench_conn demo_channel9
    1032 1032 [demo_got] demo_echoing eq_refl (demo_echo_run 0 1 ltac:(lia))
    bench_is_fresh eq_refl bench_starts bench_reads_once) as H.
  change (socket_ bench_conn) with 9 in H. change (socket_ (demo_conn Connected)) with 9 in H.
  rewrite bench_wire, demo_wire1 in H. rewrite bench_wire. apply H; done.
Defined.
