(* ===== verification/ProtobufConn.v ===== *)
(** * ProtobufConn: a ProtobufHandler on a connection

    [ProtobufHandler::OnMessage] as the message callback of a TcpConnection, and
    [ProtobufHandler::Send] on one.  What arrives is dispatched frame by frame
    however the events cut it; what [Send] writes stays in the send buffer. *)
From Stdlib Require Import ZArith Lia List String.
From stdpp Require Import base option list numbers gmap strings tactics.
From S2P Require Import Prelude.
From S2P Require Import Buffer.
From S2P Require Import Endian.
From S2P Require Import Codec.
From S2P Require Import Dispatcher.
From S2P Require Import Channel.
From S2P Require Import PollerBase.
From S2P Require Import EventLoop.
From S2P Require Socket.
From S2P Require Import TcpConnection.
From S2P Require Import ConnEvents.
From S2P Require Import DemoApp.
From S2P Require Poller.
Open Scope Z_scope.
Open Scope outcome_scope.

Section ProtobufConn.
Context {PR : Protobuf} `{!EqDecision Descriptor, !Countable Descriptor}.
Context `{EFD : EventFd} {W P C U A : Type} `{PB : !PollerBase P (Closure C)}.
Context `{LW : !LoopWorld W P C} `{CW : !ConnWorld W U}.
Context `{SK : !SocketKernel W} `{SC : !Socket.SocketCalls W} `{AW : !AppWorld W A}.
Context {PL : PollerLaws P (Closure C)} {LWok : LoopWorldLaws W P C}.
Context {CLok : ConnLaws W P C U} {AL : AppLaws W P C U A}.

(** The handler's callbacks work on the application's data [A]; [now] is the
    time the poller returned. *)
Context (h : ProtobufHandler (W := A) (TcpConnectionPtr := ConnId)) (now : W -> TimePoint).

Definition on_protobuf (tid : Z) (conn : ConnId) (w : W) : outcome W :=
  let! c := deref_conn conn w in
  let! r := OnMessage h conn (receive_buffer_ c) (now w) (get_app w) in
  match r with
  | Some (b, a) => Ok (put_app a (put_conn conn (set_receive_buffer b c) w))
  | None => Undef                       (** out of fuel; it never is *)
  end.

(** [Send]: [Codec::Encode(msg, connection->sendBuffer())]. *)
Definition protobuf_Send (conn : ConnId) (msg : Message) (w : W) : outcome W :=
  let! c := deref_conn conn w in
  let! b := Send (send_buffer_ c) msg in
  Ok (put_conn conn (set_send_buffer b c) w).

(** ** Receiving *)
Section Receiving.
Context (task : ConnTask -> C) (user : Z -> U -> ConnId -> W -> outcome W) (on_message : U).
Hypothesis on_message_is : forall tid conn w, user tid on_message conn w = on_protobuf tid conn w.
Context (client : Z -> C -> W -> outcome W).
Hypothesis client_task : forall tid t w,
  client tid (task t) w = run_conn_task task (user tid) tid t w.
(** The callbacks return. *)
Hypothesis returns : forall conn m t a, exists a', Dispatch (dispatcher_ h) conn m t a = Ok a'.

(** The messages the application has been given, in some calls at some times. *)
Inductive handled (conn : ConnId) : list (Message * list byte) -> A -> A -> Prop :=
| handled_none a : handled conn [] a a
| handled_call ms rest t a a1 a2 :
    dispatch_all h conn ms t a = Ok a1 -> handled conn rest a1 a2 -> handled conn (ms ++ rest) a a2.

Lemma handled_app conn ms1 ms2 a a1 a2 :
  handled conn ms1 a a1 -> handled conn ms2 a1 a2 -> handled conn (ms1 ++ ms2) a a2.
Proof.
  induction 1 as [|ms rest t a a1' a2' Hd _ IH]; intros H2; [done|].
  rewrite <- app_assoc. eapply handled_call; [exact Hd|by apply IH].
Qed.

Lemma dispatch_all_returns conn ms t a : exists a', dispatch_all h conn ms t a = Ok a'.
Proof.
  revert a. induction ms as [|[m p] ms IH]; intros a; cbn; [by exists a|].
  destruct (returns conn m t a) as [a1 ->]. apply IH.
Qed.

(** A connection that receives; [part] are the bytes not yet dispatched. *)
Record receiving (tid : Z) (conn : ConnId) (w : W) (c : TcpConnection U)
    (ch : Channel (Closure C)) (part : list byte) (rbound : Z) : Prop := {
  rc_base : conn_base tid conn w c ch;
  rc_buffer : refines (receive_buffer_ c) part rbound;
  rc_message : message_callback_ c = Some on_message;
  rc_read : reads_with task conn ch;
}.

(** Frames at the front of the receive buffer are dispatched, a part of one is
    kept. *)
Lemma on_protobuf_frames tid conn w c ch data rbound ms1 ms2 part :
  conn_base tid conn w c ch -> refines (receive_buffer_ c) data rbound ->
  data = frames ms1 ++ part -> partial part ms2 -> all_decodable ms1 -> all_decodable ms2 ->
  exists w' b, on_protobuf tid conn w = Ok w' /\
    conn_base tid conn w' (set_receive_buffer b c) ch /\ refines b part rbound /\
    (forall fd, wire fd w' = wire fd w) /\ handled conn ms1 (get_app w) (get_app w').
Proof.
  intros Hb (Hwf & Hc & Hri & Hlen) -> Hpart Hd1 Hd2.
  destruct (dispatch_all_returns conn ms1 (now w) (get_app w)) as [a Ha].
  destruct (OnMessage_frames h conn _ (now w) (get_app w) a ms1 part Hwf Hc Hd1 Ha)
    as (fuel & b & E & Hwf' & Hc' & Hl & Hrd).
  rewrite (OnMessage_loop_partial _ _ _ _ _ _ part ms2 Hwf' Hc' Hpart Hd2) in E.
  exists (put_app a (put_conn conn (set_receive_buffer b c) w)), b. split_and!.
  - unfold on_protobuf, deref_conn. rewrite (ok_conn _ _ _ _ _ Hb). cbn [mbind outcome_bind].
    by rewrite E.
  - apply (conn_base_frame _ _ (put_conn conn (set_receive_buffer b c) w));
      [by eapply conn_base_put|apply loop_put_app|apply channels_put_app|apply conn_put_app].
  - split_and!; [done|done|by apply Hrd|lia].
  - intros fd. by rewrite wire_put_app, wire_put_conn.
  - rewrite get_put_app, <- (app_nil_r ms1). by eapply handled_call; [exact Ha|constructor].
Qed.

(** Where a run of events has got to in the stream of [ms]. *)
Definition dispatched (tid : Z) (conn : ConnId) (w : W) (data : list byte)
    (ms : list (Message * list byte)) (rbound : Z) (w' : W) : Prop :=
  exists c' ch' ms1 ms2 part, receiving tid conn w' c' ch' part rbound /\
    (forall fd, wire fd w' = wire fd w) /\
    ms = ms1 ++ ms2 /\ data = frames ms1 ++ part /\ partial part ms2 /\
    handled conn ms1 (get_app w) (get_app w').

Lemma receiving_event tid conn mask w c ch part rbound ms rest :
  receiving tid conn w c ch part rbound -> partial part ms -> all_decodable ms ->
  let data := concat (event_input (arriving conn mask w)) in
  part ++ data ++ rest = frames ms ->
  arriving conn mask w <> Some (ReadOk []) -> 0 <= rbound < 2 ^ 61 ->
  exists w', event client tid conn mask w = Ok w' /\
    dispatched tid conn w (part ++ data) ms (rbound + Zlen data) w'.
Proof.
  intros [Hb Hr Hm Hrd] Hpart Hdec data Hs Hne Hrb. subst data.
  destruct (arriving conn mask w) as [[data|e]|] eqn:Ea.
  2,3: destruct (event_quiet task user client client_task tid conn mask w c ch _ _ Hb Hrd Hr)
         as (w' & E & Hb' & Hw' & Ha'); [by rewrite Ea|];
       cbn [event_input concat]; rewrite Zlen_nil, Z.add_0_r, app_nil_r;
       exists w'; split; [exact E|]; exists c, (setReturnEvents mask ch), [], ms, part;
       rewrite Ha'; split_and!; try done; by first [split|constructor].
  cbn [event_input concat] in *. rewrite app_nil_r in *.
  destruct (event_delivers task user client client_task tid conn mask w c ch part rbound data Hb Hrd Hr)
    as (w1 & b & Hb1 & Hr1 & Hw1 & Ha1 & Hrun); [unfold EXTRA_SIZE; lia|done|by intros ->|].
  rewrite app_assoc in Hs.
  destruct (prefix_frames ms _ _ Hs) as (ms1 & ms2 & part' & -> & Hq & Hpart').
  apply Forall_app in Hdec as [Hdec1 Hdec2].
  destruct (on_protobuf_frames tid conn w1 (set_receive_buffer b c) _ _ _ ms1 ms2 part' Hb1 Hr1
    Hq Hpart' Hdec1 Hdec2) as (w' & b' & E' & Hb' & Hr' & Hw' & Ha').
  rewrite Ha1 in Ha'. exists w'. split.
  - eapply Hrun; [|exact Hb'|done]. rewrite Hm. cbn [call_user]. by rewrite on_message_is.
  - eexists _, (setReturnEvents mask ch), ms1, ms2, part'. split_and!;
      [split; [exact Hb'|exact Hr'|done..]| |done..]. intros fd. by rewrite Hw'.
Qed.

Lemma receiving_run tid conn reads w w' c ch part rbound ms rest :
  event_run client tid conn reads w w' -> receiving tid conn w c ch part rbound ->
  partial part ms -> all_decodable ms -> part ++ concat reads ++ rest = frames ms ->
  0 <= rbound -> rbound + Zlen (concat reads) < 2 ^ 61 ->
  dispatched tid conn w (part ++ concat reads) ms (rbound + Zlen (concat reads)) w'.
Proof.
  intros Hrun. revert c ch part rbound ms.
  induction Hrun as [w|mask reads w w1 w2 Hne E _ IH]; intros c ch part rbound ms Hrc Hp Hdec Hs H0 Hb.
  { cbn [concat]. rewrite app_nil_r, Zlen_nil, Z.add_0_r. exists c, ch, [], ms, part.
    split_and!; try done. constructor. }
  set (ins := event_input (arriving conn mask w)) in *.
  rewrite concat_app, Zlen_app in *. rewrite <- app_assoc in Hs.
  pose proof (Zlen_nonneg (concat ins)). pose proof (Zlen_nonneg (concat reads)).
  destruct (receiving_event tid conn mask w c ch part rbound ms (concat reads ++ rest) Hrc Hp Hdec Hs
    Hne ltac:(lia)) as (w1' & E1 & c1 & ch1 & ms1 & ms2 & part1 & Hrc1 & Hw1 & -> & Hd1 & Hp1 & Ha1).
  fold ins in Hd1, Hrc1. rewrite E in E1. injection E1 as <-. apply Forall_app in Hdec as [Hdec1 Hdec2].
  rewrite app_assoc, Hd1, frames_app, <- app_assoc in Hs. apply app_inv_head in Hs.
  destruct (IH c1 ch1 part1 _ ms2 Hrc1 Hp1 Hdec2 Hs)
    as (c2 & ch2 & ms2a & ms2b & part2 & Hrc2 & Hw2 & -> & Hd2 & Hp2 & Ha2); [lia..|].
  exists c2, ch2, (ms1 ++ ms2a), ms2b, part2. rewrite Z.add_assoc. split_and!; [done| |by rewrite app_assoc| |done|].
  - intros fd. by rewrite Hw2.
  - by rewrite app_assoc, Hd1, frames_app, <- !app_assoc, Hd2.
  - by eapply handled_app.
Qed.

(** C21: a connection with a ProtobufHandler dispatches the messages of the stream
    that arrives, each once, in their order, as soon as its frame is complete.
    However the stream is cut into reads, and whatever reports that read nothing
    or fail come in between, the callbacks have been given exactly the messages
    whose frames have arrived, the part of the next frame waits in the receive
    buffer, nothing has been sent, and an event that reads on returns; once the
    whole stream is in, every message has been dispatched. *)
Theorem protobuf_events_dispatched tid conn reads w w' c ch part rbound ms rest :
  event_run client tid conn reads w w' -> receiving tid conn w c ch part rbound ->
  partial part ms -> all_decodable ms -> part ++ concat reads ++ rest = frames ms ->
  0 <= rbound -> rbound + Zlen (concat reads) < 2 ^ 61 ->
  exists c' ms1 ms2 kept, ms = ms1 ++ ms2 /\ part ++ concat reads = frames ms1 ++ kept /\
    partial kept ms2 /\ handled conn ms1 (get_app w) (get_app w') /\
    get_conn conn w' = Some c' /\ content (receive_buffer_ c') = kept /\
    (forall fd, wire fd w' = wire fd w) /\ (rest = [] -> ms1 = ms /\ kept = []) /\
    forall mask, arriving conn mask w' <> Some (ReadOk []) ->
      concat (event_input (arriving conn mask w')) `prefix_of` rest ->
      exists w'', event client tid conn mask w' = Ok w''.
Proof.
  intros Hrun Hrc Hp Hdec Hs H0 Hb. pose proof (Zlen_nonneg (concat reads)).
  destruct (receiving_run _ _ _ _ _ _ _ _ _ _ _ Hrun Hrc Hp Hdec Hs H0 Hb)
    as (c' & ch' & ms1 & ms2 & kept & Hrc' & Hw & -> & Hd & Hp' & Ha).
  apply Forall_app in Hdec as [Hdec1 Hdec2].
  rewrite app_assoc, Hd, frames_app, <- app_assoc in Hs. apply app_inv_head in Hs.
  exists c', ms1, ms2, kept. split_and!; try done.
  - apply (ok_conn _ _ _ _ _ (rc_base _ _ _ _ _ _ _ Hrc')).
  - apply (rc_buffer _ _ _ _ _ _ _ Hrc').
  - intros ->. rewrite app_nil_r in Hs.
    destruct (partial_whole _ _ Hp' Hdec2 Hs) as [-> ->]. by rewrite app_nil_r.
  - intros mask Hne [rest' ->].
    destruct (receiving_event tid conn mask w' c' ch' kept _ ms2 rest' Hrc' Hp' Hdec2 Hs Hne)
      as (w'' & E & _); [lia|by exists w''].
Qed.

(** ** Whatever the peer sends *)
Lemma on_protobuf_any tid conn w c ch data rbound :
  conn_base tid conn w c ch -> refines (receive_buffer_ c) data rbound ->
  exists w' b n, on_protobuf tid conn w = Ok w' /\
    conn_base tid conn w' (set_receive_buffer b c) ch /\ refines b (zdrop n data) rbound /\
    forall fd, wire fd w' = wire fd w.
Proof.
  intros Hb (Hwf & Hc & Hri & Hlen).
  destruct (OnMessage_total h conn _ (now w) (get_app w) Hwf (fun m a => returns conn m (now w) a))
    as (b & a & n & E & Hwf' & Hc' & Hl & Hrd).
  exists (put_app a (put_conn conn (set_receive_buffer b c) w)), b, n. split_and!.
  - unfold on_protobuf, deref_conn. rewrite (ok_conn _ _ _ _ _ Hb). cbn [mbind outcome_bind].
    by rewrite E.
  - apply (conn_base_frame _ _ (put_conn conn (set_receive_buffer b c) w));
      [by eapply conn_base_put|apply loop_put_app|apply channels_put_app|apply conn_put_app].
  - split_and!; [done|by rewrite Hc', Hc|by apply Hrd|lia].
  - intros fd. by rewrite wire_put_app, wire_put_conn.
Qed.

Lemma any_event tid conn mask w c ch part rbound :
  receiving tid conn w c ch part rbound ->
  let data := concat (event_input (arriving conn mask w)) in
  arriving conn mask w <> Some (ReadOk []) -> 0 <= rbound < 2 ^ 61 ->
  exists w' c' ch' n, event client tid conn mask w = Ok w' /\
    receiving tid conn w' c' ch' (zdrop n (part ++ data)) (rbound + Zlen data) /\
    forall fd, wire fd w' = wire fd w.
Proof.
  intros [Hb Hr Hm Hrd] data Hne Hrb. subst data.
  destruct (arriving conn mask w) as [[data|e]|] eqn:Ea.
  2,3: destruct (event_quiet task user client client_task tid conn mask w c ch _ _ Hb Hrd Hr)
         as (w' & E & Hb' & Hw' & _); [by rewrite Ea|];
       cbn [event_input concat]; rewrite Zlen_nil, Z.add_0_r, app_nil_r;
       exists w', c, (setReturnEvents mask ch), 0; rewrite zdrop_0; by split_and!.
  cbn [event_input concat] in *. rewrite app_nil_r in *.
  destruct (event_delivers task user client client_task tid conn mask w c ch part rbound data Hb Hrd Hr)
    as (w1 & b & Hb1 & Hr1 & Hw1 & _ & Hrun); [unfold EXTRA_SIZE; lia|done|by intros ->|].
  destruct (on_protobuf_any tid conn w1 (set_receive_buffer b c) _ _ _ Hb1 Hr1)
    as (w' & b' & n & E' & Hb' & Hr' & Hw').
  eexists w', _, (setReturnEvents mask ch), n. split_and!;
    [|split; [exact Hb'|exact Hr'|done..]|intros fd; by rewrite Hw'].
  eapply Hrun; [|exact Hb'|done]. rewrite Hm. cbn [call_user]. by rewrite on_message_is.
Qed.

(** C22: no peer can bring such a connection down.  Whatever bytes arrive, in
    whatever pieces, every event returns as long as the callbacks do: the loop in
    [OnMessage] ends, nothing outside the receive buffer is read, the buffer stays
    well formed and within the bytes received, nothing is sent, and the next event
    returns again. *)
Theorem protobuf_survives_any_peer tid conn reads w w' c ch part rbound :
  event_run client tid conn reads w w' -> receiving tid conn w c ch part rbound ->
  0 <= rbound -> rbound + Zlen (concat reads) < 2 ^ 61 ->
  exists c' ch' part', receiving tid conn w' c' ch' part' (rbound + Zlen (concat reads)) /\
    part' `suffix_of` part ++ concat reads /\ (forall fd, wire fd w' = wire fd w) /\
    forall mask, arriving conn mask w' <> Some (ReadOk []) ->
      exists w'', event client tid conn mask w' = Ok w''.
Proof.
  intros Hrun. revert c ch part rbound.
  induction Hrun as [w|mask reads w w1 w2 Hne E _ IH]; intros c ch part rbound Hrc H0 Hb.
  { cbn [concat] in *. rewrite app_nil_r, Zlen_nil, Z.add_0_r in *. exists c, ch, part.
    split_and!; [done|done|done|]. intros mask Hne.
    destruct (any_event tid conn mask w c ch part rbound Hrc Hne ltac:(lia)) as (w'' & ? & ? & ? & E & _).
    by exists w''. }
  set (ins := event_input (arriving conn mask w)) in *. rewrite concat_app, Zlen_app in *.
  pose proof (Zlen_nonneg (concat ins)). pose proof (Zlen_nonneg (concat reads)).
  destruct (any_event tid conn mask w c ch part rbound Hrc Hne ltac:(lia))
    as (w1' & c1 & ch1 & n & E1 & Hrc1 & Hw1). fold ins in Hrc1. rewrite E in E1. injection E1 as <-.
  destruct (IH c1 ch1 _ _ Hrc1) as (c2 & ch2 & part2 & Hrc2 & Hsuf & Hw2 & Hnext); [lia..|].
  exists c2, ch2, part2. rewrite Z.add_assoc. split_and!; [done| |intros fd; by rewrite Hw2|done].
  rewrite app_assoc. etrans; [exact Hsuf|]. exists (ztake n (part ++ concat ins)). unfold ztake, zdrop.
  by rewrite !app_assoc, take_drop.
Qed.
End Receiving.

(** ** Sending *)
Section Sending.
Context (task : ConnTask -> C) (user : U -> ConnId -> W -> outcome W).

Lemma frame_pos msg payload : 0 < Zlen (frame msg payload).
Proof.
  rewrite Zlen_frame. pose proof (Zlen_nonneg (GetTypeName msg)). pose proof (Zlen_nonneg payload). lia.
Qed.

(** [Send] appends one frame to the send buffer and does nothing else. *)
Lemma protobuf_Send_spec tid conn w c ch q bound msg payload :
  conn_base tid conn w c ch -> refines (send_buffer_ c) q bound -> encodable msg payload ->
  bound + Zlen (frame msg payload) < 2 ^ 63 ->
  exists b, protobuf_Send conn msg w = Ok (put_conn conn (set_send_buffer b c) w) /\
    refines b (q ++ frame msg payload) (bound + Zlen (frame msg payload)).
Proof.
  intros Hb Hr He Hmax. pose proof Hr as (Hwf & _ & Hri & Hlen). pose proof Hwf as (? & ? & ?).
  destruct (Encode_spec msg payload (send_buffer_ c) He Hwf) as (b & E & Hap); [|lia|].
  - right. rewrite writable_eq by done. lia.
  - exists b. unfold protobuf_Send, deref_conn, Send. rewrite (ok_conn _ _ _ _ _ Hb).
    cbn [mbind outcome_bind]. rewrite E. split; [done|]. by eapply refines_appended.
Qed.

(** Sends behind bytes that wait. *)
Lemma sends_wait tid conn datas w c ch q bound :
  conn_base tid conn w c ch -> state_ c = Connected -> refines (send_buffer_ c) q bound ->
  q <> [] -> bound + Zlen (concat datas) < 2 ^ 63 ->
  exists w' c', run_conn_ops task user tid conn (map OpSend datas) w = Ok w' /\
    get_conn conn w' = Some c' /\ content (send_buffer_ c') = q ++ concat datas /\
    wire (socket_ c) w' = wire (socket_ c) w.
Proof.
  revert w c ch q bound. induction datas as [|data datas IH]; intros w c ch q bound Hb Hs Hr Hq Hmax.
  { exists w, c. cbn. rewrite app_nil_r. split_and!; [done|apply Hb|apply Hr|done]. }
  cbn [concat map run_conn_ops run_conn_op] in *. rewrite Zlen_app in Hmax.
  pose proof (Zlen_nonneg (concat datas)).
  destruct (sendInLoop_waits task tid conn w c ch q bound data Hb Hr (or_introl Hq))
    as (w1 & c1 & ch1 & E & Hb1 & Hr1 & (Hsock & _ & Hst & _)%same_conn_fields & Hw1); [lia|].
  destruct (IH w1 c1 ch1 (q ++ data) (bound + Zlen data) Hb1) as (w2 & c2 & E2 & Hc2 & Hq2 & Hw2);
    [congruence|exact Hr1|by destruct q|lia|].
  exists w2, c2. rewrite Hsock, Hw1 in Hw2. rewrite app_assoc. split_and!; [|done..].
  rewrite (send_connected task (fun _ => user) tid conn w c ch data Hb Hs), E. exact E2.
Qed.

(** C23: a message sent with [ProtobufHandler::Send] does not leave, and it
    holds up what is sent after it.  On a connection with nothing to send, [Send]
    writes the frame into the send buffer and returns: nothing is written to the
    socket and the channel is not asked to wait for POLLOUT; every later [send]
    on the connection finds the buffer occupied and only queues behind it, so the
    kernel is not given a byte of either. *)
Theorem protobuf_send_stays tid conn w c ch bound msg payload datas :
  conn_ok tid conn w c ch [] bound -> state_ c = Connected -> encodable msg payload ->
  bound + Zlen (frame msg payload) + Zlen (concat datas) < 2 ^ 63 ->
  exists w1 w2 c2, protobuf_Send conn msg w = Ok w1 /\
    get_channels w1 = get_channels w /\ isWriting ch = false /\
    (forall fd, wire fd w1 = wire fd w) /\
    run_conn_ops task user tid conn (map OpSend datas) w1 = Ok w2 /\
    get_conn conn w2 = Some c2 /\ content (send_buffer_ c2) = frame msg payload ++ concat datas /\
    wire (socket_ c) w2 = wire (socket_ c) w.
Proof.
  intros [Hb Hr Hwr] Hs He Hmax. pose proof (Zlen_nonneg (concat datas)).
  destruct (protobuf_Send_spec tid conn w c ch [] bound msg payload Hb Hr He ltac:(lia))
    as (b & E & Hr1).
  pose proof (conn_base_put tid conn w c (set_send_buffer b c) ch Hb eq_refl eq_refl) as Hb1.
  destruct (sends_wait tid conn datas _ _ ch _ _ Hb1 Hs Hr1) as (w2 & c2 & E2 & Hc2 & Hq2 & Hw2).
  { intros E0%(f_equal Zlen). pose proof (frame_pos msg payload). rewrite app_nil_l, Zlen_nil in E0. lia. }
  { lia. }
  eexists _, w2, c2. split_and!; [exact E|apply channels_put_conn|by rewrite Hwr| |exact E2|done..|].
  - intros fd. apply wire_put_conn.
  - cbn in Hw2. by rewrite Hw2, wire_put_conn.
Qed.

(** Operations that send messages, each encoded into a buffer of its own. *)
Inductive sends_messages : list conn_op -> list (Message * list byte) -> Prop :=
| sends_none : sends_messages [] []
| sends_writable os ms : sends_messages os ms -> sends_messages (OpWritable :: os) ms
| sends_message b m p os ms : encodable m p -> Encode m (make INITIALIZE_SIZE) = Ok b ->
    sends_messages os ms -> sends_messages (OpSendBuffer b :: os) ((m, p) :: ms).

Lemma encoded_buffer b m p : encodable m p -> Encode m (make INITIALIZE_SIZE) = Ok b ->
  refines b (frame m p) (1032 + Zlen (frame m p)).
Proof.
  intros He E. pose proof (make_refines INITIALIZE_SIZE ltac:(done) ltac:(done)) as Hm.
  pose proof (enc_fits _ _ He). pose proof (Zlen_frame m p). pose proof Hm as (Hwf & _ & Hri & Hl).
  destruct (Encode_spec m p (make INITIALIZE_SIZE) He Hwf) as (b' & E' & Hap).
  - right. rewrite writable_eq by done. destruct Hwf as (? & ? & ?). lia.
  - destruct Hwf as (? & ? & ?). unfold CHEAP_PREPEND, INITIALIZE_SIZE in *. lia.
  - rewrite E in E'. injection E' as <-. exact (refines_appended _ _ _ _ _ Hm Hap).
Qed.

Lemma sends_messages_data os ms : sends_messages os ms ->
  Forall op_wf os /\ concat (map op_data os) = frames ms /\
  ops_storage os <= 2 * Zlen (frames ms) + 1032 * Z.of_nat (length ms).
Proof.
  induction 1 as [|os ms _ (Hwf & Hd & Hst)|b m p os ms He E _ (Hwf & Hd & Hst)].
  - done.
  - split_and!; [by constructor|done|]. cbn [ops_storage foldr op_storage]. exact Hst.
  - destruct (encoded_buffer b m p He E) as (Hb & Hc & Hri & Hl). split_and!.
    + by constructor.
    + cbn [map concat op_data]. by rewrite Hd, Hc.
    + cbn [ops_storage foldr op_storage length]. fold (ops_storage os).
      rewrite frames_cons, Zlen_app, Hc. lia.
Qed.
End Sending.
End ProtobufConn.

(** ** A handler that keeps the payloads it is given, on the connection of
    DemoApp.v: the 50 bytes of two messages arrive as 30 and 20 *)
Abbreviation LogWorld := (DemoApp Dispatcher.Log).

Definition conn_logger : @ProtobufHandler query_protobuf _ _ Dispatcher.Log ConnId :=
  SetCallback (PB := query_protobuf) (7 : Z)
    (Some (fun _ (m : @Message query_protobuf) _ (w : Dispatcher.Log) => Ok (w ++ [m])))
    (make_ProtobufHandler (PB := query_protobuf) None).

Lemma conn_logger_returns conn m t a :
  exists a', Dispatch (PB := query_protobuf) (dispatcher_ conn_logger) conn m t a = Ok a'.
Proof. by exists (a ++ [m]). Qed.

Definition log_user (tid : Z) (f : Z) (conn : ConnId) (w : LogWorld) : outcome LogWorld :=
  on_protobuf (PR := query_protobuf) conn_logger (fun _ => 0) tid conn w.

Definition log_client (tid : Z) (t : ConnTask) (w : LogWorld) : outcome LogWorld :=
  run_conn_task (fun t => t) (log_user tid) tid t w.

Definition log_conn : TcpConnection Z := setMessageCallback 1 (demo_conn Connected).

Definition two_frames : list byte := frames (PB := query_protobuf) two_messages.
Definition two_reads : list (list byte) := [ztake 30 two_frames; zdrop 30 two_frames].

Definition log_before : LogWorld := mkDemoApp (put_conn 1 log_conn demo_fresh) two_reads [].

Definition log_after (n : nat) : LogWorld :=
  Nat.iter n (fun w => match event log_client 7 1 POLLIN w with Ok w => w | _ => log_before end)
    log_before.

Lemma log_receiving : receiving (fun t => t) 1 7 1 log_before log_conn demo_channel9 [] 1032.
Proof. split; [by apply demo_app_base|apply demo_refines|done..]. Qed.

Lemma log_event0 : event log_client 7 1 POLLIN (log_after 0) = Ok (log_after 1) /\
  arriving 1 POLLIN (log_after 0) = Some (ReadOk (ztake 30 two_frames)).
Proof. split; by vm_compute. Qed.

Lemma log_event1 : event log_client 7 1 POLLIN (log_after 1) = Ok (log_after 2) /\
  arriving 1 POLLIN (log_after 1) = Some (ReadOk (zdrop 30 two_frames)).
Proof. split; by vm_compute. Qed.

Lemma log_run : event_run log_client 7 1 two_reads (log_after 0) (log_after 2).
Proof.
  change two_reads with (event_input (Some (ReadOk (ztake 30 two_frames))) ++
    event_input (Some (ReadOk (zdrop 30 two_frames))) ++ []).
  destruct log_event0 as [E0 A0], log_event1 as [E1 A1]. rewrite <- A0, <- A1.
  eapply run_more; [by rewrite A0|exact E0|]. eapply run_more; [by rewrite A1|exact E1|constructor].
Qed.

Lemma two_reads_all : [] ++ concat two_reads ++ [] = two_frames.
Proof. by vm_compute. Qed.

Lemma two_reads_length : Zlen (concat two_reads) = 50.
Proof. by vm_compute. Qed.

Lemma protobuf_events_dispatched_witness :
  handled (PR := query_protobuf) conn_logger 1 two_messages [] (get_app (log_after 2)).
Proof.
  destruct (protobuf_events_dispatched (PR := query_protobuf) conn_logger (fun _ => 0)
    (fun t => t) log_user 1 (fun _ _ _ => eq_refl) log_client (fun _ _ _ => eq_refl)
    conn_logger_returns 7 1 two_reads log_before (log_after 2) log_conn demo_channel9 [] 1032
    two_messages [] log_run log_receiving (or_introl eq_refl) two_messages_decodable two_reads_all)
    as (c' & ms1 & ms2 & kept & _ & _ & _ & Ha & _ & _ & _ & Hall & _);
    [done|by rewrite two_reads_length|].
  by destruct (Hall eq_refl) as [<- _].
Defined.

(** Five bytes whose length field asks for more than 64 MB. *)
Definition bad_bytes : list byte := content hostile.
Definition bad_before : LogWorld := mkDemoApp (put_conn 1 log_conn demo_fresh) [bad_bytes] [].
Definition bad_after : LogWorld :=
  match event log_client 7 1 POLLIN bad_before with Ok w => w | _ => bad_before end.

Lemma bad_event : event log_client 7 1 POLLIN bad_before = Ok bad_after /\
  arriving 1 POLLIN bad_before = Some (ReadOk bad_bytes).
Proof. split; by vm_compute. Qed.

Lemma bad_run : event_run log_client 7 1 [bad_bytes] bad_before bad_after.
Proof.
  change [bad_bytes] with (event_input (Some (ReadOk bad_bytes)) ++ []).
  destruct bad_event as [E Ea]. rewrite <- Ea.
  eapply run_more; [by rewrite Ea|exact E|constructor].
Qed.

Lemma bad_receiving : receiving (fun t => t) 1 7 1 bad_before log_conn demo_channel9 [] 1032.
Proof. split; [by apply demo_app_base|apply demo_refines|done..]. Qed.

Lemma bad_length : Zlen (concat [bad_bytes]) = 5.
Proof. by vm_compute. Qed.

Lemma protobuf_survives_any_peer_witness :
  exists (c' : TcpConnection Z) part', get_conn 1 bad_after = Some c' /\
    content (receive_buffer_ c') = part' /\ part' `suffix_of` concat [bad_bytes].
Proof.
  destruct (protobuf_survives_any_peer (PR := query_protobuf) conn_logger (fun _ => 0)
    (fun t => t) log_user 1 (fun _ _ _ => eq_refl) log_client (fun _ _ _ => eq_refl)
    conn_logger_returns 7 1 [bad_bytes] bad_before bad_after log_conn demo_channel9 [] 1032
    bad_run bad_receiving) as (c' & ch' & part' & Hrc & Hs & _);
    [done|by rewrite bad_length|].
  exists c', part'. split; [apply (ok_conn _ _ _ _ _ (rc_base _ _ _ _ _ _ _ _ _ Hrc))|].
  split; [apply (rc_buffer _ _ _ _ _ _ _ _ _ Hrc)|exact Hs].
Defined.

(** One message sent with [Send], then five bytes. *)
Lemma protobuf_send_stays_witness : exists w1 w2 (c2 : TcpConnection Z),
  protobuf_Send (PR := query_protobuf) 1 hello (demo_in Connected) = Ok w1 /\
  run_conn_ops (fun t => t) demo_user 7 1 [OpSend hello_bytes] w1 = Ok w2 /\
  get_conn 1 w2 = Some c2 /\
  content (send_buffer_ c2) = frame (PB := query_protobuf) hello hello ++ hello_bytes /\
  wire 9 w2 = [].
Proof.
  destruct (protobuf_send_stays (PR := query_protobuf) (fun t => t) demo_user 7 1
    (demo_in Connected) (demo_conn Connected) demo_channel9 1032 hello hello [hello_bytes]
    (demo_ok Connected) eq_refl) as (w1 & w2 & c2 & E1 & _ & _ & _ & E2 & Hc2 & Hc & Hw).
  - apply query_encodable. by vm_compute.
  - by vm_compute.
  - exists w1, w2, c2. split; [exact E1|]. split; [exact E2|].
    split; [exact Hc2|]. split; [by rewrite Hc|exact Hw].
Defined.
