(* ===== verification/ProtobufSystem.v ===== *)
(** * ProtobufSystem: protobuf messages from one program to another

    A connection that sends encoded messages and a connection whose message
    callback is a ProtobufHandler (ProtobufConn.v), in two programs; the network
    between them is a hypothesis, as in EchoSystem.v. *)
From Stdlib Require Import ZArith Lia List String.
From stdpp Require Import base option list numbers gmap strings tactics.
From S2P Require Import Prelude.
From S2P Require Import Buffer.
From S2P Require Import Endian.
From S2P Require Import Codec.
From S2P Require Import Dispatcher.
From S2P Require Import Channel.
From S2P Require Import PollerBase.
From S2P Require Import EventLoop.
From S2P Require Import InetAddress.
From S2P Require Socket.
From S2P Require Import TcpConnection.
From S2P Require Import ConnEvents.
From S2P Require Import DemoApp.
From S2P Require Import ProtobufConn.
From S2P Require Poller.
Open Scope Z_scope.
Open Scope outcome_scope.

Section ProtobufSystem.
Context {PR : Protobuf} `{!EqDecision Descriptor, !Countable Descriptor}.
Context `{EFD : EventFd}.

(** The sender's program. *)
Context {W1 P1 C1 U1 : Type} `{PB1 : !PollerBase P1 (Closure C1)}.
Context `{LW1 : !LoopWorld W1 P1 C1} `{CW1 : !ConnWorld W1 U1}.
Context `{SK1 : !SocketKernel W1} `{SC1 : !Socket.SocketCalls W1}.
Context {PL1 : PollerLaws P1 (Closure C1)} {LL1 : LoopWorldLaws W1 P1 C1}.
Context {CL1 : ConnLaws W1 P1 C1 U1}.
Context (task1 : ConnTask -> C1) (user1 : U1 -> ConnId -> W1 -> outcome W1).

(** The receiver's. *)
Context {W2 P2 C2 U2 A2 : Type} `{PB2 : !PollerBase P2 (Closure C2)}.
Context `{LW2 : !LoopWorld W2 P2 C2} `{CW2 : !ConnWorld W2 U2}.
Context `{SK2 : !SocketKernel W2} `{SC2 : !Socket.SocketCalls W2} `{AW2 : !AppWorld W2 A2}.
Context {PL2 : PollerLaws P2 (Closure C2)} {LL2 : LoopWorldLaws W2 P2 C2}.
Context {CL2 : ConnLaws W2 P2 C2 U2} {AL2 : AppLaws W2 P2 C2 U2 A2}.
Context (h : ProtobufHandler (W := A2) (TcpConnectionPtr := ConnId)) (now : W2 -> TimePoint).
Context (task2 : ConnTask -> C2) (user2 : Z -> U2 -> ConnId -> W2 -> outcome W2) (on_message : U2).
Hypothesis on_message_is : forall tid conn w,
  user2 tid on_message conn w = on_protobuf h now tid conn w.
Context (client2 : Z -> C2 -> W2 -> outcome W2).
Hypothesis client2_task : forall tid t w,
  client2 tid (task2 t) w = run_conn_task task2 (user2 tid) tid t w.
Hypothesis returns : forall conn m t a, exists a', Dispatch (dispatcher_ h) conn m t a = Ok a'.

(** C20: messages arrive as they were sent.  One side encodes messages and gives
    the buffers to [send], with writable events in between and whatever its
    kernel takes of each write; the other side's events read what the network has
    brought, a prefix of what the sender's kernel took.  The receiver's callbacks
    have then been given a prefix of the messages sent, each once and in their
    order, exactly those whose frames have arrived completely; and all of them
    when every byte has arrived. *)
Theorem protobuf_end_to_end tid1 conn1 (w1 : W1) c1 ch1 bound1 os ms
    tid2 conn2 (w2 w2' : W2) c2 ch2 rbound reads :
  conn_ok tid1 conn1 w1 c1 ch1 [] bound1 -> state_ c1 = Connected -> wire (socket_ c1) w1 = [] ->
  sends_messages os ms -> all_decodable ms ->
  receiving task2 on_message tid2 conn2 w2 c2 ch2 [] rbound ->
  event_run client2 tid2 conn2 reads w2 w2' ->
  0 <= bound1 -> 0 <= rbound -> bound1 + ops_storage os < 2 ^ 63 ->
  rbound + Zlen (frames ms) < 2 ^ 61 ->
  exists w1', run_conn_ops task1 user1 tid1 conn1 os w1 = Ok w1' /\
    (concat reads `prefix_of` wire (socket_ c1) w1' ->
     exists c2' ms1 ms2 kept, ms = ms1 ++ ms2 /\ concat reads = frames ms1 ++ kept /\
       partial kept ms2 /\ handled h conn2 ms1 (get_app w2) (get_app w2') /\
       get_conn conn2 w2' = Some c2' /\ content (receive_buffer_ c2') = kept /\
       (Zlen (concat reads) = Zlen (frames ms) -> ms1 = ms /\ kept = [])).
Proof.
  intros Hok Hst Hw0 Hsends Hdec Hrc Hrun H1 H2 Hl1 Hl2.
  destruct (sends_messages_data os ms Hsends) as (Hwf & Hdata & _).
  destruct (run_conn_ops_stream task1 user1 tid1 conn1 os w1 c1 ch1 [] bound1 Hok Hst Hwf H1 Hl1)
    as (w1' & E & c1' & ch1' & q & _ & _ & _ & Hs).
  rewrite Hw0, Hdata in Hs. cbn [app] in Hs.
  exists w1'. split; [exact E|]. intros [rest0 Hrest].
  assert (Hfr : [] ++ concat reads ++ (rest0 ++ q) = frames ms) by (by rewrite <- Hs, Hrest, <- app_assoc).
  assert (Hlen : Zlen (concat reads) + Zlen (rest0 ++ q) = Zlen (frames ms))
    by (by rewrite <- Hfr, app_nil_l, (Zlen_app (concat reads))).
  pose proof (Zlen_nonneg (rest0 ++ q)).
  destruct (receiving_run h now task2 user2 on_message on_message_is client2 client2_task returns
    tid2 conn2 reads w2 w2' c2 ch2 [] rbound ms (rest0 ++ q) Hrun Hrc)
    as (c2' & ch2' & ms1 & ms2 & kept & Hrc' & _ & -> & Hd & Hp & Ha); [by left|done..|lia|].
  cbn [app] in Hd. exists c2', ms1, ms2, kept. split_and!; try done.
  - apply (ok_conn _ _ _ _ _ (rc_base _ _ _ _ _ _ _ _ _ Hrc')).
  - apply (rc_buffer _ _ _ _ _ _ _ _ _ Hrc').
  - intros Hall. rewrite (Zlen_0_nil (rest0 ++ q)), !app_nil_r, app_nil_l, Hd, frames_app in Hfr by lia.
    apply app_inv_head in Hfr. apply Forall_app in Hdec as [_ Hdec2].
    destruct (partial_whole _ _ Hp Hdec2 Hfr) as [-> ->]. by rewrite app_nil_r.
Qed.
End ProtobufSystem.

(** ** Two messages, from the connection of TcpConnection.v to that of
    ProtobufConn.v

    The first write takes two bytes, the next report of the socket none, the last
    one the rest. *)
Definition encoded (m : list byte) : Buffer :=
  match Encode (PB := query_protobuf) m (make INITIALIZE_SIZE) with
  | Ok b => b | _ => make INITIALIZE_SIZE
  end.

Definition demo_sends : list conn_op :=
  [OpSendBuffer (encoded hello); OpWritable; OpSendBuffer (encoded []); OpWritable].

Lemma demo_encodes m : m = hello \/ m = [] ->
  encodable (PB := query_protobuf) m m /\
  Encode (PB := query_protobuf) m (make INITIALIZE_SIZE) = Ok (encoded m).
Proof. intros [-> | ->]; (split; [apply query_encodable|]; by vm_compute). Qed.

Lemma demo_sends_messages : sends_messages (PR := query_protobuf) demo_sends two_messages.
Proof.
  destruct (demo_encodes hello) as [H1 H2]; [by left|].
  destruct (demo_encodes []) as [H3 H4]; [by right|].
  apply (sends_message (PR := query_protobuf)); [done..|]. apply sends_writable.
  apply (sends_message (PR := query_protobuf)); [done..|]. apply sends_writable. constructor.
Qed.

Definition demo_sent : DemoConns :=
  match run_conn_ops (fun t => t) demo_user 7 1 demo_sends (demo_in Connected) with
  | Ok w => w | _ => demo_in Connected
  end.

Lemma demo_sent_wire : run_conn_ops (fun t => t) demo_user 7 1 demo_sends (demo_in Connected)
    = Ok demo_sent /\ wire 9 demo_sent = concat two_reads.
Proof. split; by vm_compute. Qed.

Lemma demo_unsent : wire (socket_ (demo_conn Connected)) (demo_in Connected) = [].
Proof. by vm_compute. Qed.

Lemma only_sent w : run_conn_ops (fun t => t) demo_user 7 1 demo_sends (demo_in Connected) = Ok w ->
  w = demo_sent.
Proof. destruct demo_sent_wire as [-> _]. generalize demo_sent. by intros d [= ->]. Qed.

Lemma demo_sizes : ops_storage demo_sends < 2 ^ 20 /\
  Zlen (frames (PB := query_protobuf) two_messages) = 50.
Proof. split; by vm_compute. Qed.

Lemma protobuf_end_to_end_witness : wire 9 demo_sent = concat two_reads /\
  handled (PR := query_protobuf) conn_logger 1 two_messages [] (get_app (log_after 2)).
Proof.
  destruct demo_sizes as [Hs1 Hs2], demo_sent_wire as [_ Hw].
  destruct (protobuf_end_to_end (PR := query_protobuf) (fun t => t) demo_user conn_logger
    (fun _ => 0) (fun t => t) log_user 1 (fun _ _ _ => eq_refl) log_client (fun _ _ _ => eq_refl)
    conn_logger_returns 7 1 (demo_in Connected) (demo_conn Connected) demo_channel9 1032
    demo_sends two_messages 7 1 log_before (log_after 2) log_conn demo_channel9 1032 two_reads
    (demo_ok Connected) eq_refl demo_unsent demo_sends_messages two_messages_decodable log_receiving
    log_run) as (w1' & E' & H); [done|done|lia|rewrite Hs2; lia|].
  apply only_sent in E' as ->. change (socket_ (demo_conn Connected)) with 9 in H.
  rewrite Hw, two_reads_length, Hs2 in H.
  destruct H as (c2' & ms1 & ms2 & kept & _ & _ & _ & Ha & _ & _ & Hall); [done|].
  split; [exact Hw|]. by destruct (Hall eq_refl) as [<- _].
Defined.
