(* ===== verification/ServerStart.v ===== *)
(** * ServerStart: TcpServer::start against the base loop

    [start] queues or runs [listen] in the base loop and then starts the workers
    one after the other, each of which adds its loop to the pool
    (EventLoopThreadPool::start).  Called on the base loop's thread, the loop
    waits meanwhile; called on another, it may listen and accept between two of
    these steps.  Reading the pool's vector while [start] extends it is a race in
    C++; the steps here are as if each access were atomic. *)
From Stdlib Require Import ZArith Lia List.
From stdpp Require Import base option list numbers relations tactics.
From S2P Require Import Prelude.
From S2P Require Import Channel.
From S2P Require Import EventLoop.
From S2P Require Import EventLoopThreadPool.
Open Scope Z_scope.
Open Scope outcome_scope.

Section ServerStart.
Context (new_loops : nat -> LoopId).

Record Starting := mkStarting {
  pool : EventLoopThreadPool;
  starting : option nat;        (** the next [i] of the [for], [None] outside it *)
  queued : bool;                (** the closure with [listen] waits in the base loop *)
  listening : bool;
  homes : list LoopId;          (** where the connections so far were placed *)
}.

Inductive start_action : Type :=
| Call (on_base_thread : bool)  (** [start()], up to the [for] *)
| StartWorker                   (** one iteration of the [for] *)
| Finish                        (** the [for] is over *)
| RunListen                     (** the base loop runs the closure *)
| Accept.                       (** the base loop accepts a connection *)

(** The base loop runs nothing while its own thread is inside [start]. *)
Definition start_step (on_base_thread : bool) (a : start_action) (s : Starting)
    : option (outcome Starting) :=
  let base_free := negb (on_base_thread && bool_decide (is_Some (starting s))) in
  match a with
  | Call on_base =>
      if started_ (pool s) then None else
      if negb (Bool.eqb on_base on_base_thread) then None else
      Some (Ok (mkStarting (mkPool (base_loop_ (pool s)) true (threads_num_ (pool s))
        (next_ (pool s)) (loops_ (pool s))) (Some 0%nat) (negb on_base) on_base (homes s)))
  | StartWorker =>
      match starting s with
      | Some i =>
          if Z.of_nat i <? threads_num_ (pool s)
          then Some (Ok (mkStarting (mkPool (base_loop_ (pool s)) (started_ (pool s))
                 (threads_num_ (pool s)) (next_ (pool s)) (loops_ (pool s) ++ [new_loops i]))
                 (Some (S i)) (queued s) (listening s) (homes s)))
          else None
      | None => None
      end
  | Finish =>
      match starting s with
      | Some i => if Z.of_nat i <? threads_num_ (pool s) then None
                  else Some (Ok (mkStarting (pool s) None (queued s) (listening s) (homes s)))
      | None => None
      end
  | RunListen =>
      if queued s && base_free
      then Some (Ok (mkStarting (pool s) (starting s) false true (homes s))) else None
  | Accept =>
      if listening s && base_free
      then Some (let! (l, p) := getNextLoop (pool s) in
                 Ok (mkStarting p (starting s) (queued s) (listening s) (homes s ++ [l])))
      else None
  end.

Definition start_next (b : bool) (s s' : Starting) : Prop :=
  exists a, start_step b a s = Some (Ok s').

Definition before_start (base : LoopId) (n : Z) : Starting :=
  mkStarting (setThreadNum n (make_Pool base)) None false false [].

(** Without interference the steps are the pool's [start]. *)
Lemma workers_started b base n i : Z.of_nat i <= n ->
  let p := mkPool base true n 0 (map new_loops (seq 0 i)) in
  forall q l h, rtc (start_next b) (mkStarting (mkPool base true n 0 []) (Some 0%nat) q l h)
    (mkStarting p (Some i) q l h).
Proof.
  intros Hi p q l h. subst p. induction i as [|i IH]; [constructor|].
  eapply rtc_r; [apply IH; lia|]. exists StartWorker. cbn [start_step starting pool threads_num_].
  rewrite (proj2 (Z.ltb_lt _ _)) by lia. rewrite seq_S, map_app. done.
Qed.

Lemma start_steps_start b base n : 0 <= n ->
  rtc (start_next b) (before_start base n)
    (mkStarting (start new_loops (setThreadNum n (make_Pool base))) None (negb b) b []).
Proof.
  intros Hn. eapply rtc_l.
  { exists (Call b). cbn. rewrite Bool.eqb_reflx. cbn. done. }
  etrans; [apply (workers_started b base n (Z.to_nat n)); lia|].
  apply rtc_once. exists Finish. cbn [start_step starting pool threads_num_].
  rewrite Z2Nat.id by lia. rewrite Z.ltb_irrefl. done.
Qed.

(** On the base loop's thread: connections come only once every worker is in. *)
Definition base_inv (base : LoopId) (n : Z) (s : Starting) : Prop :=
  base_loop_ (pool s) = base /\ threads_num_ (pool s) = n /\ next_ok (pool s) /\
  queued s = false /\ (forall l, l ∈ homes s -> exists i, Z.of_nat i < n /\ l = new_loops i) /\
  match starting s with
  | Some i => started_ (pool s) = true /\ Z.of_nat i <= n /\
      loops_ (pool s) = map new_loops (seq 0 i)
  | None =>
      if started_ (pool s) then loops_ (pool s) = map new_loops (seq 0 (Z.to_nat n))
      else listening s = false /\ loops_ (pool s) = []
  end.

Lemma worker_loop p n : 0 < n < 2 ^ 31 -> next_ok p -> loops_ p = map new_loops (seq 0 (Z.to_nat n)) ->
  exists i p', getNextLoop p = Ok (new_loops i, p') /\ Z.of_nat i < n /\ next_ok p' /\
    loops_ p' = loops_ p /\ base_loop_ p' = base_loop_ p /\ threads_num_ p' = threads_num_ p /\
    started_ p' = started_ p.
Proof.
  intros Hn Hok El. assert (Hlen : Zlen (loops_ p) = n).
  { unfold Zlen. rewrite El, length_map, length_seq. lia. }
  destruct (getNextLoop_lookup p Hok) as (l & p' & E & Hl & En & Els); [lia|].
  pose proof Hl as Hl'. rewrite El in Hl'. apply list_lookup_fmap_Some in Hl' as (i & -> & [-> Hi]%lookup_seq).
  eexists _, p'.
  assert (Hrest : base_loop_ p' = base_loop_ p /\ threads_num_ p' = threads_num_ p /\
    started_ p' = started_ p).
  { revert E. unfold getNextLoop. destruct (loops_ p) eqn:Ep; [done|]. destruct (_ <? 0); [done|].
    case_match; [|done]. by intros [= _ <-]. }
  split_and!; [exact E|lia| |done|apply Hrest..]. unfold next_ok. rewrite En. apply to_int32_range.
Qed.

Lemma base_step base n s s' : 0 < n < 2 ^ 31 -> base_inv base n s -> start_next true s s' ->
  base_inv base n s'.
Proof.
  intros Hn (Hb & Ht & Hok & Hq & Hh & Hst) [a E]. destruct s as [p st q li h]; cbn in *. subst q.
  destruct a as [on_base| | | |]; cbn in E.
  - destruct (started_ p) eqn:Hs; [done|]. destruct on_base; [|done]. injection E as <-.
    destruct st as [i|]; [by destruct Hst|]. destruct Hst as [-> Hl].
    split_and!; try done. cbn. split_and!; [done|lia|done].
  - destruct st as [i|]; [|done]. destruct Hst as (Hs & Hi & Hl).
    destruct (Z.ltb_spec (Z.of_nat i) (threads_num_ p)); [|done]. injection E as <-.
    split_and!; try done. cbn -[seq]. split_and!; [done|lia|].
    rewrite Hl. by rewrite seq_S, map_app.
  - destruct st as [i|]; [|done]. destruct Hst as (Hs & Hi & Hl).
    destruct (Z.ltb_spec (Z.of_nat i) (threads_num_ p)); [done|]. injection E as <-.
    split_and!; try done. cbn. rewrite Hs, Hl. do 2 f_equal. lia.
  - done.
  - destruct li; [|done]. destruct st as [i|]; [done|]. cbn in E.
    destruct (started_ p) eqn:Hs; [|by destruct Hst].
    destruct (worker_loop p n Hn Hok Hst) as (i & p' & E' & Hi & Hok' & Hl & Hb' & Ht' & Hs').
    rewrite E' in E. injection E as <-. split_and!; cbn; try done; try congruence.
    + intros l [?|H%list_elem_of_singleton]%elem_of_app; [by apply Hh|]. subst l. by exists i.
    + by rewrite Hs', Hs, Hl.
Qed.

(** C37: Where connections land.  A server with [n] workers that is started on the base
    loop's thread gives every connection to a worker.  Started on another
    thread, it may accept before the first worker is in the pool, and the
    connection stays in the base loop. *)
Theorem start_places_connections base n : 0 < n < 2 ^ 31 ->
  (forall s, rtc (start_next true) (before_start base n) s ->
     forall l, l ∈ homes s -> exists i, Z.of_nat i < n /\ l = new_loops i) /\
  exists s, rtc (start_next false) (before_start base n) s /\ homes s = [base] /\
    listening s = true /\ loops_ (pool s) = map new_loops (seq 0 (Z.to_nat n)).
Proof.
  intros Hn. split.
  - intros s Hr. assert (Hi : base_inv base n s).
    { assert (H0 : base_inv base n (before_start base n)).
      { split_and!; try done. intros l Hl. by apply elem_of_nil in Hl. }
      revert H0. induction Hr as [|s1 s2 s3 Hs _ IH]; intros H0; [done|].
      apply IH. by eapply base_step. }
    apply Hi.
  - eexists. split_and!.
    + eapply rtc_l; [exists (Call false); by cbn|].
      eapply rtc_l; [exists RunListen; by cbn|].
      eapply rtc_l; [exists Accept; by cbn|].
      etrans; [apply (workers_started false base n (Z.to_nat n)); lia|].
      apply rtc_once. exists Finish. cbn [start_step starting pool threads_num_].
      rewrite Z2Nat.id by lia. by rewrite Z.ltb_irrefl.
    + done.
    + done.
    + done.
Qed.
End ServerStart.

Lemma start_places_connections_witness :
  exists s, rtc (start_next Z.of_nat false) (before_start 7 2) s /\ homes s = [7] /\
    listening s = true /\ loops_ (pool s) = [0; 1].
Proof. exact (proj2 (start_places_connections Z.of_nat 7 2 ltac:(lia))). Defined.
