(* ===== verification/ClientConn.v ===== *)
(** * ClientConn: the connection of a client, seen from its loop

    What the operations on a client's connection (TcpConnection.v) leave alone
    ([aside]), what stays true of the connection whatever its callbacks do with it
    ([ours], [goes_on]), and the two ends of its life: [established], [destroyed].
    ClientLife.v puts them together with the client and its connector. *)
From Stdlib Require Import ZArith Lia List String.
From stdpp Require Import base option list numbers gmap relations strings tactics.
From S2P Require Import Prelude.
From S2P Require Import Buffer.
From S2P Require Import Channel.
From S2P Require Import PollerBase.
From S2P Require Import EventLoop.
From S2P Require Import InetAddress.
From S2P Require Socket.
From S2P Require Import TcpConnection.
From S2P Require Import ConnEvents.
From S2P Require Connector.
From S2P Require Import TcpClient.
From S2P Require Poller.
Open Scope Z_scope.
Open Scope outcome_scope.

Class ClientKernel (W V : Type) `{SK : !SocketKernel W} `{KW : !ClientWorld W V} : Prop := {
  write_aside : forall fd data (w : W), let w' := (sys_write fd data w).2 in
    get_client w' = get_client w /\ get_connector w' = get_connector w;
  read_aside : forall fd cap (w : W), let w' := (sys_read fd cap w).2 in
    get_client w' = get_client w /\ get_connector w' = get_connector w;
}.

(** What the user gave the client. *)
Record config (V : Type) := mkConfig {
  on_connection : option V;
  on_message : option V;
}.
Arguments mkConfig {V}.
Arguments on_connection {V}.
Arguments on_message {V}.

Section ClientConn.
Context `{EFD : EventFd} {W P T V : Type}.
Abbreviation C := (Work T).
Context `{PB : !PollerBase P (Closure C)} {PL : PollerLaws P (Closure C)}.
Context `{LW : !LoopWorld W P C} `{CW : !ConnWorld W (Callback V)}.
Context `{SK : !SocketKernel W} `{SC : !Socket.SocketCalls W} `{KW : !ClientWorld W V}.
Context {KL : ClientLaws W P T V} {KK : ClientKernel W V}.
Context {user : V -> ConnId -> W -> outcome W} {tid : Z} {cfg : config V}.

Create Rewrite HintDb client_world.
#[local] Hint Rewrite client_at_client connector_at_connector client_at_connector client_at_conn
  client_at_loop client_at_channels connector_at_client connector_at_conn
  connector_at_loop connector_at_channels conn_at_client loop_at_client
  channels_at_client conn_at_connector loop_at_connector channels_at_connector
  loop_at_loop loop_at_channels channels_at_channels channels_at_loop
  loop_at_conn channels_at_conn conn_at_loop conn_at_channels
  conn_at_conn : client_world.

Abbreviation call_callback := (call_callback user tid).
Abbreviation watch w := (watched (F := Closure C) (poller_ (get_loop w))).

(** ** Frames

    What an operation on the descriptor [fd] leaves alone. *)
Record aside (fd : Z) (w w' : W) : Prop := {
  as_client : get_client w' = get_client w;
  as_connector : get_connector w' = get_connector w;
  as_loop : exists p, get_loop w' = set_poller p (get_loop w);
  as_watch : forall x, x <> fd -> watch w' x = watch w x;
}.

#[export] Instance aside_preorder fd : PreOrder (aside fd).
Proof.
  split.
  - intros w. split; try done. exists (poller_ (get_loop w)). by destruct (get_loop w).
  - intros w1 w2 w3 [A1 B1 [p C1] D1] [A2 B2 [q C2] D2]. split; [congruence..| |].
    + exists q. by rewrite C2, C1.
    + intros x Hx. by rewrite D2, D1.
Qed.

Lemma aside_loop fd w w' : aside fd w w' ->
  task_queue_ (get_loop w') = task_queue_ (get_loop w) /\
  thread_id_ (get_loop w') = thread_id_ (get_loop w) /\
  self (get_loop w') = self (get_loop w).
Proof. intros [_ _ [p ->] _]. done. Qed.

Lemma aside_same fd w w' : get_client w' = get_client w -> get_connector w' = get_connector w ->
  get_loop w' = get_loop w -> aside fd w w'.
Proof.
  intros Hk Hc Hl. split; try done.
  - exists (poller_ (get_loop w)). rewrite Hl. by destruct (get_loop w).
  - by rewrite Hl.
Qed.

Lemma aside_put_conn fd conn c w : aside fd w (put_conn conn c w).
Proof. apply aside_same; [apply client_put_conn|apply connector_put_conn|apply loop_put_conn]. Qed.

Lemma aside_put_channels fd st w : aside fd w (put_channels st w).
Proof.
  apply aside_same; [apply client_put_channels|apply connector_put_channels|apply loop_put_channels].
Qed.

(** ** The client's connection *)

Definition buffer_fine (b : Buffer) : Prop := wf b /\ CHEAP_PREPEND <= read_index_ b.

Lemma fine_refines b bound : buffer_fine b -> Zlen (buffer_ b) < bound ->
  refines b (content b) bound.
Proof. intros [Hwf Hri] Hl. split_and!; done || lia. Qed.

Lemma refines_fine b q bound : refines b q bound -> buffer_fine b.
Proof. by intros (Hwf & _ & Hri & _). Qed.

(** The buffers are not so large that the next appends overflow. *)
Definition roomy (bound : Z) (c : TcpConnection (Callback V)) : Prop :=
  Zlen (buffer_ (receive_buffer_ c)) < bound /\ Zlen (buffer_ (send_buffer_ c)) < bound.

(** A connection of the client, registered with the loop's poller.  The members
    that change are its state and its buffers. *)
Record ours (conn : ConnId) (w : W) (c : TcpConnection (Callback V)) (ch : Channel (Closure C))
    : Prop := {
  our_base : conn_base tid conn w c ch;
  our_reads : reads_with ConnWork conn ch;
  our_watch : watch w (socket_ c) = Some (channel_ c, events_ ch);
  our_receive : buffer_fine (receive_buffer_ c);
  our_send : buffer_fine (send_buffer_ c);
  our_close : close_callback_ c = Some CloseCallback;
  our_connection : TcpConnection.connection_callback_ c = UserCallback <$> on_connection cfg;
  our_message : TcpConnection.message_callback_ c = UserCallback <$> on_message cfg;
  our_complete : TcpConnection.write_complete_callback_ c = None;
  our_water : high_water_callback_ c = None;
}.

(** The connection after an operation: a state it may have gone to, buffers in
    order, the rest as it was; the rest of the world is aside. *)
Definition goes_on (conn : ConnId) (c : TcpConnection (Callback V)) (w w' : W) : Prop :=
  exists c' ch', ours conn w' c' ch' /\ socket_ c' = socket_ c /\ channel_ c' = channel_ c /\
    (state_ c' = state_ c \/ state_ c = Connected /\ state_ c' = Disconnecting) /\
    aside (socket_ c) w w'.

Lemma goes_on_trans conn c c1 w w1 w2 :
  socket_ c1 = socket_ c -> channel_ c1 = channel_ c ->
  (state_ c1 = state_ c \/ state_ c = Connected /\ state_ c1 = Disconnecting) ->
  aside (socket_ c) w w1 -> goes_on conn c1 w1 w2 -> goes_on conn c w w2.
Proof.
  intros Hs Hc Hst Ha (c2 & ch2 & Ho & Hs2 & Hc2 & Hst2 & Ha2). exists c2, ch2.
  split_and!; [done|congruence|congruence| |].
  - destruct Hst as [E|[E1 E2]], Hst2 as [E'|[E1' E2']]; rewrite ?E, ?E1, ?E', ?E1' in *; try done;
      try (by left); try (right; split; congruence).
  - etrans; [exact Ha|]. by rewrite <- Hs.
Qed.

(** A new value of the connection's members that the user may change. *)
Lemma ours_put conn w c ch c' : ours conn w c ch ->
  socket_ c' = socket_ c -> channel_ c' = channel_ c ->
  buffer_fine (receive_buffer_ c') -> buffer_fine (send_buffer_ c') ->
  close_callback_ c' = close_callback_ c ->
  TcpConnection.connection_callback_ c' = TcpConnection.connection_callback_ c ->
  TcpConnection.message_callback_ c' = TcpConnection.message_callback_ c ->
  TcpConnection.write_complete_callback_ c' = TcpConnection.write_complete_callback_ c ->
  high_water_callback_ c' = high_water_callback_ c ->
  ours conn (put_conn conn c' w) c' ch.
Proof.
  intros [O1 O2 O3 O4 O5 O6 O7 O8 O9 O10] Hs Hc Hr Hsd Hcl Hcc Hmc Hwc Hhw.
  split; rewrite ?Hcl, ?Hcc, ?Hmc, ?Hwc, ?Hhw; try done.
  - by eapply conn_base_put.
  - by rewrite loop_put_conn, Hs, Hc.
Qed.

(** A change of the mask. *)
Lemma change_ours f conn w c ch : conn_base tid conn w c ch -> client_mask (f ch) ->
  exists w' i, on_channels (change_events f tid (channel_ c)) w = Ok w' /\
    conn_base tid conn w' c (setIndex i (setEvents (f ch) ch)) /\
    watch w' (socket_ c) = Some (channel_ c, f ch) /\ aside (socket_ c) w w'.
Proof.
  intros [Hc Hch Hfd Hpos Hown Ht Hm Hwr Hp Hu] Hmask.
  destruct (change_events_ok f tid (channel_ c) w ch) as (p' & st' & i & E & Hinv' & Hi & _ & Hw');
    try done; [by rewrite Hfd|by rewrite Hfd|]. rewrite Hfd in Hw'.
  exists (put_channels st' (put_loop (set_poller p' (get_loop w)) w)), i.
  split_and!; [done| | |].
  - split; rewrite ?loop_put_channels, ?get_put_loop, ?get_put_channels,
      ?conn_put_channels, ?conn_put_loop; try done.
    intros cid m. cbn [poller_ set_poller]. rewrite Hw'. case_decide; [|done]. congruence.
  - rewrite loop_put_channels, get_put_loop. cbn [poller_ set_poller]. by rewrite Hw', decide_True.
  - split.
    + by rewrite client_put_channels, client_put_loop.
    + by rewrite connector_put_channels, connector_put_loop.
    + exists p'. by rewrite loop_put_channels, get_put_loop.
    + intros x Hx. rewrite loop_put_channels, get_put_loop. cbn [poller_ set_poller].
      by rewrite Hw', decide_False.
Qed.

Lemma ours_change f conn w c ch : ours conn w c ch -> client_mask (f ch) ->
  exists w' ch', on_channels (change_events f tid (channel_ c)) w = Ok w' /\
    ours conn w' c ch' /\ events_ ch' = f ch /\ aside (socket_ c) w w'.
Proof.
  intros [O1 O2 O3 O4 O5 O6 O7 O8 O9 O10] Hm.
  destruct (change_ours f conn w c ch O1 Hm) as (w' & i & E & Hb & Hw & Ha).
  exists w', (setIndex i (setEvents (f ch) ch)). by split_and!.
Qed.

(** A world with the same loop, channels and connection. *)
Lemma ours_frame conn w w' c ch : ours conn w c ch -> get_loop w' = get_loop w ->
  get_channels w' = get_channels w -> get_conn conn w' = get_conn conn w -> ours conn w' c ch.
Proof.
  intros [O1 O2 O3 O4 O5 O6 O7 O8 O9 O10] Hl Hch Hc. split; try done.
  - by eapply conn_base_frame.
  - by rewrite Hl.
Qed.

(** The poller's report is stored in the channel. *)
Lemma ours_reported conn w c ch mask : ours conn w c ch ->
  ours conn (put_channels (<[channel_ c := setReturnEvents mask ch]> (get_channels w)) w) c
    (setReturnEvents mask ch).
Proof.
  intros [O1 O2 O3 O4 O5 O6 O7 O8 O9 O10]. split; try done.
  - by apply conn_base_reported.
  - by rewrite loop_put_channels.
Qed.

(** ** The calls of the user's callbacks

    Each of them leaves the connection the client's, and the rest alone. *)
Lemma aside_write fd fd' data w : aside fd w (sys_write fd' data w).2.
Proof.
  destruct (write_aside fd' data w). destruct (sys_write fd' data w) as [r w1] eqn:E.
  destruct (write_law _ _ _ _ _ E) as (_ & _ & Hl & _). by apply aside_same.
Qed.

Lemma ours_write conn w c ch fd data : ours conn w c ch -> ours conn (sys_write fd data w).2 c ch.
Proof.
  destruct (sys_write fd data w) as [r w1] eqn:E.
  destruct (write_law _ _ _ _ _ E) as (_ & _ & Hl & Hch & Hc). intros Ho. by eapply ours_frame.
Qed.

(** The bytes that are not taken are queued, and POLLOUT is asked for. *)
Lemma ours_queued conn w c ch data b w1 w2 : ours conn w c ch -> aside (socket_ c) w w1 ->
  ours conn w1 c ch -> append (send_buffer_ c) data = Ok b ->
  (if negb (isWriting ch) then on_channels (listenTillWritable tid (channel_ c))
     (put_conn conn (set_send_buffer b c) w1) else Ok (put_conn conn (set_send_buffer b c) w1))
  = Ok w2 -> goes_on conn c w w2.
Proof.
  intros Ho Ha Ho1 Eb E. destruct (our_send _ _ _ _ Ho) as [Hwf Hri].
  destruct (append_Ok_inv _ _ _ Hwf Eb) as (Hwf' & _ & Hri').
  assert (Ho2 : ours conn (put_conn conn (set_send_buffer b c) w1) (set_send_buffer b c) ch).
  { apply (ours_put _ _ _ _ _ Ho1); try done; [apply Ho1|]. split; [done|by apply Hri']. }
  assert (Ha2 : aside (socket_ c) w (put_conn conn (set_send_buffer b c) w1)).
  { etrans; [exact Ha|apply aside_put_conn]. }
  destruct (negb _).
  - destruct (ours_change listenTillWritable_events conn _ _ ch Ho2) as (w' & ch' & E' & Ho' & _ & Ha').
    { apply (mask_writable (events_ ch)), (ok_mask _ _ _ _ _ (our_base _ _ _ _ Ho)). }
    unfold listenTillWritable in E. cbn [channel_ set_send_buffer] in E'. rewrite E in E'.
    injection E' as <-. exists (set_send_buffer b c), ch'.
    split_and!; [done|done|done|by left|]. etrans; [exact Ha2|exact Ha'].
  - injection E as <-. exists (set_send_buffer b c), ch. split_and!; [done|done|done|by left|done].
Qed.

Lemma goes_on_here conn w c ch w' : ours conn w' c ch -> aside (socket_ c) w w' ->
  goes_on conn c w w'.
Proof. intros Ho Ha. exists c, ch. split_and!; [done|done|done|by left|done]. Qed.

Lemma send_goes_on conn w c ch data w' : ours conn w c ch ->
  TcpConnection.send ConnWork call_callback tid conn data w = Ok w' -> goes_on conn c w w'.
Proof.
  intros Ho E. pose proof (our_base _ _ _ _ Ho) as Hb. revert E.
  unfold TcpConnection.send, when_connected, deref_conn. rewrite (ok_conn _ _ _ _ _ Hb).
  cbn [mbind outcome_bind]. destruct (decide _).
  2: { intros [= <-]. by eapply goes_on_here. }
  rewrite in_own_loop by apply Hb. unfold sendInLoop, deref_conn, conn_channel, deref_channel.
  rewrite assert_loop_ok, (ok_conn _ _ _ _ _ Hb) by apply Hb. cbn [mbind outcome_bind].
  rewrite (ok_channel _ _ _ _ _ Hb). cbn [mbind outcome_bind].
  rewrite (our_complete _ _ _ _ Ho), (our_water _ _ _ _ Ho).
  set (idle := negb (isWriting ch) && _).
  match goal with |- context [if idle then ?m else ?k] => assert (Hw : exists n w1,
    (if idle then m else k) = (n, w1) /\ ours conn w1 c ch /\ aside (socket_ c) w w1) end.
  { destruct idle; [|by exists 0, w]. pose proof (ours_write conn w c ch (fd_ ch) data Ho) as Ho1.
    pose proof (aside_write (socket_ c) (fd_ ch) data w) as Ha1.
    destruct (sys_write (fd_ ch) data w) as [[n|err] w1]; cbn [snd] in *; [|by exists 0, w1].
    exists n, w1. split_and!; [by destruct (n <? _)|done|done]. }
  destruct Hw as (n & w1 & -> & Ho1 & Ha1). destruct (n <? _).
  - intros E. inv_ok. by eapply (ours_queued conn w c ch _ _ w1).
  - intros [= <-]. by eapply goes_on_here.
Qed.

(** [shutdown] on the loop's thread only leaves [Disconnecting]. *)
Lemma shutdown_eq conn w c ch : ours conn w c ch ->
  exists w', shutdown ConnWork call_callback tid conn w = Ok w' /\ goes_on conn c w w'.
Proof.
  intros Ho. pose proof (our_base _ _ _ _ Ho) as Hb.
  unfold shutdown, when_connected, setState_of, deref_conn. rewrite (ok_conn _ _ _ _ _ Hb).
  cbn [mbind outcome_bind]. destruct (decide _) as [Hs|].
  2: { exists w. split; [done|by eapply goes_on_here]. }
  set (c' := setState Disconnecting c). set (w1 := put_conn conn c' w).
  assert (Ho1 : ours conn w1 c' ch).
  { apply (ours_put _ _ _ _ _ Ho); try done; apply Ho. }
  pose proof (our_base _ _ _ _ Ho1) as Hb1. exists w1. split.
  - unfold run_in_loop. rewrite in_own_loop by apply Hb1. cbn [run_conn_task].
    unfold shutdownInLoop, deref_conn. rewrite assert_loop_ok, (ok_conn _ _ _ _ _ Hb1) by apply Hb1.
    done.
  - exists c', ch. split_and!; [done|done|done|by right|apply aside_put_conn].
Qed.

(** What a callback can do to its connection and to its own data. *)
Inductive public (conn : ConnId) (w : W) : W -> Prop :=
| public_send data w' :
    TcpConnection.send ConnWork call_callback tid conn data w = Ok w' -> public conn w w'
| public_shutdown w' : shutdown ConnWork call_callback tid conn w = Ok w' -> public conn w w'
| public_receive c b : get_conn conn w = Some c -> buffer_fine b ->
    public conn w (put_conn conn (set_receive_buffer b c) w)
| public_context c x : get_conn conn w = Some c -> public conn w (put_conn conn (setContext x c) w)
| public_own w' : get_client w' = get_client w -> get_connector w' = get_connector w ->
    get_loop w' = get_loop w -> get_channels w' = get_channels w ->
    get_conn conn w' = get_conn conn w -> public conn w w'.

Lemma public_goes_on conn w c ch w' : ours conn w c ch -> public conn w w' -> goes_on conn c w w'.
Proof.
  intros Ho Hp. pose proof (ok_conn _ _ _ _ _ (our_base _ _ _ _ Ho)) as Hc.
  destruct Hp as [data w' E|w' E|c' b Hc' Hb|c' x Hc'|w' H1 H2 H3 H4 H5].
  - by eapply send_goes_on.
  - destruct (shutdown_eq conn w c ch Ho) as (w2 & E2 & Hg). rewrite E in E2. by injection E2 as <-.
  - rewrite Hc in Hc'. injection Hc' as <-. exists (set_receive_buffer b c), ch.
    split_and!; [|done|done|by left|apply aside_put_conn].
    apply (ours_put _ _ _ _ _ Ho); try done. apply Ho.
  - rewrite Hc in Hc'. injection Hc' as <-. exists (setContext x c), ch.
    split_and!; [|done|done|by left|apply aside_put_conn].
    apply (ours_put _ _ _ _ _ Ho); try done; apply Ho.
  - eapply goes_on_here; [by eapply ours_frame|by apply aside_same].
Qed.

(** A callback uses its connection by the public calls, and returns as long as the
    buffers are far from overflowing. *)
Class ClientUser : Prop := {
  user_public : forall f conn w c ch w', ours conn w c ch -> user f conn w = Ok w' ->
    rtc (public conn) w w';
  user_returns : forall f conn w c ch, ours conn w c ch -> roomy (2 ^ 62) c ->
    exists w', user f conn w = Ok w';
}.
Context {UL : ClientUser}.

Lemma publics_go_on conn w c ch w' : ours conn w c ch -> rtc (public conn) w w' -> goes_on conn c w w'.
Proof.
  intros Ho Hr. revert c ch Ho.
  induction Hr as [w|w1 w2 w3 Hp _ IH]; intros c ch Ho; [by eapply goes_on_here|].
  destruct (public_goes_on conn w1 c ch w2 Ho Hp) as (c2 & ch2 & Ho2 & Hs & Hc & Hst & Ha).
  eapply goes_on_trans; [exact Hs|exact Hc|exact Hst|exact Ha|by eapply IH].
Qed.

(** The connection and message callbacks are the user's. *)
Lemma call_user_goes_on (cb : option V) conn w c ch : ours conn w c ch -> roomy (2 ^ 62) c ->
  exists w', call_user call_callback (UserCallback <$> cb) conn w = Ok w' /\ goes_on conn c w w'.
Proof.
  intros Ho Hr. destruct cb as [f|]; cbn.
  - destruct (user_returns f conn w c ch Ho Hr) as [w' E]. exists w'. split; [done|].
    eapply publics_go_on; [exact Ho|by eapply user_public].
  - exists w. split; [done|by eapply goes_on_here].
Qed.

(** ** A connection comes up *)
Lemma established conn w c ch : conn_base tid conn w c ch -> reads_with ConnWork conn ch ->
  state_ c = Connecting -> buffer_fine (receive_buffer_ c) -> buffer_fine (send_buffer_ c) ->
  close_callback_ c = Some CloseCallback ->
  TcpConnection.connection_callback_ c = UserCallback <$> on_connection cfg ->
  TcpConnection.message_callback_ c = UserCallback <$> on_message cfg ->
  TcpConnection.write_complete_callback_ c = None -> high_water_callback_ c = None ->
  roomy (2 ^ 62) c ->
  exists w' c', connectionEstablished call_callback tid conn w = Ok w' /\
    (exists ch', ours conn w' c' ch') /\ socket_ c' = socket_ c /\
    (state_ c' = Connected \/ state_ c' = Disconnecting) /\ aside (socket_ c) w w'.
Proof.
  intros Hb Hrd Hs Hrb Hsb Hcl Hcc Hmc Hwc Hhw Hroom.
  assert (Hb1 : conn_base tid conn (put_conn conn (setState Connected c) w) (setState Connected c) ch)
    by (by eapply conn_base_put).
  pose proof (conn_base_member _ _ _ _ _ (tie conn ch) Hb1 eq_refl eq_refl eq_refl eq_refl
    eq_refl eq_refl) as Hb2.
  destruct (mask_readable (events_ ch) (ok_mask _ _ _ _ _ Hb)) as [Hm _].
  destruct (change_ours listenTillReadable_events conn _ _ _ Hb2 Hm) as (w3 & i & E3 & Hb3 & Hw3 & Ha3).
  set (ch3 := setIndex i _) in Hb3.
  assert (Ho3 : ours conn w3 (setState Connected c) ch3) by (by split).
  assert (Ha : aside (socket_ c) w w3).
  { etrans; [|exact Ha3]. etrans; [apply aside_put_conn|apply aside_put_channels]. }
  destruct (call_user_goes_on (on_connection cfg) conn w3 _ ch3 Ho3 Hroom)
    as (w4 & E4 & c4 & ch4 & Ho4 & Hs4 & _ & Hst4 & Ha4).
  exists w4, c4. split_and!; [|by exists ch4|done| |etrans; [exact Ha|exact Ha4]].
  - unfold connectionEstablished, deref_conn. rewrite assert_loop_ok by apply Hb.
    rewrite (ok_conn _ _ _ _ _ Hb). cbn [mbind outcome_bind]. rewrite bool_decide_true by done.
    cbn [negb]. unfold conn_channel, deref_channel.
    pose proof (ok_channel _ _ _ _ _ Hb1) as Hch. cbn [channel_ setState] in Hch. rewrite Hch.
    cbn [mbind outcome_bind]. unfold listenTillReadable. cbn [channel_ setState] in E3.
    rewrite E3. cbn [mbind outcome_bind]. by rewrite Hcc.
  - destruct Hst4 as [->|[_ ->]]; [by left|by right].
Qed.

(** ** A connection that is closed goes *)

(** What is left when the queued [connectionDestroyed] has run. *)
Lemma destroyed conn w c ch : ours conn w c ch -> state_ c = Disconnected -> roomy (2 ^ 62) c ->
  exists w', connectionDestroyed call_callback tid conn w = Ok w' /\
    aside (socket_ c) w w' /\ watch w' (socket_ c) = None /\
    poller_inv (poller_ (get_loop w')) (get_channels w').
Proof.
  intros Ho Hs Hroom. set (c1 := setState Disconnected c).
  assert (Ho1 : ours conn (put_conn conn c1 w) c1 ch).
  { apply (ours_put _ _ _ _ _ Ho); try done; apply Ho. }
  destruct (ours_change ignoreAll_events conn _ c1 ch Ho1) as (w2 & ch2 & E2 & Ho2 & _ & Ha2); [done|].
  destruct (call_user_goes_on (on_connection cfg) conn w2 c1 ch2 Ho2 Hroom)
    as (w3 & E3 & c3 & ch3 & Ho3 & Hs3 & Hc3 & _ & Ha3).
  pose proof (our_base _ _ _ _ Ho3) as [Hcn Hch Hfd Hpos Hown Ht _ _ Hp Hu].
  destruct (remove_law (poller_ (get_loop w3)) (get_channels w3) (channel_ c3) ch3 (events_ ch3))
    as (p' & st' & E4 & Hinv' & _ & Hw'); [done|done|rewrite Hfd; apply Ho3|]. rewrite Hfd in Hw'.
  set (w4 := put_channels st' (put_loop (set_poller p' (get_loop w3)) w3)).
  assert (Ha4 : aside (socket_ c) w3 w4).
  { unfold w4. split.
    - by rewrite client_put_channels, client_put_loop.
    - by rewrite connector_put_channels, connector_put_loop.
    - exists p'. by rewrite loop_put_channels, get_put_loop.
    - intros x Hx. rewrite loop_put_channels, get_put_loop. cbn [poller_ set_poller].
      rewrite Hw', decide_False; [done|]. by rewrite Hs3. }
  exists w4. split_and!.
  - unfold connectionDestroyed, deref_conn. rewrite assert_loop_ok by apply Ho.
    rewrite (ok_conn _ _ _ _ _ (our_base _ _ _ _ Ho)). cbn [mbind outcome_bind].
    unfold ignoreAll. cbn [channel_ c1 setState] in E2. fold c1. rewrite E2. cbn [mbind outcome_bind].
    rewrite (our_connection _ _ _ _ Ho), E3. cbn [mbind outcome_bind].
    unfold on_channels, removeChannel, deref_channel. change (channel_ c1) with (channel_ c) in Hc3.
    rewrite <- Hc3, Hch. cbn [mbind outcome_bind].
    rewrite Hown, Z.eqb_refl. unfold assertInLoopThread, isInLoopThread. rewrite Ht, Z.eqb_refl.
    cbn [negb mbind outcome_bind]. by rewrite E4.
  - etrans; [apply aside_put_conn|]. etrans; [exact Ha2|]. etrans; [exact Ha3|exact Ha4].
  - unfold w4. rewrite loop_put_channels, get_put_loop. cbn [poller_ set_poller].
    rewrite Hw', decide_True; [done|]. by rewrite Hs3.
  - unfold w4. rewrite loop_put_channels, get_put_loop, get_put_channels. exact Hinv'.
Qed.
End ClientConn.
