(* ===== verification/ClientLife.v ===== *)
(** * ClientLife: a client in its loop, pass by pass

    TcpClient.v has the client's operations, Connector.v the connector's,
    TcpConnection.v the connection's.  Here they run together: between two waits
    of the loop one thing happens to the client - an event of its connection,
    POLLOUT for its connector, a retry timer, a call of [disconnect], [stop] or
    [connect] - and then the loop runs what was queued.  [client_life] is what the user can rely on. *)
From Stdlib Require Import ZArith Lia List String.
From stdpp Require Import base option list numbers gmap relations strings tactics.
From S2P Require Import Prelude.
From S2P Require Import Buffer.
From S2P Require Import Channel.
From S2P Require Import PollerBase.
From S2P Require Import EventLoop.
From S2P Require Import InetAddress.
From S2P Require Socket.
From S2P Require Import TcpConnection.
From S2P Require Import ConnEvents.
From S2P Require Connector.
From S2P Require Import TcpClient.
From S2P Require Import ClientConn.
From S2P Require Poller.
Open Scope Z_scope.
Open Scope outcome_scope.

(** ** The life of a client

    The phase it is in. *)
Inductive phase : Type :=
| Trying                          (** an attempt is under way *)
| Waiting                         (** a retry is scheduled *)
| Up (conn : ConnId)
| Closed                          (** the connection is gone, and nothing follows *)
| GaveUp.                         (** no attempt, none scheduled; [connect] is possible *)

(** With it goes whether the client connects again after a close, and whether its
    connector tries again after an attempt that failed. *)
Abbreviation status := (bool * bool * phase)%type.

Definition refused (s : bool) : phase := if s then Waiting else GaveUp.
Definition attempted (s : bool) (p : phase) : Prop := p = Trying \/ p = refused s \/ p = GaveUp.

(** What the kernel and the timer do to it ... *)
Inductive life_event : status -> status -> Prop :=
| life_connected b s conn : life_event (b, s, Trying) (b, s, Up conn)
| life_refused b s : life_event (b, s, Trying) (b, s, refused s)
| life_retry b s p : attempted s p -> life_event (b, s, Waiting) (b, s, p)
| life_lost s conn : life_event (false, s, Up conn) (false, s, Closed)
| life_lost_stopped conn : life_event (false, false, Up conn) (false, false, GaveUp)
| life_restart s conn p : attempted true p -> life_event (true, s, Up conn) (true, true, p).

(** ... and the user's calls; [r] is what was given to [setRetry].  [stop] does not
    cancel a retry that is scheduled. *)
Definition stopped (p : phase) : phase :=
  match p with Trying | Closed => GaveUp | _ => p end.
Inductive life_call (r : bool) : status -> status -> Prop :=
| life_disconnect b s p : life_call r (b, s, p) (false, s, p)
| life_stop b s p : life_call r (b, s, p) (false, false, stopped p)
| life_connect b s p : attempted true p -> life_call r (b, s, GaveUp) (r, true, p).

Definition client_life (r : bool) (x y : status) : Prop := life_event x y \/ life_call r x y.

(** What happens to the client between two waits of its loop. *)
Inductive occurrence : Type :=
| Nothing
| Ready (mask : Z)                (** the poller reports the connection's channel *)
| Writable                        (** POLLOUT on the connector's channel *)
| RetryTimer
| Disconnect                      (** the user's calls *)
| Stop
| Connect.

Definition by_itself (o : occurrence) : Prop :=
  match o with Disconnect | Stop | Connect => False | _ => True end.
Definition moves (o : occurrence) (r : bool) : status -> status -> Prop :=
  match o with Disconnect | Stop | Connect => life_call r | _ => life_event end.

(** ** The connector's part

    A connector on which at most one attempt is under way or scheduled. *)
Record keen (c : Connector.Connector) : Prop := {
  keen_single : Connector.single c;
  keen_callback : Connector.has_callback c = true;
}.

(** It has a retry scheduled only if it was not stopped before. *)
Definition waits (c : Connector.Connector) : Prop :=
  Connector.retry_timers c <> [] -> Connector.connect_ c = true.

(** It is done with its socket. *)
Definition resting (c : Connector.Connector) : Prop :=
  Connector.retry_timers c = [] /\
  (Connector.state_ c = Connector.Connected \/
   Connector.state_ c = Connector.Disconnected /\ Connector.connect_ c = false).

Lemma resting_idle c : resting c -> Connector.state_ c <> Connector.Connecting.
Proof. intros [_ [H|[H _]]]; by rewrite H. Qed.

Lemma connect_callback a c c' : Connector.connect a c = Ok c' ->
  Connector.has_callback c' = Connector.has_callback c.
Proof.
  unfold Connector.connect, Connector.new_socket. destruct (Connector.new_fd a =? -1); [done|].
  cbn [mbind outcome_bind]. destruct (_ || _ || _ || _); [|destruct (_ || _ || _ || _ || _)].
  - unfold Connector.connecting. cbn. by intros [= <-].
  - unfold Connector.retry. cbn. intros [= <-]. by destruct (Connector.connect_ c).
  - by intros [= <-].
Qed.

Lemma connect_waits a c c' : Connector.connect a c = Ok c' -> Connector.retry_timers c = [] -> waits c'.
Proof.
  unfold Connector.connect, Connector.new_socket, waits. destruct (Connector.new_fd a =? -1); [done|].
  cbn [mbind outcome_bind]. destruct (_ || _ || _ || _); [|destruct (_ || _ || _ || _ || _)].
  - unfold Connector.connecting. cbn. by intros [= <-] ->.
  - intros [= <-]. rewrite Connector.retry_timers_eq. unfold Connector.retry. cbn. intros ->.
    by destruct (Connector.connect_ c).
  - by intros [= <-] ->.
Qed.

(** An attempt of a connector that holds nothing. *)
Lemma start_keen a c : Connector.idle c -> Connector.state_ c = Connector.Disconnected ->
  Connector.retry_timers c = [] -> Connector.tasks c = [] ->
  Connector.has_callback c = true -> Connector.new_fd a <> -1 ->
  exists c', Connector.startInLoop a c = Ok c' /\ keen c' /\
    Connector.state_ c' <> Connector.Connected /\ Connector.connect_ c' = Connector.connect_ c /\ waits c'.
Proof.
  intros Hidle Hs Ht Hts Hcb Hfd.
  destruct (Connector.connect_inv a c Hidle Hfd) as (c' & E & Hi').
  destruct (Connector.connect_single _ _ _ E Ht Hts) as (? & ? & ?).
  destruct (Connector.connect_shape _ _ _ E) as [Hs' Hc']; [done|].
  exists c'. split_and!; [|split; [by split|]|done|done|by apply (connect_waits _ _ _ E)].
  - unfold Connector.startInLoop. by rewrite bool_decide_true.
  - by rewrite (connect_callback _ _ _ E).
Qed.

(** An attempt in progress leaves the connector connecting. *)
Lemma start_in_progress a c c' : Connector.savedErrno a = Connector.EINPROGRESS ->
  Connector.startInLoop a c = Ok c' -> Connector.state_ c' = Connector.Connecting.
Proof.
  intros He. unfold Connector.startInLoop. destruct (negb _); [done|].
  unfold Connector.connect, Connector.new_socket. destruct (Connector.new_fd a =? -1); [done|].
  cbn [mbind outcome_bind]. rewrite He. cbn. by intros [= <-].
Qed.

(** A retry timer fires. *)
Lemma timer_keen a c d ts : keen c -> Connector.retry_timers c = d :: ts ->
  Connector.new_fd a <> -1 ->
  exists c', Connector.startInLoop a (Connector.set_timers ts c) = Ok c' /\ keen c' /\
    Connector.state_ c' <> Connector.Connected /\ Connector.connect_ c' = Connector.connect_ c /\ waits c'.
Proof.
  intros [[Hi Hts Hl Hb] Hcb] Ht Hfd. rewrite Ht in Hl, Hb.
  assert (Hs : Connector.state_ c = Connector.Disconnected).
  { destruct (decide (Connector.state_ c = Connector.Disconnected)); [done|by specialize (Hb n)]. }
  destruct ts; [|cbn in Hl; lia].
  apply (start_keen a (Connector.set_timers [] c)); try done. split; [|cbn; congruence].
  apply (Connector.inv_fields c (Connector.state_ c)); try done.
  apply (Connector.inv_delay c Hi).
Qed.

(** The connection is lost, and the connector starts again. *)
Lemma restart_keen a c : keen c -> resting c -> Connector.new_fd a <> -1 ->
  exists c', Connector.restart a c = Ok c' /\ keen c' /\
    Connector.state_ c' <> Connector.Connected /\ Connector.connect_ c' = true /\ waits c'.
Proof.
  intros [[Hi Hts Hl Hb] Hcb] Hrest Hfd. pose proof (resting_idle _ Hrest) as Hs. destruct Hrest as [Ht _].
  unfold Connector.restart. apply (start_keen a (Connector.set_delay _ (Connector.set_connect true
    (Connector.setState Connector.Disconnected c)))); try done.
  split; [|done]. apply (Connector.inv_fields c Connector.Disconnected); [done|by split| |].
  - exact (Connector.inv_timers c Hi).
  - unfold Connector.DEFAULT_RETRY_DELAY. lia.
Qed.

(** [connect] of a connector with nothing under way. *)
Lemma connect_keen a c : keen c -> Connector.state_ c = Connector.Disconnected ->
  Connector.retry_timers c = [] -> Connector.new_fd a <> -1 ->
  exists c', Connector.startInLoop a (Connector.set_connect true c) = Ok c' /\ keen c' /\
    Connector.state_ c' <> Connector.Connected /\ Connector.connect_ c' = true /\ waits c'.
Proof.
  intros [[Hi Hts Hl Hb] Hcb] Hs Ht Hfd. apply (start_keen a (Connector.set_connect true c)); try done.
  split; [|cbn; congruence].
  apply (Connector.inv_fields c (Connector.state_ c)); try done; apply Hi.
Qed.

(** [stop], whatever is under way. *)
Lemma stop_keen c : keen c -> let c' := Connector.stopInLoop (Connector.set_connect false c) in
  keen c' /\ Connector.state_ c' = Connector.Disconnected /\ Connector.connect_ c' = false /\
  Connector.retry_timers c' = Connector.retry_timers c.
Proof.
  intros [[Hi Hts Hl Hb] Hcb] c'. assert (Hi' : Connector.inv c').
  { apply Connector.stopInLoop_inv, (Connector.inv_fields c (Connector.state_ c)); try done; apply Hi. }
  assert (Hf : Connector.state_ c' = Connector.Disconnected /\ Connector.connect_ c' = false /\
    Connector.retry_timers c' = Connector.retry_timers c /\ Connector.tasks c' = Connector.tasks c /\
    Connector.has_callback c' = Connector.has_callback c).
  { unfold c', Connector.stopInLoop, Connector.resetChannel. destruct (decide _); [|done].
    by destruct (Connector.channel_ _). }
  destruct Hf as (F1 & F2 & F3 & F4 & F5).
  split_and!; [split; [split|]|..]; congruence.
Qed.

(** POLLOUT: the attempt failed after all ... *)
Lemma failed_keen c fd err : keen c -> Connector.channel_ c = Some fd -> err <> 0 ->
  let c' := Connector.retry (Connector.reset_socket (Connector.resetChannel c)) in
  keen c' /\ Connector.state_ c' = Connector.Disconnected /\
  Connector.connect_ c' = Connector.connect_ c /\
  match Connector.retry_timers c' with [] => GaveUp | _ => Waiting end = refused (Connector.connect_ c).
Proof.
  intros [Hs Hcb] Hch Herr c'.
  destruct (Connector.after_start_single (Connector.EWritable err) c Hs I) as (c2 & E & Hs2).
  cbn [Connector.handle] in E. rewrite Hch in E. unfold Connector.handleWritable in E.
  pose proof (Connector.inv_channel c (Connector.single_inv c Hs)) as Hso. rewrite <- Hso, Hch in E.
  rewrite (proj2 (Z.eqb_neq err 0)) in E by done. cbn [negb] in E. injection E as <-. fold c' in Hs2.
  assert (Hf : Connector.has_callback c' = true /\ Connector.connect_ c' = Connector.connect_ c).
  { unfold c', Connector.retry, Connector.resetChannel. rewrite Hch. cbn.
    destruct (Connector.connect_ c) eqn:Ec; by split. }
  assert (Ht : Connector.retry_timers c = []).
  { apply (Connector.single_busy c Hs). rewrite (proj2 (Connector.inv_connecting c (Connector.single_inv c Hs)));
      congruence. }
  split_and!; [split; [done|apply Hf]|apply Connector.retry_fields|apply Hf|].
  unfold c'. rewrite Connector.retry_timers_eq. unfold Connector.resetChannel. rewrite Hch. cbn.
  rewrite Ht. by destruct (Connector.connect_ c).
Qed.

(** ... or it succeeded. *)
Definition handing_over (c : Connector.Connector) : Connector.Connector :=
  Connector.hand_over (Connector.resetChannel (Connector.setState Connector.Connected c)).

Lemma handing_over_keen c fd : keen c -> Connector.channel_ c = Some fd ->
  let c' := Connector.reset_socket (handing_over c) in
  keen c' /\ Connector.connect_ c' = Connector.connect_ c /\ Connector.state_ c' = Connector.Connected.
Proof.
  intros [Hs Hcb] Hch c'.
  pose proof (Connector.inv_channel c (Connector.single_inv c Hs)) as Hso.
  destruct (Connector.after_start_single (Connector.EWritable 0) c Hs I) as (c2 & E & Hs2).
  cbn [Connector.handle] in E. rewrite Hch in E. unfold Connector.handleWritable in E.
  rewrite <- Hso, Hch in E. cbn [negb Z.eqb] in E. injection E as E.
  assert (E' : c2 = c').
  { rewrite <- E. unfold c', handing_over, Connector.resetChannel. cbn. rewrite Hch. cbn. by rewrite Hcb. }
  rewrite E' in Hs2. split; [split; [done|]|]; unfold c', handing_over, Connector.resetChannel; cbn; rewrite Hch;
    unfold Connector.hand_over; cbn; by rewrite <- Hso, Hch.
Qed.

Section ClientLife.
Context `{EFD : EventFd} {W P T V : Type}.
Abbreviation C := (Work T).
Context `{PB : !PollerBase P (Closure C)} {PL : PollerLaws P (Closure C)}.
Context `{LW : !LoopWorld W P C} `{CW : !ConnWorld W (Callback V)}.
Context `{SK : !SocketKernel W} `{SC : !Socket.SocketCalls W} `{KW : !ClientWorld W V}.
Context {KL : ClientLaws W P T V} {KK : ClientKernel W V}.
Context (user : V -> ConnId -> W -> outcome W) (user_task : T -> W -> outcome W).
Context (tid : Z) (cfg : config V).
Context {UL : ClientUser (user := user) (tid := tid) (cfg := cfg)}.

Create Rewrite HintDb client_world.
#[local] Hint Rewrite client_at_client connector_at_connector client_at_connector client_at_conn
  client_at_loop client_at_channels connector_at_client connector_at_conn
  connector_at_loop connector_at_channels conn_at_client loop_at_client
  channels_at_client conn_at_connector loop_at_connector channels_at_connector
  loop_at_loop loop_at_channels channels_at_channels channels_at_loop
  loop_at_conn channels_at_conn conn_at_loop conn_at_channels
  conn_at_conn : client_world.

Abbreviation call_callback := (call_callback user tid).
Abbreviation client := (client user user_task).
Abbreviation watch w := (watched (F := Closure C) (poller_ (get_loop w))).
Abbreviation ours := (ours (tid := tid) (cfg := cfg)).
Abbreviation goes_on := (goes_on (tid := tid) (cfg := cfg)).

Definition phase_of (k : TcpClient V) (c : Connector.Connector) : phase :=
  match connection_ k with
  | Some conn => Up conn
  | None =>
      match Connector.state_ c with
      | Connector.Connecting => Trying
      | Connector.Connected => Closed
      | Connector.Disconnected =>
          match Connector.retry_timers c with [] => GaveUp | _ => Waiting end
      end
  end.

Definition occur (o : occurrence) (w : W) : outcome W :=
  match o with
  | Nothing => Ok w
  | Ready mask =>
      let! k := deref_client w in
      match connection_ k with
      | Some conn => event client tid conn mask w
      | None => Ok w
      end
  | Writable =>
      match Connector.channel_ (get_connector w) with
      | Some _ => connector_writable user tid w
      | None => Ok w
      end
  | RetryTimer => connector_timer tid w
  | Disconnect => disconnect user tid w
  | Stop => stop tid w
  | Connect => connect tid w
  end.

(** One pass of the loop. *)
Definition pass (o : occurrence) (w : W) : outcome W :=
  let! w := occur o w in
  executePendingTasks (client tid) w.

(** ** The invariant between passes

    [watching] is what the loop watched before the client came. *)
Context (watching : Z -> option (ChanId * Z)).

Definition again (k : TcpClient V) : bool := retry_ k && connect_ k.

Definition status_of (k : TcpClient V) (c : Connector.Connector) : status :=
  (again k, Connector.connect_ c, phase_of k c).

Record settled (k : TcpClient V) (w : W) : Prop := {
  st_client : get_client w = Some k;
  st_thread : on_thread tid w;
  st_self : self (get_loop w) = loop_ k;
  st_keen : keen (get_connector w);
  st_connection : connection_callback_ k = on_connection cfg;
  st_message : message_callback_ k = on_message cfg;
  st_complete : write_complete_callback_ k = None;
  st_water : high_water_mark_callback_ k = None;
}.

Definition alive (c : TcpConnection (Callback V)) : Prop :=
  state_ c = Connected \/ state_ c = Disconnecting.

Record up (conn : ConnId) (w : W) (c : TcpConnection (Callback V)) (ch : Channel (Closure C)) : Prop := {
  up_ours : ours conn w c ch;
  up_alive : alive c;
  up_connector : resting (get_connector w);
  up_fresh : watching (socket_ c) = None;
  up_watch : forall x, x <> socket_ c -> watch w x = watching x;
}.

Record lives (k : TcpClient V) (w : W) : Prop := {
  lv_settled : settled k w;
  lv_tasks : task_queue_ (get_loop w) = [];
  lv_poller : poller_inv (poller_ (get_loop w)) (get_channels w);
  lv_phase : match connection_ k with
    | Some conn => exists c ch, up conn w c ch
    | None => forall x, watch w x = watching x
    end;
}.

Lemma aside_settled fd k w w' : aside fd w w' -> settled k w -> settled k w'.
Proof.
  intros Ha [S1 S2 S3 S4 S5 S6 S7 S8]. destruct (aside_loop _ _ _ Ha) as (_ & Et & Es).
  destruct Ha as [A1 A2 _ _]. split; try done; try congruence.
Qed.

(** The client has let go of the connection [conn], which is closed and waits to be
    destroyed; [cn] was its connector. *)
Record closing (conn : ConnId) (k : TcpClient V) (cn : Connector.Connector) (w : W)
    (c : TcpConnection (Callback V)) (ch : Channel (Closure C)) : Prop := {
  cl_settled : settled (set_connection None k) w;
  cl_tasks : task_queue_ (get_loop w) = [ConnWork (ConnectionDestroyed conn)];
  cl_ours : ours conn w c ch;
  cl_state : state_ c = Disconnected;
  cl_room : roomy (2 ^ 62) c;
  cl_fresh : watching (socket_ c) = None;
  cl_watch : forall x, x <> socket_ c -> watch w x = watching x;
  cl_connector : if again k then Connector.state_ (get_connector w) <> Connector.Connected /\
                   Connector.connect_ (get_connector w) = true /\ waits (get_connector w)
                 else get_connector w = cn;
  cl_attempt : again k = true -> exists wa c0,
    Connector.startInLoop (next_attempt wa).1 c0 = Ok (get_connector w);
}.

(** No attempt of the connector fails for want of a descriptor. *)
Definition descriptors_left : Prop := forall w : W, Connector.new_fd (next_attempt w).1 <> -1.
Context (Hfds : descriptors_left).

(** Every attempt is one that the kernel goes on with. *)
Definition attempts_proceed : Prop :=
  forall w : W, Connector.savedErrno (next_attempt w).1 = Connector.EINPROGRESS.

Lemma ours_queue conn w c ch t : ours conn w c ch -> ours conn (queue_work tid t w) c ch.
Proof.
  intros [O1 O2 O3 O4 O5 O6 O7 O8 O9 O10]. split; try done.
  - by apply conn_base_queueInLoop.
  - unfold queue_work. rewrite get_on_loop. unfold queueInLoop, queue_wakeup. by destruct (_ || _).
Qed.

Lemma queue_work_poller t w : poller_ (get_loop (queue_work tid t w)) = poller_ (get_loop w) /\
  self (get_loop (queue_work tid t w)) = self (get_loop w).
Proof.
  unfold queue_work. rewrite get_on_loop. unfold queueInLoop, queue_wakeup. by destruct (_ || _).
Qed.

(** [handleClose] of the client's connection calls the client's close callback. *)
Lemma handleClose_calls conn w c ch : ours conn w c ch -> alive c ->
  exists w2 ch2, handleClose call_callback tid conn w = connection_closed tid conn w2 /\
    ours conn w2 (setState Disconnected c) ch2 /\ aside (socket_ c) w w2.
Proof.
  intros Ho Hal. set (c1 := setState Disconnected c).
  assert (Ho1 : ours conn (put_conn conn c1 w) c1 ch).
  { apply (ours_put _ _ _ _ _ Ho); try done; apply Ho. }
  destruct (ours_change ignoreAll_events conn _ c1 ch Ho1) as (w2 & ch2 & E2 & Ho2 & _ & Ha2); [done|].
  exists w2, ch2. split_and!; [|done|etrans; [apply aside_put_conn|exact Ha2]].
  unfold handleClose, deref_conn. rewrite assert_loop_ok by apply Ho.
  rewrite (ok_conn _ _ _ _ _ (our_base _ _ _ _ Ho)). cbn [mbind outcome_bind].
  assert (Et : negb (bool_decide (state_ c = Connected))
               && negb (bool_decide (state_ c = Disconnecting)) = false).
  { by destruct Hal as [-> | ->]. }
  rewrite Et. unfold ignoreAll. cbn [channel_ c1 setState] in E2. fold c1. rewrite E2.
  cbn [mbind outcome_bind]. by rewrite (our_close _ _ _ _ Ho).
Qed.

Lemma handleClose_closing conn k w c ch : settled k w -> task_queue_ (get_loop w) = [] ->
  connection_ k = Some conn -> up conn w c ch -> roomy (2 ^ 62) c ->
  exists w' c' ch', handleClose call_callback tid conn w = Ok w' /\
    closing conn k (get_connector w) w' c' ch' /\ channel_ c' = channel_ c.
Proof.
  intros Hst Hq Hk [Ho Hal Hcn Hfr Hw] Hroom.
  destruct (handleClose_calls conn w c ch Ho Hal) as (w2 & ch2 & -> & Ho2 & Ha).
  set (c1 := setState Disconnected c) in *.
  pose proof (aside_settled _ _ _ _ Ha Hst) as Hst2. pose proof (as_watch _ _ _ Ha) as Hw2.
  destruct (aside_loop _ _ _ Ha) as (Eq & _ & _). rewrite Hq in Eq.
  unfold connection_closed, deref_client.
  rewrite (st_client _ _ Hst2). cbn [mbind outcome_bind].
  set (w3 := put_client (Some (set_connection None k)) w2).
  set (t := ConnWork (ConnectionDestroyed conn)). set (w4 := queue_work tid t w3).
  destruct (queue_work_view tid t w3) as (V1 & V2 & V3 & V4 & V5 & V6).
  destruct (queue_work_poller t w3) as [V7 V8]. fold w4 in V1, V2, V3, V4, V5, V6, V7, V8.
  unfold w3 in V1, V2, V3, V4, V7, V8.
  autorewrite with client_world in V1, V2, V3, V4, V7, V8. rewrite Eq in V1. rewrite V3. cbn [mbind outcome_bind].
  assert (Ho4 : ours conn w4 c1 ch2).
  { apply ours_queue. eapply ours_frame; [exact Ho2|apply loop_put_client|apply channels_put_client|].
    apply conn_put_client. }
  destruct Hst2 as [S1 S2 S3 S4 S5 S6 S7 S8]. unfold on_thread in S2.
  rewrite (as_connector _ _ _ Ha) in V4.
  change (retry_ (set_connection None k) && connect_ (set_connection None k)) with (again k).
  assert (Hclose : forall w' : W, get_loop w' = get_loop w4 -> get_client w' = get_client w4 ->
    get_channels w' = get_channels w4 -> get_conn conn w' = get_conn conn w4 ->
    keen (get_connector w') ->
    (if again k then Connector.state_ (get_connector w') <> Connector.Connected /\
       Connector.connect_ (get_connector w') = true /\ waits (get_connector w')
     else get_connector w' = get_connector w) ->
    (again k = true -> exists wa c0,
       Connector.startInLoop (next_attempt wa).1 c0 = Ok (get_connector w')) ->
    closing conn k (get_connector w) w' c1 ch2).
  { intros w' L1 L2 L3 L4 Hkeen Hcon Hat. split; try done.
    - split; try done; [congruence|unfold on_thread; congruence|cbn; congruence].
    - by rewrite L1, V1.
    - by eapply ours_frame.
    - intros x Hx. rewrite L1, V7, Hw2 by done. by apply Hw. }
  destruct (again k) eqn:Hagain.
  - rewrite connector_attempt_eq by (unfold on_thread; congruence). rewrite V4.
    destruct (restart_keen (next_attempt w4).1 (get_connector w)) as (cc & Er & Hkeen & Hne & Hs & Hw5);
      [apply Hst|done|apply Hfds|]. rewrite Er. cbn [mbind outcome_bind].
    destruct (attempt_law w4) as (A1 & A2 & A3 & A4 & A5).
    eexists _, c1, ch2. split_and!; [done| |done].
    apply Hclose; autorewrite with client_world; try done. intros _. by eexists w4, _.
  - exists w4, c1, ch2. split_and!; [done| |done]. apply Hclose; try done. rewrite V4. apply Hst.
Qed.

(** ** The pending tasks *)

Lemma ours_flags f conn w c ch : only_flags f -> ours conn w c ch -> ours conn (on_loop f w) c ch.
Proof.
  intros Hf [O1 O2 O3 O4 O5 O6 O7 O8 O9 O10]. destruct (Hf (get_loop w)) as (F1 & _).
  split; try done; [by apply conn_base_flags|by rewrite get_on_loop, F1].
Qed.

Lemma settled_flags f k w : only_flags f -> settled k w -> settled k (on_loop f w).
Proof.
  intros Hf [S1 S2 S3 S4 S5 S6 S7 S8]. destruct (Hf (get_loop w)) as (F1 & F2 & F3).
  unfold on_loop. split; autorewrite with client_world; try done; [|congruence].
  unfold on_thread. autorewrite with client_world. by rewrite F3.
Qed.

Lemma up_flags f conn w c ch : only_flags f -> up conn w c ch -> up conn (on_loop f w) c ch.
Proof.
  intros Hf [U1 U2 U3 U4 U5]. destruct (Hf (get_loop w)) as (F1 & F2 & F3).
  split; try done; [by apply ours_flags|..]; unfold on_loop; autorewrite with client_world; [done|].
  intros x Hx. rewrite F1. by apply U5.
Qed.

Lemma lives_flags f k w : only_flags f -> task_queue_ (f (get_loop w)) = [] -> lives k w ->
  lives k (on_loop f w).
Proof.
  intros Hf Hq [L1 L2 L3 L4]. destruct (Hf (get_loop w)) as (F1 & F2 & F3). split.
  - by apply settled_flags.
  - unfold on_loop. by autorewrite with client_world.
  - unfold on_loop. autorewrite with client_world. by rewrite F1.
  - destruct (connection_ k) as [conn|].
    + destruct L4 as (c & ch & Hu). exists c, ch. by apply up_flags.
    + intros x. unfold on_loop. autorewrite with client_world. rewrite F1. apply L4.
Qed.

(** With nothing queued the loop goes back to its wait. *)
Lemma no_tasks k w : lives k w -> exists w', executePendingTasks (client tid) w = Ok w' /\
  lives k w' /\ get_connector w' = get_connector w.
Proof.
  intros Hl. unfold executePendingTasks. rewrite get_on_loop.
  change (task_queue_ (set_processing true (get_loop w))) with (task_queue_ (get_loop w)).
  rewrite (lv_tasks _ _ Hl). cbn [run_tasks mbind outcome_bind].
  eexists. split; [done|]. split.
  - by repeat (apply lives_flags; [done|by rewrite ?get_on_loop; try apply Hl|]).
  - unfold on_loop. by autorewrite with client_world.
Qed.

(** The closed connection is destroyed. *)
Lemma last_task conn k cn w c ch : closing conn k cn w c ch ->
  exists w', executePendingTasks (client tid) w = Ok w' /\ lives (set_connection None k) w' /\
    get_connector w' = get_connector w.
Proof.
  intros [C1 C2 C3 C4 C5 C6 C7 C8 C9]. unfold executePendingTasks. rewrite get_on_loop.
  change (task_queue_ (set_processing true (get_loop w))) with (task_queue_ (get_loop w)).
  rewrite C2. set (w1 := on_loop (set_tasks []) (on_loop (set_processing true) w)).
  assert (Ho : ours conn w1 c ch) by (by apply ours_flags, ours_flags).
  assert (Hst : settled (set_connection None k) w1) by (by apply settled_flags, settled_flags).
  destruct (destroyed conn w1 c ch Ho C4 C5) as (w2 & E & Ha & Hnone & Hinv).
  pose proof (aside_settled _ _ _ _ Ha Hst) as Hst2. destruct (aside_loop _ _ _ Ha) as (Hq & _ & _).
  cbn [run_tasks]. change (client tid (ConnWork (ConnectionDestroyed conn)) w1)
    with (connectionDestroyed call_callback tid conn w1). rewrite E. cbn [mbind outcome_bind].
  assert (Hl : lives (set_connection None k) w2).
  { split; [done| |done|].
    - rewrite Hq. unfold w1. by rewrite get_on_loop.
    - intros x. destruct (decide (x = socket_ c)) as [->|Hx]; [by rewrite Hnone|].
      rewrite (as_watch _ _ _ Ha x Hx). unfold w1. rewrite !get_on_loop. by apply C7. }
  eexists. split; [done|]. split; [apply lives_flags; [done|apply Hl|done]|].
  unfold on_loop. autorewrite with client_world. rewrite (as_connector _ _ _ Ha).
  unfold w1, on_loop. by autorewrite with client_world.
Qed.

(** ** The connection's events *)
Lemma goes_on_up conn k w c ch w' : lives k w -> connection_ k = Some conn -> up conn w c ch ->
  goes_on conn c w w' -> lives k w' /\ get_connector w' = get_connector w.
Proof.
  intros [L1 L2 L3 _] Hk [U1 U2 U3 U4 U5] (c' & ch' & Ho & Hs & Hc & Hst & Ha).
  destruct (aside_loop _ _ _ Ha) as (Hq & _ & _). split; [|apply Ha]. split.
  - by eapply aside_settled.
  - congruence.
  - apply (our_base _ _ _ _ Ho).
  - rewrite Hk. exists c', ch'. split; [done| | | |].
    + destruct Hst as [E|[_ E]]; [by unfold alive; rewrite E|by right].
    + by rewrite (as_connector _ _ _ Ha).
    + by rewrite Hs.
    + intros x Hx. rewrite Hs in Hx. rewrite (as_watch _ _ _ Ha x Hx). by apply U5.
Qed.

Lemma aside_error fd conn w w' : handleError (U := Callback V) conn w = Ok w' -> aside fd w w'.
Proof.
  unfold handleError, Socket.getSocketError. intros E. inv_ok. destruct (so_error_client (socket_ a) w) as [H1 H2].
  destruct (so_error_law (socket_ a) w) as (H3 & _).
  destruct (Socket.sys_getsockopt_error (socket_ a) w) as [r w1]. by apply aside_same.
Qed.

(** A read that fails leaves the connection as it is. *)
Lemma read_fails conn w c ch e w1 : ours conn w c ch -> roomy (2 ^ 60) c ->
  sys_read (socket_ c) (writableBytes (receive_buffer_ c) + EXTRA_SIZE) w = (ReadErr e, w1) ->
  exists w', handleReadable call_callback tid conn w = Ok w' /\ goes_on conn c w w'.
Proof.
  intros Ho [Hroom _] Er. pose proof (our_base _ _ _ _ Ho) as Hb.
  pose proof (fine_refines _ _ (our_receive _ _ _ _ Ho) Hroom) as Hr.
  destruct (handleReadable_failed call_callback tid conn w c ch e w1 Hb (writable_room _ _ _ Hr) Er)
    as [Hb1 E]. rewrite E.
  destruct (handleError_keeps tid conn _ c ch Hb1) as (w' & E' & Hb'). exists w'. split; [done|].
  destruct (read_law _ _ _ _ _ (writable_room _ _ _ Hr) Er) as (_ & Hl & _).
  destruct (read_aside (socket_ c) (writableBytes (receive_buffer_ c) + EXTRA_SIZE) w) as [Hk Hcn].
  rewrite Er in Hk, Hcn. cbn [snd] in Hk, Hcn.
  assert (Ha : aside (socket_ c) w w').
  { etrans; [by apply (aside_same _ _ w1)|]. etrans; [apply aside_put_conn|by eapply aside_error]. }
  eapply goes_on_here; [|exact Ha]. destruct Ho as [O1 O2 O3 O4 O5 O6 O7 O8 O9 O10]. split; try done.
  assert (Hloop : get_loop w' = get_loop (put_conn conn c w1)).
  { revert E'. unfold handleError, Socket.getSocketError. intros E'. inv_ok.
    destruct (so_error_law (socket_ a) (put_conn conn c w1)) as (H3 & _).
    by destruct (Socket.sys_getsockopt_error (socket_ a) (put_conn conn c w1)) as [r w2]. }
  by rewrite Hloop, loop_put_conn, Hl.
Qed.

(** A read that delivers appends to the receive buffer. *)
Lemma read_delivers conn w c ch data w1 : ours conn w c ch -> roomy (2 ^ 60) c ->
  sys_read (socket_ c) (writableBytes (receive_buffer_ c) + EXTRA_SIZE) w = (ReadOk data, w1) ->
  exists b, let c1 := set_receive_buffer b c in let w2 := put_conn conn c1 w1 in
    ours conn w2 c1 ch /\ roomy (2 ^ 62) c1 /\ aside (socket_ c) w w2 /\
    handleReadable call_callback tid conn w
    = if 0 <? Zlen data then call_user call_callback (UserCallback <$> on_message cfg) conn w2
      else handleClose call_callback tid conn w2.
Proof.
  intros Ho [Hr1 Hr2] Er. pose proof (our_base _ _ _ _ Ho) as Hb.
  pose proof (fine_refines _ _ (our_receive _ _ _ _ Ho) Hr1) as Hr.
  destruct (handleReadable_read call_callback tid conn w c ch _ (2 ^ 60) data w1 Hb Hr)
    as (b & Hrb & Hb1 & E); [unfold EXTRA_SIZE; lia|done|].
  destruct (read_law _ _ _ _ _ (writable_room _ _ _ Hr) Er) as (Hcap & Hl & _).
  destruct (read_aside (socket_ c) (writableBytes (receive_buffer_ c) + EXTRA_SIZE) w) as [Hk Hcn].
  rewrite Er in Hk, Hcn. cbn [snd] in Hk, Hcn. exists b. cbn zeta. split_and!.
  - destruct Ho as [O1 O2 O3 O4 O5 O6 O7 O8 O9 O10]. split; try done; [|by eapply refines_fine].
    cbn [socket_ channel_ set_receive_buffer]. by rewrite loop_put_conn, Hl.
  - split; cbn; [|lia]. destruct Hr as (Hwf & _). rewrite writable_eq in Hcap by done.
    destruct Hwf as (? & ? & ?). destruct Hrb as (_ & _ & _ & Hbb). unfold EXTRA_SIZE in Hcap. lia.
  - etrans; [by apply (aside_same _ _ w1)|apply aside_put_conn].
  - rewrite E, (our_message _ _ _ _ Ho). by destruct (0 <? Zlen data).
Qed.

(** The connection keeps going, or it was the end of file. *)
Lemma ready_handled conn k w c ch : lives k w -> connection_ k = Some conn -> up conn w c ch ->
  roomy (2 ^ 60) c ->
  exists w', handleReadable call_callback tid conn w = Ok w' /\
    (exists c' ch', conn_base tid conn w' c' ch' /\ channel_ c' = channel_ c) /\
    (lives k w' /\ get_connector w' = get_connector w /\
       (sys_read (socket_ c) (writableBytes (receive_buffer_ c) + EXTRA_SIZE) w).1 <> ReadOk [] \/
     exists c' ch', closing conn k (get_connector w) w' c' ch').
Proof.
  intros Hl Hk Hu Hroom. pose proof (up_ours _ _ _ _ Hu) as Ho.
  destruct (sys_read (socket_ c) (writableBytes (receive_buffer_ c) + EXTRA_SIZE) w)
    as [[data|e] w1] eqn:Er.
  - destruct (read_delivers conn w c ch data w1 Ho Hroom Er) as (b & Ho2 & Hroom2 & Ha & E).
    set (c1 := set_receive_buffer b c) in *. set (w2 := put_conn conn c1 w1) in *.
    assert (Hg : goes_on conn c w w2)
      by (exists c1, ch; split_and!; [done|done|done|by left|exact Ha]).
    destruct (goes_on_up conn k w c ch w2 Hl Hk Hu Hg) as [Hl2 Hcn2].
    assert (Hu2 : up conn w2 c1 ch).
    { destruct Hu as [U1 U2 U3 U4 U5]. split; try done; [congruence|].
      intros x Hx. rewrite (as_watch _ _ _ Ha x Hx). by apply U5. }
    rewrite E. destruct (0 <? Zlen data) eqn:Hlen.
    + destruct (call_user_goes_on (on_message cfg) conn w2 c1 ch Ho2 Hroom2) as (w' & E' & Hg').
      exists w'. split; [done|].
      destruct (goes_on_up conn k w2 c1 ch w' Hl2 Hk Hu2 Hg') as [Hl' Hcn'].
      destruct Hg' as (c' & ch' & Ho' & _ & Hc' & _). split; [|left; split_and!; [done|congruence|cbn; intros [= ->]; done]].
      exists c', ch'. split; [apply Ho'|done].
    + destruct (handleClose_closing conn k w2 c1 ch) as (w' & c' & ch' & E' & Hcl & Hc');
        [apply Hl2|apply Hl2|done|done|done|].
      rewrite Hcn2 in Hcl. exists w'. split; [done|]. split; [|right; by exists c', ch'].
      exists c', ch'. split; [apply (cl_ours _ _ _ _ _ _ Hcl)|done].
  - destruct (read_fails conn w c ch e w1 Ho Hroom Er) as (w' & E & Hg). exists w'. split; [done|].
    split; [|left; destruct (goes_on_up conn k w c ch w' Hl Hk Hu Hg); by split_and!].
    destruct Hg as (c' & ch' & Ho' & _ & Hc' & _). exists c', ch'. split; [apply Ho'|done].
Qed.

Lemma ready_event conn k w c ch mask : lives k w -> connection_ k = Some conn -> up conn w c ch ->
  roomy (2 ^ 60) c ->
  exists w', event client tid conn mask w = Ok w' /\
    (lives k w' /\ get_connector w' = get_connector w /\
       arriving conn mask w <> Some (ReadOk []) \/
     exists c' ch', closing conn k (get_connector w) w' c' ch').
Proof.
  intros Hl Hk Hu Hroom. pose proof (up_ours _ _ _ _ Hu) as Ho.
  set (wr := put_channels (<[channel_ c := setReturnEvents mask ch]> (get_channels w)) w).
  assert (Hor : ours conn wr c (setReturnEvents mask ch)) by (by apply ours_reported).
  assert (Ha : aside (socket_ c) w wr) by apply aside_put_channels.
  assert (Hg : goes_on conn c w wr) by (by eapply goes_on_here).
  destruct (goes_on_up conn k w c ch wr Hl Hk Hu Hg) as [Hlr Hcnr].
  assert (Hur : up conn wr c (setReturnEvents mask ch)).
  { destruct Hu as [U1 U2 U3 U4 U5]. split; try done; [congruence|].
    intros x Hx. rewrite (as_watch _ _ _ Ha x Hx). by apply U5. }
  assert (Hrun : forall tid' t w', client tid' (ConnWork t) w'
    = run_conn_task ConnWork (TcpClient.call_callback user tid') tid' t w') by done.
  pose proof (event_runs ConnWork (TcpClient.call_callback user) client Hrun tid conn mask w c ch) as Hev.
  destruct (has mask (Z.lor (Z.lor POLLIN POLLPRI) POLLRDHUP)) eqn:Hmask.
  - destruct (ready_handled conn k wr c _ Hlr Hk Hur Hroom) as (w' & E & (c' & ch' & Hb' & Hc') & Hcase).
    assert (Harr : arriving conn mask w
      = Some (sys_read (socket_ c) (writableBytes (receive_buffer_ c) + EXTRA_SIZE) wr).1).
    { unfold arriving. rewrite Hmask.
      rewrite (report_ok tid conn w c ch mask) by apply Ho.
      by rewrite (ok_conn _ _ _ _ _ (our_base _ _ _ _ Ho)). }
    exists w'. rewrite Harr. split; [|destruct Hcase as [(H1 & H2 & H3)|]; [left|right; by rewrite <- Hcnr]].
    2: { split_and!; [done|congruence|by intros [= ?]]. }
    apply (Hev w' c' ch'); [apply Ho|apply Ho| |done|done]. exact E.
  - exists wr. split; [|left; split_and!; [done|done|unfold arriving; by rewrite Hmask]]. apply (Hev wr c (setReturnEvents mask ch)); done || apply Ho || apply Hor.
Qed.

(** ** The connector's events *)
Lemma phase_attempted k c : connection_ k = None -> Connector.state_ c <> Connector.Connected ->
  waits c -> attempted (Connector.connect_ c) (phase_of k c).
Proof.
  intros Hk Hs Hw. unfold phase_of, attempted, refused, waits in *. rewrite Hk.
  destruct (Connector.state_ c); [|by left|done].
  destruct (Connector.retry_timers c); [by right; right|]. right. left. by rewrite Hw.
Qed.

(** Writing the connector, after an answer of the kernel. *)
Lemma lives_connector k w w1 c' : lives k w -> connection_ k = None \/ resting c' ->
  get_client w1 = get_client w -> get_loop w1 = get_loop w -> get_channels w1 = get_channels w ->
  (forall conn, get_conn conn w1 = get_conn conn w) -> keen c' -> lives k (put_connector c' w1).
Proof.
  intros [[S1 S2 S3 S4 S5 S6 S7 S8] L2 L3 L4] Hk H1 H2 H3 H4 Hkeen.
  split; [split|..]; autorewrite with client_world; try congruence; try done.
  - unfold on_thread in *. autorewrite with client_world. congruence.
  - destruct (connection_ k) as [conn|]; [destruct Hk as [|Hrest]; [done|]|].
    + destruct L4 as (c & ch & [U1 U2 U3 U4 U5]). exists c, ch.
      split; autorewrite with client_world; rewrite ?H2; try done.
      eapply ours_frame; [exact U1|..]; by autorewrite with client_world.
    + intros x. autorewrite with client_world. by rewrite H2.
Qed.

(** The kernel's part in a new connection: the descriptor is not one that the loop
    watches, the peer is still there, and the new objects have addresses of
    their own. *)
Definition welcome (w : W) : Prop := forall fd, Connector.socket_ (get_connector w) = Some fd ->
  0 <= fd /\ watching fd = None /\
  exists conn cid peer, get_channels w !! cid = None /\
    forall k, let w2 := put_client k (put_connector (handing_over (get_connector w))
                          (Socket.getSocketError fd w).2) in
      Socket.sys_getpeername fd w2 = Some peer /\ allocate w2 = (conn, cid).

Lemma getSocketError_aside fd (w : W) : let w1 := (Socket.getSocketError fd w).2 in
  get_client w1 = get_client w /\ get_connector w1 = get_connector w /\
  get_loop w1 = get_loop w /\ get_channels w1 = get_channels w /\
  forall conn, get_conn conn w1 = get_conn conn w.
Proof.
  unfold Socket.getSocketError. destruct (so_error_client fd w) as [H1 H2].
  destruct (so_error_law fd w) as (H3 & H4 & H5).
  by destruct (Socket.sys_getsockopt_error fd w) as [r w1].
Qed.

Lemma fresh_members fd cid peer k (w : W) : let c := fresh_connection fd cid peer k w in
  TcpConnection.connection_callback_ c = UserCallback <$> connection_callback_ k /\
  TcpConnection.message_callback_ c = UserCallback <$> message_callback_ k /\
  (write_complete_callback_ k = None -> TcpConnection.write_complete_callback_ c = None) /\
  (high_water_mark_callback_ k = None -> high_water_callback_ c = None) /\
  close_callback_ c = Some CloseCallback /\ state_ c = Connecting /\ socket_ c = fd /\
  buffer_fine (receive_buffer_ c) /\ buffer_fine (send_buffer_ c) /\ roomy (2 ^ 62) c.
Proof.
  assert (Hb : buffer_fine (make INITIALIZE_SIZE)) by (by eapply refines_fine, demo_refines).
  unfold fresh_connection, new_connection, set_callbacks. cbn zeta.
  destruct (connection_callback_ k), (message_callback_ k), (high_water_mark_callback_ k),
    (write_complete_callback_ k); by split_and!.
Qed.

(** [onConnection], in the pass in which the attempt succeeded. *)
Lemma onConnection_up k w fd conn cid peer : lives k w -> connection_ k = None ->
  room tid fd conn cid peer k w -> watching fd = None ->
  exists w' k' c ch, onConnection user tid fd w = Ok w' /\
    k' = set_connection (Some conn) (set_next_conn_id (to_int32 (next_conn_id_ k + 1)) k) /\
    get_client w' = Some k' /\ get_connector w' = get_connector w /\
    ours conn w' c ch /\ alive c /\ socket_ c = fd /\ aside fd (with_connection fd conn cid peer k w) w'.
Proof.
  intros [Hst L2 L3 L4] Hk Hr Hfd. rewrite (onConnection_eq _ _ _ _ _ _ _ _ Hr).
  set (c := fresh_connection fd cid peer k w). set (w5 := with_connection fd conn cid peer k w).
  destruct (fresh_members fd cid peer k w) as (F1 & F2 & F3 & F4 & F5 & F6 & F7 & F8 & F9 & F10).
  fold c in F1, F2, F3, F4, F5, F6, F7, F8, F9, F10.
  destruct Hst as [S1 S2 S3 S4 S5 S6 S7 S8]. rewrite S5 in F1. rewrite S6 in F2.
  assert (Hb : conn_base tid conn w5 c _) by (by apply new_connection_base).
  destruct (established conn w5 c _ Hb) as (w6 & c6 & E & [ch6 Ho6] & Hs6 & Hal6 & Ha6);
    try done; [by apply F3|by apply F4|]. rewrite F7 in Ha6.
  exists w6, (set_connection (Some conn) (set_next_conn_id (to_int32 (next_conn_id_ k + 1)) k)), c6, ch6.
  split_and!; [done|done| | |done|done|congruence|done].
  - rewrite (as_client _ _ _ Ha6). unfold w5, with_connection. by autorewrite with client_world.
  - rewrite (as_connector _ _ _ Ha6). unfold w5, with_connection, make_TcpConnection.
    by autorewrite with client_world.
Qed.

Lemma handed_over c fd : Connector.socket_ c = Some fd ->
  Connector.reset_socket (handing_over c) = handing_over c.
Proof.
  intros Hso. unfold handing_over, Connector.resetChannel. cbn.
  destruct (Connector.channel_ c); unfold Connector.hand_over; cbn; by rewrite Hso.
Qed.

(** The new connection is the client's. *)
Lemma up_lives k w2 w3 fd conn cid peer k3 c3 ch3 cc : lives k w2 -> connection_ k = None ->
  k3 = set_connection (Some conn) (set_next_conn_id (to_int32 (next_conn_id_ k + 1)) k) ->
  get_client w3 = Some k3 -> ours conn w3 c3 ch3 -> alive c3 -> socket_ c3 = fd ->
  watching fd = None -> aside fd (with_connection fd conn cid peer k w2) w3 ->
  keen cc -> resting cc -> lives k3 (put_connector cc w3).
Proof.
  intros [[S1 S2 S3 S4 S5 S6 S7 S8] L2 L3 L4] Hk -> Hk3 Ho Hal Hs Hfd Ha Hkeen Hcc. rewrite Hk in L4.
  destruct (aside_loop _ _ _ Ha) as (Q1 & Q2 & Q3). pose proof (as_watch _ _ _ Ha) as Q4.
  assert (El : get_loop (with_connection fd conn cid peer k w2) = get_loop w2).
  { unfold with_connection, make_TcpConnection. by autorewrite with client_world. }
  rewrite El in Q1, Q2, Q3, Q4. unfold on_thread in S2.
  split; [split|..]; autorewrite with client_world; try done; try congruence.
  - unfold on_thread. autorewrite with client_world. congruence.
  - cbn. congruence.
  - apply (our_base _ _ _ _ Ho).
  - cbn [connection_ set_connection]. exists c3, ch3. split; autorewrite with client_world; try done.
    + eapply ours_frame; [exact Ho|..]; by autorewrite with client_world.
    + by rewrite Hs.
    + intros x Hx. rewrite Hs in Hx. rewrite Q4 by done. apply L4.
Qed.

(** POLLOUT on the connector's channel. *)
Lemma writable_handled k w fd : lives k w -> connection_ k = None ->
  Connector.channel_ (get_connector w) = Some fd -> welcome w ->
  exists w' k' p, connector_writable user tid w = Ok w' /\ lives k' w' /\ retry_ k' = retry_ k /\
    status_of k' (get_connector w') = (again k, Connector.connect_ (get_connector w), p) /\
    ((Socket.getSocketError fd w).1 <> 0 /\ p = refused (Connector.connect_ (get_connector w)) \/
     exists conn, p = Up conn).
Proof.
  intros Hl Hk Hch Hwel. pose proof (st_keen _ _ (lv_settled _ _ Hl)) as Hkeen.
  pose proof (Connector.inv_channel _ (Connector.single_inv _ (keen_single _ Hkeen))) as Hso.
  rewrite Hch in Hso. unfold connector_writable. rewrite <- Hso.
  destruct (getSocketError_aside fd w) as (G1 & G2 & G3 & G4 & G5).
  destruct (Hwel fd (eq_sym Hso)) as (Hpos & Hfd & conn & cid & peer & Hcid & Hkernel).
  destruct (Socket.getSocketError fd w) as [err w1]. cbn [snd] in *.
  destruct (Z.eqb_spec err 0) as [->|Herr]; cbn [negb].
  2: { destruct (failed_keen _ fd err Hkeen Hch Herr) as (Hk' & Hs' & Hc' & Ht').
       eexists _, k, _. split_and!; [done|by eapply lives_connector; [|by left|..]|done| |by left].
       autorewrite with client_world. unfold status_of, phase_of. by rewrite Hk, Hs', Hc', Ht'. }
  destruct (handing_over_keen _ fd Hkeen Hch) as (Hk' & Hc' & Hs').
  rewrite (handed_over _ fd) in Hk', Hc', Hs' by done.
  fold (handing_over (get_connector w)). set (w2 := put_connector (handing_over (get_connector w)) w1) in *.
  assert (Hl2 : lives k w2) by (by eapply lives_connector; [|by left|..]).
  assert (Hroom : room tid fd conn cid peer k w2).
  { destruct Hl2 as [[S1 S2 S3 S4 S5 S6 S7 S8] L2 L3 L4]. rewrite Hk in L4. split; try done.
    - by rewrite L4.
    - unfold w2. autorewrite with client_world. by rewrite G4.
    - intros k'. apply (Hkernel k').
    - intros k'. apply (Hkernel k'). }
  destruct (onConnection_up k w2 fd conn cid peer Hl2 Hk Hroom Hfd)
    as (w3 & k3 & c3 & ch3 & E3 & Ek3 & Hk3 & Hc3 & Ho3 & Hal3 & Hs3 & Ha3).
  rewrite E3. cbn [mbind outcome_bind]. rewrite Hc3.
  assert (Ew2 : get_connector w2 = handing_over (get_connector w))
    by (unfold w2; by autorewrite with client_world).
  rewrite Ew2, (handed_over _ fd) by done.
  exists (put_connector (handing_over (get_connector w)) w3), k3, (Up conn).
  assert (Hrest : resting (handing_over (get_connector w))).
  { split; [|by left]. apply (Connector.single_busy _ (keen_single _ Hk')). by rewrite Hs'. }
  split_and!; [done|by eapply up_lives|by subst k3| |right; by exists conn].
  autorewrite with client_world. unfold status_of. rewrite Hc'. by subst k3.
Qed.

(** A retry timer; there is one only while the connector waits. *)
Lemma timer_handled k w : lives k w ->
  exists w', connector_timer tid w = Ok w' /\ lives k w' /\
    (w' = w /\ phase_of k (get_connector w) <> Waiting \/
     phase_of k (get_connector w) = Waiting /\
     Connector.connect_ (get_connector w') = Connector.connect_ (get_connector w) /\
     attempted (Connector.connect_ (get_connector w)) (phase_of k (get_connector w')) /\
     (attempts_proceed -> phase_of k (get_connector w') = Trying)).
Proof.
  intros Hl. pose proof (st_keen _ _ (lv_settled _ _ Hl)) as Hkeen. unfold connector_timer.
  destruct (Connector.retry_timers (get_connector w)) as [|d ts] eqn:Ht; [|].
  { exists w. split_and!; [done|done|]. left. split; [done|]. unfold phase_of. rewrite Ht.
    by destruct (connection_ k), (Connector.state_ (get_connector w)). }
  assert (Hd : Connector.state_ (get_connector w) = Connector.Disconnected).
  { destruct (decide (Connector.state_ (get_connector w) = Connector.Disconnected)) as [|n]; [done|].
    by rewrite (Connector.single_busy _ (keen_single _ Hkeen) n) in Ht. }
  assert (Hk : connection_ k = None).
  { pose proof (lv_phase _ _ Hl) as Hp. destruct (connection_ k) as [conn|]; [|done].
    destruct Hp as (c & ch & Hu). destruct (up_connector _ _ _ _ Hu) as [Hno _]. congruence. }
  rewrite connector_attempt_eq.
  2: { unfold on_thread. autorewrite with client_world. apply Hl. }
  autorewrite with client_world. set (w1 := put_connector _ w).
  destruct (attempt_law w1) as (A1 & A2 & A3 & A4 & A5).
  destruct (timer_keen (next_attempt w1).1 (get_connector w) d ts Hkeen Ht (Hfds w1))
    as (c' & Es & Hkeen' & Hne & Hc' & Hw'). rewrite Es. cbn [mbind outcome_bind].
  eexists. split; [done|]. split.
  - apply (lives_connector k w); [done|by left|..|done]; intros; rewrite ?A1, ?A3, ?A4, ?A5; unfold w1;
      by autorewrite with client_world.
  - right. autorewrite with client_world. split_and!; [|done|rewrite <- Hc'; by apply phase_attempted|].
    + unfold phase_of. by rewrite Hk, Hd, Ht.
    + intros Hgo. unfold phase_of. rewrite Hk.
      by rewrite (start_in_progress _ _ _ (Hgo w1) Es).
Qed.

(** [connect_] of the client. *)
Lemma flag_lives b k w : lives k w ->
  lives (set_connect b k) (put_client (Some (set_connect b k)) w).
Proof.
  intros [[S1 S2 S3 S4 S5 S6 S7 S8] L2 L3 L4]. unfold on_thread in S2.
  split; [split|..]; autorewrite with client_world; try done.
  - unfold on_thread. by autorewrite with client_world.
  - cbn [connection_ set_connect]. destruct (connection_ k) as [conn|].
    + destruct L4 as (c & ch & [U1 U2 U3 U4 U5]). exists c, ch.
      split; autorewrite with client_world; try done.
      eapply ours_frame; [exact U1|..]; by autorewrite with client_world.
    + intros x. by autorewrite with client_world.
Qed.

(** [disconnect]: the connector goes on with what it does, and a connection stays up
    until the peer closes it (TcpConnection.v, [shutdown_never_reaches_socket]). *)
Lemma disconnect_handled k w : lives k w ->
  exists w', disconnect user tid w = Ok w' /\ lives (set_connect false k) w' /\
    get_connector w' = get_connector w.
Proof.
  intros Hl. unfold disconnect, deref_client. rewrite (st_client _ _ (lv_settled _ _ Hl)).
  cbn [mbind outcome_bind]. set (w1 := put_client (Some (set_connect false k)) w).
  assert (Hc1 : get_connector w1 = get_connector w) by (unfold w1; by autorewrite with client_world).
  assert (Hl1 : lives (set_connect false k) w1) by by apply flag_lives.
  destruct (connection_ k) as [conn|] eqn:Hk; [|by exists w1].
  pose proof (lv_phase _ _ Hl1) as Hp. cbn [connection_ set_connect] in Hp. rewrite Hk in Hp.
  destruct Hp as (c & ch & Hu). destruct (shutdown_eq (user := user) conn w1 c ch (up_ours _ _ _ _ Hu)) as (w' & E & Hg).
  exists w'. split; [exact E|]. rewrite <- Hc1. by eapply (goes_on_up conn).
Qed.

(** [stop]: an attempt under way is given up; a retry that is scheduled stays. *)
Lemma stop_handled k w : lives k w ->
  exists w', stop tid w = Ok w' /\ lives (set_connect false k) w' /\
    status_of (set_connect false k) (get_connector w')
    = (false, false, stopped (phase_of k (get_connector w))).
Proof.
  intros Hl. pose proof (st_keen _ _ (lv_settled _ _ Hl)) as Hkeen.
  destruct (stop_keen _ Hkeen) as (Hkeen' & Hs' & Hc' & Ht').
  unfold stop, deref_client. rewrite (st_client _ _ (lv_settled _ _ Hl)).
  cbn [mbind outcome_bind]. pose proof (flag_lives false _ _ Hl) as Hl1.
  set (w1 := put_client (Some (set_connect false k)) w) in *.
  pose proof (st_thread _ _ (lv_settled _ _ Hl1)) as Hth. unfold on_thread in Hth.
  unfold connector_flag. rewrite in_loop by (unfold on_thread; by autorewrite with client_world).
  cbn [run_connector_task]. rewrite assert_loop_ok by (by autorewrite with client_world).
  cbn [mbind outcome_bind]. assert (Hc1 : get_connector w1 = get_connector w)
    by (unfold w1; by autorewrite with client_world).
  rewrite Hc1. autorewrite with client_world. set (cn := Connector.stopInLoop _) in *.
  eexists. split; [done|]. split.
  - apply (lives_connector _ w1); [done| |intros; by autorewrite with client_world..|done].
    cbn [connection_ set_connect]. pose proof (lv_phase _ _ Hl) as Hp.
    destruct (connection_ k) as [conn|]; [right|by left]. destruct Hp as (c & ch & Hu).
    split; [rewrite Ht'; apply Hu|by right].
  - autorewrite with client_world. unfold status_of, again. cbn [retry_ connect_ set_connect].
    rewrite andb_false_r, Hc'. f_equal. unfold phase_of. cbn [connection_ set_connect]. rewrite Hs', Ht'.
    destruct (connection_ k); [done|]. pose proof (Connector.single_busy _ (keen_single _ Hkeen)) as Hb.
    destruct (Connector.state_ (get_connector w)); [by destruct (Connector.retry_timers (get_connector w))|..];
      by rewrite Hb.
Qed.

(** [connect], when nothing is under way. *)
Lemma connect_handled k w : lives k w -> phase_of k (get_connector w) = GaveUp ->
  exists w', connect tid w = Ok w' /\ lives (set_connect true k) w' /\
    Connector.connect_ (get_connector w') = true /\
    attempted true (phase_of (set_connect true k) (get_connector w')) /\
    (attempts_proceed -> phase_of (set_connect true k) (get_connector w') = Trying).
Proof.
  intros Hl Hph. pose proof (st_keen _ _ (lv_settled _ _ Hl)) as Hkeen.
  assert (Hk : connection_ k = None /\ Connector.state_ (get_connector w) = Connector.Disconnected /\
    Connector.retry_timers (get_connector w) = []).
  { revert Hph. unfold phase_of. destruct (connection_ k), (Connector.state_ _), (Connector.retry_timers _);
      try done. }
  destruct Hk as (Hk & Hs & Ht). unfold connect, deref_client. rewrite (st_client _ _ (lv_settled _ _ Hl)).
  cbn [mbind outcome_bind]. pose proof (flag_lives true _ _ Hl) as Hl1.
  set (w1 := put_client (Some (set_connect true k)) w) in *.
  assert (Hc1 : get_connector w1 = get_connector w) by (unfold w1; by autorewrite with client_world).
  pose proof (st_thread _ _ (lv_settled _ _ Hl1)) as Hth. unfold on_thread in Hth.
  unfold connector_flag. rewrite in_loop by (unfold on_thread; by autorewrite with client_world).
  cbn [run_connector_task]. rewrite connector_attempt_eq
    by (unfold on_thread; by autorewrite with client_world).
  rewrite Hc1. autorewrite with client_world. set (w2 := put_connector _ w1).
  destruct (attempt_law w2) as (A1 & A2 & A3 & A4 & A5).
  destruct (connect_keen (next_attempt w2).1 (get_connector w) Hkeen Hs Ht (Hfds w2))
    as (c' & Es & Hkeen' & Hne & Hc' & Hw'). rewrite Es. cbn [mbind outcome_bind].
  eexists. split; [done|]. autorewrite with client_world. split_and!; [|done| |].
  - apply (lives_connector _ w1); [done|by left|..|done]; intros; rewrite ?A1, ?A3, ?A4, ?A5; unfold w2;
      by autorewrite with client_world.
  - rewrite <- Hc'. by apply phase_attempted.
  - intros Hgo. unfold phase_of. cbn [connection_ set_connect]. rewrite Hk.
    by rewrite (start_in_progress _ _ _ (Hgo w2) Es).
Qed.

(** ** One pass *)

Definition life (w : W) : option status :=
  (fun k => status_of k (get_connector w)) <$> get_client w.

(** What is asked of the rest of the world: the buffers are within bounds, the
    kernel gives a connection that came up what [welcome] says, and the user calls
    [connect] only when nothing is under way. *)
Definition enabled (w : W) (o : occurrence) : Prop :=
  match o with
  | Ready _ => forall k conn c, get_client w = Some k -> connection_ k = Some conn ->
      get_conn conn w = Some c -> roomy (2 ^ 60) c
  | Writable => welcome w
  | Connect => exists b s, life w = Some (b, s, GaveUp)
  | _ => True
  end.

Lemma lives_life k w : lives k w -> life w = Some (status_of k (get_connector w)).
Proof. intros Hl. unfold life. by rewrite (st_client _ _ (lv_settled _ _ Hl)). Qed.

Lemma pass_quiet o w w1 k : occur o w = Ok w1 -> lives k w1 ->
  exists w', pass o w = Ok w' /\ lives k w' /\ get_connector w' = get_connector w1.
Proof.
  intros E Hl. destruct (no_tasks k w1 Hl) as (w' & E' & Hl' & Hc'). exists w'.
  unfold pass. rewrite E. by split_and!.
Qed.

(** The pass in which the connection closes. *)
Lemma pass_closes o w w1 conn k cn c ch : occur o w = Ok w1 -> connection_ k = Some conn ->
  closing conn k cn w1 c ch -> resting cn ->
  exists w', let k' := set_connection None k in pass o w = Ok w' /\ lives k' w' /\
    life_event (status_of k cn) (status_of k' (get_connector w')) /\
    (again k = true -> attempts_proceed -> status_of k' (get_connector w') = (true, true, Trying)).
Proof.
  intros E Hk Hcl [Htm Hrest]. destruct (last_task conn k cn w1 c ch Hcl) as (w' & E' & Hl' & Hc').
  exists w'. cbn zeta. unfold pass. rewrite E.
  pose proof (cl_connector _ _ _ _ _ _ Hcl) as Hcn. rewrite <- Hc' in Hcn.
  pose proof (cl_attempt _ _ _ _ _ _ Hcl) as Hat. rewrite <- Hc' in Hat.
  unfold status_of. change (again (set_connection None k)) with (again k).
  assert (Hup : phase_of k cn = Up conn) by (unfold phase_of; by rewrite Hk). rewrite Hup.
  split_and!; [done|done|..].
  - destruct (again k); [destruct Hcn as (Hne & Hct & Hw)|].
    + rewrite Hct. apply life_restart. rewrite <- Hct. by apply phase_attempted.
    + rewrite Hcn. unfold phase_of. cbn [connection_ set_connection].
      destruct Hrest as [-> |[-> ->]]; [apply life_lost|]. rewrite Htm. apply life_lost_stopped.
  - intros Hag Hgo. rewrite Hag in *. destruct Hcn as (_ & -> & _), (Hat eq_refl) as (wa & c0 & Es).
    unfold phase_of. cbn [connection_ set_connection]. by rewrite (start_in_progress _ _ _ (Hgo wa) Es).
Qed.

(** What one pass does: a move in the life of the client, or none. *)
Definition passes (o : occurrence) (k : TcpClient V) (w : W) : Prop :=
  exists w' k', pass o w = Ok w' /\ lives k' w' /\ retry_ k' = retry_ k /\
    rtc (moves o (retry_ k)) (status_of k (get_connector w)) (status_of k' (get_connector w')).

Lemma passes_unchanged o k w w1 : occur o w = Ok w1 -> lives k w1 ->
  get_connector w1 = get_connector w -> passes o k w.
Proof.
  intros E Hl Hc. destruct (pass_quiet o w w1 k E Hl) as (w' & E' & Hl' & Hc'). exists w', k.
  split_and!; [done..|]. by rewrite Hc', Hc.
Qed.

(** A call of the user. *)
Lemma passes_called o k k' w w1 : occur o w = Ok w1 -> lives k' w1 -> retry_ k' = retry_ k ->
  moves o (retry_ k) (status_of k (get_connector w)) (status_of k' (get_connector w1)) -> passes o k w.
Proof.
  intros E Hl Hr Hm. destruct (pass_quiet o w w1 k' E Hl) as (w' & E' & Hl' & Hc'). exists w', k'.
  split_and!; [done..|]. rewrite Hc'. by apply rtc_once.
Qed.

Lemma pass_ready k w mask : lives k w -> enabled w (Ready mask) -> passes (Ready mask) k w.
Proof.
  intros Hl Hen. pose proof (st_client _ _ (lv_settled _ _ Hl)) as Hkc.
  assert (Hocc : occur (Ready mask) w
    = match connection_ k with Some conn => event client tid conn mask w | None => Ok w end).
  { cbn [occur]. unfold deref_client. by rewrite Hkc. }
  destruct (connection_ k) as [conn|] eqn:Hk; [|by eapply passes_unchanged].
  pose proof (lv_phase _ _ Hl) as Hp. rewrite Hk in Hp. destruct Hp as (c & ch & Hu).
  assert (Hroom : roomy (2 ^ 60) c).
  { eapply Hen; [done|exact Hk|]. apply (our_base _ _ _ _ (up_ours _ _ _ _ Hu)). }
  destruct (ready_event conn k w c ch mask Hl Hk Hu Hroom) as (w1 & E1 & Hcase). rewrite E1 in Hocc.
  destruct Hcase as [(Hl1 & Hc1 & _)|(c1 & ch1 & Hcl)]; [by eapply passes_unchanged|].
  destruct (pass_closes _ w w1 conn k _ c1 ch1 Hocc Hk Hcl) as (w' & E & Hl' & Hlife & _); [apply Hu|].
  exists w', (set_connection None k). split_and!; [done..|by apply rtc_once].
Qed.

Lemma pass_writable k w : lives k w -> enabled w Writable -> passes Writable k w.
Proof.
  intros Hl Hen. destruct (Connector.channel_ (get_connector w)) as [fd|] eqn:Hch.
  2: { eapply passes_unchanged; [|exact Hl|done]. cbn [occur]. by rewrite Hch. }
  pose proof (keen_single _ (st_keen _ _ (lv_settled _ _ Hl))) as Hsingle.
  assert (Hs : Connector.state_ (get_connector w) = Connector.Connecting).
  { apply (Connector.inv_connecting _ (Connector.single_inv _ Hsingle)).
    rewrite <- (Connector.inv_channel _ (Connector.single_inv _ Hsingle)). by rewrite Hch. }
  assert (Hk : connection_ k = None).
  { pose proof (lv_phase _ _ Hl) as Hp. destruct (connection_ k) as [conn|]; [|done].
    destruct Hp as (c & ch & Hu). by destruct (resting_idle _ (up_connector _ _ _ _ Hu)). }
  destruct (writable_handled k w fd Hl Hk Hch Hen) as (w1 & k1 & p & E1 & Hl1 & Hr & Est & Hph).
  apply (passes_called _ _ k1 _ w1); [cbn [occur]; by rewrite Hch|done|done|].
  rewrite Est. unfold status_of.
  assert (phase_of k (get_connector w) = Trying) as -> by (unfold phase_of; by rewrite Hk, Hs).
  destruct Hph as [[_ ->] |[conn ->]]; constructor.
Qed.

Lemma pass_lives k w o : lives k w -> enabled w o -> passes o k w.
Proof.
  intros Hl Hen. destruct o as [|mask| | | | |].
  - by eapply passes_unchanged.
  - by apply pass_ready.
  - by apply pass_writable.
  - destruct (timer_handled k w Hl) as (w1 & E1 & Hl1 & [[-> _]|(Hph & Hc & Hat & _)]);
      [by eapply passes_unchanged|].
    apply (passes_called _ _ k _ w1); try done. unfold status_of. rewrite Hc, Hph. by apply life_retry.
  - destruct (disconnect_handled k w Hl) as (w1 & E1 & Hl1 & Hc1).
    apply (passes_called _ _ (set_connect false k) _ w1); try done. rewrite Hc1.
    unfold status_of, again. cbn [retry_ connect_ set_connect]. rewrite andb_false_r.
    change (phase_of (set_connect false k)) with (phase_of k). apply life_disconnect.
  - destruct (stop_handled k w Hl) as (w1 & E1 & Hl1 & Hst).
    apply (passes_called _ _ (set_connect false k) _ w1); try done. rewrite Hst. apply life_stop.
  - destruct Hen as (b & s & Hen). rewrite (lives_life _ _ Hl) in Hen. injection Hen as _ _ Hph.
    destruct (connect_handled k w Hl Hph) as (w1 & E1 & Hl1 & Hc1 & Hat & _).
    apply (passes_called _ _ (set_connect true k) _ w1); try done.
    unfold status_of, again. cbn [retry_ connect_ set_connect]. rewrite andb_true_r, Hc1, Hph.
    by apply life_connect.
Qed.

(** ** A kernel that lets the client connect *)
Lemma end_of_file k w conn mask : lives k w -> connection_ k = Some conn -> again k = true ->
  enabled w (Ready mask) -> arriving conn mask w = Some (ReadOk []) -> attempts_proceed ->
  exists w', pass (Ready mask) w = Ok w' /\ life w' = Some (true, true, Trying).
Proof.
  intros Hl Hk Hag Hen Hin Hgo. pose proof (st_client _ _ (lv_settled _ _ Hl)) as Hkc.
  pose proof (lv_phase _ _ Hl) as Hp. rewrite Hk in Hp. destruct Hp as (c & ch & Hu).
  assert (Hroom : roomy (2 ^ 60) c).
  { eapply Hen; [done|exact Hk|]. apply (our_base _ _ _ _ (up_ours _ _ _ _ Hu)). }
  destruct (ready_event conn k w c ch mask Hl Hk Hu Hroom) as (w1 & E1 & [(_ & _ & Hno)|(c1 & ch1 & Hcl)]);
    [done|].
  destruct (pass_closes (Ready mask) w w1 conn k (get_connector w) c1 ch1) as (w' & E & Hl' & _ & Hst);
    [|done|exact Hcl|apply Hu|].
  { cbn [occur]. unfold deref_client. rewrite Hkc. cbn [mbind outcome_bind]. by rewrite Hk. }
  exists w'. split; [done|]. by rewrite (lives_life _ _ Hl'), (Hst Hag Hgo).
Qed.

Lemma retry_fires k w : lives k w -> phase_of k (get_connector w) = Waiting -> attempts_proceed ->
  exists w', pass RetryTimer w = Ok w' /\
    life w' = Some (again k, Connector.connect_ (get_connector w), Trying).
Proof.
  intros Hl Hph Hgo.
  destruct (timer_handled k w Hl) as (w1 & E1 & Hl1 & [[_ Hno]|(_ & Hc & _ & Ht)]); [done|].
  destruct (pass_quiet RetryTimer w w1 k E1 Hl1) as (w' & E & Hl' & Hc'). exists w'.
  split; [done|]. rewrite (lives_life _ _ Hl'), Hc'. unfold status_of. by rewrite Hc, (Ht Hgo).
Qed.

Lemma attempt_succeeds k w fd : lives k w -> phase_of k (get_connector w) = Trying ->
  Connector.socket_ (get_connector w) = Some fd -> (Socket.getSocketError fd w).1 = 0 -> welcome w ->
  exists w' conn, pass Writable w = Ok w' /\
    life w' = Some (again k, Connector.connect_ (get_connector w), Up conn).
Proof.
  intros Hl Hph Hso Herr Hwel. assert (Hk : connection_ k = None).
  { revert Hph. unfold phase_of. by destruct (connection_ k). }
  pose proof (keen_single _ (st_keen _ _ (lv_settled _ _ Hl))) as Hsingle.
  pose proof (Connector.inv_channel _ (Connector.single_inv _ Hsingle)) as Hch. rewrite Hso in Hch.
  destruct (writable_handled k w fd Hl Hk Hch Hwel)
    as (w1 & k1 & p & E1 & Hl1 & _ & Est & [[Hno _]|[conn ->]]); [done|].
  destruct (pass_quiet Writable w w1 k1) as (w' & E & Hl' & Hc'); [cbn [occur]; by rewrite Hch|done|].
  exists w', conn. split; [done|]. by rewrite (lives_life _ _ Hl'), Hc', Est.
Qed.

Lemma connect_starts k w : lives k w -> phase_of k (get_connector w) = GaveUp -> attempts_proceed ->
  exists w', pass Connect w = Ok w' /\ life w' = Some (retry_ k, true, Trying).
Proof.
  intros Hl Hph Hgo. destruct (connect_handled k w Hl Hph) as (w1 & E1 & Hl1 & Hc1 & _ & Ht).
  destruct (pass_quiet Connect w w1 _ E1 Hl1) as (w' & E & Hl' & Hc'). exists w'. split; [done|].
  rewrite (lives_life _ _ Hl'), Hc'. unfold status_of, again. cbn [retry_ connect_ set_connect].
  by rewrite Hc1, (Ht Hgo), andb_true_r.
Qed.

(** ** Runs

    of passes in which only what [may] allows happens. *)
Inductive client_step (may : occurrence -> Prop) (w w' : W) : Prop :=
| step_pass o : may o -> enabled w o -> pass o w = Ok w' -> client_step may w w'.
Definition client_run (may : occurrence -> Prop) : W -> W -> Prop := rtc (client_step may).

Lemma lives_run may (R : status -> status -> Prop) k w w' :
  (forall o x y, may o -> moves o (retry_ k) x y -> R x y) -> lives k w -> client_run may w w' ->
  exists k', lives k' w' /\ retry_ k' = retry_ k /\
    rtc R (status_of k (get_connector w)) (status_of k' (get_connector w')).
Proof.
  intros HR Hl Hr. revert k HR Hl.
  induction Hr as [w|w1 w2 w3 [o Hmay Hen E] _ IH]; intros k HR Hl; [by exists k|].
  destruct (pass_lives k w1 o Hl Hen) as (w2' & k2 & E2 & Hl2 & Hr2 & Hlife). rewrite E in E2.
  injection E2 as <-. rewrite <- Hr2 in HR. destruct (IH k2 HR Hl2) as (k3 & Hl3 & Hr3 & Hlife3).
  exists k3. split_and!; [done|congruence|]. etrans; [|exact Hlife3].
  eapply rtc_subrel; [|exact Hlife]. intros x y. rewrite <- Hr2. by apply HR.
Qed.

Lemma lives_run_any k w w' : lives k w -> client_run (fun _ => True) w w' ->
  exists k', lives k' w' /\ retry_ k' = retry_ k /\
    rtc (client_life (retry_ k)) (status_of k (get_connector w)) (status_of k' (get_connector w')).
Proof.
  apply lives_run. intros [] x y _ H; (by left) || by right.
Qed.

Lemma lives_run_by_itself k w w' : lives k w -> client_run by_itself w w' ->
  exists k', lives k' w' /\ retry_ k' = retry_ k /\
    rtc life_event (status_of k (get_connector w)) (status_of k' (get_connector w')).
Proof. apply lives_run. by intros [] x y []. Qed.
End ClientLife.

(** ** The program's part: constructor, setters, [connect] *)
Inductive client_option (V : Type) : Type :=
| OnConnection (f : V)
| OnMessage (f : V)
| OnWriteComplete (f : V)
| OnHighWater (f : V) (high_water_mark : Z)
| Retry (on : bool).
Arguments OnConnection {V}.
Arguments OnMessage {V}.
Arguments OnWriteComplete {V}.
Arguments OnHighWater {V}.
Arguments Retry {V}.

Definition set_option {V} (k : TcpClient V) (o : client_option V) : TcpClient V :=
  match o with
  | OnConnection f => TcpClient.setConnectionCallback f k
  | OnMessage f => TcpClient.setMessageCallback f k
  | OnWriteComplete f => TcpClient.setWriteCompleteCallback f k
  | OnHighWater f n => TcpClient.setHighWaterMarkCallback f n k
  | Retry on => setRetry on k
  end.

Definition new_client {V} (loop : LoopId) (name : string) : TcpClient V :=
  mkTcpClient loop name None None None None (64 * 1024 * 1024) None 0 false false.

(** The client as the setters leave it. *)
Definition configured {V} (loop : LoopId) (name : string) (os : list (client_option V))
    : TcpClient V :=
  foldl set_option (new_client loop name) os.

Lemma configured_kept {V} loop name (os : list (client_option V)) :
  let k := configured loop name os in
  loop_ k = loop /\ TcpClient.name_ k = name /\ connection_ k = None /\ next_conn_id_ k = 0 /\
  connect_ k = false.
Proof.
  unfold configured. cbn zeta. assert (H : let k := new_client (V := V) loop name in
    loop_ k = loop /\ TcpClient.name_ k = name /\ connection_ k = None /\ next_conn_id_ k = 0 /\
    connect_ k = false) by done.
  revert H. generalize (new_client (V := V) loop name). induction os as [|o os IH]; intros k H; [done|].
  apply IH. by destruct o.
Qed.

Section ClientTheorems.
Context `{EFD : EventFd} {W P T V : Type}.
Abbreviation C := (Work T).
Context `{PB : !PollerBase P (Closure C)} {PL : PollerLaws P (Closure C)}.
Context `{LW : !LoopWorld W P C} `{CW : !ConnWorld W (Callback V)}.
Context `{SK : !SocketKernel W} `{SC : !Socket.SocketCalls W} `{KW : !ClientWorld W V}.
Context {KL : ClientLaws W P T V} {KK : ClientKernel W V}.
Context (user : V -> ConnId -> W -> outcome W) (user_task : T -> W -> outcome W).
Context (tid : Z) (loop : LoopId) (name : string) (os : list (client_option V)).

Abbreviation watch w := (watched (F := Closure C) (poller_ (get_loop w))).
Abbreviation k0 := (configured loop name os).
Abbreviation cfg := (mkConfig (connection_callback_ k0) (message_callback_ k0)).
Context {UL : ClientUser (user := user) (tid := tid) (cfg := cfg)}.

Create Rewrite HintDb client_world.
#[local] Hint Rewrite client_at_client connector_at_connector client_at_connector
  connector_at_client loop_at_client channels_at_client loop_at_connector channels_at_connector
  : client_world.

Definition start_client (w : W) : outcome W :=
  let w := make_TcpClient loop name w in
  let! k := deref_client w in
  connect tid (put_client (Some (foldl set_option k os)) w).

(** A loop without work on its own thread; a client without the two callbacks
    that are queued; sockets can be had. *)
Record ready_to_connect (w : W) : Prop := {
  rc_thread : on_thread tid w;
  rc_self : self (get_loop w) = loop;
  rc_poller : poller_inv (poller_ (get_loop w)) (get_channels w);
  rc_tasks : task_queue_ (get_loop w) = [];
  rc_complete : write_complete_callback_ k0 = None;
  rc_water : high_water_mark_callback_ k0 = None;
  rc_sockets : descriptors_left (W := W) (V := V);
}.

Abbreviation client_run := (client_run user user_task tid).
Abbreviation pass := (pass user user_task tid).

(** The client as it is made. *)
Lemma configured_lives w0 : ready_to_connect w0 ->
  let w := put_client (Some k0) (make_TcpClient loop name w0) in lives tid cfg (watch w0) k0 w /\
    phase_of k0 (get_connector w) = GaveUp.
Proof.
  intros [Ht Hself Hp Hq Hwc Hhw Hfds] w. unfold on_thread in Ht.
  destruct (configured_kept loop name os) as (Hloop & _ & Hconn & _ & _).
  unfold w, make_TcpClient. split; [|unfold phase_of; autorewrite with client_world; by rewrite Hconn].
  split; [split|..]; unfold on_thread; autorewrite with client_world; try done; [by rewrite Hself| |].
  - split; [split|]; try done. cbn. lia.
  - by rewrite Hconn.
Qed.

Lemma start_lives w0 : ready_to_connect w0 ->
  exists w1 k p, start_client w0 = Ok w1 /\ lives tid cfg (watch w0) k w1 /\ retry_ k = retry_ k0 /\
    attempted true p /\ status_of k (get_connector w1) = (retry_ k0, true, p).
Proof.
  intros Hr. destruct (configured_lives w0 Hr) as [Hl Hph].
  destruct (connect_handled tid cfg (watch w0) (rc_sockets _ Hr) _ _ Hl Hph)
    as (w1 & E & Hl1 & Hc1 & Hat & _).
  exists w1, (set_connect true k0), (phase_of (set_connect true k0) (get_connector w1)).
  split_and!; [|done..|].
  - unfold start_client, make_TcpClient, deref_client. autorewrite with client_world.
    cbn [mbind outcome_bind]. exact E.
  - unfold status_of, again. cbn [retry_ connect_ set_connect]. by rewrite andb_true_r, Hc1.
Qed.



(** C14: a client comes back.  In any reachable state of a client whose attempts the
    kernel goes on with: one that is to connect again starts an attempt in the
    very pass in which it reads the end of file of its connection; one that
    waits starts it when the timer fires, even if it was stopped; one with nothing
    under way starts it when [connect] is called; and when an attempt succeeds, the
    client is up in that pass. *)
Theorem client_comes_back w0 w1 w2 : ready_to_connect w0 -> start_client w0 = Ok w1 ->
  client_run (watch w0) (fun _ => True) w1 w2 -> attempts_proceed (W := W) (V := V) ->
  (forall s conn mask, life w2 = Some (true, s, Up conn) -> enabled (watch w0) w2 (Ready mask) ->
     arriving conn mask w2 = Some (ReadOk []) ->
     exists w3, pass (Ready mask) w2 = Ok w3 /\ life w3 = Some (true, true, Trying)) /\
  (forall b s, life w2 = Some (b, s, Waiting) ->
     exists w3, pass RetryTimer w2 = Ok w3 /\ life w3 = Some (b, s, Trying)) /\
  (forall b s, life w2 = Some (b, s, GaveUp) ->
     exists w3, pass Connect w2 = Ok w3 /\ life w3 = Some (retry_ k0, true, Trying)) /\
  (forall b s fd, life w2 = Some (b, s, Trying) -> Connector.socket_ (get_connector w2) = Some fd ->
     (Socket.getSocketError fd w2).1 = 0 -> enabled (watch w0) w2 Writable ->
     exists w3 conn, pass Writable w2 = Ok w3 /\ life w3 = Some (b, s, Up conn)).
Proof.
  intros Hr E1 Hrun Hgo. destruct (start_lives w0 Hr) as (w1' & k1 & p & E1' & Hl1 & Hr1 & _).
  rewrite E1 in E1'. injection E1' as <-. pose proof (rc_sockets _ Hr) as Hfds.
  destruct (lives_run_any user user_task tid cfg (watch w0) Hfds k1 w1 w2 Hl1 Hrun)
    as (k & Hl & Hrk & _). rewrite Hr1 in Hrk. rewrite (lives_life _ _ _ _ _ Hl). split_and!.
  - intros s conn mask [= Hag _ Hph] Hen Hin. eapply (end_of_file _ _ _ cfg (watch w0)); try done.
    revert Hph. unfold phase_of. destruct (connection_ k); [by intros [= ->]|].
    by destruct (Connector.state_ (get_connector w2)), (Connector.retry_timers (get_connector w2)).
  - intros b s [= <- <- Hph]. by eapply (retry_fires _ _ _ cfg (watch w0)).
  - intros b s [= _ _ Hph]. rewrite <- Hrk. by eapply (connect_starts _ _ _ cfg (watch w0)).
  - intros b s fd [= <- <- Hph] Hso Herr Hwel. by eapply (attempt_succeeds _ _ _ cfg (watch w0)).
Qed.
End ClientTheorems.
