(* ===== verification/RunClient.v ===== *)
(** * RunClient: a client of the benchmark, from its constructor on

    The body of the loop in [worker_thread] of benchmark/echo_bench.cpp: a
    TcpClient with the two callbacks of EchoBench.v, connected in the worker's
    loop.  The callbacks keep the promises of ClientConn.v, so what ClientLife.v
    proves of every client holds of this one.  The other clients of the worker are
    not in this world. *)
From Stdlib Require Import ZArith Lia List String.
From stdpp Require Import base option list numbers gmap relations strings pretty tactics.
From S2P Require Import Prelude.
From S2P Require Import Buffer.
From S2P Require Import Channel.
From S2P Require Import PollerBase.
From S2P Require Import EventLoop.
From S2P Require Import InetAddress.
From S2P Require Socket.
From S2P Require Import TcpConnection.
From S2P Require Import ConnEvents.
From S2P Require Connector.
From S2P Require Import TcpClient.
From S2P Require EchoBench.
From S2P Require Import ClientConn.
From S2P Require Import ClientLife.
From S2P Require Poller.
Open Scope Z_scope.
Open Scope outcome_scope.

Abbreviation Stats := EchoBench.Stats.

(** The counters are no concern of the client and its connector. *)
Class ClientStats (W V : Type) `{KW : !ClientWorld W V} `{AW : !AppWorld W Stats} : Prop := {
  client_put_app : forall a (w : W), get_client (put_app a w) = get_client w;
  connector_put_app : forall a (w : W), get_connector (put_app a w) = get_connector w;
}.

Section RunClient.
Context `{EFD : EventFd} {W P T : Type}.
Abbreviation C := (Work T).
Abbreviation U := (Callback bool).
Context `{PB : !PollerBase P (Closure C)} {PL : PollerLaws P (Closure C)}.
Context `{LW : !LoopWorld W P C} `{CW : !ConnWorld W U}.
Context `{SK : !SocketKernel W} `{SC : !Socket.SocketCalls W} `{KW : !ClientWorld W bool}.
Context {KL : ClientLaws W P T bool} {KK : ClientKernel W bool}.
Context `{AW : !AppWorld W Stats} {AL : AppLaws W P C U Stats} {KS : ClientStats W bool}.
Context (user_task : T -> W -> outcome W) (tid : Z) (payload : list byte).

(** The closures given to [setConnectionCallback] and [setMessageCallback]. *)
Definition worker_callback (f : bool) (conn : ConnId) (w : W) : outcome W :=
  if f then EchoBench.connection_callback ConnWork no_callback payload tid conn w
  else EchoBench.message_callback ConnWork no_callback payload tid conn w.

Abbreviation public := (public (user := worker_callback) (tid := tid)).

Lemma public_stats f conn w : public conn w (EchoBench.on_stats f w).
Proof.
  unfold EchoBench.on_stats. apply public_own.
  - apply client_put_app.
  - apply connector_put_app.
  - apply loop_put_app.
  - apply channels_put_app.
  - apply conn_put_app.
Qed.

(** [conn->send(payload)] and its counters. *)
Lemma send_counted_public conn w w' :
  (let! w := TcpConnection.send ConnWork (no_callback tid) tid conn payload w in
   Ok (EchoBench.on_stats (EchoBench.count_sent (Zlen payload)) w)) = Ok w' ->
  rtc (public conn) w w'.
Proof.
  intros E. inv_ok. eapply rtc_l; [|apply rtc_once, public_stats].
  apply (public_send _ _ payload). rewrite <- Ha. apply send_callbacks.
Qed.

Context {cfg : config bool}.
Abbreviation ours := (ours (tid := tid) (cfg := cfg)).

Lemma send_returns conn (w : W) c ch : ours conn w c ch -> Zlen (buffer_ (send_buffer_ c)) < 2 ^ 62 ->
  Zlen payload < 2 ^ 62 ->
  exists w', TcpConnection.send ConnWork (no_callback tid) tid conn payload w = Ok w'.
Proof.
  intros Ho Hroom Hpay. pose proof (our_base _ _ _ _ Ho) as Hb.
  destruct (decide (state_ c = Connected)) as [Hs|Hs].
  - rewrite (send_connected ConnWork no_callback tid conn w c ch payload Hb Hs).
    destruct (sendInLoop_grows ConnWork tid conn w c ch
      (content (send_buffer_ c)) (2 ^ 62) payload Hb)
      as (w' & _ & _ & _ & E & _); [apply fine_refines; [apply Ho|done]|lia|by exists w'].
  - exists w. unfold TcpConnection.send, when_connected, deref_conn.
    rewrite (ok_conn _ _ _ _ _ Hb). cbn [mbind outcome_bind]. by rewrite decide_False.
Qed.

Lemma ours_stats f conn (w : W) c ch : ours conn w c ch -> ours conn (EchoBench.on_stats f w) c ch.
Proof.
  intros Ho. unfold EchoBench.on_stats.
  eapply ours_frame; [exact Ho|apply loop_put_app|apply channels_put_app|apply conn_put_app].
Qed.

Lemma worker_user : Zlen payload < 2 ^ 62 ->
  ClientUser (user := worker_callback) (tid := tid) (cfg := cfg).
Proof.
  intros Hpay. split.
  - intros [] conn w c ch w' Ho E; unfold worker_callback in E; revert E.
    + unfold EchoBench.connection_callback. intros E. inv_ok. destruct (connected a); [|by inv_ok].
      eapply rtc_l; [apply public_stats|by apply send_counted_public].
    + unfold EchoBench.message_callback. intros E. inv_ok. unfold deref_conn in Ha.
      rewrite (ok_conn _ _ _ _ _ (our_base _ _ _ _ Ho)) in Ha. injection Ha as <-.
      eapply rtc_l; [apply public_stats|]. eapply rtc_l.
      * apply (public_receive _ _ c (retrieveAll (receive_buffer_ c))).
        -- unfold EchoBench.on_stats. rewrite conn_put_app. apply (our_base _ _ _ _ Ho).
        -- eapply refines_fine, refines_retrieveAll.
           apply (fine_refines _ (Zlen (buffer_ (receive_buffer_ c)) + 1)); [apply Ho|lia].
      * destruct (negb _); [by apply send_counted_public|by inv_ok].
  - intros [] conn w c ch Ho [Hr1 Hr2]; unfold worker_callback.
    + unfold EchoBench.connection_callback, deref_conn.
      rewrite (ok_conn _ _ _ _ _ (our_base _ _ _ _ Ho)). cbn [mbind outcome_bind].
      destruct (connected c); [|by exists w].
      destruct (send_returns conn _ c ch (ours_stats EchoBench.count_active _ _ _ _ Ho) Hr2 Hpay) as [w' ->].
      by eexists.
    + unfold EchoBench.message_callback, deref_conn.
      rewrite (ok_conn _ _ _ _ _ (our_base _ _ _ _ Ho)). cbn [mbind outcome_bind].
      destruct (negb _); [|by eexists].
      set (c1 := set_receive_buffer _ c). set (w1 := put_conn conn c1 _).
      assert (Ho1 : ours conn w1 c1 ch).
      { apply (ours_put _ _ _ _ _ (ours_stats (EchoBench.count_received
          (readableBytes (receive_buffer_ c))) _ _ _ _ Ho)); try done; [|apply Ho].
        eapply refines_fine, refines_retrieveAll, (fine_refines _ (2 ^ 62)); [apply Ho|done]. }
      destruct (send_returns conn w1 c1 ch Ho1 Hr2 Hpay) as [w' ->]. by eexists.
Qed.
End RunClient.

(** ** A life without [setRetry] and left to itself *)
Lemma life_off x y : rtc life_event x y -> x.1.1 = false -> y.1.1 = false /\ y.1.2 = x.1.2.
Proof.
  induction 1 as [|x y z H _ IH]; [done|].
  destruct H; cbn in *; intros Hb; try discriminate; by apply IH.
Qed.

Lemma closed_stays x y : rtc life_event x y -> x.2 = Closed -> y = x.
Proof. induction 1 as [|x y z H _ IH]; [done|]. by destruct H. Qed.

Section WorkerClient.
Context `{EFD : EventFd} {W P T : Type}.
Abbreviation C := (Work T).
Context `{PB : !PollerBase P (Closure C)} {PL : PollerLaws P (Closure C)}.
Context `{LW : !LoopWorld W P C} `{CW : !ConnWorld W (Callback bool)}.
Context `{SK : !SocketKernel W} `{SC : !Socket.SocketCalls W} `{KW : !ClientWorld W bool}.
Context {KL : ClientLaws W P T bool} {KK : ClientKernel W bool}.
Context `{AW : !AppWorld W Stats} {AL : AppLaws W P C (Callback bool) Stats}.
Context {KS : ClientStats W bool}.
Context (user_task : T -> W -> outcome W) (tid : Z) (loop : LoopId).
Context (config : EchoBench.ClientConfig).

(** [payload(config.message_size, 'H')]. *)
Definition payload : list byte :=
  replicate (Z.to_nat (EchoBench.message_size config)) Byte.x48.

(** ["W" + std::to_string(thread_idx) + "-C" + std::to_string(i)]. *)
Definition client_name (i : Z) : string :=
  "W" +:+ pretty (EchoBench.thread_idx config) +:+ "-C" +:+ pretty i.

(** One turn of the loop that makes the clients. *)
Definition client_options : list (client_option bool) := [OnConnection true; OnMessage false].
Definition add_client (i : Z) (w : W) : outcome W :=
  start_client tid loop (client_name i) client_options w.

Abbreviation user := (worker_callback tid payload).
Abbreviation client_run := (client_run user user_task tid).
Abbreviation pass := (pass user user_task tid).
Abbreviation watch w := (watched (F := Closure C) (poller_ (get_loop w))).

End WorkerClient.
