(* ===== verification/ClientDemo.v ===== *)
(** * ClientDemo: a client that runs

    A concrete worker's client of RunClient.v over the poll poller, through an
    attempt, a message and the end of file; the witnesses of ClientLife.v and
    RunClient.v. *)
From Stdlib Require Import ZArith Lia List String.
From stdpp Require Import base option list numbers gmap relations strings pretty tactics.
From S2P Require Import Prelude.
From S2P Require Import Buffer.
From S2P Require Import Channel.
From S2P Require Import PollerBase.
From S2P Require Import EventLoop.
From S2P Require Import InetAddress.
From S2P Require Socket.
From S2P Require Import TcpConnection.
From S2P Require Import ConnEvents.
From S2P Require Connector.
From S2P Require Import TcpClient.
From S2P Require EchoBench.
From S2P Require Import ClientConn.
From S2P Require Import ClientLife.
From S2P Require Import RunClient.
From S2P Require Poller.
Open Scope Z_scope.
Open Scope outcome_scope.

(** ** A worker's client over the poll poller

    The kernel's attempts are in progress and succeed on descriptor 9, which
    delivers the pieces [dw_reads] and then the end of file. *)
Record DemoWorker := mkDemoWorker {
  dw_loop : EventLoop Poller.Poller (Work unit);
  dw_channels : Store (Closure (Work unit));
  dw_conns : gmap ConnId (TcpConnection (Callback bool));
  dw_client : option (TcpClient bool);
  dw_connector : Connector.Connector;
  dw_wire : gmap Z (list byte);
  dw_reads : list (list byte);
  dw_stats : Stats;
}.

#[global] Instance demo_worker_loop : LoopWorld DemoWorker Poller.Poller (Work unit) := {
  get_loop := dw_loop;
  put_loop lp w := mkDemoWorker lp (dw_channels w) (dw_conns w) (dw_client w) (dw_connector w)
    (dw_wire w) (dw_reads w) (dw_stats w);
  get_channels := dw_channels;
  put_channels st w := mkDemoWorker (dw_loop w) st (dw_conns w) (dw_client w) (dw_connector w)
    (dw_wire w) (dw_reads w) (dw_stats w);
}.
#[global] Instance demo_worker_conns : ConnWorld DemoWorker (Callback bool) := {
  get_conn conn w := dw_conns w !! conn;
  put_conn conn c w := mkDemoWorker (dw_loop w) (dw_channels w) (<[conn := c]> (dw_conns w))
    (dw_client w) (dw_connector w) (dw_wire w) (dw_reads w) (dw_stats w);
  drop_conn conn w := mkDemoWorker (dw_loop w) (dw_channels w) (delete conn (dw_conns w))
    (dw_client w) (dw_connector w) (dw_wire w) (dw_reads w) (dw_stats w);
}.
#[global] Instance demo_worker_kernel : SocketKernel DemoWorker := {
  sys_write fd data w := (WriteOk (Zlen data), mkDemoWorker (dw_loop w) (dw_channels w) (dw_conns w)
    (dw_client w) (dw_connector w) (<[fd := default [] (dw_wire w !! fd) ++ data]> (dw_wire w)) (dw_reads w)
    (dw_stats w));
  sys_read fd cap w :=
    match dw_reads w with
    | data :: reads => (ReadOk (take (Z.to_nat cap) data), mkDemoWorker (dw_loop w) (dw_channels w)
        (dw_conns w) (dw_client w) (dw_connector w) (dw_wire w) reads (dw_stats w))
    | [] => (ReadOk [], w)
    end;
  load_bytes _ _ _ := None;
}.
#[global] Instance demo_worker_calls : Socket.SocketCalls DemoWorker := {
  Socket.sys_setsockopt _ _ _ _ w := (None, w);
  Socket.sys_bind _ _ w := (None, w);
  Socket.sys_listen _ _ w := (None, w);
  Socket.sys_connect _ _ w := (None, w);
  Socket.sys_accept4 _ w := (-1, mkSockaddr 0 0 0, w);
  Socket.sys_getsockname _ _ := None;
  Socket.sys_getpeername _ _ := Some (mkSockaddr 2 80 0);
  Socket.sys_getsockopt_error _ w := (inr 0, w);
  Socket.sys_shutdown _ _ w := (None, w);
  Socket.sys_close _ w := w;
}.
#[global] Instance demo_worker_world : ClientWorld DemoWorker bool := {
  get_client := dw_client;
  put_client k w := mkDemoWorker (dw_loop w) (dw_channels w) (dw_conns w) k (dw_connector w)
    (dw_wire w) (dw_reads w) (dw_stats w);
  get_connector := dw_connector;
  put_connector c w := mkDemoWorker (dw_loop w) (dw_channels w) (dw_conns w) (dw_client w) c
    (dw_wire w) (dw_reads w) (dw_stats w);
  next_attempt w := (Connector.mkAttempt 9 Connector.EINPROGRESS, w);
  allocate _ := (1, 20);
}.
#[global] Instance demo_worker_stats : AppWorld DemoWorker Stats := {
  get_app := dw_stats;
  put_app s w := mkDemoWorker (dw_loop w) (dw_channels w) (dw_conns w) (dw_client w)
    (dw_connector w) (dw_wire w) (dw_reads w) s;
}.

#[global] Instance demo_worker_loop_laws : LoopWorldLaws DemoWorker Poller.Poller (Work unit).
Proof. by split. Qed.

#[global] Program Instance demo_worker_conn_laws :
    ConnLaws DemoWorker Poller.Poller (Work unit) (Callback bool) := {
  wire fd w := default [] (dw_wire w !! fd);
}.
Next Obligation. intros conn conn' c w. cbn. rewrite lookup_insert. repeat case_decide; congruence. Qed.
Next Obligation. done. Qed.
Next Obligation. done. Qed.
Next Obligation. done. Qed.
Next Obligation. done. Qed.
Next Obligation. done. Qed.
Next Obligation. done. Qed.
Next Obligation. done. Qed.
Next Obligation.
  intros fd data w r w' H. cbn in H. injection H as <- <-. pose proof (Zlen_nonneg data).
  split_and!; try done. cbn. rewrite lookup_insert_eq. cbn. by rewrite ztake_ge by lia.
Qed.
Next Obligation.
  intros fd cap w r w' H0 H. cbn in H. destruct (dw_reads w) as [|data reads]; injection H as <- <-.
  - by split_and!.
  - split_and!; try done. by apply ztake_take_le.
Qed.
Next Obligation. done. Qed.

#[global] Instance demo_worker_client_laws : ClientLaws DemoWorker Poller.Poller unit bool.
Proof. split; try apply _; done. Defined.
#[global] Instance demo_worker_kernel_laws : ClientKernel DemoWorker bool.
Proof. split; [done|]. intros fd cap w. cbn. by destruct (dw_reads w). Qed.
#[global] Instance demo_worker_app_laws :
  AppLaws DemoWorker Poller.Poller (Work unit) (Callback bool) Stats.
Proof. split; try done; intros; cbn; by destruct (dw_reads w). Qed.
#[global] Instance demo_worker_stats_laws : ClientStats DemoWorker bool.
Proof. by split. Qed.

(** The worker's loop on thread 7, before the client is made. *)
Definition demo_config : EchoBench.ClientConfig :=
  EchoBench.mkClientConfig "127.0.0.1" 80 1 5 1 0.
Definition demo_before : DemoWorker :=
  mkDemoWorker (mkEventLoop 0 true false false 7 Poller.make_Poller [] 4 0%nat 10 [])
    ∅ ∅ None (Connector.make_Connector true) ∅ [hello_bytes] (EchoBench.mkStats 0 0 0 0 0 false).

Definition no_task (t : unit) (w : DemoWorker) : outcome DemoWorker := Ok w.
Abbreviation demo_callback := (worker_callback 7 (payload demo_config)).
Abbreviation demo_pass := (pass demo_callback no_task 7).
Abbreviation demo_watch w := (watched (F := Closure (Work unit)) (poller_ (get_loop w))).

(** The attempt succeeds; the echo arrives; the end of file. *)
Definition demo_occurrences : list occurrence := [Writable; Ready POLLIN; Ready POLLIN].

(** The world after some passes, of a client with the options [os]. *)
Definition demo_after (os : list (client_option bool)) (l : list occurrence) : DemoWorker :=
  foldl (fun w o => match demo_pass o w with Ok w => w | _ => demo_before end)
    (match start_client 7 0 (client_name demo_config 0) os demo_before with
     | Ok w => w | _ => demo_before end) l.
Definition demo_world (os : list (client_option bool)) (n : nat) : DemoWorker :=
  demo_after os (take n demo_occurrences).
Definition demo_retry : list (client_option bool) := Retry true :: client_options.

Example demo_lives :
  ((fun n => life (demo_world client_options n)) <$> [0; 1; 2; 3]%nat
   = [Some (false, true, Trying); Some (false, true, Up 1); Some (false, true, Up 1);
      Some (false, true, Closed)]) /\
  ((fun n => life (demo_world demo_retry n)) <$> [0; 1; 2; 3]%nat
   = [Some (true, true, Trying); Some (true, true, Up 1); Some (true, true, Up 1);
      Some (true, true, Trying)]).
Proof. split; by vm_compute. Qed.

(** The user stops an attempt, connects, and stops again with the connection up. *)
Example demo_calls : (fun l => life (demo_after demo_retry l)) <$>
    [[Stop]; [Stop; Connect]; [Stop; Connect; Writable]; [Stop; Connect; Writable; Stop];
     [Stop; Connect; Writable; Stop; Ready POLLIN; Ready POLLIN]]
  = [Some (false, false, GaveUp); Some (true, true, Trying); Some (true, true, Up 1);
     Some (false, false, Up 1); Some (false, false, GaveUp)].
Proof. by vm_compute. Qed.

(** ** The hypotheses of the theorems hold *)
Lemma demo_user cfg :
  ClientUser (P := Poller.Poller) (T := unit) (user := demo_callback) (tid := 7) (cfg := cfg).
Proof. by apply (worker_user (KL := demo_worker_client_laws) (AL := demo_worker_app_laws)). Qed.

Lemma demo_can_start os : write_complete_callback_ (configured 0 (client_name demo_config 0) os) = None ->
  high_water_mark_callback_ (configured 0 (client_name demo_config 0) os) = None ->
  ready_to_connect (P := Poller.Poller) (T := unit) 7 0 (client_name demo_config 0) os demo_before.
Proof. by split. Qed.

Definition sizes (c : TcpConnection (Callback bool)) : Z * Z :=
  (Zlen (buffer_ (receive_buffer_ c)), Zlen (buffer_ (send_buffer_ c))).

Lemma demo_enough_room w mask conn z1 z2 : (connection_ <$> dw_client w) = Some (Some conn) ->
  (sizes <$> dw_conns w !! conn) = Some (z1, z2) -> z1 < 2 ^ 60 -> z2 < 2 ^ 60 ->
  enabled (P := Poller.Poller) (T := unit) (demo_watch demo_before) w (Ready mask).
Proof.
  intros Hk Hs H1 H2 k conn' c Hk' Hc Hg. cbn in Hk', Hg. rewrite Hk' in Hk. cbn in Hk.
  rewrite Hc in Hk. injection Hk as ->. rewrite Hg in Hs. by injection Hs as <- <-.
Qed.

Lemma demo_welcome w : Connector.socket_ (dw_connector w) = Some 9 -> dw_channels w !! 20 = None ->
  enabled (P := Poller.Poller) (T := unit) (demo_watch demo_before) w Writable.
Proof.
  intros Hs Hc fd Hfd. cbn in Hfd. rewrite Hs in Hfd. injection Hfd as <-.
  split_and!; [done|done|]. by exists 1, 20, (mkSockaddr 2 80 0).
Qed.

Abbreviation demo_run := (client_run (P := Poller.Poller) demo_callback no_task 7 (demo_watch demo_before) (fun _ => True)).

Lemma demo_up : demo_run (demo_world demo_retry 0) (demo_world demo_retry 1).
Proof.
  apply rtc_once. apply (step_pass _ _ _ _ _ _ _ Writable); [done| |by vm_compute].
  apply demo_welcome; by vm_compute.
Qed.

Lemma demo_received : demo_run (demo_world demo_retry 0) (demo_world demo_retry 2).
Proof.
  apply (rtc_r _ (demo_world demo_retry 1)); [exact demo_up|].
  apply (step_pass _ _ _ _ _ _ _ (Ready POLLIN)); [done| |by vm_compute].
  apply (demo_enough_room _ _ 1 1032 1032); by vm_compute.
Qed.

Lemma demo_closed : demo_run (demo_world demo_retry 0) (demo_world demo_retry 3).
Proof.
  apply (rtc_r _ (demo_world demo_retry 2)); [exact demo_received|].
  apply (step_pass _ _ _ _ _ _ _ (Ready POLLIN)); [done| |by vm_compute].
  apply (demo_enough_room _ _ 1 1032 1032); by vm_compute.
Qed.

Abbreviation demo_start := (start_client (P := Poller.Poller) 7 0 (client_name demo_config 0)).
Lemma demo_started : demo_start demo_retry demo_before = Ok (demo_world demo_retry 0).
Proof. by vm_compute. Qed.



Lemma client_comes_back_witness :
  exists w3, demo_pass (Ready POLLIN) (demo_world demo_retry 2) = Ok w3 /\ life w3 = Some (true, true, Trying).
Proof.
  pose proof (demo_user (mkConfig (Some true) (Some false))) as UL.
  destruct (client_comes_back (UL := UL) demo_callback no_task 7 0 (client_name demo_config 0)
    demo_retry demo_before (demo_world demo_retry 0) (demo_world demo_retry 2))
    as (Hback & _ & _); [by apply demo_can_start|exact demo_started|exact demo_received|done|].
  apply (Hback true 1); [by vm_compute|apply (demo_enough_room _ _ 1 1032 1032); by vm_compute|by vm_compute].
Defined.

